(* ===== verification/_CoqProject ===== *)
-Q . S2P
Prelude.v
RustStr.v
RustPath.v
Messages.v
Serde.v
FluxState.v
FluxConc.v
FluxRouting.v
FluxEnvelope.v
Net.v
Host.v
HostJwt.v
FluxAuth.v
FluxRevocation.v
FluxConfig.v
FluxServer.v
FluxBridge.v
FluxMain.v
Subnet.v
Mesh.v
MeshText.v
WgConfig.v
Ssh.v
Plan.v
Apply.v
CooldConfig.v
CooldSync.v
PodmanClient.v
SyncConc.v
CorrosionQuery.v
Firewall.v
Ingress.v
Handlers.v
StreamClient.v
Dns.v
Builder.v
CliInit.v
Agent.v
Harness.v
Hetzner.v
Examples.v
