(* ===== verification/Prelude.v ===== *)
(** * coold: a verification development

    coold is the agent Coolify runs on every managed server, flux the server the
    agents connect to, and coolify-cli the tool that provisions the servers into
    one WireGuard mesh.  Laravel (the Coolify application) sends commands to flux
    over a unix socket; flux routes each to the agent's stream, parks the request
    until the agent responds, and answers.  The command line probes the servers
    over ssh, plans the actions that take the observed mesh to the requested one,
    and applies them in phases.

    ** Files and the code they model (paths under [src/])

    - [Prelude]: Rust's [Result] and [?], machine integers, ordered maps, tactics
      and hint databases.  [RustStr]: the [str] methods the code uses, on byte
      strings.  [RustPath]: [std::path].  [Net]: IPv4 addresses and the interface
      to the [ipnet] crate ([Ipv4NetApi] with its laws, and an instance of them).
      [Host]: the machine a program runs on, as an interface of processes and
      files with laws ([HostLaws]), the error monad over it, and a machine in
      memory that satisfies them ([Host.Sim]).
      [Serde]: how derived readers take a JSON value apart.
    - flux.  [Messages]: [flux/src/envelope.rs] and the agent messages of
      [proto/agent.proto].  [FluxEnvelope]: the reader of a dispatch, every
      command with its aliases and defaults.  [FluxState]: [flux/src/state.rs], the table of
      streams and the table of pending requests, with the abstract exchange the
      latter implements.  [FluxConc]: the pending table as a transition system
      whose steps are its critical sections, so that calls interleave.
      [FluxRouting]: [flux/src/routing.rs].  [FluxAuth]: [flux/src/auth.rs] over
      an interface to the JWT library.  [FluxRevocation]:
      [flux/src/revocation.rs] with a file system in which any call may fail.
      [FluxConfig]: [flux/src/config.rs], [registry.rs], [resource_status.rs].
      [FluxServer]: the agent server of [flux/src/main.rs] (opening a stream, the
      stream task, responses, heartbeat, sweepers) as a transition system over
      the shared state.  [FluxBridge]: the HTTP handlers of
      [flux/src/unix_bridge.rs].  [FluxMain]: flux as a whole, the start and the
      joined tasks of [main] and the routes of the socket, from the bytes of a
      request to the tables.
    - coolify-cli.  [Subnet]: [wireguard/subnet.rs].  [Mesh]: [wireguard/state.rs],
      the types of [plan.rs], [meshnet.rs].  [MeshText]: every text that
      [wireguard/config.rs], [wireguard/firewall.rs] and [services/] render, byte
      for byte.  [WgConfig]: the parsing of the probe in
      [wireguard/reconstruct.rs].  [Ssh]: [ssh.rs].  [Plan]:
      [wireguard/plan.rs] and [intent.rs].  [Apply]: [wireguard/apply.rs] and the
      probe.  [CliInit]: [commands/init/mod.rs], [output.rs], [services/tls.rs]:
      the four commands, from their flags to what they print.
    - coold.  [CooldConfig]: the namespace list of [coold/src/config.rs].
      [CooldSync]: [coold/src/model.rs], [sync.rs] and the client of
      [corrosion/client.rs], one reconciliation of the host's containers with the
      replicated table of endpoints and with the statuses reported through flux.
      [SyncConc]: the two tasks of [sync.rs] that reconcile, as a step relation in
      which their awaited calls, the containers, the other hosts and the requests
      for a snapshot interleave.
      [CorrosionQuery]: the lookups of services and the table dump of
      [corrosion/client.rs].  [PodmanClient]: [podman/client.rs],
      [podman/events.rs], [podman/types.rs].  [HostJwt]: [grpc/host_jwt.rs].
      [Firewall], [Ingress] and [Handlers]: [grpc/handlers.rs], the rules of the
      mesh, the Caddy ingress, and the dispatch of every command.
      [StreamClient]: [grpc/client.rs], connecting, reconnecting, and one session
      as a transition system whose commands run concurrently.  [Dns]:
      [dns/resolver.rs], [dns/server.rs], [mesh_dns_anchor.rs],
      [mesh_dns_resolver.rs], [host_infra.rs].  [Agent]: the agent as a whole, its
      settings ([config.rs]) and the tasks [sync.rs] starts and watches ([run]).
    - [Builder]: [builder-core/], [builder/src/main.rs] and the agent's side of a
      build, [coold/src/builder/mod.rs].
    - Around the programs.  [Harness]: [e2e-tests/src/lib.rs] and [install.rs], the
      settings, the polling and the ssh helpers of the suites that run on real
      servers.  [Hetzner]: [e2e-tests/src/hetzner.rs] and the sweeper of
      [e2e-tests/tests/install.rs], over any machine with the list of the calls it
      made ([Traced]).  [Examples]: [flux/examples/sign_jwt.rs] and
      [examples/fake_flux.rs].

    The components meet in interfaces: the agent's session is proved against any
    [CommandHandler], of which [Handlers.handle] is one; what the agent says is
    checked by [FluxServer.accept] and what it is sent comes from
    [FluxRouting.route_coold] ([StreamClient.flux_and_agent_agree]); the table
    [CooldSync] writes is the one [Dns] answers from ([Dns.dns_after_reconcile]);
    the unit [CliInit] and [MeshText] render is what [StreamClient] dials
    ([CliInit.agent_asks_for_certified_name]) and what [Agent] reads its settings
    from ([Agent.agent_reads_its_unit]); a request of Laravel goes through
    [FluxEnvelope], [FluxBridge], [FluxRouting] and [FluxServer] and back
    ([FluxMain.request_is_answered]).

    ** What the theorems show

    - Authorization: in every reachable state of the agent server the request
      that opened a registered stream had a verified token of that host
      ([FluxServer]), commands only leave towards hosts whose token allows them,
      tokens are accepted only under the stated conditions ([FluxAuth]), a
      revocation takes effect at once ([FluxBridge]), survives restarts
      ([FluxRevocation]), and so a token revoked over the socket stays out until
      the expiry given with it, unless the revocation is lifted ([FluxMain]).
    - Requests: in every interleaving each parked handler is answered or dropped
      exactly once, only with a response to its own request, and none is lost
      ([FluxConc]); one call after another, the table implements an abstract
      exchange, and refuses to open one when it is full ([FluxState]); the dispatch endpoint is characterised on every
      branch and end to end ([FluxBridge]); every command can be asked for and is
      read as the one its tag names ([FluxEnvelope]); a request reaches no further
      than its route, and a well-formed one is answered with the agent's response
      ([FluxMain]).
    - Allocation: addresses and subnets are inside their pool, of the right size,
      pairwise disjoint, kept when they can be, and found whenever there is room
      ([Subnet]).
    - Provisioning: what is rendered is read back ([WgConfig]); planning returns
      (for a pool that does not end at the top of the address space and keys that
      are ASCII), and is empty on a mesh that is as requested, with pinned versions
      ([Plan]); intents hold back what
      they should; applying runs nothing but the plan, stops when a host is not
      ready, and reports success only when the plan has been carried out
      ([Apply]).
    - Synchronisation: the agent runs with the settings the command line rendered
      ([CooldConfig], [Agent]); a reconciliation that succeeds leaves in the
      replicated table what Podman reports, as a predicate apart from the code says
      it ([CooldSync.reported]), and the agent's DNS answers with what of that is
      running and healthy ([Dns]); the steps of a run left alone are that
      reconciliation, and the two tasks that reconcile together make the table
      right once the containers stop changing and no inspection fails, and do not
      contradict each other in what they report while no report is taken only in
      part ([SyncConc]).
    - Supervision: a task of the agent that ends, ends the agent
      ([Agent.ended_task_ends_agent]); flux ends only for the stated reasons
      ([FluxMain.flux_ends_why]).
    - The agent's stream: every command is answered once, with its own id and
      type, in every interleaving ([Handlers], [StreamClient]); the connection
      matches the pin, the delays between attempts are exact, and flux sends
      exactly the commands the token allows ([StreamClient]).
    - Commands: a container is created only within the filter, and the event
      stream does not depend on how it is cut ([PodmanClient]); a firewall rule
      that was allowed or revoked is so in the file and in the kernel, when its
      fields are words ([Firewall]); an ingress configuration is installed whole ([Ingress]); a
      rotated token is the one used next, and a failed rotation changes nothing
      ([HostJwt], with the base64 decoder equal to that of RFC 4648 on the lengths
      the RFC has); names cannot
      add to a statement ([CorrosionQuery]).
    - The command line: the desired mesh is well formed, [plan] touches nothing,
      [upgrade] only installs, success means the plan was carried out, and the
      tables are aligned ([CliInit]).
    - Builds: the outcome of a build is what the agent reads, from the frames and
      from the file that is left, and a request cannot add to the file an image is
      built from ([Builder]).
    - Suites on real servers: whatever step fails, every server an answer named is
      deleted, but for a last one without an address, and nothing else is, the search for a key covers every page, and polling
      ends ([Hetzner], [Harness]).
    - Where the code does not do what it means to, a theorem states what it does:
      [FluxServer.any_host_answers], [FluxServer.stale_exit_unregisters_live_stream],
      [FluxRevocation.revocation_leeway_gap], [Plan.unwanted_peer_stays],
      [Apply.Demo.new_namespace_not_routed], [Subnet.Demo.allocate_top_of_space],
      [CooldSync.resync_forgets_removals], [Ssh.node_port_dropped],
      [CliInit.renewed_certificate_stays_home],
      [CliInit.confirmation_changes_nothing], [CliInit.ipv6_san_breaks_url],
      [StreamClient.ipv6_domain_is_cut], [Firewall.reallow_keeps_old_rule],
      [Firewall.concurrent_allows_lose_a_rule], [Firewall.crafted_id_injects_line],
      [Ingress.rejected_apps_stay], [Ingress.revoke_cuts_ingress],
      [Dns.capital_name_unresolvable], [Dns.later_failure_unnoticed],
      [Builder.requested_ref_ignored], [HostJwt.Demo.token_without_subject_installed],
      [SyncConc.Demo.overtaken_run_undoes],
      [SyncConc.Demo.failed_inspection_drops_row],
      [SyncConc.Demo.dual_attachment_is_random],
      [SyncConc.Demo.partial_report_lingers], [FluxAuth.no_audience_accepted],
      [HostJwt.stray_character_accepted], [Plan.Demo.cut_key_panics],
      [FluxMain.Demo.zero_heartbeat_panics],
      [Hetzner.Demo.server_without_address_leaks],
      [Examples.SignJwt.example_token_is_refused],
      [Examples.SignJwt.default_capabilities_miss].

    ** Modelling choices

    Integers are [Z] with their width written out.  Strings are byte strings, as
    Rust's are; the white space [trim] removes is Unicode's.  A [HashMap] or
    [BTreeMap] is a [gmap]; iteration over a [BTreeMap] is in key order, and the
    order in which a [HashMap] is walked is a parameter where it shows
    ([CooldSync.walk]).  Errors
    are values of [result]; a panic or a loop that never ends is [None].  Time is
    an argument.  Library code is a parameter with the behaviour the code relies
    on as named laws, each with an instance: the JWT library, the JSON parser, the
    file format of the denylist, [ipnet], SHA-256, base64, the ssh connection,
    Podman, the HTTP interface of Corrosion, the JSON extractor of the web
    framework ([JsonExtractorLaws]), the lower-casing of [str]; and for the agent
    the machine it runs on ([HostLaws], and where a theorem needs that reading does
    not fail, [HostReads]), the packet filter for the commands the agent runs
    ([KernelLaws]), [serde_json] ([SerdeLaws]), percent encoding ([PercentLaws]),
    DNS names ([DnsNameLaws]), the lookup of services ([LookupLaws]), requests
    that are not answered ([LostLaws]), the service manager, for values without
    quotes and specifiers ([SystemdLaws]), and
    [git] ([GitLaws]).  What one program runs concurrently is a step relation; what it
    runs in sequence is a function of the world before.

    Loops.  The search for a free block is given one more step than there are
    blocks in use; [Subnet.search_returns] proves that enough for every pool that
    does not end at the top of the address space, and [Subnet.search_loops] that
    where it is not, no amount of steps is.  Polling a command in a container ends
    after the 1200 attempts the code has.  Loops that never end by themselves
    (reconnecting, serving a gateway, waiting for an adopted build) are unrolled
    any number of turns, and the theorems hold for every number.  The polls of the
    test harness and the pages of a listing are given fuel, and a run that needs
    more is told from one that has ended; [Harness.poll_returns] and
    [Hetzner.find_key_returns] say how much is enough.

    ** Not modelled

    When the timers of the task loops fire (any moment will do), the text of
    durations ([humantime]), the DNS wire format and forwarder ([hickory]), key
    generation and signatures ([rcgen]), and the splitting of a command line into
    arguments ([clap]).  Logging, HTTP and gRPC themselves, generated code, and the
    assertions of the test suites are left out. *)

From stdpp Require Export base tactics option list strings gmap fin_maps sorting.
From Stdlib Require Export ZArith Lia Ascii.

(* ------------------------------------------------------------------ *)
(** ** Rust's [Result] and the [?] operator *)

Inductive result (T E : Type) : Type :=
  | Ok (v : T)
  | Err (e : E).
Arguments Ok {T E} v.
Arguments Err {T E} e.

#[export] Instance result_eq_dec {T E} `{!EqDecision T, !EqDecision E} :
  EqDecision (result T E).
Proof. solve_decision. Defined.

(** [e?] followed by the rest of the function: an error returns early. *)
Definition rbind {T U E} (r : result T E) (k : T -> result U E) : result U E :=
  match r with Ok v => k v | Err e => Err e end.

Declare Scope rust_scope.
Delimit Scope rust_scope with rust.
Notation "'let?' x ':=' e 'in' k" := (rbind e (fun x => k))
  (at level 10, x pattern, e at level 200, k at level 200,
   format "'[v' 'let?'  x  ':='  e  'in' '/' k ']'") : rust_scope.
Notation "'guard!' b 'else' err 'in' k" := (if b then k else Err err)
  (at level 10, b at level 200, err at level 200, k at level 200,
   format "'[v' 'guard!'  b  'else'  err  'in' '/' k ']'") : rust_scope.

(** [r.map_err(f)]. *)
Definition map_err {T E F} (f : E -> F) (r : result T E) : result T F :=
  match r with Ok v => Ok v | Err e => Err (f e) end.

Definition is_ok {T E} (r : result T E) : bool :=
  match r with Ok _ => true | Err _ => false end.

Lemma rbind_Ok {T U E} (r : result T E) (k : T -> result U E) u :
  rbind r k = Ok u <-> exists v, r = Ok v /\ k v = Ok u.
Proof. destruct r; simpl; naive_solver. Qed.

Lemma rbind_Err {T U E} (r : result T E) (k : T -> result U E) e :
  rbind r k = Err e <-> r = Err e \/ exists v, r = Ok v /\ k v = Err e.
Proof. destruct r; simpl; naive_solver. Qed.

Lemma map_err_Ok {T E F} (f : E -> F) (r : result T E) v : map_err f r = Ok v <-> r = Ok v.
Proof. destruct r; simpl; naive_solver. Qed.

(** Take a function that returned [Ok] apart at its [?]s. *)
Ltac r_inv H :=
  repeat match type of H with
  | rbind _ _ = Ok _ =>
      let v := fresh "v" in let H1 := fresh "Hq" in
      apply rbind_Ok in H as (v & H1 & H); try (match type of v with unit => destruct v end);
      try apply map_err_Ok in H1
  | (if ?b then _ else Err _) = Ok _ => let G := fresh "Hg" in destruct b eqn:G; [|discriminate H]
  end.

(* ------------------------------------------------------------------ *)
(** ** A text for every number, for formats of which only the round trip matters *)

Fixpoint bits (p : positive) : string :=
  match p with
  | xH => ""
  | xO q => String "0" (bits q)
  | xI q => String "1" (bits q)
  end.
Fixpoint unbits (s : string) : positive :=
  match s with
  | "" => xH
  | String c r => if decide (c = "0"%char) then xO (unbits r) else xI (unbits r)
  end.
Lemma unbits_bits p : unbits (bits p) = p.
Proof. induction p as [p IH|p IH|]; simpl; by rewrite ?IH. Qed.

(* ------------------------------------------------------------------ *)
(** ** Machine integers, kept as [Z] with their width written out *)

Definition u16_max : Z := 65535.
Definition u32_max : Z := 4294967295.
Definition u64_max : Z := 18446744073709551615.

Definition is_u16 (z : Z) : Prop := (0 <= z <= u16_max)%Z.
Definition is_u32 (z : Z) : Prop := (0 <= z <= u32_max)%Z.
Definition is_u64 (z : Z) : Prop := (0 <= z <= u64_max)%Z.

(** [u32::saturating_add], [u64::saturating_sub]. *)
Definition sat_add32 (a b : Z) : Z := Z.min (a + b) u32_max.
Definition sat_sub (a b : Z) : Z := Z.max 0 (a - b).

(* ------------------------------------------------------------------ *)
(** ** Instants and durations, in nanoseconds *)

Definition from_secs (s : Z) : Z := s * 1000000000.
(** [Instant::duration_since] saturates at zero. *)
Definition duration_since (now earlier : Z) : Z := sat_sub now earlier.

(* ------------------------------------------------------------------ *)
(** ** Lists *)

Lemma fst_pairs {A B} (b : B) (l : list A) : ((fun a => (a, b)) <$> l).*1 = l.
Proof. induction l; simpl; f_equal; auto. Qed.

Lemma pairs_snd_unique {A B} (l : list (A * B)) a a' b :
  NoDup l.*2 -> (a, b) ∈ l -> (a', b) ∈ l -> a = a'.
Proof.
  intros Hn [i Hi]%list_elem_of_lookup [j Hj]%list_elem_of_lookup.
  assert (i = j) as -> by (apply (NoDup_lookup _ i j b Hn); by rewrite list_lookup_fmap, ?Hi, ?Hj).
  congruence.
Qed.

Lemma bind_all_nil {A B} (f : A -> list B) (l : list A) :
  (forall a, a ∈ l -> f a = []) -> l ≫= f = [].
Proof.
  induction l as [|a l IH]; intros H; [done|]. cbn. rewrite H by left. apply IH. intros b Hb.
  apply H. by right.
Qed.

Lemma filter_none {A} (P : A -> Prop) `{!forall x, Decision (P x)} (l : list A) :
  Forall (fun a => ~ P a) l -> filter P l = [].
Proof. induction 1 as [|a l Ha _ IH]; [done|]. by rewrite filter_cons, decide_False. Qed.

Lemma filter_every {A} (P : A -> Prop) `{!forall x, Decision (P x)} (l : list A) :
  Forall P l -> filter P l = l.
Proof. induction 1 as [|a l Ha _ IH]; [done|]. by rewrite filter_cons, decide_True, IH. Qed.

Lemma Forall2_impl_mem {A B} (P Q : A -> B -> Prop) l k :
  Forall2 P l k -> (forall x y, x ∈ l -> P x y -> Q x y) -> Forall2 Q l k.
Proof.
  induction 1 as [|x y l k Hxy Hlk IH]; intros HPQ; constructor.
  - apply HPQ; [left|done].
  - apply IH. intros x' y' Hx. apply HPQ. by right.
Qed.

Lemma NoDup_fmap_inj_on {A B} (f : A -> B) (l : list A) x y :
  NoDup (f <$> l) -> x ∈ l -> y ∈ l -> f x = f y -> x = y.
Proof.
  intros Hn [i Hi]%list_elem_of_lookup [j Hj]%list_elem_of_lookup Hf.
  assert (i = j) as -> by (apply (NoDup_lookup _ i j (f x) Hn); rewrite list_lookup_fmap, ?Hi, ?Hj; simpl; congruence).
  congruence.
Qed.

Lemma size_list_to_set_le `{Countable A} (l : list A) :
  (size (list_to_set l : gset A) <= length l)%nat.
Proof.
  induction l as [|x l IH]; [done|]. simpl. rewrite size_union_alt, size_singleton.
  pose proof (subseteq_size ((list_to_set l : gset A) ∖ {[x]}) (list_to_set l) ltac:(set_solver)). lia.
Qed.

(* ------------------------------------------------------------------ *)
(** ** [BTreeMap] and [BTreeSet] iteration: in key order *)

Definition key_le {A} (a b : string * A) : Prop := String.le a.1 b.1.
#[export] Instance key_le_dec {A} (a b : string * A) : Decision (key_le a b).
Proof. unfold key_le. apply _. Defined.

Definition btree_list {A} (m : gmap string A) : list (string * A) :=
  merge_sort key_le (map_to_list m).
Definition btree_keys {A} (m : gmap string A) : list string := (btree_list m).*1.
Definition btree_values {A} (m : gmap string A) : list A := (btree_list m).*2.

Lemma btree_list_perm {A} (m : gmap string A) : btree_list m ≡ₚ map_to_list m.
Proof. apply merge_sort_Permutation. Qed.

Lemma elem_of_btree_list {A} (m : gmap string A) k v : (k, v) ∈ btree_list m <-> m !! k = Some v.
Proof. by rewrite btree_list_perm, elem_of_map_to_list. Qed.

Lemma NoDup_btree_keys {A} (m : gmap string A) : NoDup (btree_keys m).
Proof. unfold btree_keys. rewrite btree_list_perm. apply NoDup_fst_map_to_list. Qed.

Lemma list_to_map_btree {A} (m : gmap string A) : list_to_map (btree_list m) = m.
Proof.
  rewrite <- (list_to_map_to_list m) at 2. apply list_to_map_proper; [apply NoDup_btree_keys|].
  apply btree_list_perm.
Qed.

Definition btree_set_list (s : gset string) : list string := merge_sort String.le (elements s).

Lemma elem_of_btree_set_list (s : gset string) k : k ∈ btree_set_list s <-> k ∈ s.
Proof. unfold btree_set_list. by rewrite merge_sort_Permutation, elem_of_elements. Qed.

Lemma btree_set_list_empty (s : gset string) : s = ∅ -> btree_set_list s = [].
Proof. intros ->. reflexivity. Qed.

(* ------------------------------------------------------------------ *)
(** ** Tactics *)

(** Decide every integer comparison of the goal, dropping impossible cases. *)
Ltac zcases :=
  repeat match goal with
  | |- context [(?x <=? ?y)%Z] => destruct (Z.leb_spec x y); try lia
  | |- context [(?x <? ?y)%Z] => destruct (Z.ltb_spec x y); try lia
  | |- context [(?x =? ?y)%Z] => destruct (Z.eqb_spec x y); try lia
  end.

(** Decide a closed equation on the virtual machine, without reading values back. *)
Ltac vm_refl :=
  match goal with
  | |- @eq _ ?a _ => vm_cast_no_check (@eq_refl _ a)
  end.

(** A run whose result is known, with the world it leaves. *)
Lemma run_eta {A B} (x : A * B) a : x.1 = a -> x = (a, x.2).
Proof. by intros <-; destruct x. Qed.

(* ------------------------------------------------------------------ *)
(** ** Hints *)

(** [coold]: side conditions of the components' lemmas. *)
Create HintDb coold.
#[export] Hint Resolve NoDup_btree_keys : coold.
#[export] Hint Extern 1 (NoDup (fst <$> btree_list _)) => apply NoDup_btree_keys : coold.

(** [members]: membership in lists built by [++] and by comprehension. *)
#[export] Hint Rewrite @elem_of_app @list_elem_of_fmap : members.
