(* ===== verification/RustStr.v ===== *)
(** * Rust strings

    The [&str] and [String] operations the sources use, on byte strings
    (UTF-8, as Rust stores them).  Equality and ordering are bytewise, as in
    Rust; [trim] removes every character Unicode calls white space. *)

From S2P Require Import Prelude.
From Stdlib Require Import DecimalString DecimalN DecimalPos.
From stdpp Require Import pretty.

Local Open Scope string_scope.

(* ------------------------------------------------------------------ *)
(** ** Searching and splitting *)

Definition is_empty (s : string) : bool :=
  match s with "" => true | _ => false end.

(** [s.split_once(c)] and [s.rsplit_once(c)]. *)
Fixpoint split_once (c : ascii) (s : string) : option (string * string) :=
  match s with
  | "" => None
  | String a r =>
      if decide (a = c) then Some ("", r)
      else match split_once c r with
           | Some (h, t) => Some (String a h, t)
           | None => None
           end
  end.

Fixpoint rsplit_once (c : ascii) (s : string) : option (string * string) :=
  match s with
  | "" => None
  | String a r =>
      match rsplit_once c r with
      | Some (h, t) => Some (String a h, t)
      | None => if decide (a = c) then Some ("", r) else None
      end
  end.

(** [s.split(c)]: always at least one piece. *)
Fixpoint split (c : ascii) (s : string) : list string :=
  match s with
  | "" => [""]
  | String a r =>
      if decide (a = c) then "" :: split c r
      else match split c r with
           | p :: ps => String a p :: ps
           | [] => [String a ""]
           end
  end.

Fixpoint contains_char (c : ascii) (s : string) : bool :=
  match s with
  | "" => false
  | String a r => if decide (a = c) then true else contains_char c r
  end.

Fixpoint strip_prefix (p s : string) : option string :=
  match p, s with
  | "", _ => Some s
  | String a p', String b s' => if decide (a = b) then strip_prefix p' s' else None
  | String _ _, "" => None
  end.

Fixpoint strip_suffix (p s : string) : option string :=
  if decide (s = p) then Some ""
  else match s with
       | "" => None
       | String a r => String a <$> strip_suffix p r
       end.

Definition starts_with (p s : string) : bool :=
  match strip_prefix p s with Some _ => true | None => false end.

(** [s.contains(p)] for a string pattern. *)
Fixpoint contains_str (p s : string) : bool :=
  starts_with p s ||
  match s with "" => false | String _ r => contains_str p r end.

(** [v.join(sep)]. *)
Fixpoint join (sep : string) (l : list string) : string :=
  match l with
  | [] => ""
  | [s] => s
  | s :: l' => s +:+ sep +:+ join sep l'
  end.

(** [s.lines()]: split after each newline, then drop the newline and a
    carriage return before it. *)
Definition cr : ascii := "013"%char.
Definition nl : ascii := "010"%char.
Definition strip_cr (s : string) : string :=
  match strip_suffix (String cr "") s with Some r => r | None => s end.

Fixpoint lines_of (pieces : list string) : list string :=
  match pieces with
  | [] => []
  | [last] => if is_empty last then [] else [last]
  | p :: ps => strip_cr p :: lines_of ps
  end.
Definition lines (s : string) : list string := lines_of (split nl s).

(* ------------------------------------------------------------------ *)
(** ** White space *)

Definition ws1 (a : ascii) : bool :=
  match a with "009" | "010" | "011" | "012" | "013" | " " => true | _ => false end%char.

(** U+0085 and U+00A0. *)
Definition ws2 (a b : ascii) : bool :=
  let x := N_of_ascii a in let y := N_of_ascii b in
  (x =? 194)%N && ((y =? 133)%N || (y =? 160)%N).

(** U+1680, U+2000 to U+200A, U+2028, U+2029, U+202F, U+205F, U+3000. *)
Definition ws3 (a b c : ascii) : bool :=
  let x := N_of_ascii a in let y := N_of_ascii b in let z := N_of_ascii c in
  ((x =? 225) && (y =? 154) && (z =? 128))%N
  || ((x =? 226) && (y =? 128) &&
      (((128 <=? z) && (z <=? 138)) || (z =? 168) || (z =? 169) || (z =? 175)))%N
  || ((x =? 226) && (y =? 129) && (z =? 159))%N
  || ((x =? 227) && (y =? 128) && (z =? 128))%N.

Fixpoint trim_start (s : string) : string :=
  match s with
  | "" => ""
  | String a r1 =>
      if ws1 a then trim_start r1 else
      match r1 with
      | "" => s
      | String b r2 =>
          if ws2 a b then trim_start r2 else
          match r2 with
          | "" => s
          | String c r3 => if ws3 a b c then trim_start r3 else s
          end
      end
  end.

Definition all_ws (s : string) : bool := is_empty (trim_start s).

Fixpoint trim_end (s : string) : string :=
  if all_ws s then "" else
  match s with "" => "" | String a r => String a (trim_end r) end.

Definition trim (s : string) : string := trim_end (trim_start s).

(** [s.split_whitespace().next()]. *)
Definition starts_ws (s : string) : bool := (String.length (trim_start s) <? String.length s)%nat.
Fixpoint until_ws (s : string) : string :=
  if starts_ws s then "" else match s with "" => "" | String a r => String a (until_ws r) end.
Definition first_word (s : string) : option string :=
  let t := trim_start s in if is_empty t then None else Some (until_ws t).

(** [s.split_whitespace()]: every word takes at least one byte. *)
Fixpoint after_word (s : string) : string :=
  if starts_ws s then s else match s with "" => "" | String _ r => after_word r end.
Fixpoint words_upto (n : nat) (s : string) : list string :=
  match n with
  | O => []
  | S n' => let t := trim_start s in if is_empty t then [] else until_ws t :: words_upto n' (after_word t)
  end.
Definition split_whitespace (s : string) : list string := words_upto (String.length s) s.

(** [s.trim_end_matches(c)]. *)
Fixpoint all_char (c : ascii) (s : string) : bool :=
  match s with "" => true | String a r => bool_decide (a = c) && all_char c r end.
Fixpoint trim_end_char (c : ascii) (s : string) : string :=
  if all_char c s then "" else
  match s with "" => "" | String a r => String a (trim_end_char c r) end.

(** [s.trim_matches(c)]. *)
Fixpoint trim_start_char (c : ascii) (s : string) : string :=
  match s with "" => "" | String a r => if decide (a = c) then trim_start_char c r else s end.
Definition trim_matches_char (c : ascii) (s : string) : string := trim_end_char c (trim_start_char c s).

(** [s.ends_with(p)], and [s.trim_end_matches(p)] for a string pattern. *)
Definition ends_with (p s : string) : bool :=
  match strip_suffix p s with Some _ => true | None => false end.

Fixpoint trim_end_matches_upto (n : nat) (p s : string) : string :=
  match n with
  | O => s
  | S n' => match strip_suffix p s with
            | Some r => trim_end_matches_upto n' p r
            | None => s
            end
  end.
Definition trim_end_matches (p s : string) : string := trim_end_matches_upto (String.length s) p s.

(** The text around the first occurrence of a string pattern, and the text
    before it: the first piece of [s.split(p)]. *)
Fixpoint split_once_str (p s : string) : option (string * string) :=
  match strip_prefix p s with
  | Some r => Some ("", r)
  | None =>
      match s with
      | "" => None
      | String a r =>
          match split_once_str p r with
          | Some (h, t) => Some (String a h, t)
          | None => None
          end
      end
  end.
Definition until_str (p s : string) : string :=
  match split_once_str p s with Some (h, _) => h | None => s end.

(** [s.rsplit_once(p)]: the text around the last occurrence of a string pattern. *)
Fixpoint rsplit_once_str (p s : string) : option (string * string) :=
  match s with
  | "" => match p with "" => Some ("", "") | _ => None end
  | String a r =>
      match rsplit_once_str p r with
      | Some (h, t) => Some (String a h, t)
      | None => match strip_prefix p s with Some t => Some ("", t) | None => None end
      end
  end.

(** The text before the first character of [cs]. *)
Fixpoint until_any (cs : list ascii) (s : string) : string :=
  match s with
  | "" => ""
  | String a r => if decide (a ∈ cs) then "" else String a (until_any cs r)
  end.

(** [s.replace(c, t)]. *)
Fixpoint replace_char (c : ascii) (t s : string) : string :=
  match s with
  | "" => ""
  | String a r => if decide (a = c) then t +:+ replace_char c t r else String a (replace_char c t r)
  end.

(** [String::from_utf8_lossy]: each maximal prefix of a character that is cut
    short or malformed becomes U+FFFD. *)
Definition byte_in (lo hi : N) (a : ascii) : bool :=
  ((lo <=? N_of_ascii a) && (N_of_ascii a <=? hi))%N.
Definition replacement : string := String "239" (String "191" (String "189" "")).

(** The second byte a lead byte of three or of four bytes allows. *)
Definition second3 (a b : ascii) : bool :=
  if byte_in 224 224 a then byte_in 160 191 b
  else if byte_in 237 237 a then byte_in 128 159 b
  else byte_in 128 191 b.
Definition second4 (a b : ascii) : bool :=
  if byte_in 240 240 a then byte_in 144 191 b
  else if byte_in 244 244 a then byte_in 128 143 b
  else byte_in 128 191 b.

Fixpoint from_utf8_lossy (s : string) : string :=
  match s with
  | "" => ""
  | String a r =>
      if byte_in 0 127 a then String a (from_utf8_lossy r)
      else if byte_in 194 223 a then
        match r with
        | "" => replacement
        | String b r2 =>
            if byte_in 128 191 b then String a (String b (from_utf8_lossy r2))
            else replacement +:+ from_utf8_lossy r
        end
      else if byte_in 224 239 a then
        match r with
        | "" => replacement
        | String b r2 =>
            if second3 a b then
              match r2 with
              | "" => replacement
              | String c r3 =>
                  if byte_in 128 191 c then String a (String b (String c (from_utf8_lossy r3)))
                  else replacement +:+ from_utf8_lossy r2
              end
            else replacement +:+ from_utf8_lossy r
        end
      else if byte_in 240 244 a then
        match r with
        | "" => replacement
        | String b r2 =>
            if second4 a b then
              match r2 with
              | "" => replacement
              | String c r3 =>
                  if byte_in 128 191 c then
                    match r3 with
                    | "" => replacement
                    | String d r4 =>
                        if byte_in 128 191 d
                        then String a (String b (String c (String d (from_utf8_lossy r4))))
                        else replacement +:+ from_utf8_lossy r3
                    end
                  else replacement +:+ from_utf8_lossy r2
              end
            else replacement +:+ from_utf8_lossy r
        end
      else replacement +:+ from_utf8_lossy r
  end.

Definition lower1 (a : ascii) : ascii :=
  let x := N_of_ascii a in
  if ((65 <=? x) && (x <=? 90))%N then ascii_of_N (x + 32) else a.
Fixpoint to_ascii_lowercase (s : string) : string :=
  match s with "" => "" | String a r => String (lower1 a) (to_ascii_lowercase r) end.

(* ------------------------------------------------------------------ *)
(** ** Decimal numbers *)

(** [n.to_string()] for an unsigned integer. *)
Definition show_Z (z : Z) : string := NilZero.string_of_uint (N.to_uint (Z.to_N z)).

(** [s.parse::<uN>()]: an optional [+], then one or more digits, in range. *)
Definition parse_uint (max : Z) (s : string) : option Z :=
  let digits := match s with String "+" r => r | _ => s end in
  match NilZero.uint_of_string digits with
  | Some d => let n := Z.of_N (N.of_uint d) in
              if (n <=? max)%Z then Some n else None
  | None => None
  end.

(* ------------------------------------------------------------------ *)
(** ** Lemmas *)

Lemma string_app_cons (x : ascii) (a b : string) : String x a +:+ b = String x (a +:+ b).
Proof. reflexivity. Qed.

Lemma string_app_nil_l (a : string) : "" +:+ a = a.
Proof. reflexivity. Qed.

Lemma string_app_assoc (a b c : string) : a +:+ (b +:+ c) = (a +:+ b) +:+ c.
Proof. induction a as [|x a IH]; [done|]. by rewrite !string_app_cons, IH. Qed.

Lemma string_app_nil_r (a : string) : a +:+ "" = a.
Proof. induction a as [|x a IH]; [done|]. by rewrite string_app_cons, IH. Qed.

Lemma string_length_app (a b : string) :
  String.length (a +:+ b) = (String.length a + String.length b)%nat.
Proof. induction a as [|x a IH]; [done|]. rewrite string_app_cons. simpl. by rewrite IH. Qed.

Lemma strip_prefix_Some p s r : strip_prefix p s = Some r <-> s = p +:+ r.
Proof.
  revert s. induction p as [|a p IH]; intros s; simpl.
  { rewrite string_app_nil_l. naive_solver. }
  rewrite string_app_cons. destruct s as [|b s]; [naive_solver|].
  case_decide as D; [subst; rewrite IH; naive_solver|naive_solver].
Qed.

Lemma rsplit_once_no_char c s h t : rsplit_once c s = Some (h, t) -> contains_char c t = false.
Proof.
  assert (forall s', rsplit_once c s' = None -> contains_char c s' = false) as Hnone.
  { induction s' as [|a s' IH]; simpl; [done|].
    destruct (rsplit_once c s') as [[]|]; [done|]. case_decide; [done|auto]. }
  revert h t. induction s as [|a s IH]; simpl; intros h t; [done|].
  destruct (rsplit_once c s) as [[h' t']|] eqn:E; [intros [= <- <-]; eauto|].
  case_decide; [|done]. intros [= <- <-]. auto.
Qed.

Lemma rsplit_once_app c s h t : rsplit_once c s = Some (h, t) -> s = h +:+ String c t.
Proof.
  revert h t. induction s as [|a s IH]; simpl; intros h t; [done|].
  destruct (rsplit_once c s) as [[h' t']|] eqn:E.
  - intros [= <- <-]. by rewrite string_app_cons, (IH h' t').
  - case_decide; [|done]. by intros [= <- <-]; subst.
Qed.

Lemma string_app_inv_head (a b c : string) : a +:+ b = a +:+ c -> b = c.
Proof. apply (inj (String.append a)). Qed.

Lemma rsplit_once_last c h t : contains_char c t = false -> rsplit_once c (h +:+ String c t) = Some (h, t).
Proof.
  intros Ht. assert (rsplit_once c t = None) as Hn.
  { clear h. induction t as [|a t IH]; simpl in *; [done|]. case_decide; [done|]. by rewrite IH. }
  induction h as [|a h IH].
  - rewrite string_app_nil_l. simpl. by rewrite Hn, decide_True.
  - rewrite string_app_cons. simpl. by rewrite IH.
Qed.

(** A double quote and a line feed, for the texts the sources render. *)
Definition dq : string := String "034"%char "".
Definition lf : string := String nl "".

(** *** Numbers print as they parse *)

Lemma show_Z_digits z :
  exists d, show_Z z = NilZero.string_of_uint d /\ d = N.to_uint (Z.to_N z) /\ d <> Decimal.Nil.
Proof.
  exists (N.to_uint (Z.to_N z)). split; [done|]. split; [done|].
  destruct (Z.to_N z) as [|p]; [done|]. apply DecimalPos.Unsigned.to_uint_nonnil.
Qed.

Lemma uint_first_char d : match NilZero.string_of_uint d with String "+" _ => False | "" => False | _ => True end.
Proof. destruct d; simpl; exact I. Qed.

Lemma parse_uint_show (z max : Z) : (0 <= z <= max)%Z -> parse_uint max (show_Z z) = Some z.
Proof.
  intros Hz. destruct (show_Z_digits z) as (d & Hs & Hd & Hn). unfold parse_uint. rewrite Hs.
  assert (match NilZero.string_of_uint d with String "+" r => r | _ => NilZero.string_of_uint d end =
          NilZero.string_of_uint d) as ->.
  { pose proof (uint_first_char d). destruct (NilZero.string_of_uint d) as [|c r]; [done|].
    by repeat case_match. }
  rewrite (NilZero.usu d Hn), Hd, DecimalN.Unsigned.of_to, Z2N.id by lia.
  destruct (Z.leb_spec z max); [done|lia].
Qed.

(** *** Clean text *)

(** Characters from the exclamation mark to the tilde, and those or a space. *)
Definition visible (c : ascii) : bool := ((33 <=? N_of_ascii c) && (N_of_ascii c <=? 126))%N.
Definition printable (c : ascii) : bool := ((32 <=? N_of_ascii c) && (N_of_ascii c <=? 126))%N.

Fixpoint all_chars (p : ascii -> bool) (s : string) : bool :=
  match s with "" => true | String c r => p c && all_chars p r end.
Fixpoint last_char (s : string) : option ascii :=
  match s with "" => None | String c "" => Some c | String _ r => last_char r end.

Definition first_char (s : string) : option ascii := match s with "" => None | String c _ => Some c end.

(** One line of text without white space around it. *)
Definition neat (s : string) : Prop :=
  all_chars printable s = true /\
  match first_char s with Some c => visible c = true | None => True end /\
  match last_char s with Some c => visible c = true | None => True end.

Lemma all_chars_impl (p q : ascii -> bool) s :
  (forall c, p c = true -> q c = true) -> all_chars p s = true -> all_chars q s = true.
Proof.
  intros H. induction s as [|c s IH]; simpl; [done|]. rewrite !andb_true_iff. naive_solver.
Qed.

Lemma all_chars_app p a b : all_chars p (a +:+ b) = all_chars p a && all_chars p b.
Proof. induction a as [|c a IH]; [done|]. rewrite string_app_cons. simpl. by rewrite IH, andb_assoc. Qed.

Lemma visible_printable c : visible c = true -> printable c = true.
Proof. unfold visible, printable. rewrite !andb_true_iff, !N.leb_le. lia. Qed.

Lemma last_char_app a b : b <> "" -> last_char (a +:+ b) = last_char b.
Proof.
  intros Hb. induction a as [|c a IH]; [done|]. rewrite string_app_cons. simpl.
  destruct (a +:+ b) eqn:E; [|done]. destruct a; [by rewrite string_app_nil_l in E|done].
Qed.

Lemma all_visible_neat s : all_chars visible s = true -> neat s.
Proof.
  intros H. split; [by eapply all_chars_impl, H; apply visible_printable|].
  split; [destruct s; [done|]; simpl in *; by apply andb_true_iff in H as [? _]|].
  induction s as [|c s IH]; [done|]. simpl in H. apply andb_true_iff in H as [Hc Hs].
  simpl. destruct s; [done|]. by apply IH.
Qed.

(** Text that starts and ends with neat, non-empty parts. *)
Lemma neat_app a m b :
  a <> "" -> b <> "" -> neat a -> neat b -> all_chars printable m = true -> neat (a +:+ m +:+ b).
Proof.
  intros Ha Hb [Pa [Fa _]] [Pb [_ Lb]] Pm. split; [by rewrite !all_chars_app, Pa, Pm, Pb|].
  split; [destruct a; [done|]; by rewrite string_app_cons|].
  rewrite string_app_assoc, last_char_app by done. done.
Qed.

Lemma visible_not_ws c r : visible c = true -> trim_start (String c r) = String c r.
Proof.
  unfold visible. rewrite andb_true_iff, !N.leb_le. intros [Hlo Hhi]. simpl.
  assert (ws1 c = false) as ->.
  { unfold ws1. repeat case_match; subst; done. }
  destruct r as [|b r]; [done|]. assert (ws2 c b = false) as ->.
  { unfold ws2. destruct (N.eqb_spec (N_of_ascii c) 194); [lia|done]. }
  destruct r as [|d r]; [done|]. assert (ws3 c b d = false) as ->; [|done].
  unfold ws3. destruct (N.eqb_spec (N_of_ascii c) 225); [lia|].
  destruct (N.eqb_spec (N_of_ascii c) 226); [lia|]. destruct (N.eqb_spec (N_of_ascii c) 227); [lia|done].
Qed.

Lemma visible_all_ws s : all_chars printable s = true ->
  match last_char s with Some c => visible c = true | None => False end -> all_ws s = false.
Proof.
  induction s as [|a s IH]; [done|]. simpl. intros [Ha Hs]%andb_true_iff Hl.
  destruct (visible a) eqn:Hv.
  { unfold all_ws. by rewrite visible_not_ws. }
  assert (a = " "%char) as ->.
  { unfold visible, printable in *. apply andb_true_iff in Ha as [H1%N.leb_le H2%N.leb_le].
    apply andb_false_iff in Hv as [Hv%N.leb_gt|Hv%N.leb_gt]; [|lia].
    rewrite <- (ascii_N_embedding a). by replace (N_of_ascii a) with 32%N by lia. }
  destruct s as [|b s]; [done|]. unfold all_ws in *. simpl in *. by apply IH.
Qed.

Lemma trim_end_neat s : all_chars printable s = true ->
  match last_char s with Some c => visible c = true | None => True end -> trim_end s = s.
Proof.
  induction s as [|a s IH]; [done|]. intros Hp Hl. cbn [trim_end].
  rewrite visible_all_ws; [|done|].
  - f_equal. simpl in Hp. apply andb_true_iff in Hp as [_ Hp]. apply IH; [done|].
    destruct s; [done|]. exact Hl.
  - destruct (last_char (String a s)) eqn:E; [done|]. exfalso. clear -E. revert a E.
    induction s as [|b s IH]; intros a; [done|]. simpl. apply IH.
Qed.

Lemma trim_neat s : neat s -> trim s = s.
Proof.
  intros (Hp & Hf & Hl). unfold trim. destruct s as [|c s]; [done|]. simpl in Hf.
  rewrite visible_not_ws by done. by apply trim_end_neat.
Qed.

(** A space before neat text is trimmed, as is one after a neat key. *)
Lemma trim_space s : neat s -> trim (String " " s) = s.
Proof. intros H. unfold trim. change (trim_start (String " " s)) with (trim_start s). by apply trim_neat. Qed.

Lemma trim_first c r : visible c = true -> exists r', trim (String c r) = String c r'.
Proof.
  intros Hc. unfold trim. rewrite visible_not_ws by done. cbn [trim_end].
  unfold all_ws. rewrite visible_not_ws by done. simpl. eauto.
Qed.

(** *** Splitting *)

Lemma split_once_app c a b :
  contains_char c a = false -> split_once c (a +:+ String c b) = Some (a, b).
Proof.
  induction a as [|x a IH]; intros H.
  - rewrite string_app_nil_l. simpl. by rewrite decide_True.
  - simpl in H. case_decide; [done|]. rewrite string_app_cons. simpl. rewrite decide_False by done. by rewrite IH.
Qed.

Lemma split_app c a b : contains_char c a = false -> split c (a +:+ String c b) = a :: split c b.
Proof.
  induction a as [|x a IH]; intros H.
  - rewrite string_app_nil_l. simpl. by rewrite decide_True.
  - simpl in H. case_decide; [done|]. rewrite string_app_cons. simpl. rewrite decide_False by done. by rewrite IH.
Qed.

Lemma split_single c a : contains_char c a = false -> split c a = [a].
Proof.
  induction a as [|x a IH]; simpl; intros H; [done|]. case_decide; [done|]. by rewrite IH.
Qed.

Lemma split_nonempty c s : exists p ps, split c s = p :: ps.
Proof.
  induction s as [|a s IH]; simpl; [eauto|]. destruct IH as (p & ps & ->). case_decide; eauto.
Qed.

Lemma all_chars_no_char p c s : p c = false -> all_chars p s = true -> contains_char c s = false.
Proof.
  intros Hc. induction s as [|a s IH]; simpl; [done|]. rewrite andb_true_iff. intros [Ha Hs].
  case_decide; [congruence|auto].
Qed.

Lemma contains_char_app c a b : contains_char c (a +:+ b) = contains_char c a || contains_char c b.
Proof.
  induction a as [|x a IH]; [done|]. rewrite string_app_cons. cbn [contains_char].
  by destruct (decide (x = c)).
Qed.

Lemma strip_cr_neat s : all_chars printable s = true -> strip_cr s = s.
Proof.
  unfold strip_cr. intros H. assert (strip_suffix (String cr "") s = None) as ->; [|done].
  induction s as [|a s IH]; [done|]. simpl in H. apply andb_true_iff in H as [Ha Hs].
  cbn [strip_suffix]. rewrite decide_False by (intros [= -> ->]; done). by rewrite IH.
Qed.

(** A line of neat text, and the lines after it. *)
Lemma lines_cons s r : all_chars printable s = true -> lines (s +:+ lf +:+ r) = s :: lines r.
Proof.
  intros H. unfold lines, lf. rewrite string_app_cons, string_app_nil_l.
  rewrite split_app by (by apply (all_chars_no_char printable)).
  destruct (split_nonempty nl r) as (p & ps & ->). simpl. by rewrite strip_cr_neat.
Qed.

(** A list joined with commas and spaces, split at the commas and trimmed. *)
Lemma split_join (l : list string) :
  l <> [] -> Forall (fun s => all_chars visible s = true /\ contains_char "," s = false) l ->
  trim <$> split "," (join ", " l) = l.
Proof.
  intros Hne H. induction l as [|s l IH]; [done|]. apply Forall_cons in H as [[Hv Hc] Hl].
  destruct l as [|s' l].
  - simpl. rewrite split_single by done. simpl. by rewrite trim_neat by (by apply all_visible_neat).
  - change (join ", " (s :: s' :: l)) with (s +:+ String "," (" " +:+ join ", " (s' :: l))).
    rewrite split_app by done. rewrite fmap_cons, trim_neat by (by apply all_visible_neat). f_equal.
    etransitivity; [|by apply IH]. destruct (split_nonempty "," (join ", " (s' :: l))) as (p & ps & E).
    change (" " +:+ join ", " (s' :: l)) with (String " " (join ", " (s' :: l))).
    assert (split "," (String " " (join ", " (s' :: l))) = String " " p :: ps) as ->; [|by rewrite E].
    transitivity (match split "," (join ", " (s' :: l)) with
                  | p :: ps => String " " p :: ps | [] => [String " " ""] end); [reflexivity|].
    by rewrite E.
Qed.

Definition is_digit (c : ascii) : bool := ((48 <=? N_of_ascii c) && (N_of_ascii c <=? 57))%N.

Lemma show_Z_chars z : all_chars is_digit (show_Z z) = true.
Proof.
  destruct (show_Z_digits z) as (d & -> & _). unfold NilZero.string_of_uint.
  assert (all_chars is_digit (NilEmpty.string_of_uint d) = true) as H by (induction d; done).
  by destruct d.
Qed.

Lemma show_Z_nonempty z : show_Z z <> "".
Proof.
  destruct (show_Z_digits z) as (d & -> & _). pose proof (uint_first_char d).
  by destruct (NilZero.string_of_uint d).
Qed.

Lemma trim_space_end k : all_chars visible k = true -> trim (k +:+ " ") = k.
Proof.
  intros Hk. assert (trim_end (k +:+ " ") = k) as He.
  { induction k as [|c k IH]; [reflexivity|]. simpl in Hk. apply andb_true_iff in Hk as [Hc Hk].
    rewrite string_app_cons. cbn [trim_end]. unfold all_ws. rewrite visible_not_ws by done. simpl.
    by rewrite IH. }
  unfold trim. destruct k as [|c k]; [reflexivity|]. rewrite string_app_cons in *. simpl in Hk.
  apply andb_true_iff in Hk as [Hc _]. by rewrite visible_not_ws.
Qed.

Lemma app_nonempty_l (a b : string) : a <> "" -> a +:+ b <> "".
Proof. destruct a; [done|]. by rewrite string_app_cons. Qed.

Lemma lines_lf r : lines (lf +:+ r) = "" :: lines r.
Proof. apply (lines_cons ""). done. Qed.

Lemma lines_cons2 a b r :
  all_chars printable a = true -> all_chars printable b = true ->
  lines (a +:+ b +:+ lf +:+ r) = (a +:+ b) :: lines r.
Proof.
  intros Ha Hb. rewrite string_app_assoc. apply lines_cons. by rewrite all_chars_app, Ha, Hb.
Qed.

(** *** Trimming twice *)

(** White space, then text: trimming skips the white space. *)
Lemma trim_start_app (n : nat) : forall u v,
  (String.length u <= n)%nat -> all_ws u = true -> trim_start (u +:+ v) = trim_start v.
Proof.
  induction n as [|n IH]; intros u v Hl Hu.
  { destruct u; [done|]. simpl in Hl. lia. }
  destruct u as [|a u]; [done|]. unfold all_ws in *. rewrite string_app_cons. simpl in Hl, Hu |- *.
  destruct (ws1 a); [apply IH; [lia|done]|]. destruct u as [|b u]; [done|]. rewrite string_app_cons.
  simpl in Hl. destruct (ws2 a b); [apply IH; [lia|done]|]. destruct u as [|c u]; [done|].
  rewrite string_app_cons. simpl in Hl. destruct (ws3 a b c); [apply IH; [lia|done]|done].
Qed.

Lemma all_ws_app u v : all_ws u = true -> all_ws v = true -> all_ws (u +:+ v) = true.
Proof.
  intros Hu Hv. unfold all_ws. by rewrite (trim_start_app (String.length u)).
Qed.

Lemma trim_end_split s : exists v, s = trim_end s +:+ v /\ all_ws v = true.
Proof.
  induction s as [|a s (v & IH & Hv)]; [by exists ""|]. cbn [trim_end].
  destruct (all_ws (String a s)) eqn:E; [by exists (String a s)|].
  exists v. by rewrite string_app_cons, <- IH.
Qed.

Lemma trim_end_idem s : trim_end (trim_end s) = trim_end s.
Proof.
  induction s as [|a s IH]; [done|]. cbn [trim_end]. destruct (all_ws (String a s)) eqn:E; [done|].
  cbn [trim_end]. destruct (all_ws (String a (trim_end s))) eqn:E'; [|by rewrite IH].
  destruct (trim_end_split s) as (v & Hs & Hv).
  rewrite Hs, <- string_app_cons, all_ws_app in E by done. done.
Qed.

(** Nothing to trim at the start of a text, nothing to trim in a part of it
    that begins there. *)
Lemma trim_start_prefix u v : trim_start (u +:+ v) = u +:+ v -> trim_start u = u.
Proof.
  assert (forall s, (String.length (trim_start s) <= String.length s)%nat) as Hlen.
  { intros s. remember (String.length s) as n eqn:Hn. assert (String.length s <= n)%nat as Hs by lia. clear Hn.
    revert s Hs. induction n as [|n IH]; intros s Hs; [destruct s; simpl in *; lia|].
    destruct s as [|a s]; [simpl; lia|]. simpl in *. destruct (ws1 a); [etransitivity; [apply IH|]; lia|].
    destruct s as [|b s]; [simpl; lia|]. simpl in *. destruct (ws2 a b); [etransitivity; [apply IH|]; lia|].
    destruct s as [|c s]; [simpl; lia|]. simpl in *. destruct (ws3 a b c); [etransitivity; [apply IH|]; lia|].
    simpl. lia. }
  destruct u as [|a u]; [done|]. rewrite !string_app_cons. simpl. destruct (ws1 a).
  { intros H. pose proof (Hlen (u +:+ v)). rewrite H in *. simpl in *. lia. }
  destruct u as [|b u]; [done|]. rewrite !string_app_cons. destruct (ws2 a b).
  { intros H. pose proof (Hlen (u +:+ v)). rewrite H in *. simpl in *. lia. }
  destruct u as [|c u]; [done|]. rewrite !string_app_cons. destruct (ws3 a b c); [|done].
  intros H. pose proof (Hlen (u +:+ v)). rewrite H in *. simpl in *. lia.
Qed.

Lemma trim_start_idem s : trim_start (trim_start s) = trim_start s.
Proof.
  remember (String.length s) as n eqn:Hn. assert (String.length s <= n)%nat as Hs by lia. clear Hn.
  revert s Hs. induction n as [|n IH]; intros s Hs; [destruct s; simpl in *; [done|lia]|].
  destruct s as [|a s]; [done|]. simpl in *. destruct (ws1 a) eqn:E1; [apply IH; lia|].
  destruct s as [|b s]; simpl in *; [by rewrite E1|]. destruct (ws2 a b) eqn:E2; [apply IH; lia|].
  destruct s as [|c s]; simpl in *; [by rewrite E1, E2|]. destruct (ws3 a b c) eqn:E3; [apply IH; lia|].
  simpl. by rewrite E1, E2, E3.
Qed.

Lemma trim_idem s : trim (trim s) = trim s.
Proof.
  unfold trim. destruct (trim_end_split (trim_start s)) as (v & Hs & _).
  rewrite (trim_start_prefix _ v); [apply trim_end_idem|]. rewrite <- Hs. apply trim_start_idem.
Qed.

Lemma from_utf8_lossy_ascii s : all_chars printable s = true -> from_utf8_lossy s = s.
Proof.
  induction s as [|c s IH]; [done|]. simpl. intros [Hc Hs]%andb_true_iff.
  assert (byte_in 0 127 c = true) as ->; [|by rewrite IH].
  unfold printable in Hc. unfold byte_in. apply andb_true_iff in Hc as [H1%N.leb_le H2%N.leb_le].
  apply andb_true_iff. rewrite !N.leb_le. lia.
Qed.

Lemma split_at (c : ascii) (a b : string) : split c (a +:+ String c b) = (split c a ++ split c b)%list.
Proof.
  induction a as [|x a IH].
  - rewrite string_app_nil_l. simpl. by rewrite decide_True.
  - rewrite string_app_cons. simpl. case_decide; [by rewrite IH|]. rewrite IH.
    destruct (split_nonempty c a) as (p & ps & ->). done.
Qed.

(** *** Pieces and lines *)

Lemma split_piece c s p : p ∈ split c s -> contains_char c p = false.
Proof.
  revert p. induction s as [|a s IH]; intros p; simpl; [set_solver|].
  case_decide as Hc; [set_solver|]. destruct (split_nonempty c s) as (q & qs & E). rewrite E in *.
  intros [->|Hp]%elem_of_cons; [|apply IH; by right]. simpl. rewrite decide_False by done. apply IH. by left.
Qed.

Lemma split_join_char (c : ascii) (ws : list string) :
  ws <> [] -> Forall (fun s => contains_char c s = false) ws -> split c (join (String c "") ws) = ws.
Proof.
  intros Hne H. induction ws as [|s ws IH]; [done|]. apply Forall_cons in H as [Hs Hws].
  destruct ws as [|s' ws]; [by apply split_single|].
  change (join (String c "") (s :: s' :: ws)) with (s +:+ String c "" +:+ join (String c "") (s' :: ws)).
  rewrite string_app_cons, string_app_nil_l, split_app by done. f_equal. by apply IH.
Qed.

(** *** What a text has in it *)

Definition occurs (t s : string) : Prop := exists a b, s = a +:+ t +:+ b.

Lemma occurs_cons t c s : occurs t (String c s) <-> (exists b, String c s = t +:+ b) \/ occurs t s.
Proof.
  split.
  - intros ([|c' a] & b & E); [left; by exists b|]. right. exists a, b.
    rewrite string_app_cons in E. by injection E.
  - intros [[b E]|(a & b & ->)]; [by exists "", b|]. exists (String c a), b. by rewrite string_app_cons.
Qed.

Lemma starts_with_spec p s : starts_with p s = true <-> exists r, s = p +:+ r.
Proof.
  unfold starts_with. destruct (strip_prefix p s) as [r|] eqn:E.
  - apply strip_prefix_Some in E. naive_solver.
  - split; [done|]. intros [r Hr%strip_prefix_Some]. congruence.
Qed.

Lemma contains_str_spec p s : contains_str p s = true <-> occurs p s.
Proof.
  induction s as [|c s IH]; cbn [contains_str]; rewrite orb_true_iff, starts_with_spec.
  - split; [intros [[r ->]|]; [by exists "", r|done]|]. intros (a & b & E). destruct a; [left; by exists b|done].
  - by rewrite occurs_cons, IH.
Qed.

Lemma contains_char_spec c s : contains_char c s = true <-> occurs (String c "") s.
Proof.
  induction s as [|c' s IH].
  - split; [done|]. intros ([|] & b & E); done.
  - rewrite occurs_cons, <- IH. cbn [contains_char]. setoid_rewrite string_app_cons. setoid_rewrite string_app_nil_l.
    case_decide; naive_solver.
Qed.

Lemma contains_char_prefix c a b : contains_char c (a +:+ b) = false -> contains_char c a = false.
Proof. rewrite contains_char_app. by intros [? _]%orb_false_iff. Qed.

Lemma strip_suffix_Some p s r : strip_suffix p s = Some r -> s = r +:+ p.
Proof.
  revert r. induction s as [|a s IH]; intros r; cbn [strip_suffix].
  - case_decide as E; [|done]. intros [= <-]. by rewrite string_app_nil_l.
  - case_decide as E; [intros [= <-]; by rewrite string_app_nil_l|].
    destruct (strip_suffix p s) as [q|]; [|done]. intros [= <-]. rewrite string_app_cons. by rewrite (IH q eq_refl) at 1.
Qed.

Lemma line_no_nl s l : l ∈ lines s -> contains_char nl l = false.
Proof.
  unfold lines. assert (Forall (fun p => contains_char nl p = false) (split nl s)) as H
    by (apply Forall_forall; intros p; apply split_piece).
  induction H as [|p ps Hp Hps IH]; [set_solver|]. destruct ps as [|p' ps].
  - cbn. destruct (is_empty p); set_solver.
  - cbn [lines_of]. intros [->|Hl]%elem_of_cons; [|by apply IH]. unfold strip_cr.
    destruct (strip_suffix (String cr "") p) as [q|] eqn:E; [|done].
    apply strip_suffix_Some in E as ->. by eapply contains_char_prefix.
Qed.

Lemma split_sub c d s p : p ∈ split d s -> contains_char c s = false -> contains_char c p = false.
Proof.
  revert p. induction s as [|a s IH]; intros p; [set_solver|]. simpl.
  destruct (decide (a = c)) as [|Hac]; [done|]. destruct (decide (a = d)); intros Hp Hc.
  - apply elem_of_cons in Hp as [->|Hp]; [done|]. by apply IH.
  - destruct (split_nonempty d s) as (q & qs & E). rewrite E in *. apply elem_of_cons in Hp as [->|Hp].
    + simpl. rewrite decide_False by done. apply IH; [by left|done].
    + apply IH; [by right|done].
Qed.

Lemma parse_uint_range max s n : parse_uint max s = Some n -> (0 <= n <= max)%Z.
Proof.
  unfold parse_uint. destruct (NilZero.uint_of_string _) as [d|]; [|done].
  destruct (Z.leb_spec (Z.of_N (N.of_uint d)) max); [|done]. intros [= <-]. lia.
Qed.

Lemma lines_join (ls : list string) :
  ls <> [] -> Forall (fun s => contains_char nl s = false) ls -> Forall (fun s => strip_cr s = s) ls ->
  lines (join lf ls +:+ lf) = ls.
Proof.
  intros Hne Hn Hc. unfold lines, lf. rewrite split_at.
  rewrite split_join_char by done. change (split nl "") with [""].
  clear Hne Hn. induction Hc as [|s ls Hs Hls IH]; [done|]. cbn [app]. cbn [lines_of].
  destruct (ls ++ [""])%list eqn:E; [by destruct ls|]. by rewrite Hs, IH.
Qed.

(** A marker is found where it was last written, when a character of it that
    comes once in it does not come again. *)
Lemma rsplit_once_str_eq p a r :
  rsplit_once_str p (String a r) =
  match rsplit_once_str p r with
  | Some (h, t) => Some (String a h, t)
  | None => match strip_prefix p (String a r) with Some t => Some ("", t) | None => None end
  end.
Proof. reflexivity. Qed.

Lemma rsplit_once_str_none p c s :
  contains_char c p = true -> contains_char c s = false -> rsplit_once_str p s = None.
Proof.
  intros Hp. induction s as [|a s IH]; intros Hs; [by destruct p|].
  rewrite rsplit_once_str_eq, IH by (cbn in Hs; by destruct (decide (a = c))).
  destruct (strip_prefix p (String a s)) as [t|] eqn:E; [|done]. apply strip_prefix_Some in E.
  by rewrite E, contains_char_app, Hp in Hs.
Qed.

Lemma rsplit_once_str_short c u v u' r :
  contains_char c u = false -> contains_char c u' = false -> contains_char c r = false ->
  (String.length u' < String.length u)%nat ->
  rsplit_once_str (u +:+ String c v) (u' +:+ String c r) = None.
Proof.
  intros Hu Hu' Hr Hl. assert (contains_char c (u +:+ String c v) = true) as Hp.
  { rewrite contains_char_app. cbn. rewrite decide_True by done. apply orb_true_r. }
  assert (forall x t, contains_char c x = false -> (String.length x < String.length u)%nat ->
    strip_prefix (u +:+ String c v) (x +:+ String c r) = Some t -> False) as Hno.
  { intros x t Hx Hlx E%strip_prefix_Some. rewrite <- string_app_assoc, string_app_cons in E.
    pose proof (split_once_app c x r Hx) as E1. rewrite E, split_once_app in E1 by done. injection E1 as <- _. lia. }
  induction u' as [|a u' IH].
  - change ("" +:+ String c r) with (String c r). rewrite rsplit_once_str_eq, (rsplit_once_str_none _ c r) by done.
    destruct (strip_prefix _ (String c r)) as [t|] eqn:E; [|done]. by destruct (Hno "" t).
  - rewrite string_app_cons, rsplit_once_str_eq. rewrite IH; [|by (cbn in Hu'; destruct (decide (a = c)))|cbn in Hl; lia].
    rewrite <- string_app_cons. destruct (strip_prefix _ (String a u' +:+ String c r)) as [t|] eqn:E; [|done]. by destruct (Hno _ _ Hu' Hl E).
Qed.

Lemma rsplit_once_str_last c u v b t :
  contains_char c u = false -> contains_char c v = false -> contains_char c t = false ->
  rsplit_once_str (u +:+ String c v) (b +:+ (u +:+ String c v) +:+ t) = Some (b, t).
Proof.
  intros Hu Hv Ht. assert (contains_char c (v +:+ t) = false) as Hr by by rewrite contains_char_app, Hv, Ht.
  assert (exists x r, (u +:+ String c v) +:+ t = String x r /\ rsplit_once_str (u +:+ String c v) r = None) as (x & r & E & Hn).
  { rewrite <- string_app_assoc, string_app_cons. destruct u as [|x u].
    - exists c, (v +:+ t). split; [done|]. apply (rsplit_once_str_none _ c); [|done].
      rewrite string_app_nil_l. cbn. by rewrite decide_True.
    - exists x, (u +:+ String c (v +:+ t)). split; [done|]. apply rsplit_once_str_short; [done| |done|cbn; lia].
      cbn in Hu. by destruct (decide (x = c)). }
  induction b as [|a b IH].
  - rewrite string_app_nil_l, E, rsplit_once_str_eq, Hn.
    by rewrite (proj2 (strip_prefix_Some _ (String x r) t) (eq_sym E)).
  - by rewrite string_app_cons, rsplit_once_str_eq, IH.
Qed.

(** Words: text without white space, and not empty. *)
Definition word (s : string) : Prop := s <> "" /\ all_chars visible s = true.

Lemma trim_start_length s : (String.length (trim_start s) <= String.length s)%nat.
Proof.
  assert (forall n s, (String.length s < n)%nat -> (String.length (trim_start s) <= String.length s)%nat) as H.
  { clear s. induction n as [|n IH]; intros s Hn; [lia|]. destruct s as [|a s]; cbn; [lia|]. cbn in Hn.
    destruct (ws1 a); [specialize (IH s); lia|]. destruct s as [|b s]; cbn; [lia|]. cbn in Hn.
    destruct (ws2 a b); [specialize (IH s); lia|]. destruct s as [|c s]; cbn; [lia|]. cbn in Hn.
    destruct (ws3 a b c); [specialize (IH s); lia|cbn; lia]. }
  apply (H (S (String.length s))). lia.
Qed.
Lemma starts_ws_space r : starts_ws (String " " r) = true.
Proof. unfold starts_ws. apply Nat.ltb_lt. cbn. pose proof (trim_start_length r). lia. Qed.
Lemma starts_ws_visible c r : visible c = true -> starts_ws (String c r) = false.
Proof. intros H. unfold starts_ws. rewrite visible_not_ws by done. apply Nat.ltb_ge. lia. Qed.

(** What follows a word: nothing, or a space. *)
Definition word_end (r : string) : Prop := r = "" \/ exists r', r = String " " r'.

Lemma until_ws_word a r : all_chars visible a = true -> word_end r -> until_ws (a +:+ r) = a /\ after_word (a +:+ r) = r.
Proof.
  intros Ha Hr. induction a as [|c a IH].
  - rewrite string_app_nil_l. destruct Hr as [->|(r' & ->)]; [done|]. cbn [until_ws after_word]. by rewrite starts_ws_space.
  - apply andb_true_iff in Ha as [Hc Ha]. destruct (IH Ha) as [E1 E2]. rewrite string_app_cons. cbn [until_ws after_word].
    rewrite starts_ws_visible, E1, E2 by done. done.
Qed.
Lemma words_upto_cons n a r : word a -> word_end r -> words_upto (S n) (a +:+ r) = a :: words_upto n r.
Proof.
  intros [Hne Ha] Hr. destruct a as [|c a]; [done|]. cbn [words_upto]. assert (visible c = true) as Hc by by apply andb_true_iff in Ha as [].
  rewrite string_app_cons, (visible_not_ws c) by done. rewrite <- string_app_cons.
  destruct (until_ws_word (String c a) r Ha Hr) as [-> ->]. done.
Qed.
Lemma split_whitespace_two a b r : word a -> word b -> word_end r ->
  exists ws, split_whitespace (a +:+ " " +:+ b +:+ r) = a :: b :: ws.
Proof.
  intros Ha Hb Hr. unfold split_whitespace.
  assert (exists n, String.length (a +:+ " " +:+ b +:+ r) = S (S n)) as (n & ->).
  { destruct Ha as [Ha _], a as [|x a]; [done|]. rewrite !string_length_app. cbn. exists (String.length a + S (String.length b + String.length r) - 1)%nat. lia. }
  rewrite words_upto_cons; [|done|right; by eexists]. exists (words_upto n r). f_equal.
  destruct Hb as [Hne Hb], b as [|c b]; [done|]. change (words_upto (S n) (" " +:+ String c b +:+ r)) with (words_upto (S n) (String c b +:+ r)).
  by apply words_upto_cons.
Qed.

#[export] Hint Resolve show_Z_chars show_Z_nonempty app_nonempty_l all_visible_neat : coold.
