(* ===== verification/RustPath.v ===== *)
(** * Paths

    The part of [std::path] the sources use, on Unix: components, joining,
    prefixes, and the parent and the file name of a path. *)

From S2P Require Import Prelude RustStr.

Inductive Component := RootDir | CurDir | ParentDir | Normal (s : string).
#[export] Instance Component_eq_dec : EqDecision Component.
Proof. solve_decision. Defined.

Definition is_absolute (p : string) : bool := starts_with "/" p.

(** Pieces between slashes that are no components: empty ones and dots, except a
    dot that starts a relative path. *)
Definition trivial_piece (p : string) : bool := is_empty p || bool_decide (p = ".").

Definition component_of (p : string) : option Component :=
  if trivial_piece p then None
  else if decide (p = "..") then Some ParentDir else Some (Normal p).

(** The root or the leading dot, and the pieces after it. *)
Definition anatomy (p : string) : option Component * list string :=
  match strip_prefix "/" p with
  | Some r => (Some RootDir, split "/" r)
  | None =>
      match split "/" p with
      | "." :: body => (Some CurDir, body)
      | body => (None, body)
      end
  end.

Definition components (p : string) : list Component :=
  let '(front, body) := anatomy p in option_list front ++ omap component_of body.

(** [p.starts_with(base)]: whole components. *)
Definition path_starts_with (base p : string) : bool :=
  bool_decide (components base `prefix_of` components p).

(** [p.join(q)]. *)
Definition path_join (p q : string) : string :=
  if is_absolute q then q
  else if is_empty p then q
  else if ends_with "/" p then p +:+ q else p +:+ "/" +:+ q.

Fixpoint drop_trivial (rev_body : list string) : list string :=
  match rev_body with
  | p :: rest => if trivial_piece p then drop_trivial rest else rev_body
  | [] => []
  end.

Definition render_path (front : option Component) (body : list string) : string :=
  match front, body with
  | Some RootDir, _ => "/" +:+ join "/" body
  | Some CurDir, [] => "."
  | Some CurDir, _ => "./" +:+ join "/" body
  | _, _ => join "/" body
  end.

Definition file_name (p : string) : option string :=
  match drop_trivial (reverse (anatomy p).2) with
  | last :: _ => if decide (last = "..") then None else Some last
  | [] => None
  end.

Definition parent (p : string) : option string :=
  let '(front, body) := anatomy p in
  match drop_trivial (reverse body) with
  | _ :: rest => Some (render_path front (reverse (drop_trivial rest)))
  | [] => match front with Some CurDir => Some "" | _ => None end
  end.

(* ------------------------------------------------------------------ *)
(** ** Lemmas *)

Example components_dots : components "./a//./b/../c/" = [CurDir; Normal "a"; Normal "b"; ParentDir; Normal "c"].
Proof. reflexivity. Qed.
Example parent_trims : parent "/etc//coolify/./host-jwt/" = Some "/etc//coolify".
Proof. reflexivity. Qed.

Lemma anatomy_last p x :
  contains_char "/" x = false -> trivial_piece x = false -> is_empty p = false ->
  exists front body, anatomy (p +:+ String "/" x) = (front, body ++ [x]).
Proof.
  intros Hx Ht Hp. unfold anatomy. destruct p as [|a p]; [done|]. rewrite string_app_cons.
  cbn [strip_prefix]. case_decide as Ha.
  - exists (Some RootDir), (split "/" p). by rewrite split_at, (split_single _ x).
  - rewrite <- string_app_cons, split_at, (split_single _ x) by done.
    destruct (split_nonempty "/" (String a p)) as (b & bs & ->). simpl.
    destruct (decide (b = ".")) as [->|Hb]; [by exists (Some CurDir), bs|].
    exists None, (b :: bs). repeat case_match; simplify_eq; done.
Qed.

Lemma file_name_last p x :
  contains_char "/" x = false -> trivial_piece x = false -> x <> ".." -> is_empty p = false ->
  file_name (p +:+ String "/" x) = Some x.
Proof.
  intros Hx Ht Hd Hp. destruct (anatomy_last p x Hx Ht Hp) as (front & body & E).
  unfold file_name. rewrite E. cbn [snd]. rewrite reverse_snoc. cbn [drop_trivial]. rewrite Ht.
  by rewrite decide_False.
Qed.

Lemma ends_with_slash p : ends_with "/" p = true -> exists q, p = q +:+ "/".
Proof.
  unfold ends_with. induction p as [|a p IH]; [done|]. cbn [strip_suffix]. case_decide as E.
  - intros _. injection E as -> ->. by exists "".
  - destruct (strip_suffix "/" p); [|done]. intros _. destruct (IH eq_refl) as [q ->].
    exists (String a q). by rewrite string_app_cons.
Qed.

(** The last component of a path joined with a plain name is that name. *)
Lemma file_name_join p x :
  contains_char "/" x = false -> trivial_piece x = false -> x <> ".." -> is_empty p = false ->
  file_name (path_join p x) = Some x.
Proof.
  intros Hx Ht Hd Hp. unfold path_join, is_absolute.
  assert (starts_with "/" x = false) as ->.
  { unfold starts_with. destruct x as [|c x]; [done|]. simpl in *. by case_decide; case_decide. }
  rewrite Hp. destruct (ends_with "/" p) eqn:E; [|by apply file_name_last].
  apply ends_with_slash in E as [q ->]. destruct q as [|a q].
  - change (("" +:+ "/") +:+ x) with (String "/" x). unfold file_name, anatomy.
    cbn [strip_prefix]. rewrite decide_True by done. cbn [snd]. rewrite split_single by done. cbn.
    rewrite Ht. by rewrite decide_False.
  - rewrite <- string_app_assoc. by apply (file_name_last (String a q) x).
Qed.

Lemma anatomy_piece p x : x ∈ (anatomy p).2 -> contains_char "/" x = false.
Proof.
  unfold anatomy. destruct (strip_prefix "/" p) as [r|]; [apply split_piece|].
  intros H. apply (split_piece _ p). revert H. destruct (split "/" p) as [|b bs]; [done|].
  destruct (decide (b = ".")) as [->|Hb]; [set_solver|]. by repeat case_match; simplify_eq.
Qed.

Lemma drop_trivial_sub l x : x ∈ drop_trivial l -> x ∈ l.
Proof. induction l as [|p l IH]; simpl; [done|]. destruct (trivial_piece p); set_solver. Qed.

Lemma file_name_piece p x : file_name p = Some x -> contains_char "/" x = false.
Proof.
  unfold file_name. destruct (drop_trivial _) as [|y ys] eqn:E; [done|]. case_decide; [done|]. intros [= <-].
  apply (anatomy_piece p), elem_of_reverse, drop_trivial_sub. rewrite E. by left.
Qed.
