(* ===== verification/Messages.v ===== *)
(** * Messages

    The data that crosses the two interfaces of [flux]: the JSON envelopes of
    the Unix-socket lane ([flux/src/envelope.rs]) and the protobuf messages of
    the agent stream ([proto/agent.proto]), with the conversion of an agent
    response to a JSON response body.

    A protobuf request or response message with several fields is a record; one
    with a single field is the argument of its constructor. *)

From S2P Require Import Prelude RustStr.

(* ------------------------------------------------------------------ *)
(** ** JSON values ([serde_json::Value]) *)

Inductive json : Type :=
  | JNull
  | JBool (b : bool)
  | JNum (n : Z)
  | JStr (s : string)
  | JArr (l : list json)
  | JObj (fields : list (string * json)).

Definition jstrs (l : list string) : json := JArr (JStr <$> l).

(* ------------------------------------------------------------------ *)
(** ** Shared records *)

Record PortMapping := mkPortMapping {
  pm_host_ip : string;
  pm_host_port : Z;
  pm_container_port : Z;
  pm_protocol : string;
}.

Record IngressAppConfig := mkIngressAppConfig {
  ia_name : string;
  ia_config : string;
}.

Record FirewallRule := mkFirewallRule {
  fr_namespace : string;
  fr_src : string;
  fr_dst : string;
  fr_proto : string;
  fr_port : Z;
  fr_id : string;
}.

(* ------------------------------------------------------------------ *)
(** ** Dispatch envelopes ([envelope.rs]) *)

Module CommandPayload.
Inductive t : Type :=
  | ImagesPull (reference : string)
  | ImagesList
  | ImagesDelete (reference : string) (force : bool)
  | ContainersCreate (name image : string) (command env networks volumes : list string)
      (ports : list PortMapping) (dns dns_search network_aliases : list string)
      (restart_policy : string) (privileged : bool) (network_mode : string)
      (capabilities : list string)
  | ContainersStart (id : string)
  | ContainersStop (id : string) (timeout_seconds : Z)
  | ContainersRestart (id : string) (timeout_seconds : Z)
  | ContainersDelete (id : string) (force : bool)
  | ContainersInspect (id : string)
  | ContainersList
  | ContainersLogs (id : string) (tail : Z) (stdout stderr : bool)
  | ContainersExec (id : string) (command : list string)
  | ContainersHealthcheckRun (id : string)
  | ApplyIngress (kind config : string) (apps : list IngressAppConfig) (mesh_network : string)
  | StopIngress (kind : string)
  | FirewallAllow (id namespace src dst proto : string) (port : Z)
  | FirewallRevoke (id : string)
  | FirewallList (namespace : string)
  | FirewallReconcile
  | CooldLogs (tail : Z)
  | CorrosionTables (limit : Z)
  | HostJwtSet (jwt : string).

(** [CommandPayload::kind]. *)
Definition kind (c : t) : string :=
  match c with
  | ImagesPull _ => "images.pull"
  | ImagesList => "images.list"
  | ImagesDelete _ _ => "images.delete"
  | ContainersCreate _ _ _ _ _ _ _ _ _ _ _ _ _ _ => "containers.create"
  | ContainersStart _ => "containers.start"
  | ContainersStop _ _ => "containers.stop"
  | ContainersRestart _ _ => "containers.restart"
  | ContainersDelete _ _ => "containers.delete"
  | ContainersInspect _ => "containers.inspect"
  | ContainersList => "containers.list"
  | ContainersLogs _ _ _ _ => "containers.logs"
  | ContainersExec _ _ => "containers.exec"
  | ContainersHealthcheckRun _ => "containers.healthcheck.run"
  | ApplyIngress _ _ _ _ => "ingress.apply"
  | StopIngress _ => "ingress.stop"
  | FirewallAllow _ _ _ _ _ _ => "firewall.allow"
  | FirewallRevoke _ => "firewall.revoke"
  | FirewallList _ => "firewall.list"
  | FirewallReconcile => "firewall.reconcile"
  | CooldLogs _ => "coold.logs"
  | CorrosionTables _ => "corrosion.tables"
  | HostJwtSet _ => "host.jwt.set"
  end.
End CommandPayload.

Record DispatchEnvelope := mkDispatchEnvelope {
  de_host_id : string;
  de_request_id : string;
  de_command : CommandPayload.t;
}.

(* ------------------------------------------------------------------ *)
(** ** Stream messages ([agent.proto]) *)

Record ContainersCreateReq := mkContainersCreateReq {
  cc_name : string;
  cc_image : string;
  cc_command : list string;
  cc_env : list string;
  cc_networks : list string;
  cc_volumes : list string;
  cc_ports : list PortMapping;
  cc_dns : list string;
  cc_restart_policy : string;
  cc_dns_search : list string;
  cc_network_aliases : list string;
  cc_privileged : bool;
  cc_network_mode : string;
  cc_capabilities : list string;
}.

(** [server_msg::Command]. *)
Module Cmd.
Inductive t : Type :=
  | Ping
  | ImagesPull (reference : string)
  | ImagesList
  | ImagesDelete (reference : string) (force : bool)
  | ContainersCreate (req : ContainersCreateReq)
  | ContainersStart (id : string)
  | ContainersStop (id : string) (timeout_seconds : Z)
  | ContainersRestart (id : string) (timeout_seconds : Z)
  | ContainersDelete (id : string) (force : bool)
  | ContainersInspect (id : string)
  | ContainersList
  | ContainersLogs (id : string) (tail : Z) (stdout stderr : bool)
  | ContainersExec (id : string) (command : list string)
  | ContainersHealthcheckRun (id : string)
  | IngressApply (kind config mesh_network : string) (apps : list IngressAppConfig)
  | IngressStop (kind : string)
  | FirewallAllow (rule : option FirewallRule)
  | FirewallRevoke (id : string)
  | FirewallList (namespace : string)
  | FirewallReconcile
  | CooldLogs (tail : Z)
  | CorrosionTables (limit : Z)
  | HostJwtSet (jwt : string).
End Cmd.

Record ServerMsg := mkServerMsg {
  sm_request_id : string;
  sm_command : option Cmd.t;
}.

Record Hello := mkHello {
  h_host_mgmt_ip : string;
  h_coold_version : string;
  h_schema_min : Z;
  h_schema_max : Z;
  h_capabilities : list string;
}.

Record ImageSummary := mkImageSummary {
  is_id : string;
  is_repo_tags : list string;
  is_repo_digests : list string;
  is_size : Z;
  is_created : string;
}.

Record ContainerSummary := mkContainerSummary {
  cs_id : string;
  cs_name : string;
  cs_image : string;
  cs_state : string;
  cs_networks : list string;
}.

(** [response::Body]. *)
Module Body.
Inductive t : Type :=
  | ImagesPull (digest output : string)
  | ImagesList (images : list ImageSummary)
  | ImagesDelete (output : string)
  | ContainersCreate (id : string)
  | ContainersStart (output : string)
  | ContainersStop (output : string)
  | ContainersRestart (output : string)
  | ContainersDelete (output : string)
  | ContainersInspect (json_text : string)
  | ContainersList (containers : list ContainerSummary)
  | ContainersLogs (output : string)
  | ContainersExec (exit_code : Z) (output : string)
  | ContainersHealthcheckRun (output : string)
  | IngressApply (output : string)
  | IngressStop (output : string)
  | FirewallAllow (id output : string)
  | FirewallRevoke (output : string)
  | FirewallList (rules : list FirewallRule)
  | FirewallReconcile (output : string)
  | CooldLogs (output : string)
  | CorrosionTables (output : string)
  | HostJwtSet (applied : bool)
  | Error (code : Z) (message : string).
End Body.

Record Response := mkResponse {
  r_request_id : string;
  r_body : option Body.t;
}.

Record ResourceStatusUpdate := mkResourceStatusUpdate {
  rs_resource_type : string;
  rs_host_id : string;
  rs_container_id : string;
  rs_container_name : string;
  rs_status : string;
  rs_status_message : string;
}.

(** [client_msg::Payload]. *)
Module ClientMsg.
Inductive t : Type :=
  | Hello (h : Hello)
  | Response (r : Response)
  | ResourceStatusUpdate (u : ResourceStatusUpdate)
  | Pong (request_id : string)
  | NoPayload.
End ClientMsg.

(* ------------------------------------------------------------------ *)
(** ** Response envelopes ([envelope.rs]) *)

Module ResponseBody.
Inductive t : Type :=
  | Ok (data : json)
  | Error (code : Z) (message : string).

Definition output (s : string) : t := Ok (JObj [("output", JStr s)]).

Definition container_json (c : ContainerSummary) : json :=
  JObj [("id", JStr (cs_id c)); ("name", JStr (cs_name c)); ("image", JStr (cs_image c));
        ("state", JStr (cs_state c)); ("networks", jstrs (cs_networks c))].

Definition image_json (i : ImageSummary) : json :=
  JObj [("id", JStr (is_id i)); ("repo_tags", jstrs (is_repo_tags i));
        ("repo_digests", jstrs (is_repo_digests i)); ("size", JNum (is_size i));
        ("created", JStr (is_created i))].

Definition rule_json (r : FirewallRule) : json :=
  JObj [("id", JStr (fr_id r)); ("namespace", JStr (fr_namespace r)); ("src", JStr (fr_src r));
        ("dst", JStr (fr_dst r)); ("proto", JStr (fr_proto r)); ("port", JNum (fr_port r))].

Section WithJsonParser.
(** [serde_json::from_str], used on the text of [containers.inspect]. *)
Variable parse_json : string -> option json.

(** [ResponseBody::try_from_proto]. *)
Definition try_from_proto (resp : Response) : option t :=
  match r_body resp with
  | Some (Body.ContainersList cs) => Some (Ok (JArr (container_json <$> cs)))
  | Some (Body.ImagesPull digest out) =>
      Some (Ok (JObj [("digest", JStr digest); ("output", JStr out)]))
  | Some (Body.ImagesList images) => Some (Ok (JArr (image_json <$> images)))
  | Some (Body.ImagesDelete out) => Some (output out)
  | Some (Body.ContainersCreate id) => Some (Ok (JObj [("id", JStr id)]))
  | Some (Body.ContainersStart out) => Some (output out)
  | Some (Body.ContainersStop out) => Some (output out)
  | Some (Body.ContainersRestart out) => Some (output out)
  | Some (Body.ContainersDelete out) => Some (output out)
  | Some (Body.ContainersInspect text) =>
      Some (Ok (match parse_json text with
                | Some v => v
                | None => JObj [("raw", JStr text)]
                end))
  | Some (Body.ContainersLogs out) => Some (output out)
  | Some (Body.ContainersExec code out) =>
      Some (Ok (JObj [("exit_code", JNum code); ("output", JStr out)]))
  | Some (Body.ContainersHealthcheckRun out) => Some (output out)
  | Some (Body.IngressApply out) => Some (output out)
  | Some (Body.IngressStop out) => Some (output out)
  | Some (Body.FirewallAllow id out) =>
      Some (Ok (JObj [("id", JStr id); ("output", JStr out)]))
  | Some (Body.FirewallRevoke out) => Some (output out)
  | Some (Body.FirewallList rules) => Some (Ok (JArr (rule_json <$> rules)))
  | Some (Body.FirewallReconcile out) => Some (output out)
  | Some (Body.CooldLogs out) => Some (output out)
  | Some (Body.CorrosionTables out) => Some (output out)
  | Some (Body.HostJwtSet applied) => Some (Ok (JObj [("applied", JBool applied)]))
  | Some (Body.Error code message) => Some (Error code message)
  | None => Some (Error 500 "empty response body")
  end.
End WithJsonParser.
End ResponseBody.

Record ResponseEnvelope := mkResponseEnvelope {
  re_request_id : string;
  re_body : ResponseBody.t;
}.
