(* ===== verification/Serde.v ===== *)
(** * Derived [Deserialize]

    How the readers [serde] derives take a JSON value apart: the fields of a
    struct, defaults, aliases and the integers' ranges.  Shared by the clients
    and servers of both programs. *)

From S2P Require Import Prelude RustStr Messages.
Local Open Scope Z_scope.

(** The values of a struct's fields: from an object by name, where a field must
    not appear twice, or from an array by position.  A field has one name, or
    one and its aliases. *)
Definition struct_fields_alias (names : list (list string)) (j : json) : option (list (option json)) :=
  match j with
  | JObj fields =>
      mapM (fun ks => match (filter (fun f => f.1 ∈ ks) fields).*2 with
                      | [] => Some None
                      | [v] => Some (Some v)
                      | _ => None
                      end) names
  | JArr l => if (length l <=? length names)%nat then Some (imap (fun i _ => l !! i) names) else None
  | _ => None
  end.

Definition struct_fields (names : list string) (j : json) : option (list (option json)) :=
  match j with
  | JObj fields =>
      mapM (fun k => match (filter (fun f => f.1 = k) fields).*2 with
                     | [] => Some None
                     | [v] => Some (Some v)
                     | _ => None
                     end) names
  | JArr l => if (length l <=? length names)%nat then Some (imap (fun i _ => l !! i) names) else None
  | _ => None
  end.

(** A field with a default, one without, and an optional one. *)
Definition field_or {A} (dec : json -> option A) (dflt : A) (v : option json) : option A :=
  match v with Some j => dec j | None => Some dflt end.
Definition field_req {A} (dec : json -> option A) (v : option json) : option A := v ≫= dec.
Definition field_opt {A} (dec : json -> option A) (v : option json) : option (option A) :=
  match v with None | Some JNull => Some None | Some j => Some <$> dec j end.

Definition dec_bool (j : json) : option bool := match j with JBool b => Some b | _ => None end.
Definition dec_int (lo hi : Z) (j : json) : option Z :=
  match j with JNum n => if (lo <=? n) && (n <=? hi) then Some n else None | _ => None end.
Definition dec_i32 : json -> option Z := dec_int (-2147483648) 2147483647.
Definition dec_u32 : json -> option Z := dec_int 0 u32_max.
Definition dec_u64 : json -> option Z := dec_int 0 18446744073709551615.
Definition dec_i64 : json -> option Z := dec_int (-9223372036854775808) 9223372036854775807.
Definition dec_str (j : json) : option string := match j with JStr s => Some s | _ => None end.
Definition dec_list {A} (dec : json -> option A) (j : json) : option (list A) :=
  match j with JArr l => mapM dec l | _ => None end.
(** A [HashMap]: the last value of a key counts. *)
Definition dec_map {A} (dec : json -> option A) (j : json) : option (gmap string A) :=
  match j with
  | JObj fields => list_to_map <$> mapM (fun f => pair f.1 <$> dec f.2) (reverse fields)
  | _ => None
  end.
