(* ===== verification/FluxState.v ===== *)
(** * Flux state

    The two shared tables of [flux] ([flux/src/state.rs]): [Streams], the
    connected agents by host id, and [Pending], the dispatches in flight by
    request id.

    A [DashMap] is a [gmap]; an operation that takes the clock takes it as the
    argument [now].  A channel end is its identity: the table stores senders
    and moves them about, and what is sent or dropped on them is part of the
    operation's result.  An operation of [Pending] that takes the shard lock
    twice is the composition of its two critical sections, each a definition of
    its own, so that other operations can be placed between them. *)

From S2P Require Import Prelude RustStr Messages.

(* ------------------------------------------------------------------ *)
(** ** Connected agents *)

Module Streams.
(** The identity of a [mpsc::Sender<ServerMsg>]: clones share it. *)
Definition sender := nat.

Record StreamHandle := mkStreamHandle {
  tx : sender;
  caps : list string;
  advertised_caps : list string;
}.

Record StreamEntry := mkStreamEntry {
  e_tx : sender;
  e_caps : list string;
  e_advertised_caps : list string;
  e_last_seen_at : Z;
  e_reachable : bool;
}.

Record StreamInventoryItem := mkItem {
  it_host_id : string;
  it_caps : list string;
}.

Notation t := (gmap string StreamEntry).

Definition new : t := ∅.

Definition entry_of (now : Z) (h : StreamHandle) : StreamEntry :=
  mkStreamEntry (tx h) (caps h) (advertised_caps h) now true.

Definition insert (now : Z) (host_id : string) (h : StreamHandle) (s : t) : t :=
  <[host_id := entry_of now h]> s.

Definition update_capabilities (host_id : string) (cs : list string) (s : t) : t :=
  alter (fun e => mkStreamEntry (e_tx e) cs (e_advertised_caps e)
                    (e_last_seen_at e) (e_reachable e)) host_id s.

Definition remove (host_id : string) (s : t) : t := delete host_id s.

Definition get (host_id : string) (s : t) : option StreamHandle :=
  (fun e => mkStreamHandle (e_tx e) (e_caps e) (e_advertised_caps e)) <$> s !! host_id.

Definition get_tx (host_id : string) (s : t) : option sender := e_tx <$> s !! host_id.

Definition len (s : t) : nat := size s.

(** [Vec::dedup]: drop an element equal to the one before it. *)
Fixpoint dedup_from (prev : string) (l : list string) : list string :=
  match l with
  | [] => []
  | x :: l' => if decide (x = prev) then dedup_from prev l' else x :: dedup_from x l'
  end.
Definition dedup (l : list string) : list string :=
  match l with [] => [] | x :: l' => x :: dedup_from x l' end.

Definition sort_strings : list string -> list string := merge_sort String.le.

Definition item_le (a b : StreamInventoryItem) : Prop :=
  String.le (it_host_id a) (it_host_id b).
#[export] Instance item_le_dec a b : Decision (item_le a b).
Proof. unfold item_le. apply _. Defined.

Definition item_of (kv : string * StreamEntry) : StreamInventoryItem :=
  mkItem kv.1 (dedup (sort_strings (e_caps kv.2))).

Definition snapshot (s : t) : list StreamInventoryItem :=
  merge_sort item_le (item_of <$> map_to_list s).

(** [touch]: record a pong; whether the host had been marked unreachable. *)
Definition touch (now : Z) (host_id : string) (s : t) : bool * t :=
  match s !! host_id with
  | None => (false, s)
  | Some e =>
      (negb (e_reachable e),
       <[host_id := mkStreamEntry (e_tx e) (e_caps e) (e_advertised_caps e) now true]> s)
  end.

Definition ping_targets (s : t) : list (string * sender) :=
  (fun kv => (kv.1, e_tx kv.2)) <$> map_to_list s.

Definition is_stale (now timeout : Z) (e : StreamEntry) : bool :=
  e_reachable e && (timeout <=? duration_since now (e_last_seen_at e))%Z.

Definition mark_unreachable (e : StreamEntry) : StreamEntry :=
  mkStreamEntry (e_tx e) (e_caps e) (e_advertised_caps e) (e_last_seen_at e) false.

(** [mark_stale]: the hosts newly unreachable, sorted, and the table with
    them marked. *)
Definition mark_stale (now timeout : Z) (s : t) : list string * t :=
  (sort_strings (fst <$> filter (fun kv => is_stale now timeout kv.2) (map_to_list s)),
   (fun e => if is_stale now timeout e then mark_unreachable e else e) <$> s).
End Streams.

(* ------------------------------------------------------------------ *)
(** ** Pending dispatches *)

Module Pending.
Definition LANDED_TTL_SECS : Z := 30.

Inductive PendingKind : Set := Coold.

Inductive ResponseData := RCoold (body : ResponseBody.t).

(** The identity of a [oneshot] pair: the table keeps the sender, the
    handler the receiver. *)
Definition sink := nat.

Inductive PendingState :=
  | Waiting (sinks : list sink)
  | Landed (body : ResponseData) (until : Z).

Record PendingEntry := mkEntry {
  host_id : string;
  kind : PendingKind;
  started_at : Z;
  state : PendingState;
}.

Record PendingSnapshot := mkSnapshot {
  s_host_id : string;
  s_kind : PendingKind;
}.

Inductive ParkResult :=
  | Parked (rx : sink)
  | AlreadyLanded (body : ResponseData)
  | NotFound.

Inductive InsertOutcome := Inserted | Duplicate | AtCapacity.

(** The table, and the supply of fresh [oneshot] identities. *)
Record t := mkPending {
  entries : gmap string PendingEntry;
  next_sink : sink;
}.

Definition new : t := mkPending ∅ 0.

Definition set_entries (f : gmap string PendingEntry -> gmap string PendingEntry) (p : t) : t :=
  mkPending (f (entries p)) (next_sink p).

Definition insert_waiting (now : Z) (request_id host : string) (k : PendingKind)
    (max : nat) (p : t) : InsertOutcome * t :=
  if (max <=? size (entries p))%nat then (AtCapacity, p)
  else match entries p !! request_id with
       | Some _ => (Duplicate, p)
       | None =>
           (Inserted,
            set_entries (insert request_id (mkEntry host k now (Waiting []))) p)
       end.

Definition snapshot (e : PendingEntry) : PendingSnapshot :=
  mkSnapshot (host_id e) (kind e).

(** The senders an entry owns; dropping the entry drops them. *)
Definition entry_sinks (e : PendingEntry) : list sink :=
  match state e with Waiting sinks => sinks | Landed _ _ => [] end.

Definition remove (request_id : string) (p : t) : option PendingSnapshot * t :=
  (snapshot <$> entries p !! request_id, set_entries (delete request_id) p).

Definition get (request_id : string) (p : t) : option PendingSnapshot :=
  snapshot <$> entries p !! request_id.

Definition with_state (e : PendingEntry) (st : PendingState) : PendingEntry :=
  mkEntry (host_id e) (kind e) (started_at e) st.

(** *** [park], in its two critical sections *)

Inductive ParkOutcome := OParked (rx : sink) | OLanded (body : ResponseData).

Definition park_locked (request_id : string) (p : t) : option ParkOutcome * t :=
  match entries p !! request_id with
  | None => (None, p)
  | Some e =>
      match state e with
      | Waiting sinks =>
          (Some (OParked (next_sink p)),
           mkPending (<[request_id := with_state e (Waiting (sinks ++ [next_sink p]))]> (entries p))
             (S (next_sink p)))
      | Landed body _ => (Some (OLanded body), p)
      end
  end.

Definition park_finish (request_id : string) (o : option ParkOutcome) (p : t) : ParkResult * t :=
  match o with
  | None => (NotFound, p)
  | Some (OParked rx) => (Parked rx, p)
  | Some (OLanded body) => (AlreadyLanded body, set_entries (delete request_id) p)
  end.

Definition park (request_id : string) (p : t) : ParkResult * t :=
  let '(o, p1) := park_locked request_id p in park_finish request_id o p1.

(** *** [deliver], in its two critical sections *)

(** What is sent on which sink, whether a handler was parked, the table. *)
Definition deliver_locked (now : Z) (request_id : string) (body : ResponseData) (p : t)
    : list (sink * ResponseData) * bool * t :=
  match entries p !! request_id with
  | None => ([], false, p)
  | Some e =>
      let new_state := Landed body (now + from_secs LANDED_TTL_SECS) in
      let p1 := set_entries (insert request_id (with_state e new_state)) p in
      match state e with
      | Waiting sinks =>
          ((fun s => (s, body)) <$> sinks, negb (bool_decide (sinks = [])), p1)
      | Landed _ _ => ([], false, p1)
      end
  end.

Definition deliver_finish (request_id : string) (fanned_out_to_live_sink : bool) (p : t) : t :=
  if fanned_out_to_live_sink then set_entries (delete request_id) p else p.

Definition deliver (now : Z) (request_id : string) (body : ResponseData) (p : t)
    : list (sink * ResponseData) * t :=
  let '(sends, fanned, p1) := deliver_locked now request_id body p in
  (sends, deliver_finish request_id fanned p1).

(** *** [drain_expired]: collect the expired ids, then remove each *)

Definition is_expired (now coold_timeout : Z) (e : PendingEntry) : bool :=
  match state e with
  | Waiting _ => (coold_timeout <=? duration_since now (started_at e))%Z
  | Landed _ until => (until <=? now)%Z
  end.

Definition expired_ids (now coold_timeout : Z) (p : t) : list string :=
  fst <$> filter (fun kv => is_expired now coold_timeout kv.2) (map_to_list (entries p)).

Fixpoint remove_all (ids : list string) (p : t) : list (string * PendingSnapshot) * t :=
  match ids with
  | [] => ([], p)
  | id :: ids' =>
      let '(o, p1) := remove id p in
      let '(out, p2) := remove_all ids' p1 in
      (match o with Some s => (id, s) :: out | None => out end, p2)
  end.

Definition drain_expired (now coold_timeout : Z) (p : t) : list (string * PendingSnapshot) * t :=
  remove_all (expired_ids now coold_timeout p) p.
End Pending.

(* ------------------------------------------------------------------ *)
(** ** Properties of [Streams] *)

Module StreamsFacts.
Import Streams.

Lemma sort_strings_perm l : sort_strings l ≡ₚ l.
Proof. apply merge_sort_Permutation. Qed.

Lemma sort_strings_sorted l : Sorted String.le (sort_strings l).
Proof. apply Sorted_merge_sort. apply _. Qed.

(** Two permutations of a list sort to the same list. *)
Lemma sort_strings_unique l1 l2 : l1 ≡ₚ l2 -> sort_strings l1 = sort_strings l2.
Proof.
  intros H. apply (Sorted_unique String.le); [apply sort_strings_sorted..|].
  by rewrite !sort_strings_perm.
Qed.

Lemma mark_stale_lookup now timeout s h :
  (mark_stale now timeout s).2 !! h =
  (fun e => if is_stale now timeout e then mark_unreachable e else e) <$> s !! h.
Proof. apply lookup_fmap. Qed.

Lemma mark_stale_elem now timeout s h :
  h ∈ (mark_stale now timeout s).1 <->
  exists e, s !! h = Some e /\ is_stale now timeout e = true.
Proof.
  unfold mark_stale; simpl. rewrite sort_strings_perm, list_elem_of_fmap.
  split.
  - intros ([h' e] & -> & Hin). apply list_elem_of_filter in Hin as [Hst Hin].
    apply elem_of_map_to_list in Hin. exists e. by rewrite <- Is_true_true.
  - intros (e & He & Hst). exists (h, e). split; [done|].
    apply list_elem_of_filter. rewrite elem_of_map_to_list. by rewrite Is_true_true.
Qed.

Lemma is_stale_reachable now timeout e : is_stale now timeout e = true -> e_reachable e = true.
Proof. unfold is_stale. intros [? _]%andb_true_iff. done. Qed.

(** A host marked stale is not reported again by a scan at any later time. *)
Lemma mark_stale_quiet now timeout now' timeout' s h :
  h ∈ (mark_stale now timeout s).1 ->
  h ∉ (mark_stale now' timeout' (mark_stale now timeout s).2).1.
Proof.
  intros (e & He & Hst)%mark_stale_elem (e' & He' & Hst')%mark_stale_elem.
  rewrite mark_stale_lookup, He in He'. simpl in He'. rewrite Hst in He'.
  apply is_stale_reachable in Hst'. by simplify_eq.
Qed.

(** The liveness scan reports a host exactly when its last pong is at
    least [timeout] old and it was not reported since; it reports each once,
    in order; and after a pong ([touch] says the host was restored) a new
    silence of [timeout] is reported again. *)
Theorem mark_stale_reports_once now timeout s h e :
  s !! h = Some e -> is_stale now timeout e = true ->
  let s1 := (mark_stale now timeout s).2 in
  Sorted String.le (mark_stale now timeout s).1 /\
  h ∈ (mark_stale now timeout s).1 /\
  (forall now' timeout', h ∉ (mark_stale now' timeout' s1).1) /\
  (forall tp, (touch tp h s1).1 = true /\
     forall now', (timeout <= duration_since now' tp)%Z ->
       h ∈ (mark_stale now' timeout (touch tp h s1).2).1).
Proof.
  intros He Hst s1.
  assert (h ∈ (mark_stale now timeout s).1) as Hin by (apply mark_stale_elem; eauto).
  assert (s1 !! h = Some (mark_unreachable e)) as H1
    by (unfold s1; rewrite mark_stale_lookup, He; simpl; by rewrite Hst).
  split_and!; [apply sort_strings_sorted|done|eauto using mark_stale_quiet|].
  intros tp. unfold touch. rewrite H1; simpl. split; [done|].
  intros now' Hle. apply mark_stale_elem. eexists.
  rewrite lookup_insert_eq. split; [done|]. unfold is_stale; simpl. by apply Z.leb_le.
Qed.

Lemma mark_stale_reports_once_witness :
  let e := mkStreamEntry 0 ["images.list"] ["images.list"] (from_secs 5) true in
  let s := insert (from_secs 5) "10.42.0.7" (mkStreamHandle 0 ["images.list"] ["images.list"]) new in
  s !! "10.42.0.7" = Some e /\ is_stale (from_secs 60) (from_secs 45) e = true /\
  "10.42.0.7" ∈ (mark_stale (from_secs 60) (from_secs 45) s).1.
Proof.
  intros e s. assert (s !! "10.42.0.7" = Some e) as H1 by reflexivity.
  assert (is_stale (from_secs 60) (from_secs 45) e = true) as H2 by reflexivity.
  split; [exact H1|]. split; [exact H2|].
  exact (proj1 (proj2 (mark_stale_reports_once _ _ s "10.42.0.7" e H1 H2))).
Defined.

Lemma dedup_from_elem p l x : x ∈ dedup_from p l -> x ∈ l.
Proof.
  revert p; induction l as [|y l IH]; intros p; simpl; [done|].
  case_decide as E; intros H; [right; eauto|].
  apply elem_of_cons in H as [->|H]; [left|right; eauto].
Qed.

Lemma dedup_from_complete p l x : x ∈ l -> x = p \/ x ∈ dedup_from p l.
Proof.
  revert p; induction l as [|y l IH]; intros p; simpl; [intros []%elem_of_nil|].
  intros [->|H]%elem_of_cons; case_decide; subst; auto.
  - right; left.
  - destruct (IH y H) as [->|?]; right; [left|by right].
Qed.

Lemma dedup_elem l x : x ∈ dedup l <-> x ∈ l.
Proof.
  destruct l as [|y l]; simpl; [done|]. rewrite !elem_of_cons. split.
  - intros [->|H]; [auto|right; eauto using dedup_from_elem].
  - intros [->|H]; [auto|]. destruct (dedup_from_complete y l x H); auto.
Qed.

(** On a sorted list, what follows [p] after deduplication is above [p]. *)
Lemma dedup_from_sorted p l :
  StronglySorted String.le (p :: l) ->
  StronglySorted (fun a b => String.le a b /\ a <> b) (p :: dedup_from p l).
Proof.
  revert p; induction l as [|y l IH]; intros p; [by constructor; [constructor|]|].
  intros Hs; simpl. inversion Hs as [|? ? Hs1 Hall]; subst.
  inversion Hall as [|? ? Hpy Hall']; subst.
  inversion Hs1 as [|? ? Hs2 Hall2]; subst.
  case_decide as E; [apply IH; by constructor|].
  constructor; [by apply IH|]. apply Forall_cons; split; [done|].
  apply Forall_forall. intros z Hz%dedup_from_elem.
  rewrite Forall_forall in Hall', Hall2. split; [by apply Hall'|].
  intros <-. apply E. apply (anti_symm String.le); [by apply Hall2|done].
Qed.

Lemma dedup_sorted l :
  StronglySorted String.le l -> StronglySorted (fun a b => String.le a b /\ a <> b) (dedup l).
Proof. destruct l as [|x l]; [constructor|]. apply dedup_from_sorted. Qed.

#[local] Instance item_le_total : Total item_le.
Proof. intros a b. unfold item_le. apply (total String.le). Qed.
#[local] Instance item_le_trans : Transitive item_le.
Proof. intros a b c. unfold item_le. apply (transitivity (R := String.le)). Qed.

(** The stream inventory lists every connected host once, in host order,
    with exactly the capabilities it is authorized for, each once and in
    order. *)
Theorem snapshot_inventory s :
  Sorted item_le (snapshot s) /\
  NoDup (it_host_id <$> snapshot s) /\
  (forall h, h ∈ it_host_id <$> snapshot s <-> is_Some (s !! h)) /\
  (forall i, i ∈ snapshot s -> exists e, s !! it_host_id i = Some e /\
     (forall c, c ∈ it_caps i <-> c ∈ e_caps e) /\
     StronglySorted (fun a b => String.le a b /\ a <> b) (it_caps i)).
Proof.
  assert (it_host_id <$> snapshot s ≡ₚ (map_to_list s).*1) as Hp.
  { unfold snapshot. rewrite (merge_sort_Permutation item_le).
    rewrite <- list_fmap_compose. done. }
  split_and!.
  - apply Sorted_merge_sort. apply _.
  - rewrite Hp. apply NoDup_fst_map_to_list.
  - intros h. rewrite Hp, list_elem_of_fmap. split.
    + intros ([h' e] & -> & H%elem_of_map_to_list). eauto.
    + intros [e He]. exists (h, e). by rewrite elem_of_map_to_list.
  - intros i Hi. unfold snapshot in Hi. rewrite (merge_sort_Permutation item_le) in Hi.
    apply list_elem_of_fmap in Hi as ([h e] & -> & H%elem_of_map_to_list).
    exists e; simpl. split_and!; [done| |].
    + intros c. by rewrite dedup_elem, sort_strings_perm.
    + apply dedup_sorted, StronglySorted_merge_sort; apply _.
Qed.
End StreamsFacts.

(* ------------------------------------------------------------------ *)
(** ** Properties of [Pending] *)

Module PendingFacts.
Import Pending.

(** *** The abstract exchange of one request id *)

(** An exchange belongs to the host it was opened for. *)
Inductive phase :=
  | Absent
  | PWaiting (who : PendingSnapshot) (sinks : list sink)
  | PLanded (who : PendingSnapshot) (body : ResponseData) (until : Z).

Definition phase_of (e : PendingEntry) : phase :=
  let who := mkSnapshot (host_id e) (kind e) in
  match state e with Waiting ss => PWaiting who ss | Landed b u => PLanded who b u end.

Definition phase_at (p : t) (r : string) : phase :=
  match entries p !! r with None => Absent | Some e => phase_of e end.

(** Opening an exchange, when there are [opened] of at most [max]. *)
Definition spec_open (opened max : nat) (who : PendingSnapshot) (ph : phase) : InsertOutcome * phase :=
  if decide (opened < max)%nat then
    match ph with Absent => (Inserted, PWaiting who []) | _ => (Duplicate, ph) end
  else (AtCapacity, ph).

(** A handler asks for the response, with a fresh sink in hand. *)
Definition spec_park (fresh : sink) (ph : phase) : ParkResult * phase :=
  match ph with
  | Absent => (NotFound, Absent)
  | PWaiting who ss => (Parked fresh, PWaiting who (ss ++ [fresh]))
  | PLanded _ b _ => (AlreadyLanded b, Absent)
  end.

(** The response arrives: every waiting handler gets it and the exchange is
    over, or it is kept for the first handler that asks before [until]. *)
Definition spec_deliver (dl : Z) (b : ResponseData) (ph : phase)
    : list (sink * ResponseData) * phase :=
  match ph with
  | Absent => ([], Absent)
  | PWaiting who [] | PLanded who _ _ => ([], PLanded who b dl)
  | PWaiting _ ss => ((fun s => (s, b)) <$> ss, Absent)
  end.

(** The exchange is closed, and the answer says whose it was. *)
Definition spec_close (ph : phase) : option PendingSnapshot * phase :=
  match ph with
  | Absent => (None, Absent)
  | PWaiting who _ | PLanded who _ _ => (Some who, Absent)
  end.

(** One call on the exchange of [r]: its answer and the state it leaves are those
    of [spec], and every other exchange is as it was. *)
Definition implements {A} (r : string) (p : t) (call : A * t) (spec : A * phase) : Prop :=
  call.1 = spec.1 /\ forall r', phase_at call.2 r' = if decide (r = r') then spec.2 else phase_at p r'.

Lemma phase_at_insert p r e r' :
  phase_at (set_entries (insert r e) p) r' =
  if decide (r = r') then phase_of e else phase_at p r'.
Proof. unfold phase_at; simpl. rewrite lookup_insert. by case_decide. Qed.

Lemma phase_at_delete p r r' :
  phase_at (set_entries (delete r) p) r' = if decide (r = r') then Absent else phase_at p r'.
Proof. unfold phase_at; simpl. rewrite lookup_delete. by case_decide. Qed.

Lemma phase_at_of p r : phase_at p r = from_option phase_of Absent (entries p !! r).
Proof. unfold phase_at. by destruct (entries p !! r). Qed.

Lemma phase_at_keep p r r' : phase_at p r' = if decide (r = r') then phase_at p r else phase_at p r'.
Proof. case_decide; [by subst|done]. Qed.

(** Splits a call on the exchange of [r] by what the table has of it. *)
Local Ltac exchange p r :=
  pose proof (phase_at_of p r) as Hph; destruct (entries p !! r) as [e|] eqn:E; cbn in Hph;
  [unfold phase_of in Hph; destruct (state e) as [[|s ss]|b' u] eqn:Hst|];
  rewrite ?Hph; (split; [done|]); intros r'; 
  cbn [fst snd spec_open spec_park spec_deliver park_finish deliver_finish];
  rewrite ?phase_at_delete, ?phase_at_insert; try (rewrite <- Hph; apply phase_at_keep);
  try (case_decide; unfold phase_of; cbn; by repeat match goal with H : state _ = _ |- _ => rewrite H end).

Lemma insert_waiting_refines now r h k max p :
  implements r p (insert_waiting now r h k max p)
    (spec_open (size (entries p)) max (mkSnapshot h k) (phase_at p r)).
Proof.
  unfold insert_waiting, implements, spec_open. destruct (Nat.leb_spec max (size (entries p))).
  { rewrite decide_False by lia. split; [done|]. intros r'. apply phase_at_keep. }
  rewrite decide_True by lia. exchange p r.
Qed.

Lemma park_refines r p : implements r p (park r p) (spec_park (next_sink p) (phase_at p r)).
Proof.
  unfold park, park_locked, implements. exchange p r.
  - unfold phase_at; cbn. rewrite lookup_insert. by case_decide.
  - unfold phase_at; cbn. rewrite lookup_insert. by case_decide.
Qed.

Lemma deliver_refines now r b p :
  implements r p (deliver now r b p) (spec_deliver (now + from_secs LANDED_TTL_SECS)%Z b (phase_at p r)).
Proof.
  unfold deliver, deliver_locked, implements. exchange p r;
    cbn -[phase_at set_entries]; rewrite ?phase_at_delete, ?phase_at_insert; by repeat case_decide.
Qed.

Lemma remove_refines r p : implements r p (remove r p) (spec_close (phase_at p r)).
Proof.
  unfold remove, implements. cbn. split.
  - unfold phase_at, phase_of. destruct (entries p !! r) as [e|]; [|done]. cbn. by destruct (state e).
  - intros r'. rewrite phase_at_delete. case_decide; [|done]. by destruct (phase_at p r).
Qed.

(** C21. Refinement: each call of the table on [r] behaves as the abstract
    exchange of [r] prescribes, in its answer, in what it sends and in the state
    it leaves, and leaves every other exchange as it was; a table that is full
    refuses to open an exchange, and one that is closed is told with its host. *)
Theorem pending_refines_exchange now r host k max b p :
  implements r p (insert_waiting now r host k max p)
    (spec_open (size (entries p)) max (mkSnapshot host k) (phase_at p r)) /\
  implements r p (park r p) (spec_park (next_sink p) (phase_at p r)) /\
  implements r p (deliver now r b p) (spec_deliver (now + from_secs LANDED_TTL_SECS)%Z b (phase_at p r)) /\
  implements r p (remove r p) (spec_close (phase_at p r)).
Proof.
  split_and!; first [apply insert_waiting_refines | apply park_refines | apply deliver_refines | apply remove_refines].
Qed.

(** *** The sweeper *)

Lemma remove_all_lookup ids p r :
  entries (remove_all ids p).2 !! r = if decide (r ∈ ids) then None else entries p !! r.
Proof.
  revert p; induction ids as [|id ids IH]; intros p.
  - rewrite decide_False by set_solver. done.
  - specialize (IH (set_entries (delete id) p)). cbn [remove_all remove].
    destruct (remove_all ids _) as [out p2]. cbn [fst snd entries set_entries] in *.
    rewrite IH, lookup_delete. repeat case_decide; set_solver.
Qed.

Lemma remove_all_out ids p r sn :
  NoDup ids ->
  (r, sn) ∈ (remove_all ids p).1 <->
  r ∈ ids /\ exists e, entries p !! r = Some e /\ sn = snapshot e.
Proof.
  revert p; induction ids as [|id ids IH]; intros p Hn; simpl.
  { rewrite elem_of_nil. set_solver. }
  apply NoDup_cons in Hn as [Hid Hn].
  specialize (IH (set_entries (delete id) p) Hn).
  destruct (remove_all ids _) as [out p2]; simpl in *.
  assert (forall e', entries p !! r = Some e' -> r ∈ ids -> r <> id) by set_solver.
  assert ((r, sn) ∈ out <-> r ∈ ids /\ exists e, entries p !! r = Some e /\ sn = snapshot e) as IH'.
  { rewrite IH. split; intros (Hr & e & He & ->); (split; [done|]); exists e; split; try done;
      [apply lookup_delete_Some in He as [_ ?]; done|].
    apply lookup_delete_Some. split; [set_solver|done]. }
  destruct (entries p !! id) as [e|] eqn:E; simpl; rewrite ?elem_of_cons, IH'; [|naive_solver].
  split; [intros [[= -> ->]|(? & ? & ? & ?)]; eauto|].
  intros [[->|Hr] (e' & He' & ->)]; [left; congruence|right; eauto].
Qed.

Lemma expired_ids_elem now timeout p r :
  r ∈ expired_ids now timeout p <->
  exists e, entries p !! r = Some e /\ is_expired now timeout e = true.
Proof.
  unfold expired_ids. rewrite list_elem_of_fmap. split.
  - intros ([r' e] & -> & H). apply list_elem_of_filter in H as [Hx H].
    apply elem_of_map_to_list in H. exists e. by rewrite <- Is_true_true.
  - intros (e & He & Hx). exists (r, e). split; [done|].
    apply list_elem_of_filter. by rewrite elem_of_map_to_list, Is_true_true.
Qed.

Lemma expired_ids_NoDup now timeout p : NoDup (expired_ids now timeout p).
Proof.
  unfold expired_ids. eapply sublist_NoDup; [apply (NoDup_fst_map_to_list (entries p))|].
  apply fmap_sublist, sublist_filter.
Qed.

(** The sweep evicts exactly the expired entries: a waiting dispatch once
    [timeout] has passed since it was opened, a landed response once its
    deadline is reached.  It reports each evicted entry and keeps every other
    one untouched. *)
Theorem drain_expired_exact now timeout p :
  let '(out, p') := drain_expired now timeout p in
  (forall r, entries p' !! r =
     match entries p !! r with
     | Some e => if is_expired now timeout e then None else Some e
     | None => None
     end) /\
  (forall r sn, (r, sn) ∈ out <-> exists e, entries p !! r = Some e /\
     is_expired now timeout e = true /\ sn = snapshot e).
Proof.
  pose proof (remove_all_lookup (expired_ids now timeout p) p) as Hl.
  pose proof (fun r sn => remove_all_out (expired_ids now timeout p) p r sn
                (expired_ids_NoDup now timeout p)) as Ho.
  unfold drain_expired. destruct (remove_all _ p) as [out p']; simpl in *. split.
  - intros r. rewrite Hl. destruct (entries p !! r) as [e|] eqn:E; [|by case_decide].
    destruct (is_expired now timeout e) eqn:Hx; case_decide as D; try done.
    + exfalso. apply D, expired_ids_elem. eauto.
    + apply expired_ids_elem in D as (e' & ? & ?). congruence.
  - intros r sn. rewrite Ho, expired_ids_elem. naive_solver.
Qed.

(** *** Capacity *)

Inductive op :=
  | OpInsert (now : Z) (r host : string)
  | OpRemove (r : string)
  | OpPark (r : string)
  | OpDeliver (now : Z) (r : string) (b : ResponseData)
  | OpDrain (now timeout : Z).

Definition exec (max : nat) (p : t) (o : op) : t :=
  match o with
  | OpInsert now r host => (insert_waiting now r host Coold max p).2
  | OpRemove r => (remove r p).2
  | OpPark r => (park r p).2
  | OpDeliver now r b => (deliver now r b p).2
  | OpDrain now timeout => (drain_expired now timeout p).2
  end.

Lemma size_delete_le (m : gmap string PendingEntry) r : (size (delete r m) <= size m)%nat.
Proof.
  destruct (m !! r) eqn:E; [|by rewrite delete_id].
  rewrite map_size_delete_Some by eauto. lia.
Qed.

Lemma size_update (m : gmap string PendingEntry) r e e' :
  m !! r = Some e -> size (<[r := e']> m) = size m.
Proof. intros H. by rewrite map_size_insert_Some. Qed.

Lemma size_remove_all ids p : (size (entries (remove_all ids p).2) <= size (entries p))%nat.
Proof.
  revert p; induction ids as [|id ids IH]; intros p; simpl; [done|].
  specialize (IH (set_entries (delete id) p)).
  destruct (remove_all ids _); simpl in *. pose proof (size_delete_le (entries p) id). lia.
Qed.

Lemma exec_size max p o :
  (size (entries p) <= max)%nat -> (size (entries (exec max p o)) <= max)%nat.
Proof.
  intros Hle. destruct o as [now r h|r|r|now r b|now timeout]; simpl.
  - unfold insert_waiting. destruct (Nat.leb_spec max (size (entries p))); [done|].
    destruct (entries p !! r) eqn:E; simpl; [done|]. rewrite map_size_insert_None by done. lia.
  - pose proof (size_delete_le (entries p) r). lia.
  - unfold park, park_locked. destruct (entries p !! r) as [e|] eqn:E; [|done].
    destruct (state e); simpl; [by rewrite (size_update _ _ e)|].
    pose proof (size_delete_le (entries p) r). lia.
  - unfold deliver, deliver_locked. destruct (entries p !! r) as [e|] eqn:E; [|done].
    destruct (state e) as [[|? ?]|]; simpl;
      try pose proof (size_delete_le (<[r:=with_state e (Landed b (now + from_secs LANDED_TTL_SECS))]>
        (entries p)) r); rewrite (size_update _ _ e) in * by done; lia.
  - unfold drain_expired. pose proof (size_remove_all (expired_ids now timeout p) p). lia.
Qed.

(** Bounded memory: however calls follow one another, the table never
    holds more than [pending_max] entries. *)
Theorem pending_bounded max ops :
  (size (entries (fold_left (exec max) ops new)) <= max)%nat.
Proof.
  cut (forall p, size (entries p) <= max -> size (entries (fold_left (exec max) ops p)) <= max)%nat.
  { intros H. apply H. simpl. rewrite map_size_empty. lia. }
  induction ops as [|o ops IH]; intros p Hp; simpl; [done|]. apply IH, exec_size, Hp.
Qed.
End PendingFacts.
