(* ===== verification/FluxConc.v ===== *)
(** * Pending under concurrency

    Every task of [flux] (the dispatch handlers of [unix_bridge.rs], the stream
    tasks and the sweeper of [main.rs]) works on the one [Pending] table.  The
    table's methods are not atomic: [insert_waiting] samples the length before
    it takes the slot, [park], [deliver] and [drain_expired] release the shard
    lock between their two critical sections.  Here the critical sections are
    the steps of a transition system, with what is left of an unfinished call
    kept as a continuation, so that a reachable state is a state some
    interleaving of the calls leads to.

    The history records what handlers and senders observed: the sinks handed to
    parked handlers, the bodies sent on sinks, and the sinks dropped unsent. *)

From S2P Require Import Prelude RustStr Messages FluxState.
Import Pending.

(* ------------------------------------------------------------------ *)
(** ** The transition system *)

Inductive cont :=
  | KInsert (request_id host : string)
  | KParkLanded (request_id : string) (body : ResponseData)
  | KDeliver (request_id : string)
  | KDrain (request_id : string).

Record world := mkWorld {
  tbl : Pending.t;
  conts : list cont;
  h_parked : list (string * sink);
  h_delivered : list (string * ResponseData);
  h_sent : list (sink * ResponseData);
  h_dropped : list sink;
}.

Definition world0 : world := mkWorld Pending.new [] [] [] [] [].

(** Removing the entry of [r] drops the senders it owns. *)
Definition drops (r : string) (p : Pending.t) : list sink :=
  match entries p !! r with Some e => entry_sinks e | None => [] end.

Definition erase (r : string) (w : world) (ks : list cont) : world :=
  mkWorld (remove r (tbl w)).2 ks (h_parked w) (h_delivered w) (h_sent w)
    (h_dropped w ++ drops r (tbl w)).

Definition parked_by (o : option ParkOutcome) (r : string) : list (string * sink) :=
  match o with Some (OParked s) => [(r, s)] | _ => [] end.

Definition landed_by (o : option ParkOutcome) (r : string) : list cont :=
  match o with Some (OLanded b) => [KParkLanded r b] | _ => [] end.

Section System.
(** [pending_max] and [dispatch_timeout]. *)
Context (max : nat) (coold_timeout : Z).

Inductive step : world -> world -> Prop :=
  (** [insert_waiting]: the length check, then the slot. *)
  | step_insert_check w r host :
      (size (entries (tbl w)) < max)%nat ->
      step w (mkWorld (tbl w) (KInsert r host :: conts w) (h_parked w) (h_delivered w)
                (h_sent w) (h_dropped w))
  | step_insert_slot w now r host ks1 ks2 :
      conts w = ks1 ++ KInsert r host :: ks2 ->
      step w (mkWorld (if entries (tbl w) !! r is Some _ then tbl w
                       else set_entries (insert r (mkEntry host Coold now (Waiting []))) (tbl w))
                (ks1 ++ ks2) (h_parked w) (h_delivered w) (h_sent w) (h_dropped w))
  (** [park]. *)
  | step_park w r o p1 :
      park_locked r (tbl w) = (o, p1) ->
      step w (mkWorld p1 (landed_by o r ++ conts w) (h_parked w ++ parked_by o r)
                (h_delivered w) (h_sent w) (h_dropped w))
  | step_park_finish w r b ks1 ks2 :
      conts w = ks1 ++ KParkLanded r b :: ks2 ->
      step w (erase r w (ks1 ++ ks2))
  (** [deliver]. *)
  | step_deliver w now r body sends fanned p1 :
      deliver_locked now r body (tbl w) = (sends, fanned, p1) ->
      step w (mkWorld p1 (if fanned then KDeliver r :: conts w else conts w)
                (h_parked w) (h_delivered w ++ [(r, body)]) (h_sent w ++ sends) (h_dropped w))
  | step_deliver_finish w r ks1 ks2 :
      conts w = ks1 ++ KDeliver r :: ks2 ->
      step w (erase r w (ks1 ++ ks2))
  (** [remove], on the failure paths of a dispatch. *)
  | step_remove w r :
      step w (erase r w (conts w))
  (** [drain_expired]: the scan, then one removal at a time. *)
  | step_drain_scan w now :
      step w (mkWorld (tbl w)
                ((KDrain <$> expired_ids now coold_timeout (tbl w)) ++ conts w)
                (h_parked w) (h_delivered w) (h_sent w) (h_dropped w))
  | step_drain_one w r ks1 ks2 :
      conts w = ks1 ++ KDrain r :: ks2 ->
      step w (erase r w (ks1 ++ ks2)).

Definition reachable (w : world) : Prop := rtc step world0 w.

(* ---------------------------------------------------------------- *)
(** ** The sinks a table owns *)

Definition all_sinks (m : gmap string PendingEntry) : list sink :=
  map_to_list m ≫= (fun kv => entry_sinks kv.2).

Lemma all_sinks_insert m r e :
  m !! r = None -> all_sinks (<[r := e]> m) ≡ₚ entry_sinks e ++ all_sinks m.
Proof. intros H. unfold all_sinks. by rewrite (map_to_list_insert m r e H). Qed.

Lemma all_sinks_delete m r e :
  m !! r = Some e -> all_sinks m ≡ₚ entry_sinks e ++ all_sinks (delete r m).
Proof. intros H. unfold all_sinks. by rewrite <- (map_to_list_delete m r e H). Qed.

Lemma all_sinks_update m r e e' :
  m !! r = Some e ->
  exists rest, all_sinks m ≡ₚ entry_sinks e ++ rest /\
               all_sinks (<[r := e']> m) ≡ₚ entry_sinks e' ++ rest.
Proof.
  intros H. exists (all_sinks (delete r m)). split; [by apply all_sinks_delete|].
  rewrite <- insert_delete_eq. apply all_sinks_insert, lookup_delete_eq.
Qed.

Lemma all_sinks_erase m r :
  all_sinks m ≡ₚ drops r (mkPending m 0) ++ all_sinks (delete r m).
Proof.
  unfold drops; simpl. destruct (m !! r) eqn:E; [by apply all_sinks_delete|].
  by rewrite delete_id.
Qed.

(* ---------------------------------------------------------------- *)
(** ** The invariant *)

Record Inv (w : world) : Prop := mkInv {
  (** every sink handed out is owned by the table, sent on, or dropped *)
  inv_split : (h_parked w).*2 ≡ₚ
    all_sinks (entries (tbl w)) ++ (h_sent w).*1 ++ h_dropped w;
  inv_nodup : NoDup (h_parked w).*2;
  inv_fresh : forall s, s ∈ (h_parked w).*2 -> (s < next_sink (tbl w))%nat;
  (** a sink in the entry of [r] was handed to a handler of [r] *)
  inv_owner : forall r e s, entries (tbl w) !! r = Some e -> s ∈ entry_sinks e ->
    (r, s) ∈ h_parked w;
  (** a body sent on a sink of [r] was delivered for [r] *)
  inv_sent : forall s b, (s, b) ∈ h_sent w ->
    exists r, (r, s) ∈ h_parked w /\ (r, b) ∈ h_delivered w;
}.

Lemma inv0 : Inv world0.
Proof.
  split; simpl.
  - unfold all_sinks. by rewrite map_to_list_empty.
  - constructor.
  - set_solver.
  - intros r e s H. by rewrite lookup_empty in H.
  - set_solver.
Qed.

Lemma inv_conts w ks :
  Inv w -> Inv (mkWorld (tbl w) ks (h_parked w) (h_delivered w) (h_sent w) (h_dropped w)).
Proof. intros []; split; auto. Qed.

Lemma inv_erase w r ks : Inv w -> Inv (erase r w ks).
Proof.
  intros [Hs Hn Hf Ho Ht]; split; simpl; auto.
  - rewrite Hs, (all_sinks_erase (entries (tbl w)) r). unfold drops; simpl.
    solve_Permutation.
  - intros r' e s H. apply lookup_delete_Some in H as [_ H]. eauto.
Qed.

Lemma inv_insert_slot w now r host ks :
  Inv w -> entries (tbl w) !! r = None ->
  Inv (mkWorld (set_entries (insert r (mkEntry host Coold now (Waiting []))) (tbl w)) ks
         (h_parked w) (h_delivered w) (h_sent w) (h_dropped w)).
Proof.
  intros [Hs Hn Hf Ho Ht] Hr; split; simpl; auto.
  - by rewrite Hs, all_sinks_insert.
  - intros r' e s [[<- <-]|[_ H]]%lookup_insert_Some; [set_solver|eauto].
Qed.

Lemma inv_park w r o p1 :
  Inv w -> park_locked r (tbl w) = (o, p1) ->
  Inv (mkWorld p1 (landed_by o r ++ conts w) (h_parked w ++ parked_by o r)
         (h_delivered w) (h_sent w) (h_dropped w)).
Proof.
  intros Hw; pose proof Hw as [Hs Hn Hf Ho Ht]. unfold park_locked.
  destruct (entries (tbl w) !! r) as [e|] eqn:He; [destruct (state e) as [sinks|b u] eqn:Hst|];
    intros [= <- <-]; simpl; rewrite ?app_nil_r; auto using inv_conts.
  destruct (all_sinks_update (entries (tbl w)) r e
              (with_state e (Waiting (sinks ++ [next_sink (tbl w)]))) He) as (rest & H1 & H2).
  assert (entry_sinks e = sinks) as Hes by (unfold entry_sinks; by rewrite Hst).
  split; simpl.
  - rewrite fmap_app, Hs, H1, H2, Hes. simpl. solve_Permutation.
  - rewrite fmap_app. apply NoDup_app; split_and!; [done| |apply NoDup_singleton].
    intros s Hin. apply Hf in Hin. set_solver by lia.
  - intros s. rewrite fmap_app, elem_of_app. intros [Hin|Hin]; [apply Hf in Hin; lia|].
    set_solver by lia.
  - intros r' e' s [[<- <-]|[_ H]]%lookup_insert_Some Hin; apply elem_of_app.
    + simpl in Hin. apply elem_of_app in Hin as [Hin|Hin]; [|set_solver].
      left. apply (Ho r e); [done|by rewrite Hes].
    + left. eauto.
  - intros s b (r' & ? & ?)%Ht. exists r'. set_solver.
Qed.

Lemma inv_deliver w now r body sends fanned p1 ks :
  Inv w -> deliver_locked now r body (tbl w) = (sends, fanned, p1) ->
  Inv (mkWorld p1 ks (h_parked w) (h_delivered w ++ [(r, body)]) (h_sent w ++ sends)
         (h_dropped w)).
Proof.
  intros [Hs Hn Hf Ho Ht]. unfold deliver_locked.
  assert (forall s b, (s, b) ∈ h_sent w -> exists r', (r', s) ∈ h_parked w /\
            (r', b) ∈ h_delivered w ++ [(r, body)]) as Ht'
    by (intros s b (r' & ? & ?)%Ht; set_solver).
  destruct (entries (tbl w) !! r) as [e|] eqn:He; [|intros [= <- <- <-]; split; simpl;
    rewrite ?app_nil_r; auto].
  destruct (all_sinks_update (entries (tbl w)) r e
              (with_state e (Landed body (now + from_secs LANDED_TTL_SECS))) He)
    as (rest & H1 & H2).
  assert (forall r' e' s, <[r := with_state e (Landed body (now + from_secs LANDED_TTL_SECS))]>
            (entries (tbl w)) !! r' = Some e' -> s ∈ entry_sinks e' -> (r', s) ∈ h_parked w) as Ho'.
  { intros r' e' s [[<- <-]|[_ H]]%lookup_insert_Some; [set_solver|eauto]. }
  destruct (state e) as [sinks|b u] eqn:Hst; intros [= <- <- <-];
    assert (entry_sinks e = match state e with Waiting l => l | Landed _ _ => [] end) as Hes by done;
    rewrite Hst in Hes; split; simpl; rewrite ?app_nil_r; auto.
  - rewrite Hs, H1, H2, Hes, fmap_app, fst_pairs. simpl. solve_Permutation.
  - intros s b [H|H]%elem_of_app; [auto|].
    apply list_elem_of_fmap in H as (s' & [= -> ->] & Hin). exists r.
    split; [apply (Ho r e); [done|by rewrite Hes]|set_solver].
  - rewrite Hs, H1, H2, Hes. done.
Qed.

Lemma inv_step w w' : Inv w -> step w w' -> Inv w'.
Proof.
  intros Hw Hstep; destruct Hstep; eauto using inv_conts, inv_erase, inv_park, inv_deliver.
  destruct (entries (tbl w) !! r) eqn:E; auto using inv_conts, inv_insert_slot.
Qed.

Lemma inv_reachable w : reachable w -> Inv w.
Proof.
  intros Hr. apply (rtc_ind_r (R := step) Inv world0); eauto using inv0, inv_step.
Qed.

Lemma elem_of_all_sinks m s :
  s ∈ all_sinks m -> exists r e, m !! r = Some e /\ s ∈ entry_sinks e.
Proof.
  unfold all_sinks. rewrite list_elem_of_bind. intros ([r e] & Hs & Hin).
  apply elem_of_map_to_list in Hin. eauto.
Qed.

(** A live sink sits in the entry of the request its handler parked on. *)
Lemma live_sink_owner w r s :
  Inv w -> (r, s) ∈ h_parked w -> s ∉ (h_sent w).*1 -> s ∉ h_dropped w ->
  exists e, entries (tbl w) !! r = Some e /\ s ∈ entry_sinks e.
Proof.
  intros [Hs Hn _ Ho _] Hp Hsent Hdrop.
  assert (s ∈ all_sinks (entries (tbl w))) as Hin.
  { assert (s ∈ (h_parked w).*2) as H by (apply list_elem_of_fmap; by exists (r, s)).
    rewrite Hs in H. set_solver. }
  apply elem_of_all_sinks in Hin as (r' & e & He & Hse).
  assert (r' = r) as ->; [|eauto].
  eapply pairs_snd_unique; eauto.
Qed.

(* ---------------------------------------------------------------- *)
(** ** Theorems *)

(** C3. Exactly-once wake-up: in every state an interleaving of the calls can
    reach, the sinks handed to parked handlers are, without repetition, those
    the table still owns, those a response was sent on, and those dropped
    unsent (the handler's 504): no handler is woken twice, none is both
    answered and dropped, and none is forgotten. *)
Theorem parked_handlers_accounted w :
  reachable w ->
  NoDup (h_parked w).*2 /\
  (h_parked w).*2 ≡ₚ all_sinks (entries (tbl w)) ++ (h_sent w).*1 ++ h_dropped w.
Proof. intros Hw%inv_reachable. split; apply Hw. Qed.

(** C19. No lost response: in every reachable state, delivering a response for
    [r] sends its body on the sink of every handler that parked on [r] and was
    neither answered nor dropped, whatever calls are half-way through. *)
Theorem deliver_reaches_parked w r s now body :
  reachable w -> (r, s) ∈ h_parked w -> s ∉ (h_sent w).*1 -> s ∉ h_dropped w ->
  (s, body) ∈ (deliver_locked now r body (tbl w)).1.1.
Proof.
  intros Hw%inv_reachable Hp H1 H2.
  destruct (live_sink_owner w r s) as (e & He & Hin); auto.
  unfold deliver_locked. rewrite He. unfold entry_sinks in Hin.
  destruct (state e); simpl; [|set_solver].
  apply list_elem_of_fmap. eauto.
Qed.

(** Correlation: a handler only ever receives a body that was delivered
    for the request id it parked on. *)
Theorem response_for_own_request w s body :
  reachable w -> (s, body) ∈ h_sent w ->
  exists r, (r, s) ∈ h_parked w /\ (r, body) ∈ h_delivered w /\
            forall r', (r', s) ∈ h_parked w -> r' = r.
Proof.
  intros Hw%inv_reachable Hin. pose proof Hw as [_ Hn _ _ Hsent].
  destruct (Hsent _ _ Hin) as (r & Hp & Hd). exists r. split_and!; auto.
  intros r' Hp'. eapply pairs_snd_unique; eauto.
Qed.
End System.

(* ------------------------------------------------------------------ *)
(** ** A run: one dispatch, parked, then answered *)

Module Demo.
Definition demo_body : ResponseData := RCoold (ResponseBody.Ok (JObj [("k", JStr "v")])).

Definition demo_parked : world :=
  let p1 := (insert_waiting 0 "r1" "10.42.0.7" Coold 4 new).2 in
  mkWorld (park_locked "r1" p1).2 [] [("r1", 0%nat)] [] [] [].

Definition demo_answered : world :=
  let p := tbl demo_parked in
  mkWorld (deliver_locked 7 "r1" demo_body p).2 [KDeliver "r1"] [("r1", 0%nat)] [("r1", demo_body)]
    [(0%nat, demo_body)] [].

Lemma demo_parked_reachable : reachable 4 (from_secs 30) demo_parked.
Proof.
  eapply rtc_l; [apply (step_insert_check 4 (from_secs 30) world0 "r1" "10.42.0.7"); vm_compute; lia|].
  eapply rtc_l; [apply (step_insert_slot 4 (from_secs 30) _ 0 "r1" "10.42.0.7" [] []); reflexivity|].
  eapply rtc_l; [eapply (step_park 4 (from_secs 30) _ "r1"); reflexivity|].
  apply rtc_refl.
Qed.

Lemma demo_answered_reachable : reachable 4 (from_secs 30) demo_answered.
Proof.
  eapply rtc_r; [apply demo_parked_reachable|].
  exact (step_deliver 4 (from_secs 30) demo_parked 7 "r1" demo_body [(0%nat, demo_body)] true _ eq_refl).
Qed.

Lemma parked_handlers_accounted_witness :
  reachable 4 (from_secs 30) demo_answered /\
  (h_parked demo_answered).*2 ≡ₚ
    all_sinks (entries (tbl demo_answered)) ++ (h_sent demo_answered).*1 ++ h_dropped demo_answered.
Proof.
  split; [exact demo_answered_reachable|].
  exact (proj2 (parked_handlers_accounted 4 (from_secs 30) _ demo_answered_reachable)).
Defined.

Lemma deliver_reaches_parked_witness :
  ("r1", 0%nat) ∈ h_parked demo_parked /\
  (0%nat, demo_body) ∈ (deliver_locked 7 "r1" demo_body (tbl demo_parked)).1.1.
Proof.
  assert (("r1", 0%nat) ∈ h_parked demo_parked) as H by (simpl; set_solver). split; [exact H|].
  apply (deliver_reaches_parked 4 (from_secs 30) demo_parked "r1" 0%nat 7 demo_body);
    [exact demo_parked_reachable|exact H|simpl; set_solver|simpl; set_solver].
Defined.

Lemma response_for_own_request_witness :
  (0%nat, demo_body) ∈ h_sent demo_answered /\ exists r, (r, 0%nat) ∈ h_parked demo_answered.
Proof.
  assert ((0%nat, demo_body) ∈ h_sent demo_answered) as H by (simpl; set_solver). split; [exact H|].
  destruct (response_for_own_request 4 (from_secs 30) _ _ _ demo_answered_reachable H)
    as (r & Hr & _). exists r. exact Hr.
Defined.
End Demo.
