(* ===== verification/FluxRouting.v ===== *)
(** * Routing

    [flux/src/routing.rs]: which agent command a dispatch envelope becomes, and
    whether the addressed host may receive it. *)

From S2P Require Import Prelude RustStr Messages FluxState.

Inductive RouteOutcome :=
  | SendCoold (host_id : string) (msg : ServerMsg)
  | PushError (code : Z) (message : string).

Definition required_capability (c : CommandPayload.t) : string :=
  match c with
  | CommandPayload.ImagesPull _ => "images.pull"
  | CommandPayload.ImagesList => "images.list"
  | CommandPayload.ImagesDelete _ _ => "images.delete"
  | CommandPayload.ContainersCreate _ _ _ _ _ _ _ _ _ _ _ _ _ _ => "containers.create"
  | CommandPayload.ContainersStart _ => "containers.start"
  | CommandPayload.ContainersStop _ _ => "containers.stop"
  | CommandPayload.ContainersRestart _ _ => "containers.restart"
  | CommandPayload.ContainersDelete _ _ => "containers.delete"
  | CommandPayload.ContainersInspect _ => "containers.inspect"
  | CommandPayload.ContainersList => "containers.list"
  | CommandPayload.ContainersLogs _ _ _ _ => "containers.logs"
  | CommandPayload.ContainersExec _ _ => "containers.exec"
  | CommandPayload.ContainersHealthcheckRun _ => "containers.healthcheck.run"
  | CommandPayload.ApplyIngress _ _ _ _ => "ingress.apply"
  | CommandPayload.StopIngress _ => "ingress.stop"
  | CommandPayload.FirewallAllow _ _ _ _ _ _ => "firewall.allow"
  | CommandPayload.FirewallRevoke _ => "firewall.revoke"
  | CommandPayload.FirewallList _ => "firewall.list"
  | CommandPayload.FirewallReconcile => "firewall.reconcile"
  | CommandPayload.CooldLogs _ => "coold.logs"
  | CommandPayload.CorrosionTables _ => "corrosion.tables"
  | CommandPayload.HostJwtSet _ => "host.jwt.set"
  end.

Definition proto_port (port : PortMapping) : PortMapping :=
  mkPortMapping (pm_host_ip port) (pm_host_port port) (pm_container_port port) (pm_protocol port).

Definition proto_app (app : IngressAppConfig) : IngressAppConfig :=
  mkIngressAppConfig (ia_name app) (ia_config app).

(** The [match env.command] of [route_coold]. *)
Definition to_command (c : CommandPayload.t) : Cmd.t :=
  match c with
  | CommandPayload.ImagesPull reference => Cmd.ImagesPull reference
  | CommandPayload.ImagesList => Cmd.ImagesList
  | CommandPayload.ImagesDelete reference force => Cmd.ImagesDelete reference force
  | CommandPayload.ContainersCreate name image command env networks volumes ports dns
      dns_search network_aliases restart_policy privileged network_mode capabilities =>
      Cmd.ContainersCreate
        {| cc_name := name; cc_image := image; cc_command := command; cc_env := env;
           cc_networks := networks; cc_volumes := volumes; cc_ports := proto_port <$> ports;
           cc_dns := dns; cc_dns_search := dns_search; cc_network_aliases := network_aliases;
           cc_restart_policy := restart_policy; cc_privileged := privileged;
           cc_network_mode := network_mode; cc_capabilities := capabilities |}
  | CommandPayload.ContainersStart id => Cmd.ContainersStart id
  | CommandPayload.ContainersStop id timeout_seconds => Cmd.ContainersStop id timeout_seconds
  | CommandPayload.ContainersRestart id timeout_seconds => Cmd.ContainersRestart id timeout_seconds
  | CommandPayload.ContainersDelete id force => Cmd.ContainersDelete id force
  | CommandPayload.ContainersInspect id => Cmd.ContainersInspect id
  | CommandPayload.ContainersList => Cmd.ContainersList
  | CommandPayload.ContainersLogs id tail stdout stderr => Cmd.ContainersLogs id tail stdout stderr
  | CommandPayload.ContainersExec id command => Cmd.ContainersExec id command
  | CommandPayload.ContainersHealthcheckRun id => Cmd.ContainersHealthcheckRun id
  | CommandPayload.ApplyIngress kind config apps mesh_network =>
      Cmd.IngressApply kind config mesh_network (proto_app <$> apps)
  | CommandPayload.StopIngress kind => Cmd.IngressStop kind
  | CommandPayload.FirewallAllow id namespace src dst proto port =>
      Cmd.FirewallAllow (Some {| fr_id := id; fr_namespace := namespace; fr_src := src;
                                 fr_dst := dst; fr_proto := proto; fr_port := port |})
  | CommandPayload.FirewallRevoke id => Cmd.FirewallRevoke id
  | CommandPayload.FirewallList namespace => Cmd.FirewallList namespace
  | CommandPayload.FirewallReconcile => Cmd.FirewallReconcile
  | CommandPayload.CooldLogs tail => Cmd.CooldLogs tail
  | CommandPayload.CorrosionTables limit => Cmd.CorrosionTables limit
  | CommandPayload.HostJwtSet jwt => Cmd.HostJwtSet jwt
  end.

Definition has_cap (cap : string) (caps : list string) : bool :=
  existsb (fun c => bool_decide (c = cap)) caps.

Definition route_coold (streams : Streams.t) (env : DispatchEnvelope) : RouteOutcome :=
  match Streams.get (de_host_id env) streams with
  | None => PushError 404 "host not connected"
  | Some stream =>
      let cap := required_capability (de_command env) in
      if negb (has_cap cap (Streams.caps stream)) then
        if has_cap cap (Streams.advertised_caps stream) then
          PushError 403 ("capability " +:+ cap +:+ " is not authorized for this host token")
        else PushError 501 ("primitive " +:+ cap +:+ " is not supported by host")
      else
        SendCoold (de_host_id env)
          (mkServerMsg (de_request_id env) (Some (to_command (de_command env))))
  end.

(* ------------------------------------------------------------------ *)
(** ** Properties *)

Lemma has_cap_spec cap caps : has_cap cap caps = true <-> cap ∈ caps.
Proof.
  unfold has_cap. rewrite existsb_exists. split.
  - intros (c & Hin & ->%bool_decide_eq_true). by apply list_elem_of_In.
  - intros Hin%list_elem_of_In. exists cap. by rewrite bool_decide_eq_true.
Qed.

Lemma has_cap_false cap caps : has_cap cap caps = false <-> cap ∉ caps.
Proof. rewrite <- has_cap_spec. destruct (has_cap cap caps); naive_solver. Qed.

(** The capability a command needs is the kind it is logged under. *)
Lemma required_capability_is_kind c : required_capability c = CommandPayload.kind c.
Proof. by destruct c. Qed.

Lemma proto_port_id p : proto_port p = p.
Proof. by destruct p. Qed.
Lemma proto_app_id a : proto_app a = a.
Proof. by destruct a. Qed.

#[export] Instance proto_port_inj : Inj (=) (=) proto_port.
Proof. intros ? ?. by rewrite !proto_port_id. Qed.
#[export] Instance proto_app_inj : Inj (=) (=) proto_app.
Proof. intros ? ?. by rewrite !proto_app_id. Qed.

(** Routing loses nothing: two envelopes with different commands are never
    translated to the same agent command. *)
Theorem to_command_injective c1 c2 : to_command c1 = to_command c2 -> c1 = c2.
Proof.
  destruct c1, c2; simpl; intros H; inversion H; subst; try done; f_equal;
    by eapply (inj (fmap _)).
Qed.

(** The routing decision: a command is forwarded exactly when the host is
    connected and its stream is authorized for the command's capability, and
    then the message carries the envelope's request id and command; otherwise
    the caller gets 404 (not connected), 403 (advertised by the host but not
    authorized by its token) or 501 (not advertised). *)
Theorem route_coold_decision streams env :
  let cap := required_capability (de_command env) in
  let host := de_host_id env in
  match route_coold streams env with
  | SendCoold h msg =>
      h = host /\ msg = mkServerMsg (de_request_id env) (Some (to_command (de_command env))) /\
      exists e, streams !! host = Some e /\ cap ∈ Streams.e_caps e
  | PushError code _ =>
      (code = 404%Z /\ streams !! host = None) \/
      (code = 403%Z /\ exists e, streams !! host = Some e /\
         cap ∉ Streams.e_caps e /\ cap ∈ Streams.e_advertised_caps e) \/
      (code = 501%Z /\ exists e, streams !! host = Some e /\
         cap ∉ Streams.e_caps e /\ cap ∉ Streams.e_advertised_caps e)
  end.
Proof.
  intros cap host. unfold route_coold, Streams.get. fold cap host.
  destruct (streams !! host) as [e|] eqn:E; simpl; [|by left].
  destruct (has_cap cap (Streams.e_caps e)) eqn:H1; simpl.
  - apply has_cap_spec in H1. eauto.
  - apply has_cap_false in H1.
    destruct (has_cap cap (Streams.e_advertised_caps e)) eqn:H2;
      [apply has_cap_spec in H2|apply has_cap_false in H2]; right; eauto 10.
Qed.

Lemma to_command_injective_witness :
  to_command (CommandPayload.CooldLogs 200) = to_command (CommandPayload.CooldLogs 200) /\
  CommandPayload.CooldLogs 200 = CommandPayload.CooldLogs 200.
Proof. split; [reflexivity|apply to_command_injective; reflexivity]. Defined.
