(* ===== verification/FluxEnvelope.v ===== *)
(** * Reading the requests of Laravel

    [flux/src/envelope.rs], the [Deserialize] side: how the body of a dispatch
    is read into a command, with the tag, the aliases and the defaults of every
    field, and the body of a revocation ([flux/src/unix_bridge.rs],
    [RevokeRequest]). *)

From S2P Require Import Prelude RustStr Messages Serde FluxState FluxRouting.
Local Open Scope Z_scope.

(* ------------------------------------------------------------------ *)
(** ** Defaults *)

Definition default_logs_stdout : bool := true.
Definition default_coold_logs_tail : Z := 200.
Definition default_corrosion_tables_limit : Z := 200.
Definition default_ingress_kind : string := "caddy".
Definition default_caddy_mesh_network : string := "coolify-default-mesh".
Definition default_firewall_proto : string := "tcp".

(* ------------------------------------------------------------------ *)
(** ** Structs *)

Definition dec_strs : json -> option (list string) := dec_list dec_str.

Definition dec_port_mapping (j : json) : option PortMapping :=
  match struct_fields ["host_ip"; "host_port"; "container_port"; "protocol"] j with
  | Some [host_ip; host_port; container_port; protocol] =>
      host_ip ← field_req dec_str host_ip;
      host_port ← field_req dec_u32 host_port;
      container_port ← field_req dec_u32 container_port;
      protocol ← field_req dec_str protocol;
      Some (mkPortMapping host_ip host_port container_port protocol)
  | _ => None
  end.

Definition dec_ingress_app (j : json) : option IngressAppConfig :=
  match struct_fields_alias [["name"]; ["config"; "caddyfile"]] j with
  | Some [name; config] =>
      name ← field_req dec_str name;
      config ← field_req dec_str config;
      Some (mkIngressAppConfig name config)
  | _ => None
  end.

(* ------------------------------------------------------------------ *)
(** ** Commands *)

(** A variant without fields ignores what else there is. *)
Definition dec_unit (c : CommandPayload.t) (j : json) : option CommandPayload.t := Some c.

Definition dec_one {A} (name : string) (dec : option json -> option A) (mk : A -> CommandPayload.t) (j : json)
    : option CommandPayload.t :=
  match struct_fields [name] j with
  | Some [v] => mk <$> dec v
  | _ => None
  end.

Definition dec_two {A B} (name1 name2 : string) (dec1 : option json -> option A) (dec2 : option json -> option B)
    (mk : A -> B -> CommandPayload.t) (j : json) : option CommandPayload.t :=
  match struct_fields [name1; name2] j with
  | Some [v1; v2] => a ← dec1 v1; b ← dec2 v2; Some (mk a b)
  | _ => None
  end.

Definition create_fields : list string :=
  ["name"; "image"; "command"; "env"; "networks"; "volumes"; "ports"; "dns"; "dns_search"; "network_aliases";
   "restart_policy"; "privileged"; "network_mode"; "capabilities"].

Definition dec_containers_create (j : json) : option CommandPayload.t :=
  match struct_fields create_fields j with
  | Some [name; image; command; env; networks; volumes; ports; dns; dns_search; network_aliases;
          restart_policy; privileged; network_mode; capabilities] =>
      name ← field_req dec_str name;
      image ← field_req dec_str image;
      command ← field_or dec_strs [] command;
      env ← field_or dec_strs [] env;
      networks ← field_or dec_strs [] networks;
      volumes ← field_or dec_strs [] volumes;
      ports ← field_or (dec_list dec_port_mapping) [] ports;
      dns ← field_or dec_strs [] dns;
      dns_search ← field_or dec_strs [] dns_search;
      network_aliases ← field_or dec_strs [] network_aliases;
      restart_policy ← field_or dec_str "" restart_policy;
      privileged ← field_or dec_bool false privileged;
      network_mode ← field_or dec_str "" network_mode;
      capabilities ← field_or dec_strs [] capabilities;
      Some (CommandPayload.ContainersCreate name image command env networks volumes ports dns dns_search
              network_aliases restart_policy privileged network_mode capabilities)
  | _ => None
  end.

Definition dec_containers_logs (j : json) : option CommandPayload.t :=
  match struct_fields ["id"; "tail"; "stdout"; "stderr"] j with
  | Some [id; tail; stdout; stderr] =>
      id ← field_req dec_str id;
      tail ← field_or dec_u32 0 tail;
      stdout ← field_or dec_bool default_logs_stdout stdout;
      stderr ← field_or dec_bool false stderr;
      Some (CommandPayload.ContainersLogs id tail stdout stderr)
  | _ => None
  end.

Definition dec_apply_ingress (j : json) : option CommandPayload.t :=
  match struct_fields_alias [["kind"]; ["config"; "caddyfile"]; ["apps"]; ["mesh_network"]] j with
  | Some [kind; config; apps; mesh_network] =>
      kind ← field_or dec_str default_ingress_kind kind;
      config ← field_req dec_str config;
      apps ← field_or (dec_list dec_ingress_app) [] apps;
      mesh_network ← field_or dec_str default_caddy_mesh_network mesh_network;
      Some (CommandPayload.ApplyIngress kind config apps mesh_network)
  | _ => None
  end.

Definition dec_firewall_allow (j : json) : option CommandPayload.t :=
  match struct_fields ["id"; "namespace"; "src"; "dst"; "proto"; "port"] j with
  | Some [id; namespace; src; dst; proto; port] =>
      id ← field_req dec_str id;
      namespace ← field_req dec_str namespace;
      src ← field_req dec_str src;
      dst ← field_req dec_str dst;
      proto ← field_or dec_str default_firewall_proto proto;
      port ← field_req dec_u32 port;
      Some (CommandPayload.FirewallAllow id namespace src dst proto port)
  | _ => None
  end.

(** The names of each variant and the reader of its fields. *)
Definition variants : list (list string * (json -> option CommandPayload.t)) :=
  [(["images.pull"], dec_one "reference" (field_req dec_str) CommandPayload.ImagesPull);
   (["images.list"], dec_unit CommandPayload.ImagesList);
   (["images.delete"], dec_two "reference" "force" (field_req dec_str) (field_or dec_bool false) CommandPayload.ImagesDelete);
   (["containers.create"], dec_containers_create);
   (["containers.start"], dec_one "id" (field_req dec_str) CommandPayload.ContainersStart);
   (["containers.stop"], dec_two "id" "timeout_seconds" (field_req dec_str) (field_or dec_u32 0) CommandPayload.ContainersStop);
   (["containers.restart"], dec_two "id" "timeout_seconds" (field_req dec_str) (field_or dec_u32 0) CommandPayload.ContainersRestart);
   (["containers.delete"], dec_two "id" "force" (field_req dec_str) (field_or dec_bool false) CommandPayload.ContainersDelete);
   (["containers.inspect"], dec_one "id" (field_req dec_str) CommandPayload.ContainersInspect);
   (["containers.list"], dec_unit CommandPayload.ContainersList);
   (["containers.logs"], dec_containers_logs);
   (["containers.exec"], dec_two "id" "command" (field_req dec_str) (field_req dec_strs) CommandPayload.ContainersExec);
   (["containers.healthcheck.run"], dec_one "id" (field_req dec_str) CommandPayload.ContainersHealthcheckRun);
   (["ingress.apply"; "apply_caddy_ingress"], dec_apply_ingress);
   (["ingress.stop"; "stop_caddy_ingress"], dec_one "kind" (field_or dec_str default_ingress_kind) CommandPayload.StopIngress);
   (["firewall.allow"], dec_firewall_allow);
   (["firewall.revoke"], dec_one "id" (field_req dec_str) CommandPayload.FirewallRevoke);
   (["firewall.list"], dec_one "namespace" (field_or dec_str "") CommandPayload.FirewallList);
   (["firewall.reconcile"], dec_unit CommandPayload.FirewallReconcile);
   (["coold.logs"], dec_one "tail" (field_or dec_u32 default_coold_logs_tail) CommandPayload.CooldLogs);
   (["corrosion.tables"], dec_one "limit" (field_or dec_u32 default_corrosion_tables_limit) CommandPayload.CorrosionTables);
   (["host.jwt.set"], dec_one "jwt" (field_req dec_str) CommandPayload.HostJwtSet)].

(** [#[serde(tag = "type")]]: the tag, and the value without it.  The tag is a
    field of an object or the first element of an array. *)
Definition tagged (j : json) : option (string * json) :=
  match j with
  | JObj fields =>
      match (filter (fun f => f.1 = "type") fields).*2 with
      | [JStr t] => Some (t, JObj (filter (fun f => f.1 <> "type") fields))
      | _ => None
      end
  | JArr (JStr t :: rest) => Some (t, JArr rest)
  | _ => None
  end.

Definition dec_variant (t : string) (j : json) : option CommandPayload.t :=
  list_find (fun v => t ∈ v.1) variants ≫= (fun '(_, v) => v.2 j).

Definition dec_command (j : json) : option CommandPayload.t :=
  '(t, rest) ← tagged j; dec_variant t rest.

Definition dec_envelope (j : json) : option DispatchEnvelope :=
  match struct_fields ["host_id"; "request_id"; "command"] j with
  | Some [host_id; request_id; command] =>
      host_id ← field_req dec_str host_id;
      request_id ← field_req dec_str request_id;
      command ← field_req dec_command command;
      Some (mkDispatchEnvelope host_id request_id command)
  | _ => None
  end.

(** [RevokeRequest]. *)
Record RevokeRequest := mkRevokeRequest { rr_jti : string; rr_expires_at : option Z }.

Definition dec_revoke_request (j : json) : option RevokeRequest :=
  match struct_fields ["jti"; "expires_at"] j with
  | Some [jti; expires_at] =>
      jti ← field_req dec_str jti;
      expires_at ← field_opt dec_u64 expires_at;
      Some (mkRevokeRequest jti expires_at)
  | _ => None
  end.

(* ------------------------------------------------------------------ *)
(** ** The form of a command *)

Definition port_json (p : PortMapping) : json :=
  JObj [("host_ip", JStr (pm_host_ip p)); ("host_port", JNum (pm_host_port p));
        ("container_port", JNum (pm_container_port p)); ("protocol", JStr (pm_protocol p))].
Definition app_json (a : IngressAppConfig) : json := JObj [("name", JStr (ia_name a)); ("config", JStr (ia_config a))].

(** The fields of a command, all of them written out. *)
Definition command_fields (c : CommandPayload.t) : list (string * json) :=
  match c with
  | CommandPayload.ImagesPull reference => [("reference", JStr reference)]
  | CommandPayload.ImagesDelete reference force => [("reference", JStr reference); ("force", JBool force)]
  | CommandPayload.ContainersCreate name image command env networks volumes ports dns dns_search network_aliases
      restart_policy privileged network_mode capabilities =>
      zip create_fields
        [JStr name; JStr image; jstrs command; jstrs env; jstrs networks; jstrs volumes; JArr (port_json <$> ports);
         jstrs dns; jstrs dns_search; jstrs network_aliases; JStr restart_policy; JBool privileged;
         JStr network_mode; jstrs capabilities]
  | CommandPayload.ContainersStart id | CommandPayload.ContainersInspect id
  | CommandPayload.ContainersHealthcheckRun id | CommandPayload.FirewallRevoke id => [("id", JStr id)]
  | CommandPayload.ContainersStop id timeout | CommandPayload.ContainersRestart id timeout =>
      [("id", JStr id); ("timeout_seconds", JNum timeout)]
  | CommandPayload.ContainersDelete id force => [("id", JStr id); ("force", JBool force)]
  | CommandPayload.ContainersLogs id tail stdout stderr =>
      [("id", JStr id); ("tail", JNum tail); ("stdout", JBool stdout); ("stderr", JBool stderr)]
  | CommandPayload.ContainersExec id command => [("id", JStr id); ("command", jstrs command)]
  | CommandPayload.ApplyIngress kind config apps mesh_network =>
      [("kind", JStr kind); ("config", JStr config); ("apps", JArr (app_json <$> apps)); ("mesh_network", JStr mesh_network)]
  | CommandPayload.StopIngress kind => [("kind", JStr kind)]
  | CommandPayload.FirewallAllow id namespace src dst proto port =>
      [("id", JStr id); ("namespace", JStr namespace); ("src", JStr src); ("dst", JStr dst); ("proto", JStr proto);
       ("port", JNum port)]
  | CommandPayload.FirewallList namespace => [("namespace", JStr namespace)]
  | CommandPayload.CooldLogs tail => [("tail", JNum tail)]
  | CommandPayload.CorrosionTables limit => [("limit", JNum limit)]
  | CommandPayload.HostJwtSet jwt => [("jwt", JStr jwt)]
  | CommandPayload.ImagesList | CommandPayload.ContainersList | CommandPayload.FirewallReconcile => []
  end.

Definition command_json (c : CommandPayload.t) : json :=
  JObj (("type", JStr (CommandPayload.kind c)) :: command_fields c).
Definition envelope_json (e : DispatchEnvelope) : json :=
  JObj [("host_id", JStr (de_host_id e)); ("request_id", JStr (de_request_id e)); ("command", command_json (de_command e))].

(** The numbers of a command fit the fields they are sent in. *)
Definition port_bounded (p : PortMapping) : Prop := is_u32 (pm_host_port p) /\ is_u32 (pm_container_port p).
Definition bounded (c : CommandPayload.t) : Prop :=
  match c with
  | CommandPayload.ContainersCreate _ _ _ _ _ _ ports _ _ _ _ _ _ _ => Forall port_bounded ports
  | CommandPayload.ContainersStop _ n | CommandPayload.ContainersRestart _ n
  | CommandPayload.ContainersLogs _ n _ _ | CommandPayload.FirewallAllow _ _ _ _ _ n
  | CommandPayload.CooldLogs n | CommandPayload.CorrosionTables n => is_u32 n
  | _ => True
  end.

(* ------------------------------------------------------------------ *)
(** ** Properties *)

Lemma dec_u32_Some j n : dec_u32 j = Some n <-> j = JNum n /\ is_u32 n.
Proof.
  unfold dec_u32, dec_int, is_u32. destruct j as [| |m| | |]; try naive_solver.
  destruct (Z.leb_spec 0 m), (Z.leb_spec m u32_max); cbn [andb]; split; intros; destruct_and?; simplify_eq; done || lia.
Qed.

Lemma dec_u32_ok n : is_u32 n -> dec_u32 (JNum n) = Some n.
Proof. intros H. by apply dec_u32_Some. Qed.

Lemma dec_list_map {A} (dec : json -> option A) (enc : A -> json) (l : list A) :
  Forall (fun a => dec (enc a) = Some a) l -> dec_list dec (JArr (enc <$> l)) = Some l.
Proof. intros H. cbn [dec_list]. apply mapM_Some, Forall2_fmap_l. by apply Forall_Forall2_diag. Qed.

Lemma dec_strs_jstrs l : dec_strs (jstrs l) = Some l.
Proof. apply dec_list_map, Forall_true. done. Qed.

Lemma dec_list_Forall {A} (dec : json -> option A) (P : A -> Prop) j l :
  (forall j a, dec j = Some a -> P a) -> dec_list dec j = Some l -> Forall P l.
Proof.
  intros Hd. destruct j as [| | | |js|]; try done. cbn [dec_list]. rewrite mapM_Some. induction 1; constructor; eauto.
Qed.

(** A field of an object whose keys are all different. *)
Lemma filter_key (fields : list (string * json)) k v :
  NoDup fields.*1 -> (k, v) ∈ fields -> (filter (fun f => f.1 = k) fields).*2 = [v].
Proof.
  induction fields as [|[k1 v1] fields IH]; intros Hnd Hin; [by apply elem_of_nil in Hin|].
  rewrite fmap_cons in Hnd. apply NoDup_cons in Hnd as [Hni Hnd]. rewrite filter_cons.
  apply elem_of_cons in Hin as [[= -> ->]|Hin].
  - rewrite decide_True by done. rewrite fmap_cons. f_equal.
    rewrite filter_none; [done|]. apply Forall_forall. intros [k2 v2] Hf Heq. cbn in Heq. subst.
    apply Hni. apply list_elem_of_fmap. by exists (k1, v2).
  - rewrite decide_False; [by apply IH|]. cbn. intros ->. apply Hni. apply list_elem_of_fmap. by exists (k, v).
Qed.

Lemma struct_fields_all (fields : list (string * json)) :
  NoDup fields.*1 -> struct_fields fields.*1 (JObj fields) = Some (Some <$> fields.*2).
Proof.
  intros Hnd. cbn [struct_fields]. apply mapM_Some. rewrite <- list_fmap_compose. apply Forall2_fmap.
  apply Forall_Forall2_diag, Forall_forall. intros [k v] Hin. cbn. by rewrite (filter_key fields k v).
Qed.

Lemma tagged_command c : Forall (fun f => f.1 <> "type") (command_fields c) ->
  tagged (command_json c) = Some (CommandPayload.kind c, JObj (command_fields c)).
Proof.
  intros Hf. unfold tagged, command_json. rewrite !filter_cons, decide_True by done. rewrite decide_False by naive_solver.
  by rewrite filter_none, filter_every.
Qed.

Lemma dec_port_json p : port_bounded p -> dec_port_mapping (port_json p) = Some p.
Proof.
  intros [H1 H2]. destruct p as [host_ip host_port container_port protocol]. unfold dec_port_mapping, port_json.
  cbn [pm_host_ip pm_host_port pm_container_port pm_protocol] in *.
  rewrite (struct_fields_all [("host_ip", _); ("host_port", _); ("container_port", _); ("protocol", _)]) by (by apply (bool_decide_unpack _)).
  cbn -[dec_u32]. rewrite !dec_u32_ok by done. done.
Qed.

Lemma dec_app_json a : dec_ingress_app (app_json a) = Some a.
Proof. by destruct a. Qed.

(** The table of variants: a reader gives commands of the kind its entry is named
    after, and the names of an entry select it. *)
Lemma variants_kind v j c : v ∈ variants -> v.2 j = Some c -> head v.1 = Some (CommandPayload.kind c).
Proof.
  intros Hv Hd. unfold variants in Hv.
  repeat (apply elem_of_cons in Hv as [->|Hv]; [|try by apply elem_of_nil in Hv]).
  all: cbn [fst snd head] in *; unfold dec_unit, dec_one, dec_two, dec_containers_create, dec_containers_logs,
         dec_apply_ingress, dec_firewall_allow in Hd;
       repeat case_match; simplify_option_eq; done.
Qed.

Lemma dec_variant_kind t j c : dec_variant t j = Some c ->
  exists names, t ∈ names /\ head names = Some (CommandPayload.kind c) /\
    names ∈ variants.*1.
Proof.
  unfold dec_variant. intros ((i & v) & Hf & Hd)%bind_Some. apply list_find_Some in Hf as (Hv%list_elem_of_lookup_2 & Ht & _).
  exists v.1. split; [done|]. split; [by eapply variants_kind|]. apply list_elem_of_fmap. by exists v.
Qed.

Lemma command_fields_keys c :
  NoDup (command_fields c).*1 /\ Forall (fun f => f.1 <> "type") (command_fields c).
Proof. destruct c; (split; [cbn; apply (bool_decide_unpack _); vm_compute; exact I|repeat constructor; discriminate]). Qed.

Lemma dec_containers_create_fields c : forall name image command env networks volumes ports dns dns_search network_aliases
    restart_policy privileged network_mode capabilities,
  c = CommandPayload.ContainersCreate name image command env networks volumes ports dns dns_search network_aliases
        restart_policy privileged network_mode capabilities ->
  Forall port_bounded ports -> dec_containers_create (JObj (command_fields c)) = Some c.
Proof.
  intros * -> Hp. unfold dec_containers_create.
  change create_fields with (command_fields (CommandPayload.ContainersCreate name image command env networks volumes ports dns
    dns_search network_aliases restart_policy privileged network_mode capabilities)).*1 at 1.
  rewrite struct_fields_all by apply command_fields_keys.
  cbn [command_fields create_fields zip zip_with fmap list_fmap snd field_req field_or mbind option_bind dec_str dec_bool].
  rewrite !dec_strs_jstrs, (dec_list_map dec_port_mapping port_json) by (eapply Forall_impl; [exact Hp|]; apply dec_port_json).
  reflexivity.
Qed.

Lemma dec_variant_fields c : bounded c -> dec_variant (CommandPayload.kind c) (JObj (command_fields c)) = Some c.
Proof.
  intros Hb. destruct c; try reflexivity; cbn [bounded] in Hb.
  - transitivity (dec_containers_create (JObj (command_fields (CommandPayload.ContainersCreate name image command env
      networks volumes ports dns dns_search network_aliases restart_policy privileged network_mode capabilities))));
      [reflexivity|]. by eapply dec_containers_create_fields.
  - transitivity (field_or dec_u32 0 (Some (JNum timeout_seconds)) ≫= (fun n => Some (CommandPayload.ContainersStop id n)));
      [reflexivity|]. cbn [field_or]. by rewrite dec_u32_ok.
  - transitivity (field_or dec_u32 0 (Some (JNum timeout_seconds)) ≫= (fun n => Some (CommandPayload.ContainersRestart id n)));
      [reflexivity|]. cbn [field_or]. by rewrite dec_u32_ok.
  - transitivity (dec_u32 (JNum tail) ≫= (fun n => Some (CommandPayload.ContainersLogs id n stdout stderr)));
      [reflexivity|]. by rewrite dec_u32_ok.
  - transitivity (dec_strs (jstrs command) ≫= (fun l => Some (CommandPayload.ContainersExec id l))); [reflexivity|].
    by rewrite dec_strs_jstrs.
  - transitivity (dec_list dec_ingress_app (JArr (app_json <$> apps)) ≫=
      (fun l => Some (CommandPayload.ApplyIngress kind config l mesh_network))); [reflexivity|].
    by rewrite (dec_list_map dec_ingress_app app_json) by (apply Forall_true; intros; apply dec_app_json).
  - transitivity (dec_u32 (JNum port) ≫= (fun n => Some (CommandPayload.FirewallAllow id namespace src dst proto n)));
      [reflexivity|]. by rewrite dec_u32_ok.
  - transitivity (CommandPayload.CooldLogs <$> dec_u32 (JNum tail)); [reflexivity|]. by rewrite dec_u32_ok.
  - transitivity (CommandPayload.CorrosionTables <$> dec_u32 (JNum limit)); [reflexivity|]. by rewrite dec_u32_ok.
Qed.

(** The written form of an envelope, read. *)
Lemma envelope_reads e : bounded (de_command e) -> dec_envelope (envelope_json e) = Some e.
Proof.
  intros Hb. destruct e as [host_id request_id command]. cbn [de_command] in Hb.
  transitivity (dec_command (command_json command) ≫= (fun c => Some (mkDispatchEnvelope host_id request_id c))); [reflexivity|].
  unfold dec_command. rewrite tagged_command by apply command_fields_keys. cbn [mbind option_bind].
  by rewrite dec_variant_fields.
Qed.

Lemma field_or_u32 dflt v n : is_u32 dflt -> field_or dec_u32 dflt v = Some n -> is_u32 n.
Proof. intros Hd. destruct v; cbn; [by intros [_ ?]%dec_u32_Some|by intros [= <-]]. Qed.

Lemma dec_port_bounded j p : dec_port_mapping j = Some p -> port_bounded p.
Proof.
  unfold dec_port_mapping. repeat case_match; try done. intros Hd. simplify_option_eq.
  repeat match goal with H : field_req dec_u32 _ = Some _ |- _ => apply bind_Some in H as (? & _ & [_ ?]%dec_u32_Some) end.
  done.
Qed.

Lemma variants_bounded v j c : v ∈ variants -> v.2 j = Some c -> bounded c.
Proof.
  intros Hv Hd. assert (is_u32 0 /\ is_u32 200) as [H0 H200] by by vm_compute. unfold variants in Hv.
  repeat (apply elem_of_cons in Hv as [->|Hv]; [|try by apply elem_of_nil in Hv]).
  all: cbn [fst snd] in *; unfold dec_unit, dec_one, dec_two, dec_containers_create, dec_containers_logs,
         dec_apply_ingress, dec_firewall_allow in Hd;
       repeat case_match; simplify_option_eq; cbn [bounded]; try done.
  all: try (by eapply field_or_u32; [|eassumption]; done).
  - match goal with H : field_or (dec_list dec_port_mapping) _ ?o = Some _ |- _ => destruct o; cbn in H end; [|by simplify_eq].
    eapply dec_list_Forall; [|eassumption]. apply dec_port_bounded.
  - match goal with H : field_req dec_u32 _ = Some _ |- _ => by apply bind_Some in H as (? & _ & [_ ?]%dec_u32_Some) end.
Qed.

(** C33. Reading a dispatch: every command can be asked for, since written out with
    all its fields it is read back as it is; and whatever is read has numbers
    that fit the 32 bits they are sent in and is the command its tag names, by
    one of the names of that command. *)
Theorem envelope_reading :
  (forall e, bounded (de_command e) -> dec_envelope (envelope_json e) = Some e) /\
  forall j c, dec_command j = Some c ->
    bounded c /\
    exists t rest names, tagged j = Some (t, rest) /\ t ∈ names /\ head names = Some (CommandPayload.kind c) /\
      names ∈ variants.*1.
Proof.
  split; [apply envelope_reads|]. intros j c Hd. unfold dec_command in Hd.
  apply bind_Some in Hd as ([t rest] & Ht & Hd). split.
  - unfold dec_variant in Hd. apply bind_Some in Hd as ([i v] & Hf & Hv). apply list_find_Some in Hf as (Hi & _).
    eapply variants_bounded; [|exact Hv]. by eapply list_elem_of_lookup_2.
  - destruct (dec_variant_kind _ _ _ Hd) as (names & ? & ? & ?). by exists t, rest, names.
Qed.
