(* ===== verification/Net.v ===== *)
(** * IP addresses

    [std::net]: addresses as integers, their textual form and its parser (the
    one behind [str::parse::<IpAddr>] and [str::parse::<Ipv4Addr>]), and the
    interface of [ipnet]'s [Ipv4Net], which is not part of this repository and
    therefore a class with the laws the sources rely on. *)

From S2P Require Import Prelude RustStr.
Local Open Scope Z_scope.

(* ------------------------------------------------------------------ *)
(** ** Addresses *)

(** An [Ipv4Addr] is its [u32]; an [Ipv6Addr] its eight 16-bit groups. *)
Inductive IpAddr :=
  | V4 (a : Z)
  | V6 (groups : list Z).

#[export] Instance IpAddr_eq_dec : EqDecision IpAddr.
Proof. solve_decision. Defined.

Definition octet (i : Z) (a : Z) : Z := Z.land (Z.shiftr a (8 * (3 - i))) 255.
Definition of_octets (o0 o1 o2 o3 : Z) : Z :=
  Z.lor (Z.lor (Z.shiftl o0 24) (Z.shiftl o1 16)) (Z.lor (Z.shiftl o2 8) o3).

(** [Display] of an [Ipv4Addr]. *)
Definition show_ipv4 (a : Z) : string :=
  show_Z (octet 0 a) +:+ "." +:+ show_Z (octet 1 a) +:+ "." +:+
  show_Z (octet 2 a) +:+ "." +:+ show_Z (octet 3 a).

Definition is_unspecified (ip : IpAddr) : bool :=
  match ip with
  | V4 a => a =? 0
  | V6 gs => forallb (fun g => g =? 0) gs
  end.

(* ------------------------------------------------------------------ *)
(** ** The address parser of [core::net::parser] *)

(** A parser consumes a prefix or fails without consuming. *)
Definition parser (A : Type) := string -> option (A * string).

Definition digit_value (radix : Z) (c : ascii) : option Z :=
  let x := Z.of_N (N_of_ascii c) in
  let d := if (48 <=? x) && (x <=? 57) then Some (x - 48)
           else if (97 <=? x) && (x <=? 102) then Some (x - 87)
           else if (65 <=? x) && (x <=? 70) then Some (x - 55)
           else None in
  match d with Some v => if v <? radix then Some v else None | None => None end.

(** The digit loop of [read_number]: the value, the number of digits, the rest. *)
Fixpoint read_digits (radix : Z) (acc : Z) (count : nat) (s : string) : Z * nat * string :=
  match s with
  | String c r =>
      match digit_value radix c with
      | Some d => read_digits radix (acc * radix + d) (S count) r
      | None => (acc, count, s)
      end
  | "" => (acc, count, s)
  end.

Definition read_number (radix : Z) (max_digits : nat) (max : Z) (allow_zero_prefix : bool)
    : parser Z :=
  fun s =>
    let has_leading_zero := match s with String "0" _ => true | _ => false end in
    let '(v, count, rest) := read_digits radix 0 0 s in
    if (max_digits <? count)%nat then None
    else if (count =? 0)%nat then None
    else if negb allow_zero_prefix && has_leading_zero && (1 <? count)%nat then None
    else if v <=? max then Some (v, rest) else None.

Definition read_given_char (c : ascii) : parser unit :=
  fun s => match s with
           | String a r => if decide (a = c) then Some ((), r) else None
           | "" => None
           end.

(** [read_separator]: the separator comes before every item but the first. *)
Definition read_separator {A} (sep : ascii) (index : nat) (inner : parser A) : parser A :=
  fun s => match index with
           | O => inner s
           | S _ => match read_given_char sep s with
                    | Some (_, r) => inner r
                    | None => None
                    end
           end.

Definition read_octet (index : nat) : parser Z :=
  read_separator "." index (read_number 10 3 255 false).

Definition read_ipv4_addr : parser Z :=
  fun s =>
    match read_octet 0 s with
    | None => None
    | Some (o0, s1) =>
    match read_octet 1 s1 with
    | None => None
    | Some (o1, s2) =>
    match read_octet 2 s2 with
    | None => None
    | Some (o2, s3) =>
    match read_octet 3 s3 with
    | None => None
    | Some (o3, s4) => Some (of_octets o0 o1 o2 o3, s4)
    end end end end.

(** [read_groups]: up to [left] groups starting at index [i]; the groups read,
    whether an IPv4 tail ended them, and the rest. *)
Fixpoint read_groups (left i : nat) (s : string) : list Z * bool * string :=
  match left with
  | O => ([], false, s)
  | S left' =>
      match (if (0 <? left')%nat then read_separator ":" i read_ipv4_addr s else None) with
      | Some (v4, r) => ([Z.shiftr v4 16; Z.land v4 65535], true, r)
      | None =>
          match read_separator ":" i (read_number 16 4 65535 true) s with
          | Some (g, r) => let '(gs, v4, r') := read_groups left' (S i) r in (g :: gs, v4, r')
          | None => ([], false, s)
          end
      end
  end.

Definition read_ipv6_addr : parser (list Z) :=
  fun s =>
    let '(head, head_ipv4, r) := read_groups 8 0 s in
    if (length head =? 8)%nat then Some (head, r)
    else if head_ipv4 then None
    else match read_given_char ":" r with
         | None => None
         | Some (_, r1) =>
         match read_given_char ":" r1 with
         | None => None
         | Some (_, r2) =>
             let '(tail, _, r3) := read_groups (8 - (length head + 1)) 0 r2 in
             Some (head ++ replicate (8 - length head - length tail) 0 ++ tail, r3)
         end end.

(** [parse_with]: the whole text must be consumed. *)
Definition parse_with {A} (p : parser A) (s : string) : option A :=
  match p s with Some (a, "") => Some a | _ => None end.

Definition read_ip_addr : parser IpAddr :=
  fun s => match read_ipv4_addr s with
           | Some (a, r) => Some (V4 a, r)
           | None => match read_ipv6_addr s with
                     | Some (g, r) => Some (V6 g, r)
                     | None => None
                     end
           end.

Definition parse_ipaddr (s : string) : option IpAddr := parse_with read_ip_addr s.

(** [Ipv4Addr::from_str] refuses more than 15 bytes before it parses. *)
Definition parse_ipv4 (s : string) : option Z :=
  if (15 <? String.length s)%nat then None else parse_with read_ipv4_addr s.

(** [SocketAddr::from_str]: [a.b.c.d:port] or [[v6%scope]:port]. *)
Record SocketAddr := mkSocketAddr { sa_ip : IpAddr; sa_port : Z }.

Definition read_port : parser Z :=
  fun s => match read_given_char ":" s with
           | Some (_, r) => read_number 10 (String.length r) u16_max true r
           | None => None
           end.

(** An optional scope id after a percent sign. *)
Definition read_scope_id (s : string) : string :=
  match read_given_char "%" s with
  | Some (_, r) =>
      match read_number 10 (String.length r) u32_max true r with
      | Some (_, r') => r'
      | None => s
      end
  | None => s
  end.

Definition read_socket_addr : parser SocketAddr :=
  fun s =>
    let v4 := match read_ipv4_addr s with
              | Some (a, r) => match read_port r with
                               | Some (port, r') => Some (mkSocketAddr (V4 a) port, r')
                               | None => None
                               end
              | None => None
              end in
    match v4 with
    | Some x => Some x
    | None =>
        match read_given_char "[" s with
        | None => None
        | Some (_, r1) =>
        match read_ipv6_addr r1 with
        | None => None
        | Some (gs, r2) =>
        match read_given_char "]" (read_scope_id r2) with
        | None => None
        | Some (_, r3) =>
        match read_port r3 with
        | None => None
        | Some (port, r4) => Some (mkSocketAddr (V6 gs) port, r4)
        end end end end
    end.

Definition parse_socket_addr (s : string) : option SocketAddr := parse_with read_socket_addr s.

(* ------------------------------------------------------------------ *)
(** ** [ipnet::Ipv4Net] *)

Class Ipv4NetApi := {
  Ipv4Net : Type;
  net_eq_dec :: EqDecision Ipv4Net;
  (** [Ipv4Net::new(ip, prefix)], an error when the prefix is above 32 *)
  net_new : Z -> Z -> option Ipv4Net;
  net_addr : Ipv4Net -> Z;
  net_prefix_len : Ipv4Net -> Z;
  net_network : Ipv4Net -> Z;
  net_broadcast : Ipv4Net -> Z;
  (** [net.contains(&ip)] *)
  net_contains : Ipv4Net -> Z -> bool;
  (** [Display] and [FromStr] *)
  net_show : Ipv4Net -> string;
  net_parse : string -> option Ipv4Net;
}.

(** The documented behaviour of [ipnet] that the sources rely on. *)
Class Ipv4NetLaws (api : Ipv4NetApi) : Prop := {
  net_new_some ip p :
    is_u32 ip -> 0 <= p <= 32 ->
    exists n, net_new ip p = Some n /\ net_addr n = ip /\ net_prefix_len n = p;
  net_addr_u32 n : is_u32 (net_addr n);
  net_prefix_range n : 0 <= net_prefix_len n <= 32;
  (** the network address clears the host bits, the broadcast address sets them *)
  net_network_def n :
    net_network n = net_addr n - net_addr n mod 2 ^ (32 - net_prefix_len n);
  net_broadcast_def n :
    net_broadcast n = net_network n + 2 ^ (32 - net_prefix_len n) - 1;
  net_contains_def n ip :
    net_contains n ip = true <-> net_network n <= ip <= net_broadcast n;
  net_ext n m : net_addr n = net_addr m -> net_prefix_len n = net_prefix_len m -> n = m;
  net_show_def n : net_show n = show_ipv4 (net_addr n) +:+ "/" +:+ show_Z (net_prefix_len n);
  net_parse_show n : net_parse (net_show n) = Some n;
}.

Example parse_examples :
  parse_ipaddr "10.42.0.7" = Some (V4 170524679) /\
  parse_ipaddr "10.42.0.07" = None /\ parse_ipaddr "10.42.0" = None /\
  parse_ipaddr "::1" = Some (V6 [0; 0; 0; 0; 0; 0; 0; 1]) /\
  parse_ipaddr "fe80::1:2" = Some (V6 [65152; 0; 0; 0; 0; 0; 1; 2]) /\
  parse_ipaddr "::ffff:1.2.3.4" = Some (V6 [0; 0; 0; 0; 0; 65535; 258; 772]) /\
  parse_ipaddr "host-uuid-abc" = None.
Proof. vm_compute. done. Qed.

(* ------------------------------------------------------------------ *)
(** ** Printing and parsing an IPv4 address *)

Lemma testbit_255 n : 0 <= n -> Z.testbit 255 n = (n <? 8).
Proof.
  intros Hn. change 255 with (Z.ones 8). destruct (Z.ltb_spec n 8).
  - apply Z.ones_spec_low. lia.
  - apply Z.ones_spec_high. lia.
Qed.

Lemma octet_testbit i a n :
  0 <= i <= 3 -> 0 <= n -> Z.testbit (octet i a) n = (n <? 8) && Z.testbit a (n + 8 * (3 - i)).
Proof.
  intros Hi Hn. unfold octet. rewrite Z.land_spec, Z.shiftr_spec, testbit_255 by lia.
  apply andb_comm.
Qed.

Lemma shiftl_testbit a k n :
  0 <= n -> 0 <= k -> Z.testbit (Z.shiftl a k) n = (k <=? n) && Z.testbit a (n - k).
Proof.
  intros Hn Hk. rewrite Z.shiftl_spec by lia. destruct (Z.leb_spec k n); [done|].
  rewrite Z.testbit_neg_r by lia. done.
Qed.

Lemma of_octets_octet a :
  is_u32 a -> of_octets (octet 0 a) (octet 1 a) (octet 2 a) (octet 3 a) = a.
Proof.
  intros Ha. apply Z.bits_inj'. intros n Hn. unfold of_octets.
  rewrite !Z.lor_spec, !shiftl_testbit by lia.
  assert (n < 8 \/ 8 <= n < 16 \/ 16 <= n < 24 \/ 24 <= n < 32 \/ 32 <= n) as [H|[H|[H|[H|H]]]] by lia.
  5: { rewrite (Z.bits_above_log2 a n); unfold is_u32, u32_max in Ha;
         [|lia|destruct (Z.eq_dec a 0) as [->|]; [simpl; lia|];
               apply Z.log2_lt_pow2; [lia|]; pose proof (Z.pow_le_mono_r 2 32 n); lia].
       zcases; repeat rewrite octet_testbit by lia; zcases; done. }
  all: zcases; cbn [andb orb]; repeat rewrite octet_testbit by lia; zcases; cbn [andb orb];
    rewrite ?orb_false_r; f_equal; lia.
Qed.

Lemma octet_range i a : 0 <= i <= 3 -> 0 <= octet i a <= 255.
Proof.
  intros Hi. unfold octet. rewrite (Z.land_ones _ 8) by lia.
  pose proof (Z.mod_pos_bound (Z.shiftr a (8 * (3 - i))) (2 ^ 8) ltac:(lia)). lia.
Qed.

(** What follows a number must not continue it. *)
Definition no_digit (s : string) : Prop :=
  match s with String c _ => digit_value 10 c = None | "" => True end.

Lemma read_digits_stop acc count s :
  no_digit s -> read_digits 10 acc count s = (acc, count, s).
Proof. destruct s as [|c r]; simpl; [done|]. by intros ->. Qed.

Lemma read_number_octet o rest :
  0 <= o <= 255 -> no_digit rest ->
  read_number 10 3 255 false (show_Z o +:+ rest) = Some (o, rest).
Proof.
  intros Ho Hr. replace o with (Z.of_nat (Z.to_nat o)) by lia.
  assert (Z.to_nat o < 256)%nat as Hlt by lia. generalize dependent (Z.to_nat o). clear o Ho.
  intros n Hlt.
  do 256 (destruct n as [|n];
    [unfold read_number; simpl; rewrite (read_digits_stop _ _ rest Hr); reflexivity|]).
  lia.
Qed.

Lemma show_octet_length o : 0 <= o <= 255 -> (String.length (show_Z o) <= 3)%nat.
Proof.
  intros Ho.
  assert (forallb (fun n => (String.length (show_Z (Z.of_nat n)) <=? 3)%nat) (seq 0 256) = true)
    as H by (vm_compute; reflexivity).
  rewrite forallb_forall in H. specialize (H (Z.to_nat o)).
  rewrite Nat.leb_le, Z2Nat.id in H by lia. apply H, in_seq. lia.
Qed.

Lemma read_octet_show i o rest :
  0 <= o <= 255 -> no_digit rest ->
  read_octet (S i) ("." +:+ (show_Z o +:+ rest)) = Some (o, rest).
Proof. intros Ho Hr. exact (read_number_octet o rest Ho Hr). Qed.

Lemma read_octet_show0 o rest :
  0 <= o <= 255 -> no_digit rest -> read_octet 0 (show_Z o +:+ rest) = Some (o, rest).
Proof. intros Ho Hr. exact (read_number_octet o rest Ho Hr). Qed.

Lemma no_digit_dot s : no_digit ("." +:+ s).
Proof. reflexivity. Qed.

Lemma read_ipv4_show a rest :
  is_u32 a -> no_digit rest -> read_ipv4_addr (show_ipv4 a +:+ rest) = Some (a, rest).
Proof.
  intros Ha Hr. unfold read_ipv4_addr, show_ipv4.
  rewrite <- (string_app_assoc (show_Z (octet 0 a))), <- (string_app_assoc "." _ rest),
    <- (string_app_assoc (show_Z (octet 1 a))), <- (string_app_assoc "." _ rest),
    <- (string_app_assoc (show_Z (octet 2 a))), <- (string_app_assoc "." _ rest).
  rewrite (read_octet_show0 (octet 0 a)) by first [apply octet_range; lia | apply no_digit_dot].
  rewrite (read_octet_show 0 (octet 1 a)) by first [apply octet_range; lia | apply no_digit_dot].
  rewrite (read_octet_show 1 (octet 2 a)) by first [apply octet_range; lia | apply no_digit_dot].
  rewrite (read_octet_show 2 (octet 3 a)) by first [apply octet_range; lia | done].
  by rewrite of_octets_octet.
Qed.

Lemma show_ipv4_length a : (String.length (show_ipv4 a) <= 15)%nat.
Proof.
  unfold show_ipv4. rewrite !string_length_app. change (String.length ".") with 1%nat.
  pose proof (show_octet_length (octet 0 a) ltac:(apply octet_range; lia)).
  pose proof (show_octet_length (octet 1 a) ltac:(apply octet_range; lia)).
  pose proof (show_octet_length (octet 2 a) ltac:(apply octet_range; lia)).
  pose proof (show_octet_length (octet 3 a) ltac:(apply octet_range; lia)). lia.
Qed.

(** A printed IPv4 address parses back to itself. *)
Lemma parse_show_ipv4 a : is_u32 a -> parse_ipv4 (show_ipv4 a) = Some a.
Proof.
  intros Ha. unfold parse_ipv4, parse_with. pose proof (show_ipv4_length a).
  destruct (Nat.ltb_spec 15 (String.length (show_ipv4 a))); [lia|].
  rewrite <- (string_app_nil_r (show_ipv4 a)). by rewrite read_ipv4_show.
Qed.

Lemma parse_ipaddr_show a : is_u32 a -> parse_ipaddr (show_ipv4 a) = Some (V4 a).
Proof.
  intros Ha. unfold parse_ipaddr, parse_with, read_ip_addr.
  rewrite <- (string_app_nil_r (show_ipv4 a)). by rewrite read_ipv4_show.
Qed.

(* ------------------------------------------------------------------ *)
(** ** The characters of an address *)

Definition ip_char (c : ascii) : bool := is_digit c || bool_decide (c = "."%char).

Lemma digits_ip_chars z : all_chars ip_char (show_Z z) = true.
Proof. eapply all_chars_impl, show_Z_chars. intros c Hc. unfold ip_char. by rewrite Hc. Qed.

Lemma show_ipv4_chars a : all_chars ip_char (show_ipv4 a) = true.
Proof. unfold show_ipv4. rewrite !all_chars_app, !digits_ip_chars. done. Qed.

Lemma ip_char_visible c : ip_char c = true -> visible c = true.
Proof.
  unfold ip_char, is_digit, visible. rewrite orb_true_iff, !andb_true_iff, !N.leb_le.
  intros [?|H%bool_decide_eq_true]; [lia|]. by subst.
Qed.

(* ------------------------------------------------------------------ *)
(** ** A concrete [Ipv4Net] that satisfies the laws *)

Record cnet := mkCnet {
  c_addr : Z;
  c_prefix : Z;
  c_ok : bool_decide (is_u32 c_addr /\ 0 <= c_prefix <= 32) = true;
}.

#[local] Instance is_u32_dec z : Decision (is_u32 z).
Proof. unfold is_u32. apply _. Defined.

Lemma cnet_ext a b : c_addr a = c_addr b -> c_prefix a = c_prefix b -> a = b.
Proof.
  destruct a as [x p H], b as [y q K]; simpl; intros <- <-. f_equal.
  apply (proof_irrel H K).
Qed.

Definition cnet_network (n : cnet) : Z := c_addr n - c_addr n mod 2 ^ (32 - c_prefix n).
Definition cnet_broadcast (n : cnet) : Z := cnet_network n + 2 ^ (32 - c_prefix n) - 1.

Definition cnet_eq_dec : EqDecision cnet.
Proof.
  intros a b. destruct (decide (c_addr a = c_addr b)) as [H|H]; [|right; congruence].
  destruct (decide (c_prefix a = c_prefix b)) as [K|K]; [|right; congruence].
  left. by apply cnet_ext.
Defined.

(** The proof carried by a network computes to [eq_refl]. *)
Definition cnet_checked (ip p : Z) (b : bool)
    : bool_decide (is_u32 ip /\ 0 <= p <= 32) = b -> option cnet :=
  match b with
  | true => fun H => Some (mkCnet ip p H)
  | false => fun _ => None
  end.
Definition cnet_new (ip p : Z) : option cnet := cnet_checked ip p _ eq_refl.

Definition cnet_parse (s : string) : option cnet :=
  match split_once "/" s with
  | Some (a, p) =>
      match parse_ipv4 a, parse_uint 32 p with
      | Some ip, Some pl => cnet_new ip pl
      | _, _ => None
      end
  | None => None
  end.

#[export] Instance cnet_api : Ipv4NetApi := {
  Ipv4Net := cnet;
  net_eq_dec := cnet_eq_dec;
  net_new := cnet_new;
  net_addr := c_addr;
  net_prefix_len := c_prefix;
  net_network := cnet_network;
  net_broadcast := cnet_broadcast;
  net_contains n ip := (cnet_network n <=? ip) && (ip <=? cnet_broadcast n);
  net_show n := show_ipv4 (c_addr n) +:+ "/" +:+ show_Z (c_prefix n);
  net_parse := cnet_parse;
}.

Lemma cnet_new_some ip p :
  is_u32 ip -> 0 <= p <= 32 ->
  exists n, cnet_new ip p = Some n /\ c_addr n = ip /\ c_prefix n = p.
Proof.
  intros H1 H2. unfold cnet_new.
  assert (forall b E, b = true -> exists n, cnet_checked ip p b E = Some n /\ c_addr n = ip /\ c_prefix n = p)
    as Hb by (intros b E ->; eexists; split_and!; [reflexivity|done|done]).
  apply Hb. by apply bool_decide_eq_true_2.
Qed.

Lemma cnet_parse_show n : cnet_parse (show_ipv4 (c_addr n) +:+ "/" +:+ show_Z (c_prefix n)) = Some n.
Proof.
  destruct n as [a p H]. simpl. pose proof (bool_decide_eq_true_1 _ H) as [Ha Hp].
  unfold cnet_parse. change ("/" +:+ show_Z p) with (String "/" (show_Z p)).
  rewrite split_once_app by (apply (all_chars_no_char ip_char); [done|apply show_ipv4_chars]).
  rewrite parse_show_ipv4 by done. rewrite parse_uint_show by lia.
  destruct (cnet_new_some a p Ha Hp) as (n & -> & <- & <-). f_equal. by apply cnet_ext.
Qed.

#[export] Instance cnet_laws : Ipv4NetLaws cnet_api.
Proof.
  split; simpl.
  - apply cnet_new_some.
  - intros [a p H]; simpl. apply bool_decide_eq_true in H. tauto.
  - intros [a p H]; simpl. apply bool_decide_eq_true in H. tauto.
  - done.
  - done.
  - intros n ip. rewrite andb_true_iff, !Z.leb_le. done.
  - apply cnet_ext.
  - done.
  - apply cnet_parse_show.
Qed.
