(* ===== verification/Host.v ===== *)
(** * The host the agent runs on

    What the agent asks of the operating system: processes ([tokio::process])
    and files ([tokio::fs], [std::fs]), as operations on a world of any type,
    with the behaviour the code relies on as laws over a view of the files; and
    [anyhow]'s errors, a chain of causes, in the monad the agent's code runs in.
    Distinct paths are distinct files.

    The commands of [coold/src/grpc/handlers.rs] run through [run_command]. *)

From S2P Require Import Prelude RustStr RustPath.
Local Open Scope Z_scope.

(* ------------------------------------------------------------------ *)
(** ** Errors *)

(** The kinds of [io::Error] the code tells apart. *)
Inductive IoKind := NotFound | AddrNotAvailable | AddrInUse | NetworkUnreachable | Other | Unlisted.

(** The codes of [tonic::Status] the code tells apart. *)
Inductive Code := Unauthenticated | PermissionDenied | InvalidArgument | FailedPrecondition | OtherCode.

Inductive Cause :=
  | Msg (s : string)
  | IoError (kind : IoKind) (s : string)
  | Status (code : Code) (s : string).

(** The outermost cause first. *)
Definition Error := list Cause.

Definition show_cause (c : Cause) : string :=
  match c with Msg s | IoError _ s | Status _ s => s end.

(** [format!("{e:#}")]. *)
Definition show_error (e : Error) : string := join ": " (show_cause <$> e).

Definition anyhow (s : string) : Error := [Msg s].

(* ------------------------------------------------------------------ *)
(** ** The monad *)

Definition Io (W A : Type) : Type := W -> result A Error * W.

Definition io_ret {W A} (a : A) : Io W A := fun w => (Ok a, w).
Definition io_fail {W A} (e : Error) : Io W A := fun w => (Err e, w).
Definition io_bind {W A B} (m : Io W A) (k : A -> Io W B) : Io W B := fun w =>
  let '(r, w1) := m w in
  match r with Ok a => k a w1 | Err e => (Err e, w1) end.

(** [m.context(c)]. *)
Definition with_context {W A} (c : string) (m : Io W A) : Io W A := fun w =>
  let '(r, w1) := m w in (match r with Ok a => Ok a | Err e => Err (Msg c :: e) end, w1).

(** A call whose error is inspected rather than returned. *)
Definition attempt {W A} (m : Io W A) : Io W (result A Error) := fun w =>
  let '(r, w1) := m w in (Ok r, w1).

Definition io_lift {W A} (r : result A Error) : Io W A := fun w => (r, w).

Notation "'let!' x ':=' e 'in' k" := (io_bind e (fun x => k))
  (at level 10, x pattern, e at level 200, k at level 200,
   format "'[v' 'let!'  x  ':='  e  'in' '/' k ']'") : rust_scope.
Notation "e ';;' k" := (io_bind e (fun _ => k))
  (at level 100, k at level 200, right associativity, format "'[v' e ';;' '/' k ']'") : rust_scope.

Fixpoint io_each {W A} (f : A -> Io W unit) (l : list A) : Io W unit :=
  match l with
  | [] => io_ret ()
  | a :: l' => io_bind (f a) (fun _ => io_each f l')
  end.

Lemma io_bind_Ok {W A B} (m : Io W A) (k : A -> Io W B) w b w' :
  io_bind m k w = (Ok b, w') <-> exists a w1, m w = (Ok a, w1) /\ k a w1 = (Ok b, w').
Proof. unfold io_bind. destruct (m w) as [[a|e] w1]; naive_solver. Qed.

Lemma with_context_Ok {W A} c (m : Io W A) w a w' : with_context c m w = (Ok a, w') <-> m w = (Ok a, w').
Proof. unfold with_context. destruct (m w) as [[b|e] w1]; naive_solver. Qed.

Lemma attempt_Ok {W A} (m : Io W A) w r w' : attempt m w = (Ok r, w') <-> m w = (r, w').
Proof. unfold attempt. destruct (m w) as [b w1]; naive_solver. Qed.

(** Take a run that succeeded apart into the runs of its steps. *)
Ltac io_inv H :=
  repeat match type of H with
  | io_bind _ _ _ = (Ok _, _) =>
      let a := fresh "r" in let w1 := fresh "w" in let H1 := fresh "Hs" in
      apply io_bind_Ok in H as (a & w1 & H1 & H); try (match type of a with unit => destruct a end);
      try apply with_context_Ok in H1
  | with_context _ _ _ = (Ok _, _) => apply with_context_Ok in H
  | io_ret _ _ = (Ok _, _) => unfold io_ret in H; injection H; clear H; intros; subst
  | io_fail _ _ = (Ok _, _) => discriminate H
  end.

(** What one run preserves, whatever it returns. *)
Definition preserves {W A} (I : W -> W -> Prop) (m : Io W A) : Prop := forall w, I w (m w).2.

Section Preserves.
Context {W : Type} (I : W -> W -> Prop) `{!PreOrder I}.

Lemma preserves_ret {A} (a : A) : preserves I (io_ret a).
Proof. intros w. reflexivity. Qed.
Lemma preserves_fail {A} e : preserves I (io_fail (A := A) e).
Proof. intros w. reflexivity. Qed.
Lemma preserves_lift {A} (r : result A Error) : preserves I (io_lift r).
Proof. intros w. reflexivity. Qed.
Lemma preserves_bind {A B} (m : Io W A) (k : A -> Io W B) :
  preserves I m -> (forall a, preserves I (k a)) -> preserves I (io_bind m k).
Proof.
  intros Hm Hk w. unfold io_bind. specialize (Hm w). destruct (m w) as [[a|e] w1]; cbn in *; [|done].
  etransitivity; [done|]. apply Hk.
Qed.
Lemma preserves_with_context {A} c (m : Io W A) : preserves I m -> preserves I (with_context c m).
Proof. intros Hm w. specialize (Hm w). unfold with_context. by destruct (m w). Qed.
Lemma preserves_attempt {A} (m : Io W A) : preserves I m -> preserves I (attempt m).
Proof. intros Hm w. specialize (Hm w). unfold attempt. by destruct (m w). Qed.
Lemma preserves_each {A} (f : A -> Io W unit) l : (forall a, preserves I (f a)) -> preserves I (io_each f l).
Proof. intros Hf. induction l; cbn; [apply preserves_ret|by apply preserves_bind]. Qed.
Lemma preserves_each_in {A} (f : A -> Io W unit) l : (forall a, a ∈ l -> preserves I (f a)) -> preserves I (io_each f l).
Proof.
  induction l as [|a l IH]; intros Hf; cbn; [apply preserves_ret|]. apply preserves_bind; [by apply Hf; left|].
  intros _. apply IH. intros b Hb. apply Hf. by right.
Qed.
(** What follows a step may use that the step returned. *)
Lemma preserves_bind_post {A B} (m : Io W A) (k : A -> Io W B) :
  preserves I m -> (forall a w w', m w = (Ok a, w') -> preserves I (k a)) -> preserves I (io_bind m k).
Proof.
  intros Hm Hk w. unfold io_bind. specialize (Hm w). destruct (m w) as [[a|e] w1] eqn:E; cbn in *; [|done].
  etransitivity; [done|]. by eapply Hk.
Qed.
End Preserves.

(** [io]: what a piece of the agent's code preserves follows from its parts. *)
Create HintDb io.
#[export] Hint Resolve preserves_ret preserves_fail preserves_lift preserves_bind preserves_with_context
  preserves_attempt preserves_each : io.
Ltac io_preserves :=
  repeat first
    [ solve [auto 2 with io]
    | apply (preserves_ret _) | apply (preserves_fail _) | apply (preserves_lift _)
    | apply (preserves_bind _); [|intros]
    | apply preserves_with_context | apply preserves_attempt
    | apply (preserves_each _); intros
    | match goal with
      | |- preserves _ (match ?x with _ => _ end) => destruct x
      | |- preserves _ (let '(_, _) := ?x in _) => destruct x
      end ].

(* ------------------------------------------------------------------ *)
(** ** Processes and files *)

(** What a finished process leaves: its status, the text that shows it, and
    what it wrote. *)
Record Output := mkOut {
  o_success : bool;
  o_show : string;
  o_out : string;
  o_err : string;
}.

Class Host (W : Type) := {
  (** [Command::new(program).args(args).output()] *)
  output : list string -> Io W Output;
  (** [Path::exists] *)
  path_exists : string -> W -> bool;
  (** [fs::read_to_string], [fs::write], [fs::create_dir_all], [fs::rename], [fs::remove_file] *)
  read_to_string : string -> Io W string;
  write_file : string -> string -> Io W unit;
  create_dir_all : string -> Io W unit;
  rename : string -> string -> Io W unit;
  remove_file : string -> Io W unit;
  (** [fs::read_dir]: the file names of the entries *)
  read_dir : string -> Io W (list string);
  (** [OpenOptions] with [write], [create], [truncate] and a mode; [write_all]; [flush] *)
  open_truncate : string -> Z -> Io W unit;
  write_all : string -> string -> Io W unit;
  flush : string -> Io W unit;
  (** [metadata(..).permissions().mode()], [set_permissions] *)
  file_mode : string -> Io W Z;
  set_mode : string -> Z -> Io W unit;
  (** [fs::canonicalize] *)
  canonicalize : string -> W -> result string Error;
}.

Record File := mkFile { f_data : string; f_mode : Z }.

(** Two worlds whose files agree outside of [ps]. *)
Definition same_but {W} (files : W -> gmap string File) (ps : list string) (w w' : W) : Prop :=
  forall q, q ∉ ps -> files w' !! q = files w !! q.

#[export] Instance same_but_preorder {W} (files : W -> gmap string File) ps : PreOrder (same_but files ps).
Proof. split; [by intros w q|]. intros w1 w2 w3 H12 H23 q Hq. by rewrite H23, H12. Qed.

Lemma same_but_weaken {W} (files : W -> gmap string File) ps ps' w w' :
  ps ⊆ ps' -> same_but files ps w w' -> same_but files ps' w w'.
Proof. intros Hs H q Hq. apply H. set_solver. Qed.

(** The permission bits of a file are its mode; the bits above them, which say
    what kind of file it is, are left open. *)
Class HostLaws (W : Type) `{Host W} (files : W -> gmap string File) : Prop := {
  law_exists p w : path_exists p w = false -> files w !! p = None;
  law_read p w : same_but files [] w (read_to_string p w).2;
  law_read_Ok p w s w' : read_to_string p w = (Ok s, w') -> exists m, files w !! p = Some (mkFile s m);
  law_write p s w : same_but files [p] w (write_file p s w).2;
  law_write_Ok p s w w' : write_file p s w = (Ok (), w') -> exists m, files w' !! p = Some (mkFile s m);
  law_mkdir p w : same_but files [] w (create_dir_all p w).2;
  law_rename_Err p q w e w' : rename p q w = (Err e, w') -> same_but files [] w w';
  law_rename_Ok p q w w' : rename p q w = (Ok (), w') ->
    exists f, files w !! p = Some f /\ files w' = <[q := f]> (delete p (files w));
  law_remove p w : same_but files [p] w (remove_file p w).2;
  law_remove_Ok p w w' : remove_file p w = (Ok (), w') -> files w' !! p = None;
  law_read_dir p w : same_but files [] w (read_dir p w).2;
  law_open p m w : same_but files [p] w (open_truncate p m w).2;
  law_open_Ok p m w w' : open_truncate p m w = (Ok (), w') -> exists m', files w' !! p = Some (mkFile "" m');
  law_write_all p s w : same_but files [p] w (write_all p s w).2;
  law_write_all_Ok p s w w' m : write_all p s w = (Ok (), w') ->
    files w !! p = Some (mkFile "" m) -> files w' !! p = Some (mkFile s m);
  law_flush p w : same_but files [] w (flush p w).2;
  law_mode p w : same_but files [] w (file_mode p w).2;
  law_mode_Ok p w m w' : file_mode p w = (Ok m, w') ->
    exists d m', files w !! p = Some (mkFile d m') /\ Z.land m 511 = Z.land m' 511;
  law_set_mode p m w : same_but files [p] w (set_mode p m w).2;
  law_set_mode_Ok p m w w' d m' : set_mode p m w = (Ok (), w') ->
    files w !! p = Some (mkFile d m') -> files w' !! p = Some (mkFile d m);
}.

(** A machine on which looking at a file that is there does not fail: not a law of
    every machine, but a condition of the theorems that say what is read next. *)
Class HostReads (W : Type) `{Host W} (files : W -> gmap string File) : Prop := {
  reads_data p w f : files w !! p = Some f -> exists w', read_to_string p w = (Ok (f_data f), w');
  reads_mode p w f : files w !! p = Some f -> exists m w', file_mode p w = (Ok m, w');
}.

(* ------------------------------------------------------------------ *)
(** ** Running a command *)

Definition combined_output (o : Output) : string :=
  join lf (filter (fun p => is_empty p = false)
             [trim (from_utf8_lossy (o_out o)); trim (from_utf8_lossy (o_err o))]).

Section Run.
Context {W : Type} `{!Host W}.
Local Open Scope rust_scope.

Definition run_command (argv : list string) : Io W string :=
  let! o := with_context "run command" (output argv) in
  let combined := combined_output o in
  if o_success o then io_ret combined
  else io_fail (anyhow (if is_empty combined then "command exited with " +:+ o_show o else combined)).

(** The log lines around the command are left out. *)
Definition run_logged_command (label : string) (argv : list string) : Io W string := run_command argv.

Lemma run_command_Ok label argv w s w' :
  run_logged_command label argv w = (Ok s, w') -> exists o, output argv w = (Ok o, w') /\ o_success o = true.
Proof.
  unfold run_logged_command, run_command. intros H. io_inv H. exists r. split; [|by destruct (o_success r)].
  rewrite Hs. destruct (o_success r); [|done]. by injection H as _ <-.
Qed.

Lemma run_command_world label argv w : (run_logged_command label argv w).2 = (output argv w).2.
Proof.
  unfold run_logged_command, run_command, io_bind, with_context.
  destruct (output argv w) as [[o|e] w1]; [|done]. by destruct (o_success o).
Qed.
End Run.

(* ------------------------------------------------------------------ *)
(** ** A host in memory *)

(** Files are a map, and an operation on a file that is not there fails.
    Processes are recorded; [step] says what one answers and what becomes of the
    rest of the machine, which has any type. *)
Module Sim.
Record World (X : Type) := mkWorld { w_files : gmap string File; w_log : list (list string); w_ext : X }.
Arguments mkWorld {X} _ _ _.
Arguments w_files {X} _.
Arguments w_log {X} _.
Arguments w_ext {X} _.

Definition missing : Error := [IoError NotFound "No such file or directory"].
Definition with_files {X} (f : gmap string File) (w : World X) : World X := mkWorld f (w_log w) (w_ext w).
Definition mode_at {X} (p : string) (w : World X) : Z :=
  match w_files w !! p with Some f => f_mode f | None => 420 end.

Section Answers.
Context {X : Type} (step : list string -> gmap string File -> X -> Output * X) (canon : string -> option string).

Definition run_process (argv : list string) : Io (World X) Output := fun w =>
  let '(o, x) := step argv (w_files w) (w_ext w) in (Ok o, mkWorld (w_files w) (w_log w ++ [argv]) x).

#[export] Instance host : Host (World X) := {|
  output := run_process;
  path_exists p w := bool_decide (is_Some (w_files w !! p));
  read_to_string p := fun w =>
    (match w_files w !! p with Some f => Ok (f_data f) | None => Err missing end, w);
  write_file p s := fun w => (Ok (), with_files (<[p := mkFile s (mode_at p w)]> (w_files w)) w);
  create_dir_all p := fun w => (Ok (), w);
  rename p q := fun w =>
    match w_files w !! p with
    | Some f => (Ok (), with_files (<[q := f]> (delete p (w_files w))) w)
    | None => (Err missing, w)
    end;
  remove_file p := fun w =>
    match w_files w !! p with
    | Some _ => (Ok (), with_files (delete p (w_files w)) w)
    | None => (Err missing, w)
    end;
  read_dir p := fun w =>
    (Ok (filter (fun name => contains_char "/" name = false)
           (omap (fun kv => strip_prefix (p +:+ "/") kv.1) (map_to_list (w_files w)))), w);
  open_truncate p m := fun w => (Ok (), with_files (<[p := mkFile "" m]> (w_files w)) w);
  write_all p s := fun w =>
    match w_files w !! p with
    | Some f => (Ok (), with_files (<[p := mkFile (f_data f +:+ s) (f_mode f)]> (w_files w)) w)
    | None => (Err missing, w)
    end;
  flush p := fun w => (Ok (), w);
  file_mode p := fun w => (match w_files w !! p with Some f => Ok (f_mode f) | None => Err missing end, w);
  set_mode p m := fun w =>
    match w_files w !! p with
    | Some f => (Ok (), with_files (<[p := mkFile (f_data f) m]> (w_files w)) w)
    | None => (Err missing, w)
    end;
  canonicalize p w := match canon p with Some c => Ok c | None => Err missing end;
|}.

Lemma same_insert p f (w : World X) : same_but w_files [p] w (with_files (<[p := f]> (w_files w)) w).
Proof. intros q Hq. cbn. rewrite lookup_insert_ne; [done|]. set_solver. Qed.
Lemma same_delete p (w : World X) : same_but w_files [p] w (with_files (delete p (w_files w)) w).
Proof. intros q Hq. cbn. rewrite lookup_delete_ne; [done|]. set_solver. Qed.

#[export] Instance laws : HostLaws (World X) w_files.
Proof.
  split; try (by intros ? ? ?; cbn; done).
  - intros p w. cbn. intros H%bool_decide_eq_false. by apply eq_None_not_Some.
  - intros p w s w'. cbn. destruct (w_files w !! p) as [[d m]|]; [|done]. intros [= <- <-]. by exists m.
  - intros p s w. apply same_insert.
  - intros p s w w'. cbn. intros [= <-]. eexists. cbn. by rewrite lookup_insert_eq.
  - intros p q w e w'. cbn. destruct (w_files w !! p); [done|]. by intros [= <- <-].
  - intros p q w w'. cbn. destruct (w_files w !! p) as [f|]; [|done]. intros [= <-]. by exists f.
  - intros p w. cbn. destruct (w_files w !! p); [apply same_delete|done].
  - intros p w w'. cbn. destruct (w_files w !! p); [|done]. intros [= <-]. cbn. by rewrite lookup_delete_eq.
  - intros p m w. apply same_insert.
  - intros p m w w'. cbn. intros [= <-]. eexists. cbn. by rewrite lookup_insert_eq.
  - intros p s w. cbn. destruct (w_files w !! p); [apply same_insert|done].
  - intros p s w w' m. cbn. intros E Hf. rewrite Hf in E. injection E as <-. cbn.
    by rewrite lookup_insert_eq, string_app_nil_l.
  - intros p w m w'. cbn. destruct (w_files w !! p) as [[d m']|]; [|done]. intros [= <- <-]. by exists d, m'.
  - intros p m w. cbn. destruct (w_files w !! p); [apply same_insert|done].
  - intros p m w w' d m'. cbn. intros E Hf. rewrite Hf in E. injection E as <-. cbn. by rewrite lookup_insert_eq.
Qed.

#[export] Instance reads : HostReads (World X) w_files.
Proof. split; intros p w f Hf; cbn; rewrite Hf; eauto. Qed.
End Answers.

(** A machine on which every process succeeds silently. *)
Definition quiet (argv : list string) (f : gmap string File) (x : unit) : Output * unit :=
  (mkOut true "exit status: 0" "" "", x).
End Sim.
