(* ===== verification/HostJwt.v ===== *)
(** * The host token

    [coold/src/grpc/host_jwt.rs]: the decoder of base64url, the structural check
    of a token, and its installation through a temporary file; and
    [load_host_jwt] of [coold/src/grpc/client.rs], which reads it back on every
    connection.  [serde_json] and the [Debug] form of a string are parameters. *)

From S2P Require Import Prelude RustStr RustPath Messages Host.
From Stdlib Require Import OctalString.
Local Open Scope Z_scope.

(* ------------------------------------------------------------------ *)
(** ** base64url *)

Definition byte_val (c : ascii) : Z := Z.of_N (N_of_ascii c).
(** [z as u8]. *)
Definition as_u8 (z : Z) : ascii := ascii_of_N (Z.to_N (z mod 256)).
(** [a << n] on [u32]: the bits shifted out are lost. *)
Definition shl32 (a n : Z) : Z := (Z.shiftl a n) mod 2 ^ 32.

Definition sextet (byte : ascii) : option Z :=
  let b := byte_val byte in
  if (65 <=? b) && (b <=? 90) then Some (b - 65)
  else if (97 <=? b) && (b <=? 122) then Some (b - 97 + 26)
  else if (48 <=? b) && (b <=? 57) then Some (b - 48 + 52)
  else if b =? 45 then Some 62
  else if b =? 95 then Some 63
  else None.

(** The loop: what is pushed from here on. *)
Fixpoint decode_loop (input : string) (buffer bits : Z) : option string :=
  match input with
  | "" => Some ""
  | String byte rest =>
      v ← sextet byte;
      let buffer := Z.lor (shl32 buffer 6) v in
      let bits := bits + 6 in
      if 8 <=? bits
      then String (as_u8 (Z.shiftr buffer (bits - 8))) <$> decode_loop rest buffer (bits - 8)
      else decode_loop rest buffer bits
  end.

Definition base64url_decode (input : string) : option string := decode_loop input 0 0.

(** The encoder of the tests. *)
Definition ALPHABET : string := "ABCDEFGHIJKLMNOPQRSTUVWXYZabcdefghijklmnopqrstuvwxyz0123456789-_".
Definition letter (i : Z) : ascii := default "A"%char (String.get (Z.to_nat i) ALPHABET).

(** [while bits >= 6]: the letters, and the bits that remain. *)
Fixpoint encode_drain (fuel : nat) (buffer bits : Z) : string * Z :=
  match fuel with
  | O => ("", bits)
  | S n =>
      if 6 <=? bits then
        let '(s, bits') := encode_drain n buffer (bits - 6) in
        (String (letter (Z.land (Z.shiftr buffer (bits - 6)) 63)) s, bits')
      else ("", bits)
  end.

Fixpoint encode_loop (bytes : string) (buffer bits : Z) : string :=
  match bytes with
  | "" => if 0 <? bits then String (letter (Z.land (shl32 buffer (6 - bits)) 63)) "" else ""
  | String byte rest =>
      let buffer := Z.lor (shl32 buffer 8) (byte_val byte) in
      let '(s, bits') := encode_drain (Z.to_nat (bits + 8)) buffer (bits + 8) in
      s +:+ encode_loop rest buffer bits'
  end.

Definition b64url (bytes : string) : string := encode_loop bytes 0 0.

(* ------------------------------------------------------------------ *)
(** ** The token *)

(** [value.get(k)] on an object: the last field of that name. *)
Definition json_get (k : string) (j : json) : option json :=
  match j with
  | JObj fields => last (filter (fun f => f.1 = k) fields).*2
  | _ => None
  end.

Definition as_str (j : json) : option string := match j with JStr s => Some s | _ => None end.

Section Token.
Context (from_slice : string -> option json) (debug_str : string -> string).
Local Open Scope rust_scope.

Definition structural_error : Error :=
  anyhow "host JWT is not a structurally valid token (want three non-empty base64url segments)".

Definition validate_and_extract_sub (jwt : string) : result (option string) Error :=
  if is_empty jwt then Err (anyhow "host JWT is empty")
  else
    let parts := split "." jwt in
    if negb (length parts =? 3)%nat || existsb is_empty parts then Err structural_error
    else
      match mapM base64url_decode parts with
      | Some [_; payload; _] => Ok ((from_slice payload ≫= json_get "sub") ≫= as_str)
      | _ => Err (anyhow "host JWT segment is not valid base64url")
      end.

Context {W : Type} `{!Host W}.

Definition current_host_sub (host_jwt_path : string) (w : W) : option string * W :=
  match read_to_string host_jwt_path w with
  | (Ok raw, w') =>
      (match validate_and_extract_sub (trim raw) with Ok sub => sub | Err _ => None end, w')
  | (Err _, w') => (None, w')
  end.

(** The temporary file beside [path]; [pid] is [std::process::id()]. *)
Definition tmp_path (pid : Z) (path : string) : string :=
  let dir := match parent path with
             | Some d => if is_empty d then "." else d
             | None => "."
             end in
  path_join dir ("." +:+ default "host-jwt" (file_name path) +:+ ".tmp." +:+ show_Z pid).

Definition write_steps (tmp path jwt : string) : Io W unit :=
  with_context ("open temp host JWT " +:+ tmp) (open_truncate tmp 384);;
  with_context "write temp host JWT" (write_all tmp jwt);;
  with_context "flush temp host JWT" (flush tmp);;
  with_context "chmod temp host JWT" (set_mode tmp 384);;
  with_context ("install host JWT at " +:+ path) (rename tmp path).

Definition write_host_jwt_atomic (pid : Z) (path jwt : string) : Io W unit := fun w =>
  let tmp := tmp_path pid path in
  match write_steps tmp path jwt w with
  | (Ok _, w1) => (Ok (), w1)
  | (Err e, w1) => (Err e, (remove_file tmp w1).2)
  end.

Definition apply_host_jwt (pid : Z) (new_jwt host_jwt_path : string) : Io W unit := fun w =>
  let new_jwt := trim new_jwt in
  match validate_and_extract_sub new_jwt with
  | Err e => (Err e, w)
  | Ok None => write_host_jwt_atomic pid host_jwt_path new_jwt w
  | Ok (Some new_sub) =>
      match current_host_sub host_jwt_path w with
      | (Some current_sub, w1) =>
          if decide (current_sub <> new_sub) then
            (Err (anyhow ("refusing host JWT: token sub " +:+ debug_str new_sub +:+
                          " does not match current host " +:+ debug_str current_sub)), w1)
          else write_host_jwt_atomic pid host_jwt_path new_jwt w1
      | (None, w1) => write_host_jwt_atomic pid host_jwt_path new_jwt w1
      end
  end.

(** [load_host_jwt] of [client.rs]. *)
Definition load_host_jwt (path : string) : Io W string :=
  let! meta := with_context ("stat host JWT " +:+ path) (file_mode path) in
  let mode := Z.land meta 511 in
  if negb (Z.land mode 63 =? 0) then
    io_fail (anyhow ("host JWT " +:+ path +:+ " has insecure perms " +:+ OctalString.of_Z mode +:+
                     "; want 0600 (no group/other access)"))
  else
    let! raw := with_context ("read host JWT from " +:+ path) (read_to_string path) in
    let trimmed := trim raw in
    if is_empty trimmed then io_fail (anyhow ("host JWT file " +:+ path +:+ " is empty"))
    else io_ret trimmed.
End Token.

(* ------------------------------------------------------------------ *)
(** ** base64url is what it should be *)

(** The [n] low bits of [v], the highest first. *)
Fixpoint bits_of (n : nat) (v : Z) : list bool :=
  match n with O => [] | S m => Z.testbit v (Z.of_nat m) :: bits_of m v end.

Definition val (l : list bool) : Z := foldl (fun a b => 2 * a + Z.b2z b) 0 l.

(** Whole bytes; bits that do not fill one are dropped. *)
Fixpoint bytes_of_bits (l : list bool) : string :=
  match l with
  | b7 :: b6 :: b5 :: b4 :: b3 :: b2 :: b1 :: b0 :: r =>
      String (as_u8 (val [b7; b6; b5; b4; b3; b2; b1; b0])) (bytes_of_bits r)
  | _ => ""
  end.

Lemma bits_of_app n m v : bits_of (n + m) v = bits_of n (Z.shiftr v (Z.of_nat m)) ++ bits_of m v.
Proof.
  induction n as [|n IH]; [done|]. cbn [Nat.add bits_of app]. rewrite IH, Z.shiftr_spec by lia.
  by replace (Z.of_nat (n + m)) with (Z.of_nat n + Z.of_nat m) by lia.
Qed.

Lemma bits_of_ext n v v' :
  (forall i, 0 <= i < Z.of_nat n -> Z.testbit v i = Z.testbit v' i) -> bits_of n v = bits_of n v'.
Proof.
  induction n as [|n IH]; intros H; [done|]. cbn. f_equal; [apply H; lia|]. apply IH. intros i Hi. apply H. lia.
Qed.

Lemma val_bits_of n v : val (bits_of n v) = v mod 2 ^ Z.of_nat n.
Proof.
  assert (forall a l, foldl (fun a b => 2 * a + Z.b2z b) a l = a * 2 ^ Z.of_nat (length l) + val l) as Hacc.
  { intros a l. revert a. unfold val. induction l as [|b l IH]; intros a; [cbn; lia|]. cbn [foldl length].
    rewrite (IH (2 * a + _)), (IH (2 * 0 + _)), Nat2Z.inj_succ, Z.pow_succ_r by lia. lia. }
  assert (forall k, length (bits_of k v) = k) as Hlen by (intros k; induction k; cbn; congruence).
  induction n as [|n IH]; [cbn; by rewrite Z.mod_1_r|].
  unfold val. cbn [bits_of foldl]. rewrite Hacc, IH, Hlen. replace (2 * 0 + Z.b2z (Z.testbit v (Z.of_nat n)))
    with (Z.b2z (Z.testbit v (Z.of_nat n))) by lia.
  rewrite Z.testbit_spec' by lia. replace (Z.of_nat (S n)) with (Z.of_nat n + 1) by lia.
  rewrite Z.pow_add_r, Z.pow_1_r by lia. rewrite Z.rem_mul_r by lia. lia.
Qed.

Lemma sextet_range c v : sextet c = Some v -> 0 <= v < 64.
Proof.
  unfold sextet. repeat match goal with |- context [if ?b then _ else _] => destruct b eqn:? end; try done;
    intros [= <-]; repeat match goal with H : _ && _ = true |- _ => apply andb_true_iff in H as [?%Z.leb_le ?%Z.leb_le] end;
    lia.
Qed.

Lemma small_testbit v n i : 0 <= v < 2 ^ n -> n <= i -> Z.testbit v i = false.
Proof.
  intros Hv Hi. destruct (Z.eq_dec v 0) as [->|]; [apply Z.testbit_0_l|].
  destruct (Z.lt_ge_cases n 0); [rewrite Z.pow_neg_r in Hv; lia|].
  apply Z.bits_above_log2; [lia|]. apply Z.log2_lt_pow2; [lia|].
  eapply Z.lt_le_trans; [apply Hv|]. apply Z.pow_le_mono_r; lia.
Qed.

(** Shifting [n] new bits in, as long as 32 bits hold what is pending. *)
Lemma shift_in (k n : nat) buffer v :
  0 <= v < 2 ^ Z.of_nat n -> (k + n <= 32)%nat ->
  bits_of (k + n) (Z.lor (shl32 buffer (Z.of_nat n)) v) = bits_of k buffer ++ bits_of n v.
Proof.
  intros Hv Hk. rewrite bits_of_app. f_equal; apply bits_of_ext; intros i Hi.
  - rewrite Z.shiftr_spec, Z.lor_spec by lia. rewrite (small_testbit v (Z.of_nat n)) by lia. rewrite orb_false_r.
    unfold shl32. rewrite Z.mod_pow2_bits_low by lia. rewrite Z.shiftl_spec by lia. f_equal. lia.
  - rewrite Z.lor_spec. unfold shl32. rewrite Z.mod_pow2_bits_low by lia.
    by rewrite Z.shiftl_spec_low by lia.
Qed.

Lemma bytes_of_bits_byte v r : bytes_of_bits (bits_of 8 v ++ r) = String (as_u8 v) (bytes_of_bits r).
Proof.
  cbn [bits_of app bytes_of_bits]. f_equal. unfold as_u8. do 2 f_equal.
  change [_; _; _; _; _; _; _; _] with (bits_of 8 v). rewrite val_bits_of. by rewrite Z.mod_mod by lia.
Qed.

Lemma decode_loop_spec input : forall buffer (k : nat), (k < 8)%nat ->
  decode_loop input buffer (Z.of_nat k) =
  (fun vs => bytes_of_bits (bits_of k buffer ++ (vs ≫= bits_of 6))) <$> mapM sextet (String.list_ascii_of_string input).
Proof.
  induction input as [|c input IH]; intros buffer k Hk.
  { cbn. f_equal. do 7 (destruct k as [|k]; [done|]). destruct k; [done|lia]. }
  cbn [decode_loop String.list_ascii_of_string mapM]. destruct (sextet c) as [v|] eqn:Hv; [|done].
  apply sextet_range in Hv. cbn [mbind option_bind].
  assert (forall vs, bits_of k buffer ++ ((v :: vs) ≫= bits_of 6) =
          bits_of (k + 6) (Z.lor (shl32 buffer 6) v) ++ (vs ≫= bits_of 6)) as Hpend.
  { intros vs. change ((v :: vs) ≫= bits_of 6) with (bits_of 6 v ++ (vs ≫= bits_of 6)).
    rewrite app_assoc. f_equal. symmetry. apply shift_in; lia. }
  set (buf := Z.lor (shl32 buffer 6) v) in *. destruct (Z.leb_spec 8 (Z.of_nat k + 6)).
  - replace (Z.of_nat k + 6 - 8) with (Z.of_nat (k - 2)) by lia. rewrite IH by lia.
    destruct (mapM sextet _) as [vs|]; [|done]. apply (f_equal Some).
    transitivity (bytes_of_bits (bits_of k buffer ++ ((v :: vs) ≫= bits_of 6))); [|done]. rewrite Hpend.
    replace (k + 6)%nat with (8 + (k - 2))%nat by lia.
    by rewrite bits_of_app, <- app_assoc, bytes_of_bits_byte.
  - replace (Z.of_nat k + 6) with (Z.of_nat (k + 6)) by lia. rewrite IH by lia.
    destruct (mapM sextet _) as [vs|]; [|done]. apply (f_equal Some).
    transitivity (bytes_of_bits (bits_of k buffer ++ ((v :: vs) ≫= bits_of 6))); [|done]. by rewrite Hpend.
Qed.

(** *** RFC 4648 *)

(** Table 2: a character stands for its position. *)
Definition rfc_alphabet : string := "ABCDEFGHIJKLMNOPQRSTUVWXYZabcdefghijklmnopqrstuvwxyz0123456789-_".
Fixpoint position (c : ascii) (i : Z) (s : string) : option Z :=
  match s with
  | "" => None
  | String c' rest => if decide (c = c') then Some i else position c (i + 1) rest
  end.
Definition rfc_value (c : ascii) : option Z := position c 0 rfc_alphabet.

(** Section 4: four characters are a group of 24 bits, three bytes; the last group
    may have three characters, two bytes, or two, one byte.  It never has one. *)
Definition octet (z : Z) : ascii := ascii_of_N (Z.to_N z).
Fixpoint rfc_bytes (vs : list Z) : option string :=
  match vs with
  | [] => Some ""
  | [_] => None
  | [a; b] => let n := a * 64 + b in Some (String (octet (n / 16)) "")
  | [a; b; c] =>
      let n := (a * 64 + b) * 64 + c in Some (String (octet (n / 1024)) (String (octet (n / 4 mod 256)) ""))
  | a :: b :: c :: d :: rest =>
      let n := ((a * 64 + b) * 64 + c) * 64 + d in
      (fun s => String (octet (n / 65536)) (String (octet (n / 256 mod 256)) (String (octet (n mod 256)) s)))
        <$> rfc_bytes rest
  end.
Definition rfc_decode (input : string) : option string :=
  mapM rfc_value (String.list_ascii_of_string input) ≫= rfc_bytes.

(** The values without the one that is left over when the others are in fours. *)
Definition without_stray (vs : list Z) : list Z :=
  if (length vs mod 4 =? 1)%nat then take (length vs - 1) vs else vs.

Lemma rfc_value_sextet c : rfc_value c = sextet c.
Proof. destruct c as [[] [] [] [] [] [] [] []]; reflexivity. Qed.

Lemma bits_push (k m : nat) n v :
  0 <= v < 2 ^ Z.of_nat m -> bits_of (k + m) (n * 2 ^ Z.of_nat m + v) = bits_of k n ++ bits_of m v.
Proof.
  intros Hv. rewrite bits_of_app. f_equal.
  - f_equal. rewrite Z.shiftr_div_pow2 by lia. rewrite Z.div_add_l by lia. rewrite Z.div_small by lia. lia.
  - apply bits_of_ext. intros i Hi. rewrite <- (Z.mod_pow2_bits_low _ (Z.of_nat m)) by lia.
    rewrite Z.add_comm, Z.mod_add by lia. by rewrite Z.mod_small.
Qed.

Lemma octet_byte v : octet (v mod 256) = as_u8 v.
Proof. done. Qed.

Lemma bytes_group2 a b : 0 <= a < 64 -> 0 <= b < 64 ->
  bytes_of_bits (bits_of 6 a ++ bits_of 6 b ++ []) = String (octet ((a * 64 + b) / 16)) "".
Proof.
  intros Ha Hb. rewrite app_nil_r, <- (bits_push 6 6 a b) by lia. change (6 + 6)%nat with (8 + 4)%nat.
  rewrite bits_of_app, bytes_of_bits_byte, <- octet_byte, Z.shiftr_div_pow2 by lia. cbn.
  rewrite Z.mod_small; [done|]. change (Z.pow_pos 2 6) with 64. change (Z.pow_pos 2 4) with 16.
  split; [apply Z.div_pos; lia|apply Z.div_lt_upper_bound; lia].
Qed.

Lemma bytes_group3 a b c : 0 <= a < 64 -> 0 <= b < 64 -> 0 <= c < 64 ->
  let n := (a * 64 + b) * 64 + c in
  bytes_of_bits (bits_of 6 a ++ bits_of 6 b ++ bits_of 6 c ++ []) =
  String (octet (n / 1024)) (String (octet (n / 4 mod 256)) "").
Proof.
  intros Ha Hb Hc n. rewrite app_nil_r, app_assoc, <- (bits_push 6 6 a b), <- (bits_push 12 6 _ c) by lia.
  change (_ * 2 ^ _ + c) with n. change (12 + 6)%nat with (8 + (8 + 2))%nat.
  rewrite !bits_of_app, !bytes_of_bits_byte, <- !octet_byte, !Z.shiftr_div_pow2 by lia.
  change (2 ^ Z.of_nat (8 + 2)) with 1024. change (2 ^ Z.of_nat 2) with 4.
  rewrite (Z.mod_small (n / 1024)); [done|].
  split; [apply Z.div_pos; lia|apply Z.div_lt_upper_bound; lia].
Qed.

Lemma bytes_group4 a b c d r : 0 <= a < 64 -> 0 <= b < 64 -> 0 <= c < 64 -> 0 <= d < 64 ->
  let n := ((a * 64 + b) * 64 + c) * 64 + d in
  bytes_of_bits (bits_of 6 a ++ bits_of 6 b ++ bits_of 6 c ++ bits_of 6 d ++ r) =
  String (octet (n / 65536)) (String (octet (n / 256 mod 256)) (String (octet (n mod 256)) (bytes_of_bits r))).
Proof.
  intros Ha Hb Hc Hd n. rewrite 3!app_assoc.
  rewrite <- (bits_push 6 6 a b), <- (bits_push 12 6 _ c), <- (bits_push 18 6 _ d) by lia.
  change (_ * 2 ^ _ + d) with n. change (18 + 6)%nat with (8 + (8 + 8))%nat.
  rewrite !bits_of_app, <- !app_assoc, !bytes_of_bits_byte, <- !octet_byte, !Z.shiftr_div_pow2 by lia.
  change (2 ^ Z.of_nat (8 + 8)) with 65536. change (2 ^ Z.of_nat 8) with 256.
  rewrite (Z.mod_small (n / 65536)); [done|].
  split; [apply Z.div_pos; lia|apply Z.div_lt_upper_bound; lia].
Qed.

Lemma without_stray_four a b c d vs :
  without_stray (a :: b :: c :: d :: vs) = a :: b :: c :: d :: without_stray vs.
Proof.
  unfold without_stray. cbn [length].
  replace (S (S (S (S (length vs)))) mod 4)%nat with (length vs mod 4)%nat
    by (replace (S (S (S (S (length vs))))) with (length vs + 1 * 4)%nat by lia; by rewrite Nat.Div0.mod_add).
  destruct (Nat.eqb_spec (length vs mod 4) 1); [|done].
  destruct vs as [|v vs]; [done|]. cbn. by rewrite Nat.sub_0_r.
Qed.

(** Reading bits in bytes is the decoding of the groups. *)
Lemma bytes_rfc vs : Forall (fun v => 0 <= v < 64) vs ->
  Some (bytes_of_bits (vs ≫= bits_of 6)) = rfc_bytes (without_stray vs).
Proof.
  assert (forall n vs, (length vs < n)%nat -> Forall (fun v => 0 <= v < 64) vs ->
            Some (bytes_of_bits (vs ≫= bits_of 6)) = rfc_bytes (without_stray vs)) as H;
    [|apply (H (S (length vs))); lia].
  clear. induction n as [|n IH]; intros vs Hn Hvs; [lia|].
  destruct vs as [|a [|b [|c [|d vs]]]]; [done|done| | |]; rewrite !Forall_cons in Hvs; rewrite !bind_cons.
  - apply (f_equal Some). apply bytes_group2; tauto.
  - apply (f_equal Some). apply bytes_group3; tauto.
  - rewrite without_stray_four, bytes_group4 by tauto. cbn [rfc_bytes].
    rewrite <- IH; [done|cbn in Hn; lia|tauto].
Qed.

Lemma decode_groups input :
  base64url_decode input = mapM rfc_value (String.list_ascii_of_string input) ≫= (fun vs => rfc_bytes (without_stray vs)).
Proof.
  etransitivity; [apply (decode_loop_spec input 0 0); lia|].
  replace (mapM rfc_value (String.list_ascii_of_string input)) with (mapM sextet (String.list_ascii_of_string input))
    by (apply mapM_ext; intros c; by rewrite rfc_value_sextet).
  destruct (mapM sextet _) as [vs|] eqn:E; [|done]. cbn [fmap option_fmap option_map mbind option_bind].
  rewrite <- bytes_rfc; [done|]. apply mapM_Some in E. clear -E.
  induction E; constructor; eauto using sextet_range.
Qed.

(** C22. The decoder is the one of RFC 4648 for the url alphabet: it accepts only texts
    over that alphabet, each character standing for its position in it, and a text
    whose length is not one more than a multiple of four decodes exactly as the
    RFC says, or not at all.  The 32-bit buffer, which silently drops what is
    shifted out, never drops a bit that is still to be pushed.  A text of the
    lengths left, which the RFC does not have, is decoded as if its last character
    were not there. *)
Theorem base64url_decode_correct input :
  ((String.length input mod 4 <> 1)%nat -> base64url_decode input = rfc_decode input) /\
  base64url_decode input =
    mapM rfc_value (String.list_ascii_of_string input) ≫= (fun vs => rfc_bytes (without_stray vs)).
Proof.
  split; [|apply decode_groups]. intros Hl. rewrite decode_groups. unfold rfc_decode.
  destruct (mapM rfc_value _) as [vs|] eqn:E; [|done]. cbn. unfold without_stray.
  assert (length vs = String.length input) as ->.
  { apply length_mapM in E. rewrite <- E. clear. induction input; cbn; congruence. }
  by destruct (Nat.eqb_spec (String.length input mod 4) 1).
Qed.

(** A lone character, which stands for less than a byte, is taken for no bytes. *)
Lemma stray_character_accepted :
  base64url_decode "A" = Some "" /\ rfc_decode "A" = None /\ base64url_decode "QUJDA" = base64url_decode "QUJD".
Proof. split_and!; reflexivity. Qed.

(** *** The encoder's texts decode *)

Lemma sextet_letter v : 0 <= v < 64 -> sextet (letter v) = Some v.
Proof.
  intros Hv. assert (forallb (fun i => bool_decide (sextet (letter (Z.of_nat i)) = Some (Z.of_nat i))) (seq 0 64) = true)
    as H by (vm_compute; reflexivity).
  rewrite forallb_forall in H. specialize (H (Z.to_nat v)). rewrite Z2Nat.id in H by lia.
  eapply bool_decide_eq_true_1, H, in_seq. lia.
Qed.

Lemma land63 x : 0 <= Z.land x 63 < 64.
Proof. change 63 with (Z.ones 6). rewrite Z.land_ones by lia. apply Z.mod_pos_bound. lia. Qed.

Lemma bits_land63 x : bits_of 6 (Z.land x 63) = bits_of 6 x.
Proof.
  change 63 with (Z.ones 6). rewrite Z.land_ones by lia. apply bits_of_ext. intros i Hi.
  by rewrite Z.mod_pow2_bits_low by lia.
Qed.

(** Text that stands for the bits [bs], six to a letter. *)
Definition encodes (s : string) (bs : list bool) : Prop :=
  exists vs, mapM sextet (String.list_ascii_of_string s) = Some vs /\ vs ≫= bits_of 6 = bs.

Lemma encodes_nil : encodes "" [].
Proof. by exists []. Qed.
Lemma encodes_letter x : encodes (String (letter (Z.land x 63)) "") (bits_of 6 x).
Proof.
  exists [Z.land x 63]. cbn [String.list_ascii_of_string mapM]. rewrite sextet_letter by apply land63.
  split; [done|]. transitivity (bits_of 6 (Z.land x 63) ++ []); [done|]. by rewrite app_nil_r, bits_land63.
Qed.
Lemma encodes_app s s' bs bs' : encodes s bs -> encodes s' bs' -> encodes (s +:+ s') (bs ++ bs').
Proof.
  intros (vs & Hs & <-) (vs' & Hs' & <-). exists (vs ++ vs'). split; [|by rewrite bind_app].
  assert (forall a b, String.list_ascii_of_string (a +:+ b) =
            String.list_ascii_of_string a ++ String.list_ascii_of_string b) as ->.
  { intros a b. induction a as [|c a IH]; [done|]. rewrite string_app_cons. cbn. by rewrite IH. }
  apply mapM_Some. apply mapM_Some in Hs, Hs'. by apply Forall2_app.
Qed.

Lemma encode_drain_spec fuel : forall buffer (k : nat), (k < 6 * fuel + 6)%nat ->
  exists bs k', encode_drain fuel buffer (Z.of_nat k) = (bs, Z.of_nat k') /\ (k' < 6)%nat /\
    exists pre, encodes bs pre /\ bits_of k buffer = pre ++ bits_of k' buffer.
Proof.
  induction fuel as [|fuel IH]; intros buffer k Hk.
  { exists "", k. split; [done|]. split; [lia|]. exists []. split; [apply encodes_nil|done]. }
  cbn [encode_drain]. destruct (Z.leb_spec 6 (Z.of_nat k)).
  - replace (Z.of_nat k - 6) with (Z.of_nat (k - 6)) by lia.
    destruct (IH buffer (k - 6)%nat ltac:(lia)) as (s & k' & -> & Hk' & pre & Hs & Hb).
    exists (String (letter (Z.land (Z.shiftr buffer (Z.of_nat (k - 6))) 63)) s), k'.
    split; [done|]. split; [done|]. exists (bits_of 6 (Z.shiftr buffer (Z.of_nat (k - 6))) ++ pre). split.
    + apply (encodes_app (String _ "") s); [apply encodes_letter|done].
    + replace k with (6 + (k - 6))%nat at 1 by lia. by rewrite bits_of_app, Hb, app_assoc.
  - exists "", k. split; [done|]. split; [lia|]. exists []. split; [apply encodes_nil|done].
Qed.

Lemma byte_val_range c : 0 <= byte_val c < 256.
Proof. unfold byte_val. pose proof (N_ascii_bounded c). lia. Qed.

Lemma encode_loop_spec bytes : forall buffer (k : nat), (k < 6)%nat ->
  exists pad, (length pad < 6)%nat /\
    encodes (encode_loop bytes buffer (Z.of_nat k))
      (bits_of k buffer ++ (String.list_ascii_of_string bytes ≫= (fun c => bits_of 8 (byte_val c))) ++ pad).
Proof.
  induction bytes as [|c bytes IH]; intros buffer k Hk.
  - cbn [encode_loop]. destruct (Z.ltb_spec 0 (Z.of_nat k)).
    + exists (bits_of (6 - k) 0). assert (forall n v, length (bits_of n v) = n) as Hl
        by (intros n v; induction n; cbn; congruence). split; [rewrite Hl; lia|].
      replace (6 - Z.of_nat k) with (Z.of_nat (6 - k)) by lia.
      pose proof (encodes_letter (shl32 buffer (Z.of_nat (6 - k)))) as He.
      replace (bits_of 6 (shl32 buffer (Z.of_nat (6 - k)))) with
        (bits_of (k + (6 - k)) (Z.lor (shl32 buffer (Z.of_nat (6 - k))) 0)) in He
        by (rewrite Z.lor_0_r; f_equal; lia).
      rewrite shift_in in He by lia. done.
    + exists []. assert (k = 0)%nat as -> by lia. split; [cbn; lia|]. apply encodes_nil.
  - cbn [encode_loop]. pose proof (byte_val_range c) as Hc.
    set (buf := Z.lor (shl32 buffer 8) (byte_val c)).
    replace (Z.of_nat k + 8) with (Z.of_nat (k + 8)) by lia. rewrite Nat2Z.id.
    destruct (encode_drain_spec (k + 8) buf (k + 8) ltac:(lia)) as (s & k' & -> & Hk' & pre & Hs & Hb).
    destruct (IH buf k' Hk') as (pad & Hpad & He). exists pad. split; [done|].
    assert (bits_of k buffer ++ bits_of 8 (byte_val c) = pre ++ bits_of k' buf) as Heq.
    { rewrite <- Hb. symmetry. apply shift_in; lia. }
    cbn [String.list_ascii_of_string].
    rewrite bind_cons, <- app_assoc, (app_assoc (bits_of k buffer)), Heq, <- app_assoc. by apply encodes_app.
Qed.

(** Decoding what the encoder writes gives the bytes back, whatever they are. *)
Theorem b64url_roundtrip bytes : base64url_decode (b64url bytes) = Some bytes.
Proof.
  etransitivity; [apply (decode_loop_spec _ 0 0); lia|]. unfold b64url.
  destruct (encode_loop_spec bytes 0 0 ltac:(lia)) as (pad & Hpad & vs & Hm & Hvs).
  change (encode_loop bytes 0 0) with (encode_loop bytes 0 (Z.of_nat 0)). rewrite Hm. apply (f_equal Some).
  rewrite Hvs. clear -Hpad.
  induction bytes as [|c bytes IH].
  - cbn. do 6 (destruct pad as [|? pad]; [done|cbn in Hpad; try lia]).
  - cbn [String.list_ascii_of_string]. change (bits_of 0 0) with (@nil bool) in *. cbn [app] in *.
    rewrite bind_cons, <- app_assoc, bytes_of_bits_byte, IH. f_equal.
    unfold as_u8. rewrite Z.mod_small by apply byte_val_range. unfold byte_val. by rewrite N2Z.id, ascii_N_embedding.
Qed.

(* ------------------------------------------------------------------ *)
(** ** Installing a token *)

Lemma tmp_path_ne pid path : tmp_path pid path <> path.
Proof.
  unfold tmp_path. set (fn := default "host-jwt" (file_name path)).
  set (name := "." +:+ fn +:+ ".tmp." +:+ show_Z pid). set (dir := match parent path with Some _ => _ | None => _ end).
  assert (contains_char "/" fn = false) as Hfn.
  { subst fn. destruct (file_name path) eqn:E; [by eapply file_name_piece|done]. }
  assert (file_name (path_join dir name) = Some name) as Hn.
  { apply file_name_join.
    - subst name. rewrite !contains_char_app, Hfn. cbn [orb]. apply (all_chars_no_char is_digit); [done|].
      apply show_Z_chars.
    - unfold trivial_piece. apply orb_false_iff. split; [done|]. apply bool_decide_eq_false. intros H.
      apply (f_equal String.length) in H. subst name. rewrite !string_length_app in H. simpl in H. lia.
    - subst name. intros H. apply (f_equal String.length) in H. rewrite !string_length_app in H. simpl in H. lia.
    - subst dir. destruct (parent path) as [d|]; [|done]. by destruct (is_empty d) eqn:?. }
  intros Heq. rewrite Heq in Hn. apply (f_equal String.length) in Heq.
  assert (String.length fn < String.length name)%nat as Hl.
  { subst name. rewrite !string_length_app. simpl. lia. }
  subst fn. rewrite Hn in Hl. simpl in Hl. lia.
Qed.

Section Install.
Context (from_slice : string -> option json) (debug_str : string -> string).
Context {W : Type} `{!Host W} (files : W -> gmap string File) `{!HostLaws W files}.

Lemma write_steps_Ok tmp path jwt w w' :
  tmp <> path -> write_steps tmp path jwt w = (Ok (), w') ->
  files w' !! path = Some (mkFile jwt 384) /\ same_but files [path; tmp] w w'.
Proof.
  intros Hne H. unfold write_steps in H. io_inv H.
  destruct (law_open_Ok _ _ _ _ Hs) as [m Hm].
  pose proof (law_write_all_Ok _ _ _ _ _ Hs0 Hm) as Hw1.
  pose proof (law_flush tmp w1) as Hf. rewrite Hs1 in Hf. cbn in Hf.
  rewrite <- (Hf tmp) in Hw1 by set_solver. pose proof (law_set_mode_Ok _ _ _ _ _ _ Hs2 Hw1) as Hw3.
  destruct (law_rename_Ok _ _ _ _ H) as (f & Hf3 & Hf4). rewrite Hw3 in Hf3. injection Hf3 as <-.
  split; [by rewrite Hf4, lookup_insert_eq|]. intros q Hq. rewrite Hf4, lookup_insert_ne, lookup_delete_ne by set_solver.
  pose proof (law_open tmp 384 w q) as H1. rewrite Hs in H1.
  pose proof (law_write_all tmp jwt w0 q) as H2. rewrite Hs0 in H2.
  pose proof (law_set_mode tmp 384 w2 q) as H3. rewrite Hs2 in H3. cbn in *.
  rewrite H3, Hf, H2, H1 by set_solver. done.
Qed.

Lemma write_steps_Err tmp path jwt w e w' :
  write_steps tmp path jwt w = (Err e, w') -> same_but files [tmp] w w'.
Proof.
  intros H q Hq. unfold write_steps, io_bind, with_context in H.
  pose proof (law_open tmp 384 w q Hq) as H1. destruct (open_truncate tmp 384 w) as [[[]|] w1]; cbn in *; [|congruence].
  pose proof (law_write_all tmp jwt w1 q Hq) as H2. destruct (write_all tmp jwt w1) as [[[]|] w2]; cbn in *; [|congruence].
  pose proof (law_flush tmp w2 q ltac:(set_solver)) as H3. destruct (flush tmp w2) as [[[]|] w3]; cbn in *; [|congruence].
  pose proof (law_set_mode tmp 384 w3 q Hq) as H4. destruct (set_mode tmp 384 w3) as [[[]|] w4]; cbn in *; [|congruence].
  destruct (rename tmp path w4) as [[[]|] w5] eqn:Hr; [done|]. injection H as <- <-.
  rewrite (law_rename_Err _ _ _ _ _ Hr q) by set_solver. congruence.
Qed.

Lemma write_atomic pid path jwt w r w' :
  write_host_jwt_atomic pid path jwt w = (r, w') ->
  (r = Ok () -> files w' !! path = Some (mkFile jwt 384)) /\
  (forall e, r = Err e -> files w' !! path = files w !! path) /\
  same_but files [path; tmp_path pid path] w w'.
Proof.
  unfold write_host_jwt_atomic. pose proof (tmp_path_ne pid path) as Hne.
  destruct (write_steps (tmp_path pid path) path jwt w) as [[[]|e] w1] eqn:Hw; intros [= <- <-].
  - destruct (write_steps_Ok _ _ _ _ _ Hne Hw) as [Hp Hs]. split; [done|]. split; [done|]. done.
  - pose proof (write_steps_Err _ _ _ _ _ _ Hw) as Hs. pose proof (law_remove (tmp_path pid path) w1) as Hr.
    split; [done|]. split.
    + intros _ _. rewrite (Hr path), (Hs path) by set_solver. done.
    + intros q Hq. rewrite (Hr q), (Hs q) by set_solver. done.
Qed.

(** Whether the token may replace the one on disk. *)
Definition subject_allowed (new_jwt : string) (old : option File) : Prop :=
  forall n c f, validate_and_extract_sub from_slice (trim new_jwt) = Ok (Some n) -> old = Some f ->
    validate_and_extract_sub from_slice (trim (f_data f)) = Ok (Some c) -> c = n.

Lemma apply_cases `{!HostReads W files} pid new_jwt path w r w' :
  apply_host_jwt from_slice debug_str pid new_jwt path w = (r, w') ->
  (exists w1, (forall q, files w1 !! q = files w !! q) /\
     is_ok (validate_and_extract_sub from_slice (trim new_jwt)) = true /\ subject_allowed new_jwt (files w !! path) /\
     write_host_jwt_atomic pid path (trim new_jwt) w1 = (r, w')) \/
  ((exists e, r = Err e) /\ forall q, files w' !! q = files w !! q).
Proof.
  unfold apply_host_jwt, subject_allowed. destruct (validate_and_extract_sub from_slice (trim new_jwt)) as [[n|]|e].
  - unfold current_host_sub. pose proof (law_read path w) as Hread.
    destruct (read_to_string path w) as [[raw|e] w1] eqn:Hr; cbn in Hread.
    + destruct (law_read_Ok _ _ _ _ Hr) as [m Hm].
      destruct (validate_and_extract_sub from_slice (trim raw)) as [[c|]|e] eqn:Hc.
      * case_decide as Hd; intros H; [right|left].
        -- injection H as <- <-. split; [eauto|]. intros q. by rewrite Hread by set_solver.
        -- exists w1. split; [intros q; by rewrite Hread by set_solver|]. split; [done|]. split; [|done].
           intros n' c' f [= <-] Hf Hc'. rewrite Hm in Hf. injection Hf as <-. cbn [f_data] in Hc'.
           rewrite Hc in Hc'. injection Hc' as <-. by destruct (decide (c = n)).
      * intros H. left. exists w1. split; [intros q; by rewrite Hread by set_solver|]. split; [done|]. split; [|done].
        intros n' c' f [= <-] Hf Hc'. rewrite Hm in Hf. injection Hf as <-. cbn [f_data] in Hc'. congruence.
      * intros H. left. exists w1. split; [intros q; by rewrite Hread by set_solver|]. split; [done|]. split; [|done].
        intros n' c' f [= <-] Hf Hc'. rewrite Hm in Hf. injection Hf as <-. cbn [f_data] in Hc'. congruence.
    + intros H. left. exists w1. split; [intros q; by rewrite Hread by set_solver|]. split; [done|]. split; [|done].
      intros n' c' f _ Hf. destruct (reads_data path w f Hf) as [w2 Hw2]. congruence.
  - intros H. left. exists w. split; [done|]. split; [done|]. split; [|done]. done.
  - intros [= <- <-]. right. split; [eauto|done].
Qed.

Lemma load_installed `{!HostReads W files} path jwt w :
  jwt <> "" -> trim jwt = jwt -> files w !! path = Some (mkFile jwt 384) ->
  exists w', load_host_jwt path w = (Ok jwt, w').
Proof.
  intros Hne Ht Hp. unfold load_host_jwt, io_bind, with_context.
  destruct (reads_mode path w _ Hp) as (m & w1 & Hm). rewrite Hm.
  destruct (law_mode_Ok _ _ _ _ Hm) as (d & m' & Hd & Hland). rewrite Hp in Hd. injection Hd as <- <-.
  rewrite Hland. change (negb (Z.land (Z.land 384 511) 63 =? 0)) with false. cbv iota. pose proof (law_mode path w) as Hsame. rewrite Hm in Hsame. cbn in Hsame.
  rewrite <- (Hsame path) in Hp by set_solver.
  destruct (reads_data path w1 _ Hp) as (w2 & ->). cbn [f_data]. rewrite Ht. exists w2. by destruct jwt.
Qed.

(** C17. A rotation that succeeds is the one the next connection uses: the token that
    was pushed, without the white space around it, is what [load_host_jwt] reads,
    from a file only its owner can read.  It had the structure of a token, and
    was for the host of the token it replaces whenever both name one.  No file
    but the token and its temporary was touched. *)
Theorem rotation_installs_token `{!HostReads W files} pid new_jwt path w w' :
  apply_host_jwt from_slice debug_str pid new_jwt path w = (Ok (), w') ->
  (exists w'', load_host_jwt path w' = (Ok (trim new_jwt), w'')) /\
  is_ok (validate_and_extract_sub from_slice (trim new_jwt)) = true /\
  subject_allowed new_jwt (files w !! path) /\
  same_but files [path; tmp_path pid path] w w'.
Proof.
  intros H. destruct (apply_cases _ _ _ _ _ _ H) as [(w1 & Hw1 & Hv & Hsub & Hw)|[[e He] _]]; [|done].
  destruct (write_atomic _ _ _ _ _ _ Hw) as (Hp & _ & Hs). split; [|split; [done|split; [done|]]].
  - apply load_installed; [|apply trim_idem|by apply Hp]. intros He. by rewrite He in Hv.
  - intros q Hq. by rewrite Hs, Hw1.
Qed.

(** What a rotation does to the files before it writes: nothing. *)
Lemma apply_writes pid new_jwt path w r w' :
  apply_host_jwt from_slice debug_str pid new_jwt path w = (r, w') ->
  (exists w1, same_but files [] w w1 /\ write_host_jwt_atomic pid path (trim new_jwt) w1 = (r, w')) \/
  same_but files [] w w'.
Proof.
  unfold apply_host_jwt. destruct (validate_and_extract_sub from_slice (trim new_jwt)) as [[n|]|e].
  - unfold current_host_sub. pose proof (law_read path w) as Hread. destruct (read_to_string path w) as [[raw|e] w1]; cbn in Hread.
    + destruct (validate_and_extract_sub from_slice (trim raw)) as [[c|]|e]; [case_decide as Hd|..]; intros Hw; [by injection Hw as <- <-; right|left; by exists w1..].
    + intros Hw. left. by exists w1.
  - intros Hw. left. by exists w.
  - intros [= <- <-]. by right.
Qed.

(** C40. A rotation that fails, for whatever reason and at whatever step, leaves the
    token as it was, and every other file too, except that the temporary file of
    the new token may stay behind. *)
Theorem failed_rotation_keeps_token pid new_jwt path w e w' :
  apply_host_jwt from_slice debug_str pid new_jwt path w = (Err e, w') ->
  files w' !! path = files w !! path /\ same_but files [tmp_path pid path] w w'.
Proof.
  intros H. destruct (apply_writes _ _ _ _ _ _ H) as [(w1 & Hw1 & Hw)|Hf].
  - destruct (write_atomic _ _ _ _ _ _ Hw) as (_ & Hp & Hs). specialize (Hp e eq_refl). rewrite Hw1 in Hp by set_solver.
    split; [done|]. intros q Hq. destruct (decide (q = path)) as [->|]; [done|]. rewrite Hs, Hw1; [done|set_solver|set_solver].
  - split; [apply Hf; set_solver|]. intros q _. apply Hf. set_solver.
Qed.
End Install.

(* ------------------------------------------------------------------ *)
(** ** A host with a token *)

Module Demo.
Definition path : string := "/etc/coolify/host-jwt".
Definition host_a : string := "{sub:host-a}".
Definition from_slice (s : string) : option json :=
  if decide (s = host_a) then Some (JObj [("sub", JStr "host-a")]) else None.
Definition same (s : string) : string := s.
Definition no_links (p : string) : option string := Some p.
#[export] Instance H : Host (Sim.World unit) := Sim.host Sim.quiet no_links.
#[export] Instance L : HostLaws (Sim.World unit) Sim.w_files := Sim.laws Sim.quiet no_links.
#[export] Instance R : HostReads (Sim.World unit) Sim.w_files := Sim.reads Sim.quiet no_links.

Definition token_a : string := b64url "h" +:+ "." +:+ b64url host_a +:+ "." +:+ b64url "s".
Definition token_none : string := "a.b.c".
Definition start : Sim.World unit := Sim.mkWorld {[path := mkFile token_a 384]} [] ().
Definition rotated : Sim.World unit := (apply_host_jwt from_slice same 7 (" " +:+ token_a) path start).2.

Lemma rotated_ok : apply_host_jwt from_slice same 7 (" " +:+ token_a) path start = (Ok (), rotated).
Proof. vm_refl. Qed.
Definition refused : Sim.World unit := (apply_host_jwt from_slice same 7 "only.two" path start).2.
Lemma refused_err : apply_host_jwt from_slice same 7 "only.two" path start = (Err structural_error, refused).
Proof. vm_refl. Qed.
Lemma trim_token_a : trim (" " +:+ token_a) = token_a.
Proof. vm_refl. Qed.

Lemma base64url_decode_correct_witness :
  base64url_decode "SGk" = Some "Hi" /\ base64url_decode "SGk" = rfc_decode "SGk".
Proof. split; [reflexivity|]. apply (proj1 (base64url_decode_correct "SGk")). vm_compute. discriminate. Defined.

Lemma rotation_installs_token_witness :
  exists w'', load_host_jwt path rotated = (Ok token_a, w'').
Proof.
  rewrite <- trim_token_a.
  exact (proj1 (rotation_installs_token from_slice same Sim.w_files 7 (" " +:+ token_a) path start rotated rotated_ok)).
Defined.

Lemma failed_rotation_keeps_token_witness : Sim.w_files refused !! path = Sim.w_files start !! path.
Proof.
  exact (proj1 (failed_rotation_keeps_token from_slice same Sim.w_files 7 "only.two" path start structural_error refused
                  refused_err)).
Defined.

(** A token that names no host replaces the token of a host that is known: the
    subjects are compared only when the new token has one. *)
Theorem token_without_subject_installed :
  current_host_sub from_slice path start = (Some "host-a", start) /\
  (apply_host_jwt from_slice same 7 token_none path start).1 = Ok () /\
  f_data <$> Sim.w_files (apply_host_jwt from_slice same 7 token_none path start).2 !! path = Some token_none.
Proof. vm_compute. repeat split; reflexivity. Qed.
End Demo.
