(* ===== verification/FluxAuth.v ===== *)
(** * Authentication

    [flux/src/auth.rs]: verification of the per-host JWT, the tenant check and
    the host binding.

    The [jsonwebtoken] crate is the class [JwtLib]: its header parser, its key
    loaders and its [decode], with what the crate documents about an accepted
    token as the laws [JwtLaws].  The [RevocationCheck] trait is a class too;
    the denylist of [FluxRevocation] is an instance. *)

From S2P Require Import Prelude RustStr Messages Net.
Local Open Scope Z_scope.

(* ------------------------------------------------------------------ *)
(** ** The JWT library *)

Inductive Algorithm :=
  | HS256 | HS384 | HS512 | ES256 | ES384
  | RS256 | RS384 | RS512 | PS256 | PS384 | PS512 | EdDSA.

#[export] Instance Algorithm_eq_dec : EqDecision Algorithm.
Proof. solve_decision. Defined.

Record Header := mkHeader { hd_alg : Algorithm; hd_kid : option string }.

Record Claims := mkClaims {
  sub : string;
  claim_caps : list string;
  claim_exp : Z;
  jti : option string;
  claim_team_id : option string;
}.

Record Validation := mkValidation { v_alg : Algorithm; v_aud : list string; v_leeway : Z }.

Class JwtLib := {
  DecodingKey : Type;
  decode_header : string -> option Header;
  from_ec_pem : string -> option DecodingKey;
  from_rsa_pem : string -> option DecodingKey;
  (** [decode::<Claims>], with the wall clock the crate reads *)
  decode : Z -> string -> DecodingKey -> Validation -> option Claims;
  (** what it means for a token to carry a valid signature, to carry given
      claims, and the audiences its [aud] claim names, if it has a readable one *)
  signed : string -> DecodingKey -> Algorithm -> Prop;
  carries : string -> Claims -> Prop;
  aud_claim : string -> option (list string);
}.

(** The documented meaning of a successful [decode].  The audience is compared
    only when the token has the claim: [aud] is not among the claims
    [Validation] requires by default. *)
Class JwtLaws (lib : JwtLib) : Prop := {
  decode_signed now tok key v c :
    decode now tok key v = Some c -> signed tok key (v_alg v);
  decode_carries now tok key v c : decode now tok key v = Some c -> carries tok c;
  decode_unexpired now tok key v c :
    decode now tok key v = Some c -> now <= claim_exp c + v_leeway v;
  decode_audience now tok key v c auds :
    decode now tok key v = Some c -> aud_claim tok = Some auds -> exists a, a ∈ v_aud v /\ a ∈ auds;
}.

(* ------------------------------------------------------------------ *)
(** ** Claims *)

(** [deserialize_flexible_id], on the claim's JSON value if it is present. *)
Definition deserialize_flexible_id (v : option json) : result (option string) json :=
  match v with
  | None | Some JNull => Ok None
  | Some (JStr s) => Ok (Some s)
  | Some (JNum n) => Ok (Some (if n <? 0 then "-" +:+ show_Z (- n) else show_Z n))
  | Some other => Err other
  end.

Record VerifiedJwt := mkVerifiedJwt {
  vj_host_id : string;
  vj_caps : list string;
  vj_exp : Z;
  vj_team_id : option string;
}.

(* ------------------------------------------------------------------ *)
(** ** Revocation *)

Class RevocationCheck (R : Type) := is_revoked : R -> string -> bool.

Inductive NoRevocations := mkNoRevocations.
#[export] Instance no_revocations : RevocationCheck NoRevocations := fun _ _ => false.

(* ------------------------------------------------------------------ *)
(** ** Keys *)

Definition DEFAULT_KID : string := "flux-default".

Record JwtKeys := mkJwtKeys {
  default_pem : string;
  by_kid : gmap string string;
}.

Definition single (pem : string) : JwtKeys := mkJwtKeys pem ∅.

Inductive AuthError :=
  | HeaderParse
  | UnknownKid (kid : string)
  | LoadPubkey
  | AlgNotAllowed (alg : Algorithm)
  | VerificationFailed
  | LifetimeExceeded (remaining max : Z)
  | JtiRevoked (j : string).

Definition resolve (keys : JwtKeys) (kid : option string) : result string AuthError :=
  match kid with
  | None => Ok (default_pem keys)
  | Some k =>
      if decide (k = DEFAULT_KID) then Ok (default_pem keys)
      else match by_kid keys !! k with
           | Some pem => Ok pem
           | None => Err (UnknownKid k)
           end
  end.

Inductive KeyKind := Ec | Rsa.

(* ------------------------------------------------------------------ *)
(** ** Lifetimes *)

Definition seconds_until_expiry (exp now : Z) : Z := sat_sub exp now.

Definition token_expired (exp now : Z) : bool := exp <=? now.

Definition lifetime_within_clamp (exp now max_lifetime_secs : Z) : bool :=
  if max_lifetime_secs =? 0 then true
  else seconds_until_expiry exp now <=? max_lifetime_secs.

(* ------------------------------------------------------------------ *)
(** ** [verify_jwt] *)

Definition alg_allowed (kind : KeyKind) (alg : Algorithm) : bool :=
  match kind with
  | Ec => match alg with ES256 | ES384 => true | _ => false end
  | Rsa => match alg with
           | RS256 | RS384 | RS512 | PS256 | PS384 | PS512 => true
           | _ => false
           end
  end.

Section Verify.
Context `{lib : JwtLib} {R : Type} `{RevocationCheck R}.

Definition load_key (pem : string) : result (DecodingKey * KeyKind) AuthError :=
  match from_ec_pem pem with
  | Some k => Ok (k, Ec)
  | None => match from_rsa_pem pem with
            | Some k => Ok (k, Rsa)
            | None => Err LoadPubkey
            end
  end.

(** [clock] is the time the JWT library reads when it checks the expiry. *)
Definition verify_jwt (clock : Z) (token : string) (keys : JwtKeys) (revocation : R)
    (now max_lifetime_secs : Z) : result VerifiedJwt AuthError :=
  (match decode_header token with
   | None => Err HeaderParse
   | Some header =>
     let? pem := resolve keys (hd_kid header) in
     let? (key, kind) := load_key pem in
     let alg := hd_alg header in
     if negb (alg_allowed kind alg) then Err (AlgNotAllowed alg) else
     match decode clock token key (mkValidation alg ["coold"] 60) with
     | None => Err VerificationFailed
     | Some claims =>
       if negb (lifetime_within_clamp (claim_exp claims) now max_lifetime_secs) then
         Err (LifetimeExceeded (seconds_until_expiry (claim_exp claims) now) max_lifetime_secs)
       else
       match jti claims with
       | Some j =>
           if is_revoked revocation j then Err (JtiRevoked j)
           else Ok (mkVerifiedJwt (sub claims) (claim_caps claims) (claim_exp claims)
                      (claim_team_id claims))
       | None => Ok (mkVerifiedJwt (sub claims) (claim_caps claims) (claim_exp claims)
                       (claim_team_id claims))
       end
     end
   end)%rust.
End Verify.

(* ------------------------------------------------------------------ *)
(** ** Tenant and host binding *)

Definition team_id_satisfied (team_id : option string) (required : bool) : bool :=
  if negb required then true
  else match team_id with Some team => negb (is_empty (trim team)) | None => false end.

Inductive HelloReason := SubNotAnIp | PeerUnavailable.

(** The messages the code formats, with what they are formatted from. *)
Inductive BindingDetail :=
  | PeerMismatch (peer sub_ip : IpAddr)
  | HelloMismatch (reason : HelloReason) (advertised_mgmt_ip token_sub : string).

Inductive HostBinding :=
  | Transport
  | HelloFallback (reason : HelloReason)
  | Unenforced (detail : BindingDetail).

Definition reject_or_unenforced (require : bool) (detail : BindingDetail)
    : result HostBinding BindingDetail :=
  if require then Err detail else Ok (Unenforced detail).

Definition bind_via_hello (token_sub advertised_mgmt_ip : string) (require : bool)
    (reason : HelloReason) : result HostBinding BindingDetail :=
  if negb (is_empty token_sub) && bool_decide (advertised_mgmt_ip = token_sub)
  then Ok (HelloFallback reason)
  else reject_or_unenforced require (HelloMismatch reason advertised_mgmt_ip token_sub).

Definition decide_host_binding (token_sub advertised_mgmt_ip : string) (peer_ip : option IpAddr)
    (require : bool) : result HostBinding BindingDetail :=
  match peer_ip with
  | Some peer =>
      match parse_ipaddr token_sub with
      | Some sub_ip =>
          if decide (peer = sub_ip) then Ok Transport
          else reject_or_unenforced require (PeerMismatch peer sub_ip)
      | None => bind_via_hello token_sub advertised_mgmt_ip require SubNotAnIp
      end
  | None => bind_via_hello token_sub advertised_mgmt_ip require PeerUnavailable
  end.

(* ------------------------------------------------------------------ *)
(** ** Properties *)

Section VerifyFacts.
Context `{lib : JwtLib} {laws : JwtLaws lib} {R : Type} `{RevocationCheck R}.

Lemma load_key_Ok pem key kind :
  load_key pem = Ok (key, kind) ->
  match kind with Ec => from_ec_pem pem = Some key | Rsa => from_rsa_pem pem = Some key end.
Proof.
  unfold load_key. destruct (from_ec_pem pem) eqn:E; [by intros [= <- <-]|].
  destruct (from_rsa_pem pem) eqn:E'; [by intros [= <- <-]|done].
Qed.

Lemma clamp_spec exp now max :
  lifetime_within_clamp exp now max = true <-> max = 0 \/ Z.max 0 (exp - now) <= max.
Proof.
  unfold lifetime_within_clamp, seconds_until_expiry, sat_sub. zcases; naive_solver lia.
Qed.

(** The stages of a successful verification, in order. *)
Lemma verify_jwt_Ok clock token keys rev now max v :
  verify_jwt clock token keys rev now max = Ok v <->
  exists header pem key kind claims,
    decode_header token = Some header /\
    resolve keys (hd_kid header) = Ok pem /\
    load_key pem = Ok (key, kind) /\
    alg_allowed kind (hd_alg header) = true /\
    decode clock token key (mkValidation (hd_alg header) ["coold"] 60) = Some claims /\
    lifetime_within_clamp (claim_exp claims) now max = true /\
    (forall j, jti claims = Some j -> is_revoked rev j = false) /\
    v = mkVerifiedJwt (sub claims) (claim_caps claims) (claim_exp claims) (claim_team_id claims).
Proof.
  unfold verify_jwt. split.
  - destruct (decode_header token) as [header|]; [|done].
    intros (pem & Hpem & Hk)%rbind_Ok. apply rbind_Ok in Hk as ([key kind] & Hkey & Hk).
    destruct (alg_allowed kind (hd_alg header)) eqn:Halg; [|done].
    destruct (decode clock token key _) as [claims|] eqn:Hd; [|done]. simpl in Hk.
    destruct (lifetime_within_clamp _ now max) eqn:Hl; [|done]. simpl in Hk.
    exists header, pem, key, kind, claims. split_and!; try done.
    + intros j Hj. rewrite Hj in Hk. by destruct (is_revoked rev j).
    + destruct (jti claims) as [j|]; [destruct (is_revoked rev j)|]; by simplify_eq.
  - intros (header & pem & key & kind & claims & -> & -> & Hkey & Halg & Hd & Hl & Hj & ->).
    simpl. rewrite Hkey. simpl. rewrite Halg. simpl. rewrite Hd, Hl. simpl.
    destruct (jti claims) as [j|]; [|done]. by rewrite (Hj j eq_refl).
Qed.

(** C10. A token is accepted only if it is signed, with an asymmetric algorithm
    of the kind of the loaded key, under the key its [kid] selects, names coold
    if it names an audience at all, is not older than the sixty-second leeway
    past its expiry, lives no longer than the clamp, and is not on the denylist;
    the identity handed on is the one the token carries. *)
Theorem verify_jwt_sound clock token keys rev now max v :
  verify_jwt clock token keys rev now max = Ok v ->
  exists header key claims,
    decode_header token = Some header /\
    (exists pem, resolve keys (hd_kid header) = Ok pem /\
       ((from_ec_pem pem = Some key /\ hd_alg header ∈ [ES256; ES384]) \/
        (from_rsa_pem pem = Some key /\
           hd_alg header ∈ [RS256; RS384; RS512; PS256; PS384; PS512]))) /\
    signed token key (hd_alg header) /\ carries token claims /\
    (forall auds, aud_claim token = Some auds -> "coold" ∈ auds) /\
    clock <= claim_exp claims + 60 /\
    (max <> 0 -> claim_exp claims - now <= max) /\
    (forall j, jti claims = Some j -> is_revoked rev j = false) /\
    vj_host_id v = sub claims /\ vj_caps v = claim_caps claims /\
    vj_exp v = claim_exp claims /\ vj_team_id v = claim_team_id claims.
Proof.
  intros (header & pem & key & kind & claims & Hh & Hr & Hk & Halg & Hd & Hl & Hj & ->)%verify_jwt_Ok.
  exists header, key, claims. apply load_key_Ok in Hk. apply clamp_spec in Hl.
  assert (forall auds, aud_claim token = Some auds -> "coold" ∈ auds) as Haud.
  { intros auds Hauds. destruct (decode_audience _ _ _ _ _ _ Hd Hauds) as (a & Ha & Hin).
    by apply list_elem_of_singleton in Ha as ->. }
  pose proof (decode_signed _ _ _ _ _ Hd) as Hsig.
  pose proof (decode_unexpired _ _ _ _ _ Hd) as Hexp. simpl in Hsig, Hexp.
  split_and!; eauto using decode_carries; try lia.
  - exists pem. split; [done|]. destruct kind, (hd_alg header); try done;
      [left|left|right..]; (split; [done|]); set_solver.
Qed.

(** No algorithm confusion: a token whose header names an HMAC algorithm
    or EdDSA is rejected whatever keys are loaded, as is one whose [kid] names
    no loaded key. *)
Theorem verify_jwt_rejects clock token keys rev now max header :
  decode_header token = Some header ->
  hd_alg header ∈ [HS256; HS384; HS512; EdDSA] \/
  (exists k, hd_kid header = Some k /\ k <> DEFAULT_KID /\ by_kid keys !! k = None) ->
  exists e, verify_jwt clock token keys rev now max = Err e.
Proof.
  intros Hh Hbad. destruct (verify_jwt clock token keys rev now max) as [v|e] eqn:E; [|eauto].
  exfalso. apply verify_jwt_Ok in E as (header' & pem & key & kind & claims & Hh' & Hr & _ & Halg & _).
  rewrite Hh in Hh'. simplify_eq. destruct Hbad as [Hin|(k & Hk & Hne & Hlook)].
  - destruct kind, (hd_alg header'); simpl in Halg; try done; set_solver.
  - rewrite Hk in Hr. unfold resolve in Hr. rewrite decide_False, Hlook in Hr by done. done.
Qed.
End VerifyFacts.

Lemma bind_via_hello_Ok s advertised reason b :
  bind_via_hello s advertised true reason = Ok b <->
  b = HelloFallback reason /\ s <> "" /\ advertised = s.
Proof.
  unfold bind_via_hello. destruct s as [|c s]; simpl; [naive_solver|].
  case_bool_decide; naive_solver.
Qed.

(** What a stream is refused for, by the binding. *)
Lemma host_binding_refused token_sub advertised peer_ip require d :
  decide_host_binding token_sub advertised peer_ip require = Err d ->
  require = true /\
  match peer_ip, parse_ipaddr token_sub with
  | Some peer, Some ip => peer <> ip
  | _, _ => token_sub = "" \/ advertised <> token_sub
  end.
Proof.
  assert (forall reason, bind_via_hello token_sub advertised require reason = Err d ->
    require = true /\ (token_sub = "" \/ advertised <> token_sub)) as Hh.
  { intros reason. unfold bind_via_hello, reject_or_unenforced. destruct token_sub as [|ch t]; cbn.
    - destruct require; [|done]. intros _. split; [done|by left].
    - case_bool_decide; [done|]. destruct require; [|done]. intros _. split; [done|by right]. }
  unfold decide_host_binding. destruct peer_ip as [peer|], (parse_ipaddr token_sub) as [ip|]; try apply Hh.
  case_decide; [done|]. unfold reject_or_unenforced. by destruct require.
Qed.

(** Host binding is enforced: with enforcement on, a stream is bound only
    when the transport peer is the address the token was minted for, or, when no
    such comparison is possible (no peer address, or a subject that is not an
    address), when the non-empty subject is the management address the agent
    advertised; a token replayed from another address is refused. *)
Theorem host_binding_enforced token_sub advertised peer_ip b :
  decide_host_binding token_sub advertised peer_ip true = Ok b <->
  (b = Transport /\ exists ip, peer_ip = Some ip /\ parse_ipaddr token_sub = Some ip) \/
  (b = HelloFallback SubNotAnIp /\ is_Some peer_ip /\ parse_ipaddr token_sub = None /\
     token_sub <> "" /\ advertised = token_sub) \/
  (b = HelloFallback PeerUnavailable /\ peer_ip = None /\
     token_sub <> "" /\ advertised = token_sub).
Proof.
  unfold decide_host_binding. destruct peer_ip as [peer|].
  - destruct (parse_ipaddr token_sub) as [ip|] eqn:Hp.
    + case_decide; simpl; naive_solver.
    + rewrite bind_via_hello_Ok. naive_solver.
  - rewrite bind_via_hello_Ok. naive_solver.
Qed.

(* ------------------------------------------------------------------ *)
(** ** A concrete JWT library, for the witnesses

    One token is in circulation, with header [h], claims [c] and the [aud]
    claim [aud]; the only EC key is written "ec-key", the only RSA key
    "rsa-key". *)

Section Toy.
Context (h : Header) (c : Claims) (aud : option (list string)).

Definition aud_matches (expected : list string) : bool :=
  match aud with None => true | Some auds => existsb (fun a => bool_decide (a ∈ expected)) auds end.

Lemma aud_matches_true expected auds :
  aud_matches expected = true -> aud = Some auds -> exists a, a ∈ expected /\ a ∈ auds.
Proof.
  unfold aud_matches. intros H ->. apply existsb_exists in H as (a & Hin & Ha%bool_decide_eq_true).
  exists a. split; [done|]. by apply list_elem_of_In.
Qed.

Definition toy_decode (now : Z) (tok : string) (key : string) (v : Validation) : option Claims :=
  if bool_decide (v_alg v = hd_alg h) && aud_matches (v_aud v) && (now <=? claim_exp c + v_leeway v)
  then Some c else None.

Definition toy_lib : JwtLib := {|
  DecodingKey := string;
  decode_header := fun _ => Some h;
  from_ec_pem := fun pem => if decide (pem = "ec-key") then Some pem else None;
  from_rsa_pem := fun pem => if decide (pem = "rsa-key") then Some pem else None;
  decode := toy_decode;
  signed := fun _ _ alg => alg = hd_alg h;
  carries := fun _ c' => c' = c;
  aud_claim := fun _ => aud;
|}.

Lemma toy_decode_Some now tok key v c' :
  toy_decode now tok key v = Some c' ->
  c' = c /\ v_alg v = hd_alg h /\ aud_matches (v_aud v) = true /\ now <= claim_exp c + v_leeway v.
Proof.
  unfold toy_decode. case_bool_decide as E; simpl; [|done].
  destruct (aud_matches (v_aud v)); simpl; [|done].
  destruct (Z.leb_spec now (claim_exp c + v_leeway v)); [|done]. intros [= <-]. tauto.
Qed.

Lemma toy_laws : JwtLaws toy_lib.
Proof.
  split; simpl; intros now tok key v c'; [..|intros auds]; intros (-> & ? & ? & ?)%toy_decode_Some; try done.
  by apply aud_matches_true.
Qed.
End Toy.

(** The library with a token for coold. *)
Definition coold_lib (h : Header) (c : Claims) : JwtLib := toy_lib h c (Some ["coold"]).

Definition demo_header : Header := mkHeader ES256 None.
Definition demo_claims : Claims :=
  mkClaims "10.42.0.7" ["containers.list"] 5000 (Some "token-1") (Some "42").

Lemma verify_jwt_sound_witness :
  let lib := coold_lib demo_header demo_claims in
  verify_jwt 2000 "t" (single "ec-key") mkNoRevocations 2000 3600 =
    Ok (mkVerifiedJwt "10.42.0.7" ["containers.list"] 5000 (Some "42")) /\
  exists header, decode_header "t" = Some header.
Proof.
  intros lib. assert (verify_jwt 2000 "t" (single "ec-key") mkNoRevocations 2000 3600 =
    Ok (mkVerifiedJwt "10.42.0.7" ["containers.list"] 5000 (Some "42"))) as E by reflexivity.
  split; [exact E|].
  destruct (@verify_jwt_sound lib (toy_laws demo_header demo_claims _) _ _ _ _ _ _ _ _ _ E)
    as (header & _ & _ & Hh & _). exists header. exact Hh.
Defined.

Lemma verify_jwt_rejects_witness :
  let lib := coold_lib (mkHeader HS256 None) demo_claims in
  decode_header "t" = Some (mkHeader HS256 None) /\
  exists e, verify_jwt 2000 "t" (single "ec-key") mkNoRevocations 2000 3600 = Err e.
Proof.
  intros lib. split; [reflexivity|].
  apply (@verify_jwt_rejects lib (toy_laws _ _ _) _ _ 2000 "t" (single "ec-key") mkNoRevocations 2000 3600
           (mkHeader HS256 None)); [reflexivity|left; simpl; set_solver].
Defined.

(** A token that names no audience is accepted as one for coold. *)
Lemma no_audience_accepted :
  let lib := toy_lib demo_header demo_claims None in
  aud_claim "t" = None /\
  verify_jwt 2000 "t" (single "ec-key") mkNoRevocations 2000 3600 =
    Ok (mkVerifiedJwt "10.42.0.7" ["containers.list"] 5000 (Some "42")).
Proof. split; reflexivity. Qed.

(** One that names another audience is not. *)
Lemma other_audience_rejected :
  let lib := toy_lib demo_header demo_claims (Some ["laravel"]) in
  verify_jwt 2000 "t" (single "ec-key") mkNoRevocations 2000 3600 = Err VerificationFailed.
Proof. reflexivity. Qed.
