(* ===== verification/FluxRevocation.v ===== *)
(** * The revocation denylist

    [flux/src/revocation.rs]: the denylist of token ids ([jti]) in memory and
    the JSON file that backs it.  A file system maps paths to contents; an
    operation on it takes the outcomes of its system calls, so that a theorem
    over all outcomes covers every failure.  [serde_json] on a list of entries
    is the class [EntryFormat], with its round trip as the law. *)

From S2P Require Import Prelude RustStr Messages Net FluxState FluxAuth.
Local Open Scope Z_scope.

Record RevocationEntry := mkRevocationEntry {
  re_jti : string;
  re_expires_at : option Z;
}.

Class EntryFormat := {
  (** [serde_json::to_vec_pretty] and [serde_json::from_slice] *)
  to_json : list RevocationEntry -> string;
  from_json : string -> option (list RevocationEntry);
}.
Class EntryFormatLaws (f : EntryFormat) : Prop :=
  from_to_json l : from_json (to_json l) = Some l.

Record RevocationStore := mkStore {
  inner : gmap string (option Z);
  path : option string;
}.

#[export] Instance store_revocation_check : RevocationCheck RevocationStore :=
  fun s j => match inner s !! j with Some _ => true | None => false end.

Notation fs := (gmap string string).

(* ------------------------------------------------------------------ *)
(** ** Paths *)

(** [Path::with_extension] on the file name, the text after the last slash. *)
Definition name_with_extension (name ext : string) : string :=
  match rsplit_once "." name with
  | Some ("", _) | None => name +:+ "." +:+ ext
  | Some (stem, _) => stem +:+ "." +:+ ext
  end.

Definition with_extension (p ext : string) : string :=
  match rsplit_once "/" p with
  | Some (dir, name) => dir +:+ "/" +:+ name_with_extension name ext
  | None => name_with_extension p ext
  end.

(* ------------------------------------------------------------------ *)
(** ** Operations *)

Section Store.
Context `{fmt : EntryFormat}.

(** [expires_at.is_none_or(|exp| exp > now)]. *)
Definition unexpired (now : Z) (expires_at : option Z) : bool :=
  match expires_at with None => true | Some exp => now <? exp end.

Inductive ReadOutcome := ReadOk (bytes : string) | ReadNotFound | ReadFailed.

(** What reading [p] gives when the read itself does not fail. *)
Definition read_file (f : fs) (p : string) : ReadOutcome :=
  match f !! p with Some b => ReadOk b | None => ReadNotFound end.

Definition collect_entries (l : list RevocationEntry) : gmap string (option Z) :=
  fold_left (fun m e => <[re_jti e := re_expires_at e]> m) l ∅.

Definition load (now : Z) (read : ReadOutcome) (p : string) : RevocationStore :=
  let map :=
    match read with
    | ReadOk bytes =>
        match from_json bytes with
        | Some entries => collect_entries (filter (fun e => unexpired now (re_expires_at e)) entries)
        | None => ∅
        end
    | ReadNotFound => ∅
    | ReadFailed => ∅
    end in
  mkStore map (Some p).

Definition entry_le (a b : RevocationEntry) : Prop := String.le (re_jti a) (re_jti b).
#[export] Instance entry_le_dec a b : Decision (entry_le a b).
Proof. unfold entry_le. apply _. Defined.

Definition entry_of (kv : string * option Z) : RevocationEntry := mkRevocationEntry kv.1 kv.2.

Definition list_entries (s : RevocationStore) : list RevocationEntry :=
  merge_sort entry_le (entry_of <$> map_to_list (inner s)).

(** The outcomes of the system calls of one [persist]; a failed write leaves
    some bytes in the temporary file. *)
Record IoOutcome := mkIo {
  io_mkdir : bool;
  io_write : bool;
  io_partial : string;
  io_rename : bool;
}.
Definition io_ok : IoOutcome := mkIo true true "" true.

Inductive PersistError := CreateDir | WriteTmp | RenameFile.

Definition persist (io : IoOutcome) (s : RevocationStore) (f : fs) : result unit PersistError * fs :=
  match path s with
  | None => (Ok (), f)
  | Some p =>
      if negb (io_mkdir io) then (Err CreateDir, f) else
      let json := to_json (list_entries s) in
      let tmp := with_extension p "json.tmp" in
      if negb (io_write io) then (Err WriteTmp, <[tmp := io_partial io]> f) else
      let f1 := <[tmp := json]> f in
      if negb (io_rename io) then (Err RenameFile, f1) else
      (Ok (), <[p := json]> (delete tmp f1))
  end.

Definition with_inner (g : gmap string (option Z) -> gmap string (option Z)) (s : RevocationStore)
    : RevocationStore := mkStore (g (inner s)) (path s).

Definition revoke (io : IoOutcome) (j : string) (expires_at : option Z) (s : RevocationStore) (f : fs)
    : result unit PersistError * RevocationStore * fs :=
  let s1 := with_inner (insert j expires_at) s in
  let '(r, f1) := persist io s1 f in (r, s1, f1).

Definition unrevoke (io : IoOutcome) (j : string) (s : RevocationStore) (f : fs)
    : result bool PersistError * RevocationStore * fs :=
  let removed := match inner s !! j with Some _ => true | None => false end in
  let s1 := with_inner (delete j) s in
  let '(r, f1) := persist io s1 f in
  (match r with Ok _ => Ok removed | Err e => Err e end, s1, f1).

Definition retain_unexpired (now : Z) (m : gmap string (option Z)) : gmap string (option Z) :=
  filter (fun kv => unexpired now kv.2) m.

Definition prune (io : IoOutcome) (now : Z) (s : RevocationStore) (f : fs)
    : result nat PersistError * RevocationStore * fs :=
  let before := size (inner s) in
  let s1 := with_inner (retain_unexpired now) s in
  let pruned := (before - size (inner s1))%nat in
  if (0 <? pruned)%nat then
    let '(r, f1) := persist io s1 f in
    (match r with Ok _ => Ok pruned | Err e => Err e end, s1, f1)
  else (Ok pruned, s1, f).
End Store.

(* ------------------------------------------------------------------ *)
(** ** Properties *)

Section StoreFacts.
Context `{fmt : EntryFormat} {fmt_laws : EntryFormatLaws fmt}.

Lemma list_entries_perm s : list_entries s ≡ₚ entry_of <$> map_to_list (inner s).
Proof. apply merge_sort_Permutation. Qed.

(** Collecting a list without repeated ids gives its lookup table. *)
Lemma collect_entries_lookup l j x :
  NoDup (re_jti <$> l) ->
  collect_entries l !! j = Some x <-> mkRevocationEntry j x ∈ l.
Proof.
  unfold collect_entries. induction l as [|e l IH] using rev_ind; intros Hn.
  { simpl. rewrite lookup_empty. set_solver. }
  rewrite fmap_app in Hn. apply NoDup_app in Hn as (Hn & Hd & _).
  rewrite fold_left_app; simpl. rewrite lookup_insert, elem_of_app, list_elem_of_singleton.
  specialize (IH Hn). destruct e as [j' x']; simpl in *. case_decide as D.
  - subst j'. split; [naive_solver|]. intros [Hin|[= ->]]; [|done].
    exfalso. refine (Hd j _ _); [|left].
    apply list_elem_of_fmap. by exists (mkRevocationEntry j x).
  - rewrite IH. naive_solver.
Qed.

Lemma filter_jti_NoDup P `{!forall e, Decision (P e)} (l : list RevocationEntry) :
  NoDup (re_jti <$> l) -> NoDup (re_jti <$> filter P l).
Proof. intros Hn. eapply sublist_NoDup; [exact Hn|]. apply fmap_sublist, sublist_filter. Qed.

(** Reading back a written denylist keeps exactly its unexpired entries. *)
Lemma load_written now s p :
  inner (load now (ReadOk (to_json (list_entries s))) p) = retain_unexpired now (inner s).
Proof.
  unfold load; simpl. rewrite from_to_json. apply map_eq. intros j. apply option_eq. intros x.
  assert (NoDup (re_jti <$> list_entries s)) as Hn.
  { rewrite list_entries_perm, <- list_fmap_compose. apply NoDup_fst_map_to_list. }
  rewrite collect_entries_lookup by (by apply filter_jti_NoDup).
  unfold retain_unexpired. rewrite list_elem_of_filter, map_lookup_filter_Some; simpl.
  rewrite list_entries_perm, list_elem_of_fmap. split.
  - intros (Hx & [j' x'] & [= -> ->] & H%elem_of_map_to_list). done.
  - intros [H Hx]. split; [done|]. exists (j, x). by rewrite elem_of_map_to_list.
Qed.

(** The temporary file is never the file itself. *)
Lemma tmp_name_differs name : name_with_extension name "json.tmp" <> name.
Proof.
  unfold name_with_extension.
  destruct (rsplit_once "." name) as [[[|c stem] t]|] eqn:E; intros H.
  - apply (f_equal String.length) in H. rewrite !string_length_app in H. simpl in H. lia.
  - apply rsplit_once_no_char in E as Ht. apply rsplit_once_app in E. rewrite E in H.
    apply string_app_inv_head in H. assert (t = "json.tmp") as -> by by injection H. done.
  - apply (f_equal String.length) in H. rewrite !string_length_app in H. simpl in H. lia.
Qed.

Lemma tmp_path_differs p : with_extension p "json.tmp" <> p.
Proof.
  unfold with_extension. destruct (rsplit_once "/" p) as [[dir name]|] eqn:E;
    [|apply tmp_name_differs].
  apply rsplit_once_app in E. intros H. rewrite E in H.
  apply string_app_inv_head in H. injection H as H. by apply tmp_name_differs in H.
Qed.

(** What [persist] leaves at the path of the denylist. *)
Lemma persist_file io s f p :
  path s = Some p ->
  (persist io s f).2 !! p =
  match (persist io s f).1 with
  | Ok _ => Some (to_json (list_entries s))
  | Err _ => f !! p
  end.
Proof.
  intros Hp. unfold persist. rewrite Hp. pose proof (tmp_path_differs p) as Hne.
  destruct (io_mkdir io); simpl; [|done].
  destruct (io_write io); simpl; [|by rewrite lookup_insert_ne].
  destruct (io_rename io); simpl; [by rewrite lookup_insert_eq|by rewrite lookup_insert_ne].
Qed.

(** The file is replaced atomically: whichever system call of [persist]
    fails, what a restart then loads is either exactly what it would have loaded
    before the call or the complete new denylist (less what expired), and it is
    the new one exactly when [persist] reports success. *)
Theorem persist_atomic io s f p now :
  path s = Some p ->
  inner (load now (read_file (persist io s f).2 p) p) =
  match (persist io s f).1 with
  | Ok _ => retain_unexpired now (inner s)
  | Err _ => inner (load now (read_file f p) p)
  end.
Proof.
  intros Hp. unfold read_file. rewrite (persist_file io s f p Hp).
  destruct (persist io s f).1; [apply load_written|done].
Qed.

Lemma retain_lookup now m j :
  retain_unexpired now m !! j =
  match m !! j with Some x => if unexpired now x then Some x else None | None => None end.
Proof.
  unfold retain_unexpired. rewrite map_lookup_filter.
  destruct (m !! j) as [x|]; simpl; [|done].
  case_guard as G; simpl in *; destruct (unexpired now x); naive_solver.
Qed.

(** Durability: after a [revoke] that reported success, a restart that
    loads the file at any time before the entry expires finds the token revoked,
    and finds every other token exactly as revoked as it was before. *)
Theorem revoke_survives_restart io j exp s f s1 f1 p now :
  path s = Some p ->
  revoke io j exp s f = (Ok (), s1, f1) ->
  unexpired now exp = true ->
  let s2 := load now (read_file f1 p) p in
  is_revoked s2 j = true /\
  forall j', j' <> j ->
    inner s2 !! j' = match inner s !! j' with
                     | Some x => if unexpired now x then Some x else None
                     | None => None
                     end.
Proof.
  intros Hp Hr Hexp s2. unfold revoke in Hr.
  pose proof (persist_file io (with_inner (insert j exp) s) f p Hp) as Hat.
  destruct (persist io _ f) as [r f'] eqn:E. simplify_eq. simpl in Hat.
  assert (inner s2 = retain_unexpired now (<[j := exp]> (inner s))) as Hs2.
  { unfold s2, read_file. rewrite Hat. apply load_written. }
  split.
  - unfold is_revoked, store_revocation_check. by rewrite Hs2, retain_lookup, lookup_insert_eq, Hexp.
  - intros j' Hne. by rewrite Hs2, retain_lookup, lookup_insert_ne.
Qed.

Lemma prune_inner io now s f j :
  inner (prune io now s f).1.2 !! j =
  match inner s !! j with Some x => if unexpired now x then Some x else None | None => None end.
Proof.
  unfold prune. destruct (0 <? _)%nat; [destruct (persist io _ f)|]; apply retain_lookup.
Qed.

(** The denylist in memory follows the calls even when the file cannot be
    written: after [revoke] the token is refused and after [unrevoke] it is not,
    whatever the outcome; other tokens are untouched; and [prune] removes the
    entries that reached their expiry, no others. *)
Theorem denylist_in_memory io j exp now s f :
  let '(_, s1, _) := revoke io j exp s f in
  let '(removed, s2, _) := unrevoke io j s f in
  let '(_, s3, _) := prune io now s f in
  is_revoked s1 j = true /\ is_revoked s2 j = false /\
  (forall j', j' <> j -> is_revoked s1 j' = is_revoked s j' /\ is_revoked s2 j' = is_revoked s j') /\
  (forall b, removed = Ok b -> b = is_revoked s j) /\
  (forall j', inner s3 !! j' = match inner s !! j' with
                               | Some x => if unexpired now x then Some x else None
                               | None => None
                               end).
Proof.
  unfold revoke, unrevoke, prune. destruct (persist io (with_inner (insert j exp) s) f) as [r1 f1].
  destruct (persist io (with_inner (delete j) s) f) as [r2 f2].
  destruct (persist io (with_inner (retain_unexpired now) s) f) as [r3 f3].
  assert (forall s' j' x, inner s' !! j' = x ->
            is_revoked s' j' = match x with Some _ => true | None => false end) as Hr
    by (by intros s' j' x <-).
  destruct (0 <? _)%nat; split_and!; simpl.
  all: try (apply (Hr (with_inner _ s) j (Some exp)), lookup_insert_eq).
  all: try (apply (Hr (with_inner _ s) j None), lookup_delete_eq).
  all: try (intros j' Hne; unfold is_revoked, store_revocation_check; simpl;
            by rewrite lookup_insert_ne, lookup_delete_ne).
  all: try (intros b; destruct r2; by intros [= <-]).
  all: intros j'; apply retain_lookup.
Qed.
End StoreFacts.

(* ------------------------------------------------------------------ *)
(** ** A concrete format, and the properties at work *)

Module Demo.
(** Entries coded as a binary numeral: any format with a round trip will do. *)
Definition pair_of (e : RevocationEntry) : string * option Z := (re_jti e, re_expires_at e).

#[export] Instance bits_format : EntryFormat := {
  to_json l := bits (countable.encode (pair_of <$> l));
  from_json s := (fmap (M := list) entry_of) <$> countable.decode (unbits s);
}.
#[export] Instance bits_laws : EntryFormatLaws bits_format.
Proof.
  intros l. unfold from_json, to_json, bits_format. rewrite unbits_bits, countable.decode_encode. simpl.
  f_equal. rewrite <- list_fmap_compose. rewrite <- (list_fmap_id l) at 2.
  apply list_fmap_ext. by intros i [] _.
Qed.

Definition where_at : string := "/var/lib/flux/revocations.json".
Definition start : RevocationStore := mkStore {["old" := Some 50]} (Some where_at).
Definition written : result unit PersistError * RevocationStore * fs :=
  revoke io_ok "tok" (Some 100) start ∅.

Lemma persist_atomic_witness :
  path start = Some where_at /\
  inner (load 60 (read_file (persist (mkIo true true "" false) start ∅).2 where_at) where_at) = ∅.
Proof. split; [reflexivity|]. rewrite (persist_atomic _ _ _ _ 60); reflexivity. Defined.

Lemma revoke_survives_restart_witness :
  is_revoked (load 60 (read_file written.2 where_at) where_at) "tok" = true /\
  inner (load 60 (read_file written.2 where_at) where_at) !! "old" = None.
Proof.
  destruct (revoke_survives_restart io_ok "tok" (Some 100) start ∅ written.1.2 written.2 where_at 60
              ltac:(reflexivity) ltac:(reflexivity) ltac:(reflexivity)) as [H1 H2].
  split; [exact H1|]. rewrite H2 by done. reflexivity.
Defined.
End Demo.

(* ------------------------------------------------------------------ *)
(** ** The leeway gap *)

(** A revoked token comes back to life for the sixty seconds of the
    decoder's leeway: the sweep drops a denylist entry at the expiry of its
    token, while [verify_jwt] accepts the token until sixty seconds after it.
    Every denylist that records the token's own expiry is subject to it. *)
Theorem revocation_leeway_gap `{fmt : EntryFormat} `{lib : JwtLib} clock token keys io s f now max v j c :
  verify_jwt clock token keys mkNoRevocations now max = Ok v ->
  (forall key va c', decode clock token key va = Some c' -> c' = c) ->
  jti c = Some j -> claim_exp c <= now ->
  inner s !! j = Some (Some (claim_exp c)) ->
  verify_jwt clock token keys s now max = Err (JtiRevoked j) /\
  verify_jwt clock token keys (prune io now s f).1.2 now max = Ok v.
Proof.
  intros (header & pem & key & kind & c' & Hh & Hr & Hk & Halg & Hd & Hl & _ & ->)%verify_jwt_Ok
    Hc Hj Hexp Hs.
  pose proof (Hc _ _ _ Hd) as ->. split.
  - unfold verify_jwt. rewrite Hh, Hr. simpl. rewrite Hk. simpl. rewrite Halg. simpl.
    rewrite Hd, Hl. simpl. rewrite Hj. unfold is_revoked, store_revocation_check. by rewrite Hs.
  - apply verify_jwt_Ok. exists header, pem, key, kind, c. split_and!; try done.
    intros j' Hj'. simplify_eq. pose proof (prune_inner io now s f j) as Hp.
    unfold is_revoked, store_revocation_check. rewrite Hp, Hs. unfold unexpired. by zcases.
Qed.

Lemma revocation_leeway_gap_witness :
  let lib := coold_lib demo_header demo_claims in
  let s := mkStore {["token-1" := Some 5000]} None in
  verify_jwt 5030 "t" (single "ec-key") s 5030 3600 = Err (JtiRevoked "token-1") /\
  verify_jwt 5030 "t" (single "ec-key") (prune (fmt := Demo.bits_format) io_ok 5030 s ∅).1.2 5030 3600 =
    Ok (mkVerifiedJwt "10.42.0.7" ["containers.list"] 5000 (Some "42")).
Proof.
  intros lib s.
  apply (@revocation_leeway_gap Demo.bits_format lib 5030 "t" (single "ec-key") io_ok s ∅ 5030 3600 _
           "token-1" demo_claims); try reflexivity; [|done].
  intros key va c'. by intros (-> & _)%toy_decode_Some.
Defined.
