(* ===== verification/FluxConfig.v ===== *)
(** * Flux configuration and its Laravel clients

    [flux/src/config.rs], [flux/src/registry.rs] and
    [flux/src/resource_status.rs]: the settings flux runs with, how the
    environment and the key files complete them, and what is posted to Laravel.

    What the command-line parser returns is the argument of [load]; the
    environment and the file reads are functions.  An HTTP exchange is the
    request posted; its outcome is an argument where the code looks at it. *)

From S2P Require Import Prelude RustStr Messages FluxState.
Local Open Scope Z_scope.

Definition FLUX_LOG_FILE_PATH : string := "/var/www/html/storage/logs/flux.log".

Record Config := mkConfig {
  grpc_bind : string;
  unix_socket_path : string;
  unix_socket_group : option string;
  pending_max : nat;
  jwt_public_key_path : string;
  jwt_public_key : string;
  jwt_keys_dir : option string;
  jwt_additional_keys : gmap string string;
  require_host_binding : bool;
  require_team_id : bool;
  allow_wildcard_capabilities : bool;
  max_token_lifetime_secs : Z;
  revocation_path : string;
  tls_cert_path : option string;
  tls_key_path : option string;
  log_level : string;
  dispatch_timeout_secs : Z;
  flux_id : option string;
  flux_public_url : option string;
  flux_internal_url : option string;
  flux_region : option string;
  laravel_api_url : option string;
  laravel_api_token : option string;
  agent_capacity : Z;
  laravel_heartbeat_interval_secs : Z;
  coold_ping_interval_secs : Z;
  coold_pong_timeout_secs : Z;
}.

(** The parsed command line [flux --grpc-bind <bind>] with an empty
    environment: the declared defaults, skipped fields at their type's. *)
Definition parsed_defaults (bind : string) : Config := {|
  grpc_bind := bind;
  unix_socket_path := "/run/coolify/flux.sock";
  unix_socket_group := None;
  pending_max := Z.to_nat 10000;
  jwt_public_key_path := "/etc/coolify/jwt.pub";
  jwt_public_key := "";
  jwt_keys_dir := None;
  jwt_additional_keys := ∅;
  require_host_binding := false;
  require_team_id := false;
  allow_wildcard_capabilities := false;
  max_token_lifetime_secs := 3600;
  revocation_path := "/var/www/html/storage/app/flux/revocations.json";
  tls_cert_path := None;
  tls_key_path := None;
  log_level := "info";
  dispatch_timeout_secs := 30;
  flux_id := None;
  flux_public_url := None;
  flux_internal_url := None;
  flux_region := None;
  laravel_api_url := None;
  laravel_api_token := None;
  agent_capacity := 10000;
  laravel_heartbeat_interval_secs := 10;
  coold_ping_interval_secs := 10;
  coold_pong_timeout_secs := 45;
|}.

(* ------------------------------------------------------------------ *)
(** ** Environment flags *)

Definition flag_value (v : string) : string := to_ascii_lowercase (trim v).

Definition env_flag (value : option string) : bool :=
  match value with
  | Some v => bool_decide (flag_value v ∈ ["1"; "true"; "yes"; "on"])
  | None => false
  end.

Definition flag_default_true (value : option string) : bool :=
  match value with
  | Some v => negb (bool_decide (flag_value v ∈ ["0"; "false"; "no"; "off"]))
  | None => true
  end.

(* ------------------------------------------------------------------ *)
(** ** Key files *)

Inductive ConfigError :=
  | ReadPubkey (path : string)
  | ReadKeysDir (path : string)
  | ReadKey (path : string).

(** [Path::extension] and [Path::file_stem] of a file name. *)
Definition file_extension (name : string) : option string :=
  match rsplit_once "." name with
  | Some ("", _) | None => None
  | Some (_, ext) => Some ext
  end.
Definition file_stem (name : string) : string :=
  match rsplit_once "." name with
  | Some ("", _) | None => name
  | Some (stem, _) => stem
  end.

Section Load.
(** The environment, the files' contents, and directory listings. *)
Context (env : string -> option string) (read_to_string : string -> option string)
  (read_dir : string -> option (list string)).

Fixpoint load_keys (dir : string) (names : list string) (keys : gmap string string)
    : result (gmap string string) ConfigError :=
  match names with
  | [] => Ok keys
  | name :: rest =>
      if decide (file_extension name = Some "pub") then
        match read_to_string (dir +:+ "/" +:+ name) with
        | Some pem => load_keys dir rest (<[file_stem name := pem]> keys)
        | None => Err (ReadKey (dir +:+ "/" +:+ name))
        end
      else load_keys dir rest keys
  end.

Definition load_jwt_keys_dir (dir : option string) : result (gmap string string) ConfigError :=
  match dir with
  | None => Ok ∅
  | Some d =>
      match read_dir d with
      | None => Err (ReadKeysDir d)
      | Some names => load_keys d names ∅
      end
  end.

Definition load (parsed : Config) : result Config ConfigError :=
  match read_to_string (jwt_public_key_path parsed) with
  | None => Err (ReadPubkey (jwt_public_key_path parsed))
  | Some pem =>
      (let? keys := load_jwt_keys_dir (jwt_keys_dir parsed) in
       Ok {| grpc_bind := grpc_bind parsed;
             unix_socket_path := unix_socket_path parsed;
             unix_socket_group := unix_socket_group parsed;
             pending_max := pending_max parsed;
             jwt_public_key_path := jwt_public_key_path parsed;
             jwt_public_key := pem;
             jwt_keys_dir := jwt_keys_dir parsed;
             jwt_additional_keys := keys;
             require_host_binding := flag_default_true (env "COOLIFY_FLUX_REQUIRE_HOST_BINDING");
             require_team_id := flag_default_true (env "COOLIFY_FLUX_REQUIRE_TEAM_ID");
             allow_wildcard_capabilities :=
               env_flag (env "COOLIFY_FLUX_ALLOW_WILDCARD_CAPABILITIES");
             max_token_lifetime_secs := max_token_lifetime_secs parsed;
             revocation_path := revocation_path parsed;
             tls_cert_path := tls_cert_path parsed;
             tls_key_path := tls_key_path parsed;
             log_level := log_level parsed;
             dispatch_timeout_secs := dispatch_timeout_secs parsed;
             flux_id := flux_id parsed;
             flux_public_url := flux_public_url parsed;
             flux_internal_url := flux_internal_url parsed;
             flux_region := flux_region parsed;
             laravel_api_url := laravel_api_url parsed;
             laravel_api_token := laravel_api_token parsed;
             agent_capacity := agent_capacity parsed;
             laravel_heartbeat_interval_secs := laravel_heartbeat_interval_secs parsed;
             coold_ping_interval_secs := coold_ping_interval_secs parsed;
             coold_pong_timeout_secs := coold_pong_timeout_secs parsed |})%rust
  end.
End Load.

(* ------------------------------------------------------------------ *)
(** ** Laravel: the registry *)

Record HttpPost := mkPost { post_url : string; post_bearer : string; post_body : json }.

Record HeartbeatPayload := mkHeartbeat {
  hb_flux_id : string;
  hb_public_url : string;
  hb_internal_url : string;
  hb_region : option string;
  hb_capacity : Z;
  hb_connected_agents_count : Z;
}.

Record AgentConnectionPayload := mkConnection {
  ac_flux_id : string;
  ac_host_id : string;
  ac_capabilities : list string;
  ac_coold_version : option string;
}.

Record DisconnectPayload := mkDisconnect {
  dc_flux_id : string;
  dc_host_id : string;
  dc_reason : string;
}.

Definition opt_field (k : string) (v : option string) : list (string * json) :=
  match v with Some s => [(k, JStr s)] | None => [] end.

Definition heartbeat_json (p : HeartbeatPayload) : json :=
  JObj ([("flux_id", JStr (hb_flux_id p)); ("public_url", JStr (hb_public_url p));
         ("internal_url", JStr (hb_internal_url p))] ++ opt_field "region" (hb_region p) ++
        [("capacity", JNum (hb_capacity p));
         ("connected_agents_count", JNum (hb_connected_agents_count p))]).

Definition connection_json (p : AgentConnectionPayload) : json :=
  JObj ([("flux_id", JStr (ac_flux_id p)); ("host_id", JStr (ac_host_id p));
         ("capabilities", jstrs (ac_capabilities p))] ++
        opt_field "coold_version" (ac_coold_version p)).

Definition disconnect_json (p : DisconnectPayload) : json :=
  JObj [("flux_id", JStr (dc_flux_id p)); ("host_id", JStr (dc_host_id p));
        ("reason", JStr (dc_reason p))].

Record RegistryClient := mkRegistry {
  rc_base_url : string;
  rc_token : string;
  rc_flux_id : string;
  rc_public_url : string;
  rc_internal_url : string;
  rc_region : option string;
  rc_capacity : Z;
}.

Definition from_config (c : Config) : option RegistryClient :=
  laravel_api_url c ≫= fun u =>
  let base_url := trim_end_char "/" (trim u) in
  laravel_api_token c ≫= fun t =>
  let token := trim t in
  flux_id c ≫= fun i =>
  let id := trim i in
  flux_public_url c ≫= fun pu =>
  let public_url := trim pu in
  flux_internal_url c ≫= fun iu =>
  let internal_url := trim iu in
  if is_empty base_url || is_empty token || is_empty id || is_empty public_url
     || is_empty internal_url
  then None
  else Some (mkRegistry base_url token id public_url internal_url (flux_region c) (agent_capacity c)).

Definition registry_post (r : RegistryClient) (path : string) (body : json) : HttpPost :=
  mkPost (rc_base_url r +:+ path) (rc_token r) body.

Definition heartbeat_payload (r : RegistryClient) (connected : Z) : HeartbeatPayload :=
  mkHeartbeat (rc_flux_id r) (rc_public_url r) (rc_internal_url r) (rc_region r) (rc_capacity r)
    connected.

Definition heartbeat (r : RegistryClient) (connected : Z) : HttpPost :=
  registry_post r "/api/v1/internal/fluxs/heartbeat" (heartbeat_json (heartbeat_payload r connected)).

Definition upsert_connection (r : RegistryClient) (host_id : string) (capabilities : list string)
    (coold_version : option string) : HttpPost :=
  registry_post r "/api/v1/internal/agent-connections/upsert"
    (connection_json (mkConnection (rc_flux_id r) host_id capabilities coold_version)).

Definition disconnect (r : RegistryClient) (host_id reason : string) : HttpPost :=
  registry_post r "/api/v1/internal/agent-connections/disconnect"
    (disconnect_json (mkDisconnect (rc_flux_id r) host_id reason)).

(** One tick of [heartbeat_loop]: nothing is posted without a registry. *)
Definition heartbeat_tick (c : Config) (streams : Streams.t) : option HttpPost :=
  (fun r => heartbeat r (Z.of_nat (Streams.len streams))) <$> from_config c.

(* ------------------------------------------------------------------ *)
(** ** Laravel: resource status *)

Record ResourceStatusPublisher := mkPublisher {
  endpoint_url : option string;
  pub_token : option string;
}.

Definition non_empty (o : option string) : option string :=
  o ≫= fun s => if is_empty s then None else Some s.

Definition publisher_new (laravel_api_url token : option string) : ResourceStatusPublisher := {|
  endpoint_url := (fun u => u +:+ "/api/v1/internal/flux/resource-status") <$>
                  non_empty ((fun u => trim_end_char "/" (trim u)) <$> laravel_api_url);
  pub_token := non_empty (trim <$> token);
|}.

Definition resource_status_payload (u : ResourceStatusUpdate) : json :=
  JObj [("resource_type", JStr (rs_resource_type u)); ("host_id", JStr (rs_host_id u));
        ("container_id", JStr (rs_container_id u)); ("container_name", JStr (rs_container_name u));
        ("status", JStr (rs_status u)); ("status_message", JStr (rs_status_message u))].

(** [publish]: the request posted, if the endpoint and the token are set; the
    response is only logged. *)
Definition publish (p : ResourceStatusPublisher) (u : ResourceStatusUpdate) : option HttpPost :=
  match endpoint_url p with
  | None => None
  | Some url => match pub_token p with
                | None => None
                | Some token => Some (mkPost url token (resource_status_payload u))
                end
  end.

(* ------------------------------------------------------------------ *)
(** ** Properties *)

(** The file that holds the key of [kid]. *)
Lemma pub_file name kid :
  file_extension name = Some "pub" /\ file_stem name = kid <-> kid <> "" /\ name = kid +:+ ".pub".
Proof.
  unfold file_extension, file_stem. split.
  - destruct (rsplit_once "." name) as [[[|c h] t]|] eqn:E; [naive_solver| |naive_solver].
    apply rsplit_once_app in E. intros [[= ->] <-]. done.
  - intros [Hk ->]. rewrite (rsplit_once_last "." kid "pub" eq_refl). by destruct kid.
Qed.

Section LoadFacts.
Context (env : string -> option string) (read_to_string : string -> option string)
  (read_dir : string -> option (list string)).

Lemma load_keys_spec dir names keys0 keys :
  load_keys read_to_string dir names keys0 = Ok keys ->
  forall kid,
    keys !! kid =
    if decide (kid <> "" /\ kid +:+ ".pub" ∈ names)
    then read_to_string (dir +:+ "/" +:+ kid +:+ ".pub") else keys0 !! kid.
Proof.
  revert keys0. induction names as [|name names IH]; simpl; intros keys0 H kid.
  { simplify_eq. rewrite decide_False; [done|]. by intros [_ []%elem_of_nil]. }
  pose proof (pub_file name kid) as Hf. case_decide as Hext.
  - destruct (read_to_string (dir +:+ "/" +:+ name)) as [pem|] eqn:Hr; [|done].
    rewrite (IH _ H kid). destruct (decide (kid = file_stem name)) as [->|Hk].
    + destruct Hf as [[Hne Hname] _]; [done|].
      rewrite (decide_True (P := file_stem name <> "" /\ file_stem name +:+ ".pub" ∈ name :: names))
        by (split; [done|]; rewrite <- Hname; left).
      case_decide; [done|]. by rewrite lookup_insert_eq, <- Hr, <- Hname.
    + rewrite lookup_insert_ne by done. apply decide_ext. rewrite elem_of_cons. naive_solver.
  - rewrite (IH _ H kid). apply decide_ext. rewrite elem_of_cons. naive_solver.
Qed.

(** The key set is what the operator put in place: when the configuration
    loads, the default key is the contents of its file, and the key of an id is
    the contents of the file [<kid>.pub] of the rotation directory, no other
    file of it being used. *)
Theorem jwt_key_set_exact parsed c :
  load env read_to_string read_dir parsed = Ok c ->
  read_to_string (jwt_public_key_path parsed) = Some (jwt_public_key c) /\
  forall kid,
    jwt_additional_keys c !! kid =
    match jwt_keys_dir parsed with
    | None => None
    | Some dir =>
        match read_dir dir with
        | Some names =>
            if decide (kid <> "" /\ kid +:+ ".pub" ∈ names)
            then read_to_string (dir +:+ "/" +:+ kid +:+ ".pub") else None
        | None => None
        end
    end.
Proof.
  unfold load. destruct (read_to_string _) as [pem|] eqn:Hp; [|done].
  intros (keys & Hk & [= <-])%rbind_Ok. simpl. split; [done|]. intros kid.
  unfold load_jwt_keys_dir in Hk. destruct (jwt_keys_dir parsed) as [dir|]; [|by simplify_eq].
  destruct (read_dir dir) as [names|]; [|done].
  rewrite (load_keys_spec dir names ∅ keys Hk kid). by case_decide.
Qed.

(** Secure by default: host binding and the tenant claim stay required
    unless the variable is one of four falsy words, and wildcard profiles stay
    off unless theirs is one of four truthy words, in any case and with white
    space around them. *)
Theorem secure_by_default parsed c :
  load env read_to_string read_dir parsed = Ok c ->
  (require_host_binding c = false <->
     exists v, env "COOLIFY_FLUX_REQUIRE_HOST_BINDING" = Some v /\
       to_ascii_lowercase (trim v) ∈ ["0"; "false"; "no"; "off"]) /\
  (require_team_id c = false <->
     exists v, env "COOLIFY_FLUX_REQUIRE_TEAM_ID" = Some v /\
       to_ascii_lowercase (trim v) ∈ ["0"; "false"; "no"; "off"]) /\
  (allow_wildcard_capabilities c = true <->
     exists v, env "COOLIFY_FLUX_ALLOW_WILDCARD_CAPABILITIES" = Some v /\
       to_ascii_lowercase (trim v) ∈ ["1"; "true"; "yes"; "on"]).
Proof.
  unfold load. destruct (read_to_string _) as [pem|]; [|done].
  intros (keys & _ & [= <-])%rbind_Ok. simpl.
  assert (forall o, flag_default_true o = false <->
            exists v, o = Some v /\ to_ascii_lowercase (trim v) ∈ ["0"; "false"; "no"; "off"]) as Hf.
  { intros [v|]; simpl; [|naive_solver]. rewrite negb_false_iff, bool_decide_eq_true.
    unfold flag_value. naive_solver. }
  split_and!; [apply Hf..|]. destruct (env _) as [v|]; simpl; [|naive_solver].
  rewrite bool_decide_eq_true. unfold flag_value. naive_solver.
Qed.
End LoadFacts.

Module Demo.
Definition files (p : string) : option string :=
  if decide (p = "/etc/coolify/jwt.pub") then Some "ec-key"
  else if decide (p = "/keys/2024.pub") then Some "rsa-key" else None.
Definition dirs (p : string) : option (list string) :=
  if decide (p = "/keys") then Some ["2024.pub"; "README"] else None.
Definition env1 (k : string) : option string :=
  if decide (k = "COOLIFY_FLUX_REQUIRE_TEAM_ID") then Some " Off " else None.
Definition with_keys_dir (c : Config) (d : string) : Config :=
  mkConfig (grpc_bind c) (unix_socket_path c) (unix_socket_group c) (pending_max c)
    (jwt_public_key_path c) (jwt_public_key c) (Some d) (jwt_additional_keys c)
    (require_host_binding c) (require_team_id c) (allow_wildcard_capabilities c)
    (max_token_lifetime_secs c) (revocation_path c) (tls_cert_path c) (tls_key_path c) (log_level c)
    (dispatch_timeout_secs c) (flux_id c) (flux_public_url c) (flux_internal_url c) (flux_region c)
    (laravel_api_url c) (laravel_api_token c) (agent_capacity c) (laravel_heartbeat_interval_secs c)
    (coold_ping_interval_secs c) (coold_pong_timeout_secs c).
Definition parsed : Config := with_keys_dir (parsed_defaults "10.42.0.1:6443") "/keys".
Definition loaded : Config :=
  match load env1 files dirs parsed with Ok c => c | Err _ => parsed end.

Lemma jwt_key_set_exact_witness : jwt_additional_keys loaded !! "2024" = Some "rsa-key".
Proof.
  rewrite (proj2 (jwt_key_set_exact env1 files dirs parsed loaded ltac:(vm_compute; reflexivity))).
  vm_compute. reflexivity.
Defined.

Lemma secure_by_default_witness : require_team_id loaded = false.
Proof.
  apply (proj1 (proj2 (secure_by_default env1 files dirs parsed loaded ltac:(vm_compute; reflexivity)))).
  exists " Off ". split; [reflexivity|]. vm_compute. apply list_elem_of_In. simpl. tauto.
Defined.
End Demo.
