(* ===== verification/FluxServer.v ===== *)
(** * The agent stream server

    [flux/src/main.rs]: the module [grpc_server], which accepts and serves the
    stream of each agent, and the background loops [coold_heartbeat],
    [pending_sweeper] and [revocation_sweeper].

    [accept] is the part of the handler that decides; [stream] registers the
    accepted agent.  [on_msg] is one turn of the stream task's loop and
    [finish] what it does when the loop ends.  The tasks of all agents share the
    tables, so the server is also a transition system ([step]) in which they
    interleave in any order. *)

From S2P Require Import Prelude RustStr Messages Net FluxState FluxRouting FluxAuth FluxRevocation.
From S2P Require Import FluxConfig.
Local Open Scope Z_scope.

(* ------------------------------------------------------------------ *)
(** ** Negotiation *)

Definition FLUX_SCHEMA_MIN : Z := 1.
Definition FLUX_SCHEMA_MAX : Z := 1.
Definition STATUS_PUBLISH_CONCURRENCY : nat := 256.

Definition schema_overlaps (coold_min coold_max flux_min flux_max : Z) : bool :=
  (coold_min <=? flux_max) && (flux_min <=? coold_max).

Definition capability_profile_authorizes_all (capability : string) : bool :=
  bool_decide (capability ∈ ["*"; "host-agent:dev"; "host-agent:default"]).

Definition contains_wildcard_profile (jwt_caps : list string) : bool :=
  existsb capability_profile_authorizes_all jwt_caps.

Definition effective_capabilities (advertised jwt_caps : list string) (allow_wildcard : bool)
    : list string :=
  if allow_wildcard && contains_wildcard_profile jwt_caps then advertised
  else filter (fun c => has_cap c jwt_caps) advertised.

Definition missing_capabilities (advertised effective : list string) : list string :=
  filter (fun c => negb (has_cap c effective)) advertised.

(* ------------------------------------------------------------------ *)
(** ** The listener *)

Inductive ListenError :=
  | BadBind (text : string)
  | RefusedBind (addr : SocketAddr)
  | ReadTls (path : string)
  | TlsMisconfigured.

Definition validate_bind (addr : SocketAddr) (allow_public : bool) : result unit ListenError :=
  if is_unspecified (sa_ip addr) && negb allow_public then Err (RefusedBind addr) else Ok ().

Definition allow_public_bind (env : string -> option string) : bool :=
  bool_decide (env "COOLIFY_FLUX_ALLOW_PUBLIC_BIND" = Some "1").

(** The certificate and key that make the identity of the listener. *)
Definition build_tls_config (read : string -> option string) (c : Config)
    : result (option (string * string)) ListenError :=
  match tls_cert_path c, tls_key_path c with
  | Some cert_path, Some key_path =>
      match read cert_path with
      | None => Err (ReadTls cert_path)
      | Some cert => match read key_path with
                     | None => Err (ReadTls key_path)
                     | Some key => Ok (Some (cert, key))
                     end
      end
  | None, None => Ok None
  | _, _ => Err TlsMisconfigured
  end.

(** [run], up to the listening socket: its address and its TLS identity. *)
Definition listen (env read : string -> option string) (c : Config)
    : result (SocketAddr * option (string * string)) ListenError :=
  match parse_socket_addr (grpc_bind c) with
  | None => Err (BadBind (grpc_bind c))
  | Some addr =>
      (let? _ := validate_bind addr (allow_public_bind env) in
       let? tls := build_tls_config read c in
       Ok (addr, tls))%rust
  end.

(* ------------------------------------------------------------------ *)
(** ** Accepting a stream *)

Inductive Status :=
  | Unauthenticated (message : string)
  | InvalidArgument (message : string)
  | FailedPrecondition (message : string)
  | Received (code : Z) (message : string).

(** What a stream request shows: the [authorization] header when it is text,
    the peer address, and the first inbound message once it arrives. *)
Record StreamRequest := mkRequest {
  rq_authorization : option string;
  rq_remote_addr : option SocketAddr;
  rq_first : option (result ClientMsg.t Status);
}.

Record Accepted := mkAccepted {
  ac_host : string;
  ac_exp : Z;
  ac_caps : list string;
  ac_advertised : list string;
  ac_version : string;
}.

Section Accept.
Context `{lib : JwtLib} {R : Type} `{RevocationCheck R} (cfg : Config).

Definition jwt_keys : JwtKeys := mkJwtKeys (jwt_public_key cfg) (jwt_additional_keys cfg).

(** The first message must be a [Hello]. *)
Definition first_hello (req : StreamRequest) : result Hello Status :=
  match rq_first req with
  | Some (Ok (ClientMsg.Hello h)) => Ok h
  | Some (Ok _) | None => Err (InvalidArgument "hello required")
  | Some (Err e) => Err e
  end.

(** The handler [stream] up to the point where the agent is registered. *)
Definition accept (clock now : Z) (revocations : R) (req : StreamRequest) : result Accepted Status :=
  (match rq_authorization req ≫= strip_prefix "Bearer " with
   | None => Err (Unauthenticated "invalid credentials")
   | Some jwt =>
     match verify_jwt clock jwt jwt_keys revocations now (max_token_lifetime_secs cfg) with
     | Err _ => Err (Unauthenticated "invalid credentials")
     | Ok verified =>
       let host_id := vj_host_id verified in
       guard! team_id_satisfied (vj_team_id verified) (require_team_id cfg)
         else Unauthenticated "invalid credentials" in
       let peer_ip := sa_ip <$> rq_remote_addr req in
       let? hello := first_hello req in
       guard! schema_overlaps (h_schema_min hello) (h_schema_max hello)
                FLUX_SCHEMA_MIN FLUX_SCHEMA_MAX
         else FailedPrecondition "coold/flux schema versions are incompatible" in
       match decide_host_binding host_id (h_host_mgmt_ip hello) peer_ip
               (require_host_binding cfg) with
       | Err _ => Err (Unauthenticated "invalid credentials")
       | Ok _ =>
         Ok {| ac_host := host_id;
               ac_exp := vj_exp verified;
               ac_caps := effective_capabilities (h_capabilities hello) (vj_caps verified)
                            (allow_wildcard_capabilities cfg);
               ac_advertised := h_capabilities hello;
               ac_version := h_coold_version hello |}
       end
     end
   end)%rust.
End Accept.

(* ------------------------------------------------------------------ *)
(** ** Serving a stream *)

(** What the server does beyond its tables. *)
Inductive effect :=
  (** a task that publishes a status update, if the publisher is configured *)
  | SpawnPublish (p : option HttpPost)
  (** the same, holding a permit of the semaphore until it ends *)
  | SpawnBounded (p : option HttpPost)
  | SpawnUpsert (p : HttpPost)
  | Publish (p : option HttpPost)
  | Disconnect (p : HttpPost)
  | Wake (s : Pending.sink) (data : Pending.ResponseData)
  | SendPing (tx : Streams.sender).

Record server := mkServer {
  sv_streams : Streams.t;
  sv_pending : Pending.t;
  sv_revocations : RevocationStore;
  sv_permits : nat;
  sv_next_tx : Streams.sender;
}.

Definition set_streams (s : Streams.t) (sv : server) : server :=
  mkServer s (sv_pending sv) (sv_revocations sv) (sv_permits sv) (sv_next_tx sv).
Definition set_pending (p : Pending.t) (sv : server) : server :=
  mkServer (sv_streams sv) p (sv_revocations sv) (sv_permits sv) (sv_next_tx sv).
Definition set_revocations (r : RevocationStore) (sv : server) : server :=
  mkServer (sv_streams sv) (sv_pending sv) r (sv_permits sv) (sv_next_tx sv).
Definition set_permits (n : nat) (sv : server) : server :=
  mkServer (sv_streams sv) (sv_pending sv) (sv_revocations sv) n (sv_next_tx sv).

(** A running stream task: its host, the channel it serves, the instant (in
    seconds) its expiry timer fires, and the request it serves, of which the task
    goes on to read the rest. *)
Record session := mkSession {
  ss_host : string;
  ss_tx : Streams.sender;
  ss_deadline : Z;
  ss_request : StreamRequest;
}.

Definition coold_status_update (host_id status status_message : string) : ResourceStatusUpdate :=
  mkResourceStatusUpdate "server" host_id "" "" status status_message.

Definition response_body_type (body : option Body.t) : string :=
  match body with
  | Some (Body.ImagesPull _ _) => "images.pull"
  | Some (Body.ImagesList _) => "images.list"
  | Some (Body.ImagesDelete _) => "images.delete"
  | Some (Body.ContainersCreate _) => "containers.create"
  | Some (Body.ContainersStart _) => "containers.start"
  | Some (Body.ContainersStop _) => "containers.stop"
  | Some (Body.ContainersRestart _) => "containers.restart"
  | Some (Body.ContainersDelete _) => "containers.delete"
  | Some (Body.ContainersInspect _) => "containers.inspect"
  | Some (Body.ContainersList _) => "containers.list"
  | Some (Body.ContainersLogs _) => "containers.logs"
  | Some (Body.ContainersExec _ _) => "containers.exec"
  | Some (Body.ContainersHealthcheckRun _) => "containers.healthcheck.run"
  | Some (Body.IngressApply _) => "ingress.apply"
  | Some (Body.IngressStop _) => "ingress.stop"
  | Some (Body.FirewallAllow _ _) => "firewall.allow"
  | Some (Body.FirewallRevoke _) => "firewall.revoke"
  | Some (Body.FirewallList _) => "firewall.list"
  | Some (Body.FirewallReconcile _) => "firewall.reconcile"
  | Some (Body.CooldLogs _) => "coold.logs"
  | Some (Body.CorrosionTables _) => "corrosion.tables"
  | Some (Body.HostJwtSet _) => "host.jwt.set"
  | Some (Body.Error _ _) => "error"
  | None => "none"
  end.

Section Serve.
Context `{lib : JwtLib} (cfg : Config).
(** [serde_json::from_str], used on the text of an inspect response. *)
Context (parse_json : string -> option json).

Definition publisher : ResourceStatusPublisher :=
  publisher_new (laravel_api_url cfg) (laravel_api_token cfg).
Definition registry : option RegistryClient := from_config cfg.

(** [deliver_response]: the response of host [host_id] to a request. *)
Definition deliver_response (now : Z) (host_id : string) (resp : Response) (p : Pending.t)
    : list effect * Pending.t :=
  let request_id := r_request_id resp in
  match Pending.get request_id p with
  | None => ([], p)
  | Some _ =>
      match ResponseBody.try_from_proto parse_json resp with
      | None => ([], p)
      | Some body =>
          let '(sends, p1) := Pending.deliver now request_id (Pending.RCoold body) p in
          ((fun '(s, d) => Wake s d) <$> sends, p1)
      end
  end.

Definition spawn_bounded_publish (u : ResourceStatusUpdate) (sv : server) : list effect * server :=
  match sv_permits sv with
  | S n => ([SpawnBounded (publish publisher u)], set_permits n sv)
  | O => ([], sv)
  end.

(** The handler: on success the agent is registered under a fresh channel and
    its task starts. *)
Definition stream (clock now now_instant task_now : Z) (req : StreamRequest) (sv : server)
    : result session Status * list effect * server :=
  match accept cfg clock now (sv_revocations sv) req with
  | Err e => (Err e, [], sv)
  | Ok a =>
      let tx := sv_next_tx sv in
      let handle := Streams.mkStreamHandle tx (ac_caps a) (ac_advertised a) in
      let sv1 := mkServer (Streams.insert now_instant (ac_host a) handle (sv_streams sv))
                   (sv_pending sv) (sv_revocations sv) (sv_permits sv) (S tx) in
      (Ok (mkSession (ac_host a) tx (task_now + seconds_until_expiry (ac_exp a) task_now) req),
       SpawnPublish (publish publisher
         (coold_status_update (ac_host a) "installed" "coold stream connected.")) ::
       match registry with
       | Some r => [SpawnUpsert (upsert_connection r (ac_host a) (ac_caps a) (Some (ac_version a)))]
       | None => []
       end,
       sv1)
  end.

(** One inbound item of a stream task: [Some reason] ends its loop. *)
Definition on_msg (now : Z) (host : string) (m : option (result ClientMsg.t Status)) (sv : server)
    : option string * list effect * server :=
  match m with
  | None => (Some "stream_closed", [], sv)
  | Some (Ok (ClientMsg.Response resp)) =>
      let '(eff, p1) := deliver_response now host resp (sv_pending sv) in
      (None, eff, set_pending p1 sv)
  | Some (Ok (ClientMsg.ResourceStatusUpdate u)) =>
      let '(eff, sv1) := spawn_bounded_publish u sv in (None, eff, sv1)
  | Some (Ok (ClientMsg.Pong _)) =>
      let '(restored, s1) := Streams.touch now host (sv_streams sv) in
      let sv1 := set_streams s1 sv in
      if restored then
        let '(eff, sv2) := spawn_bounded_publish
          (coold_status_update host "installed" "coold heartbeat restored.") sv1 in
        (None, eff, sv2)
      else (None, [], sv1)
  | Some (Ok (ClientMsg.Hello _)) => (None, [], sv)
  | Some (Ok ClientMsg.NoPayload) => (None, [], sv)
  | Some (Err _) => (Some "stream_error", [], sv)
  end.

(** The expiry branch of the select: taken once the timer has fired. *)
Definition on_expiry : string := "token_expired".

(** After the loop: unregister the host and report it. *)
Definition finish (host reason : string) (sv : server) : list effect * server :=
  (Publish (publish publisher
     (coold_status_update host "unreachable" "coold stream disconnected.")) ::
   match registry with Some r => [Disconnect (disconnect r host reason)] | None => [] end,
   set_streams (Streams.remove host (sv_streams sv)) sv).

(** *** Background loops, one turn each *)

Definition ping_period : Z := Z.max (coold_ping_interval_secs cfg) 1.
Definition pong_timeout : Z := from_secs (Z.max (coold_pong_timeout_secs cfg) 1).

Definition heartbeat_turn (now : Z) (sv : server) : list effect * server :=
  let '(stale, s1) := Streams.mark_stale now pong_timeout (sv_streams sv) in
  (((fun h => Publish (publish publisher
       (coold_status_update h "unreachable" "coold heartbeat timed out."))) <$> stale) ++
   ((fun '(_, tx) => SendPing tx) <$> Streams.ping_targets s1),
   set_streams s1 sv).

Definition pending_sweep (now : Z) (sv : server) : server :=
  set_pending (Pending.drain_expired now (from_secs (dispatch_timeout_secs cfg)) (sv_pending sv)).2 sv.

Definition revocation_sweep `{fmt : EntryFormat} (io : IoOutcome) (now : Z) (f : fs) (sv : server)
    : server * fs :=
  let '(_, r1, f1) := prune io now (sv_revocations sv) f in (set_revocations r1 sv, f1).
End Serve.

(* ------------------------------------------------------------------ *)
(** ** The server as a transition system *)

(** The server, its running stream tasks by channel, and the number of publish
    tasks that hold a permit. *)
Record world := mkWorld {
  w_sv : server;
  w_sessions : gmap Streams.sender session;
  w_publishing : nat;
}.

Definition is_bounded (e : effect) : bool :=
  match e with SpawnBounded _ => true | _ => false end.
Definition spawned (eff : list effect) : nat := length (filter (fun e => is_bounded e) eff).

Definition server0 (r : RevocationStore) : server :=
  mkServer Streams.new Pending.new r STATUS_PUBLISH_CONCURRENCY O.
Definition world0 (r : RevocationStore) : world := mkWorld (server0 r) ∅ 0.

Section System.
Context `{lib : JwtLib} (cfg : Config) (parse_json : string -> option json).

Inductive step : world -> world -> Prop :=
  (** An agent opens a stream and is accepted; a rejected one changes nothing. *)
  | step_connect w clock now now_i task_now req ss eff sv1 :
      stream cfg clock now now_i task_now req (w_sv w) = (Ok ss, eff, sv1) ->
      step w (mkWorld sv1 (<[ss_tx ss := ss]> (w_sessions w)) (w_publishing w))
  (** A stream task handles a message and goes on. *)
  | step_msg w ss now m eff sv1 :
      w_sessions w !! ss_tx ss = Some ss ->
      on_msg cfg parse_json now (ss_host ss) m (w_sv w) = (None, eff, sv1) ->
      step w (mkWorld sv1 (w_sessions w) (w_publishing w + spawned eff))
  (** A stream task ends, on a closed or failed stream ... *)
  | step_close w ss now m reason eff sv1 eff2 sv2 :
      w_sessions w !! ss_tx ss = Some ss ->
      on_msg cfg parse_json now (ss_host ss) m (w_sv w) = (Some reason, eff, sv1) ->
      finish cfg (ss_host ss) reason sv1 = (eff2, sv2) ->
      step w (mkWorld sv2 (delete (ss_tx ss) (w_sessions w)) (w_publishing w))
  (** ... or when its token has expired. *)
  | step_expire w ss now eff2 sv2 :
      w_sessions w !! ss_tx ss = Some ss ->
      ss_deadline ss <= now ->
      finish cfg (ss_host ss) on_expiry (w_sv w) = (eff2, sv2) ->
      step w (mkWorld sv2 (delete (ss_tx ss) (w_sessions w)) (w_publishing w))
  (** A publish task ends and returns its permit. *)
  | step_published w n :
      w_publishing w = S n ->
      step w (mkWorld (set_permits (S (sv_permits (w_sv w))) (w_sv w)) (w_sessions w) n)
  (** The background loops, and the Unix-socket lane, which changes only the
      pending table and the denylist. *)
  | step_heartbeat w now :
      step w (mkWorld (heartbeat_turn cfg now (w_sv w)).2 (w_sessions w) (w_publishing w))
  | step_sweep w now :
      step w (mkWorld (pending_sweep cfg now (w_sv w)) (w_sessions w) (w_publishing w))
  | step_bridge_pending w p :
      step w (mkWorld (set_pending p (w_sv w)) (w_sessions w) (w_publishing w))
  | step_revocations w r :
      step w (mkWorld (set_revocations r (w_sv w)) (w_sessions w) (w_publishing w)).

Definition reachable (w : world) : Prop := exists r, rtc step (world0 r) w.

(** A stream request was granted, for a host, a set of capabilities. *)
Definition granted (req : StreamRequest) (host : string) (caps advertised : list string) : Prop :=
  exists clock now (rev : RevocationStore) a,
    accept cfg clock now rev req = Ok a /\
    ac_host a = host /\ ac_caps a = caps /\ ac_advertised a = advertised.

(** An entry of the table stands for a running task of its host, whose request
    was granted what the entry says. *)
Record Inv (w : world) : Prop := mkInv {
  inv_granted (h : string) e :
    sv_streams (w_sv w) !! h = Some e ->
    exists ss, w_sessions w !! Streams.e_tx e = Some ss /\ ss_host ss = h /\
      granted (ss_request ss) h (Streams.e_caps e) (Streams.e_advertised_caps e);
  inv_fresh tx ss :
    w_sessions w !! tx = Some ss -> ss_tx ss = tx /\ (tx < sv_next_tx (w_sv w))%nat;
  inv_permits : (sv_permits (w_sv w) + w_publishing w = STATUS_PUBLISH_CONCURRENCY)%nat;
}.

Lemma spawn_bounded_spec u sv eff sv1 :
  spawn_bounded_publish cfg u sv = (eff, sv1) ->
  sv_streams sv1 = sv_streams sv /\ sv_next_tx sv1 = sv_next_tx sv /\
  (sv_permits sv1 + spawned eff = sv_permits sv)%nat.
Proof.
  unfold spawn_bounded_publish. destruct (sv_permits sv) as [|n] eqn:E; intros [= <- <-];
    simpl; rewrite ?E; unfold spawned; simpl; split_and!; try done; lia.
Qed.

Ltac no_spawn := unfold spawned; simpl; split_and!; auto; try lia.

(** What a turn of a stream task can change. *)
Lemma on_msg_frame now host m sv r eff sv1 :
  on_msg cfg parse_json now host m sv = (r, eff, sv1) ->
  sv_next_tx sv1 = sv_next_tx sv /\
  (sv_permits sv1 + spawned eff = sv_permits sv)%nat /\
  (r <> None -> spawned eff = 0%nat) /\
  (sv_streams sv1 = sv_streams sv \/ sv_streams sv1 = (Streams.touch now host (sv_streams sv)).2).
Proof.
  unfold on_msg. destruct m as [[[h|resp|u|id|]|st]|]; simpl; intros H.
  - simplify_eq. no_spawn.
  - unfold deliver_response in H. destruct (Pending.get _ _); [|simplify_eq; no_spawn].
    destruct (ResponseBody.try_from_proto _ _); [|simplify_eq; no_spawn].
    destruct (Pending.deliver _ _ _ _) as [sends p1]. simplify_eq. simpl.
    assert (spawned ((fun '(s, d) => Wake s d) <$> sends) = 0%nat) as ->
      by (unfold spawned; induction sends as [|[]]; simpl in *; done).
    split_and!; auto; try lia.
  - destruct (spawn_bounded_publish _ u sv) as [eff' sv'] eqn:E. apply spawn_bounded_spec in E.
    simplify_eq. naive_solver.
  - destruct (Streams.touch now host (sv_streams sv)) as [restored s1] eqn:T. destruct restored.
    + destruct (spawn_bounded_publish _ _ _) as [eff' sv'] eqn:E. apply spawn_bounded_spec in E.
      simpl in E. simplify_eq. destruct E as (-> & -> & ?). naive_solver.
    + simplify_eq. no_spawn.
  - simplify_eq. no_spawn.
  - simplify_eq. no_spawn.
  - simplify_eq. no_spawn.
Qed.

(** Entries of a table [s'] that come from entries of [s] with the same channel
    and capabilities. *)
Definition refreshed (s s' : Streams.t) : Prop :=
  forall h e', s' !! h = Some e' -> exists e, s !! h = Some e /\
    Streams.e_tx e' = Streams.e_tx e /\ Streams.e_caps e' = Streams.e_caps e /\
    Streams.e_advertised_caps e' = Streams.e_advertised_caps e.

Lemma refreshed_refl s : refreshed s s.
Proof. intros h e' H. by exists e'. Qed.

Lemma refreshed_touch now host s : refreshed s (Streams.touch now host s).2.
Proof.
  intros h e'. unfold Streams.touch. destruct (s !! host) as [e|] eqn:E; simpl; [|by exists e'].
  rewrite lookup_insert. case_decide as D; [|by exists e']. subst. intros [= <-]. by exists e.
Qed.

Lemma refreshed_mark_stale now timeout s : refreshed s (Streams.mark_stale now timeout s).2.
Proof.
  intros h e'. rewrite StreamsFacts.mark_stale_lookup. destruct (s !! h) as [e|]; simpl; [|done].
  intros [= <-]. exists e. by destruct (Streams.is_stale now timeout e).
Qed.

(** Refreshing the table, with the tasks unchanged, keeps the invariant. *)
Lemma Inv_refresh w sv1 n :
  Inv w -> refreshed (sv_streams (w_sv w)) (sv_streams sv1) ->
  sv_next_tx sv1 = sv_next_tx (w_sv w) ->
  (sv_permits sv1 + n = STATUS_PUBLISH_CONCURRENCY)%nat ->
  Inv (mkWorld sv1 (w_sessions w) n).
Proof.
  intros [Hg Hf Hp] Hr Hn Hpn. split; simpl; [|rewrite Hn; exact Hf|done].
  intros h e' (e & He & -> & -> & ->)%Hr. by apply Hg.
Qed.

(** Ending the task of [ss] keeps the invariant: the entry of its host goes. *)
Lemma Inv_finish w ss sv1 :
  Inv w -> w_sessions w !! ss_tx ss = Some ss ->
  refreshed (sv_streams (w_sv w)) (sv_streams sv1) ->
  sv_next_tx sv1 = sv_next_tx (w_sv w) -> sv_permits sv1 = sv_permits (w_sv w) ->
  Inv (mkWorld (set_streams (Streams.remove (ss_host ss) (sv_streams sv1)) sv1)
         (delete (ss_tx ss) (w_sessions w)) (w_publishing w)).
Proof.
  intros [Hg Hf Hp] Hss Hr Hn Hperm. split; simpl.
  - unfold Streams.remove. intros h e' [Hne He']%lookup_delete_Some. apply Hr in He' as (e & He & -> & -> & ->).
    apply Hg in He as (ss' & Hss' & Hh & Hgr). exists ss'. split; [|done].
    rewrite lookup_delete_ne; [done|]. intros Heq. apply Hne. congruence.
  - intros tx ss' [_ H]%lookup_delete_Some. rewrite Hn. eauto.
  - by rewrite Hperm.
Qed.

Lemma Inv_connect w clock now now_i task_now req ss eff sv1 :
  Inv w -> stream cfg clock now now_i task_now req (w_sv w) = (Ok ss, eff, sv1) ->
  Inv (mkWorld sv1 (<[ss_tx ss := ss]> (w_sessions w)) (w_publishing w)).
Proof.
  intros [Hg Hf Hp] Hs. unfold stream in Hs.
  destruct (accept cfg clock now (sv_revocations (w_sv w)) req) as [a|] eqn:Ha; [|done].
  simplify_eq. split; simpl; [| |done].
  - intros h e. unfold Streams.insert. rewrite lookup_insert. case_decide as D.
    + subst. intros [= <-]. simpl. eexists. rewrite lookup_insert_eq. split_and!; [done..|].
      by exists clock, now, (sv_revocations (w_sv w)), a.
    + intros (ss' & Hss' & Hh & Hgr)%Hg. exists ss'. split; [|done].
      rewrite lookup_insert_ne; [done|]. apply Hf in Hss' as [_ ?]. lia.
  - intros tx ss'. rewrite lookup_insert. case_decide as D; [|intros [? ?]%Hf; split; [done|lia]].
    intros [= <-]. simpl in *. split; [done|lia].
Qed.

Lemma Inv_step w w' : Inv w -> step w w' -> Inv w'.
Proof.
  intros HI Hstep. pose proof (inv_permits w HI) as Hp.
  destruct Hstep as [w ? ? ? ? ? ss eff sv1 Hs|w ss now m eff sv1 Hss Hm|
    w ss now m reason eff sv1 eff2 sv2 Hss Hm Hfin|w ss now eff2 sv2 Hss _ Hfin|w n Hn|w now|w now|w p|w r].
  - by eapply Inv_connect.
  - apply on_msg_frame in Hm as (Hn & Hperm & _ & Hst). apply Inv_refresh; [done| |done|lia].
    destruct Hst as [-> | ->]; [apply refreshed_refl|apply refreshed_touch].
  - apply on_msg_frame in Hm as (Hn & Hperm & Hz & Hst). injection Hfin as <- <-.
    assert (spawned eff = 0%nat) as Hz0 by (by apply Hz).
    apply Inv_finish; [done|done| |done|lia].
    destruct Hst as [-> | ->]; [apply refreshed_refl|apply refreshed_touch].
  - injection Hfin as <- <-. by apply Inv_finish; [..|apply refreshed_refl|done|done].
  - apply Inv_refresh; [done|apply refreshed_refl|done|simpl; lia].
  - apply Inv_refresh; [done| |done|done]. unfold heartbeat_turn.
    destruct (Streams.mark_stale _ _ _) as [stale s1] eqn:E. simpl.
    pose proof (refreshed_mark_stale now (pong_timeout cfg) (sv_streams (w_sv w))) as H. by rewrite E in H.
  - apply Inv_refresh; [done|apply refreshed_refl|done|done].
  - apply Inv_refresh; [done|apply refreshed_refl|done|done].
  - apply Inv_refresh; [done|apply refreshed_refl|done|done].
Qed.

Lemma Inv_world0 r : Inv (world0 r).
Proof. by split. Qed.

Lemma reachable_Inv w : reachable w -> Inv w.
Proof.
  intros [r H]. revert H. apply (rtc_ind_r (R := step)); [apply Inv_world0|].
  intros y z _ Hs HI. by eapply Inv_step.
Qed.
End System.

(* ------------------------------------------------------------------ *)
(** ** Properties *)

Lemma wildcard_off advertised jwt_caps :
  effective_capabilities advertised jwt_caps false = filter (fun c => has_cap c jwt_caps) advertised.
Proof. done. Qed.

(** The capability claim is authoritative: with wildcards off, a stream is
    authorized for exactly the primitives that are both advertised by the agent
    and listed in its token, in the advertised order; the wildcard profiles give
    nothing unless the agent advertises a primitive of that very name.  Whatever
    the setting, no capability is granted that the agent did not advertise, and
    the granted and the missing ones split the advertised list. *)
Theorem effective_capabilities_exact advertised jwt_caps allow :
  (forall c, c ∈ effective_capabilities advertised jwt_caps false <->
     c ∈ advertised /\ c ∈ jwt_caps) /\
  sublist (effective_capabilities advertised jwt_caps allow) advertised /\
  let eff := effective_capabilities advertised jwt_caps allow in
  (forall c, c ∈ advertised <-> c ∈ eff \/ c ∈ missing_capabilities advertised eff) /\
  (forall c, c ∈ missing_capabilities advertised eff -> c ∉ eff).
Proof.
  assert (forall c eff, c ∈ missing_capabilities advertised eff <-> c ∈ advertised /\ c ∉ eff) as Hm.
  { intros c eff. unfold missing_capabilities. rewrite list_elem_of_filter, Is_true_true, negb_true_iff,
      has_cap_false. tauto. }
  assert (sublist (effective_capabilities advertised jwt_caps allow) advertised) as Hsub.
  { unfold effective_capabilities. destruct (_ && _); [done|apply sublist_filter]. }
  split; [|split; [done|cbv zeta; split]].
  - intros c. rewrite wildcard_off, list_elem_of_filter, Is_true_true, has_cap_spec. tauto.
  - intros c. rewrite Hm. destruct (decide (c ∈ effective_capabilities advertised jwt_caps allow)) as [Hin|];
      [|tauto]. split; [tauto|]. intros _. by eapply elem_of_sublist.
  - intros c. rewrite Hm. tauto.
Qed.

(** A capability is granted when the token lists it, or when wildcards are on
    and the token has a profile that stands for all. *)
Lemma effective_capabilities_elem c advertised jwt_caps allow :
  c ∈ effective_capabilities advertised jwt_caps allow ->
  c ∈ advertised /\
  (c ∈ jwt_caps \/
   (allow = true /\ exists profile, profile ∈ jwt_caps /\
      profile ∈ ["*"; "host-agent:dev"; "host-agent:default"])).
Proof.
  unfold effective_capabilities. destruct (allow && contains_wildcard_profile jwt_caps) eqn:E.
  - apply andb_true_iff in E as [-> (p & Hp & Hall%bool_decide_eq_true)%existsb_exists].
    intros Hc. split; [done|]. right. split; [done|]. exists p. split; [by apply list_elem_of_In|done].
  - rewrite list_elem_of_filter, Is_true_true, has_cap_spec. tauto.
Qed.

Lemma schema_overlaps_flux lo hi :
  schema_overlaps lo hi FLUX_SCHEMA_MIN FLUX_SCHEMA_MAX = true <-> lo <= 1 <= hi.
Proof. unfold schema_overlaps, FLUX_SCHEMA_MIN, FLUX_SCHEMA_MAX. rewrite andb_true_iff, !Z.leb_le. lia. Qed.

Section Facts.
Context `{lib : JwtLib} (cfg : Config) (parse_json : string -> option json).

(** Every check of the handler, and what an accepted stream is granted. *)
Lemma accept_Ok {R} `{RevocationCheck R} clock now (rev : R) req a :
  accept cfg clock now rev req = Ok a <->
  exists jwt v hello b,
    rq_authorization req = Some ("Bearer " +:+ jwt) /\
    verify_jwt clock jwt (jwt_keys cfg) rev now (max_token_lifetime_secs cfg) = Ok v /\
    team_id_satisfied (vj_team_id v) (require_team_id cfg) = true /\
    rq_first req = Some (Ok (ClientMsg.Hello hello)) /\
    h_schema_min hello <= 1 <= h_schema_max hello /\
    decide_host_binding (vj_host_id v) (h_host_mgmt_ip hello) (sa_ip <$> rq_remote_addr req)
      (require_host_binding cfg) = Ok b /\
    a = mkAccepted (vj_host_id v) (vj_exp v)
          (effective_capabilities (h_capabilities hello) (vj_caps v) (allow_wildcard_capabilities cfg))
          (h_capabilities hello) (h_coold_version hello).
Proof.
  unfold accept. split.
  - destruct (rq_authorization req) as [auth|]; [|done]. cbn [mbind option_bind].
    destruct (strip_prefix "Bearer " auth) as [jwt|] eqn:Hs; [|done].
    apply strip_prefix_Some in Hs as ->. destruct (verify_jwt _ _ _ _ _ _) as [v|] eqn:Hv; [|done].
    destruct (team_id_satisfied _ _) eqn:Ht; [|done].
    intros (hello & Hh & Hk)%rbind_Ok. destruct (schema_overlaps _ _ _ _) eqn:Hsc; [|done].
    apply schema_overlaps_flux in Hsc. destruct (decide_host_binding _ _ _ _) as [b|] eqn:Hb; [|done].
    injection Hk as <-. exists jwt, v, hello, b. split_and!; try done; try lia.
    unfold first_hello in Hh. destruct (rq_first req) as [[[]|]|]; by simplify_eq.
  - intros (jwt & v & hello & b & -> & Hv & Ht & Hh & Hsc & Hb & ->). cbn [mbind option_bind].
    assert (strip_prefix "Bearer " ("Bearer " +:+ jwt) = Some jwt) as -> by by apply strip_prefix_Some.
    rewrite Hv, Ht. unfold first_hello. rewrite Hh. simpl.
    apply schema_overlaps_flux in Hsc. by rewrite Hsc, Hb.
Qed.

(** The request behind an entry of the stream table, and what its token and its
    greeting say. *)
Lemma entry_request w h e :
  reachable cfg parse_json w -> sv_streams (w_sv w) !! h = Some e ->
  exists ss clock now (rev : RevocationStore) jwt v hello b,
    w_sessions w !! Streams.e_tx e = Some ss /\ ss_host ss = h /\
    rq_authorization (ss_request ss) = Some ("Bearer " +:+ jwt) /\
    rq_first (ss_request ss) = Some (Ok (ClientMsg.Hello hello)) /\
    verify_jwt clock jwt (jwt_keys cfg) rev now (max_token_lifetime_secs cfg) = Ok v /\
    vj_host_id v = h /\
    team_id_satisfied (vj_team_id v) (require_team_id cfg) = true /\
    decide_host_binding h (h_host_mgmt_ip hello) (sa_ip <$> rq_remote_addr (ss_request ss))
      (require_host_binding cfg) = Ok b /\
    Streams.e_advertised_caps e = h_capabilities hello /\
    Streams.e_caps e = effective_capabilities (h_capabilities hello) (vj_caps v)
                         (allow_wildcard_capabilities cfg).
Proof.
  intros Hr He. apply reachable_Inv in Hr as [Hg _ _].
  apply Hg in He as (ss & Hss & Hh & clock & now & rev & a & Ha & Eh & Ec & Ead).
  apply accept_Ok in Ha as (jwt & v & hello & b & Hauth & Hv & Hteam & Hhello & _ & Hbind & ->).
  simpl in Eh, Ec, Ead. rewrite Eh in Hbind.
  exists ss, clock, now, rev, jwt, v, hello, b. split_and!; done.
Qed.

(** C1. What a registered agent stands for: in every reachable state of the
    server, with the secure defaults on, an entry of the stream table belongs to
    a running task of that host, and the request that opened that task's stream
    carried a bearer token that verified under the configured keys, for that host
    and with a tenant; the address the request came from is the host's, or, where
    it has none or the host is not an address, the management address of its
    greeting is the host; and the entry grants exactly the capabilities that the
    greeting advertised and the token lists. *)
Theorem registered_streams_authorized w h e :
  reachable cfg parse_json w ->
  allow_wildcard_capabilities cfg = false ->
  require_team_id cfg = true -> require_host_binding cfg = true ->
  sv_streams (w_sv w) !! h = Some e ->
  exists ss clock now (rev : RevocationStore) jwt v hello team,
    w_sessions w !! Streams.e_tx e = Some ss /\ ss_host ss = h /\
    rq_authorization (ss_request ss) = Some ("Bearer " +:+ jwt) /\
    rq_first (ss_request ss) = Some (Ok (ClientMsg.Hello hello)) /\
    verify_jwt clock jwt (jwt_keys cfg) rev now (max_token_lifetime_secs cfg) = Ok v /\
    vj_host_id v = h /\
    vj_team_id v = Some team /\ trim team <> "" /\
    (match rq_remote_addr (ss_request ss), parse_ipaddr h with
     | Some peer, Some ip => sa_ip peer = ip
     | _, _ => h <> "" /\ h_host_mgmt_ip hello = h
     end) /\
    (forall c, c ∈ Streams.e_caps e <-> c ∈ h_capabilities hello /\ c ∈ vj_caps v).
Proof.
  intros Hr Hw Ht Hb He. destruct (entry_request w h e Hr He) as
    (ss & clock & now & rev & jwt & v & hello & b & Hss & Hh & Hauth & Hhello & Hv & Hid & Hteam & Hbind & _ & ->).
  rewrite Ht in Hteam. rewrite Hb in Hbind. rewrite Hw. unfold team_id_satisfied in Hteam. simpl in Hteam.
  destruct (vj_team_id v) as [team|] eqn:Hvt; [|done].
  exists ss, clock, now, rev, jwt, v, hello, team. split_and!; try done.
  - by destruct (trim team).
  - unfold decide_host_binding in Hbind.
    destruct (rq_remote_addr (ss_request ss)) as [peer|], (parse_ipaddr h) as [ip|]; simpl in Hbind;
      [by case_decide|apply bind_via_hello_Ok in Hbind; tauto..].
  - intros c. rewrite wildcard_off, list_elem_of_filter, Is_true_true, has_cap_spec. tauto.
Qed.

(** C2. A command leaves flux only towards a host whose token allows it: in
    every reachable state and under every setting, when routing sends a command
    to a host, that host is registered, and the request that opened its stream
    carried a token for it that verified under the configured keys; the greeting
    of that request advertised the capability the command requires, and the token
    lists it, or lists one of the three wildcard profiles while the operator has
    allowed wildcards. *)
Theorem routed_commands_authorized w env target msg :
  reachable cfg parse_json w ->
  route_coold (sv_streams (w_sv w)) env = SendCoold target msg ->
  target = de_host_id env /\ sm_request_id msg = de_request_id env /\
  exists e ss clock now (rev : RevocationStore) jwt v hello,
    sv_streams (w_sv w) !! target = Some e /\ w_sessions w !! Streams.e_tx e = Some ss /\
    rq_authorization (ss_request ss) = Some ("Bearer " +:+ jwt) /\
    rq_first (ss_request ss) = Some (Ok (ClientMsg.Hello hello)) /\
    verify_jwt clock jwt (jwt_keys cfg) rev now (max_token_lifetime_secs cfg) = Ok v /\
    vj_host_id v = target /\
    required_capability (de_command env) ∈ h_capabilities hello /\
    (required_capability (de_command env) ∈ vj_caps v \/
     (allow_wildcard_capabilities cfg = true /\ exists profile, profile ∈ vj_caps v /\
        profile ∈ ["*"; "host-agent:dev"; "host-agent:default"])).
Proof.
  intros Hr. unfold route_coold, Streams.get.
  destruct (sv_streams (w_sv w) !! de_host_id env) as [e|] eqn:He; simpl; [|done].
  destruct (has_cap _ (Streams.e_caps e)) eqn:Hc; simpl; [|by case_match].
  intros [= <- <-]. split_and!; [done..|]. apply has_cap_spec in Hc.
  destruct (entry_request w _ e Hr He) as
    (ss & clock & now & rev & jwt & v & hello & b & Hss & _ & Hauth & Hhello & Hv & Hid & _ & _ & _ & Hcaps).
  rewrite Hcaps in Hc. apply effective_capabilities_elem in Hc.
  exists e, ss, clock, now, rev, jwt, v, hello. tauto.
Qed.

(** Status traffic is bounded: at most 256 publish tasks run at once on
    behalf of all agents together, in every interleaving, and permits are never
    lost. *)
Theorem publish_tasks_bounded w :
  reachable cfg parse_json w ->
  (w_publishing w <= 256)%nat /\ (sv_permits (w_sv w) = 256 - w_publishing w)%nat.
Proof. intros Hr. apply reachable_Inv in Hr as [_ _ Hp]. unfold STATUS_PUBLISH_CONCURRENCY in Hp. lia. Qed.

Lemma try_from_proto_total resp : exists b, ResponseBody.try_from_proto parse_json resp = Some b.
Proof. unfold ResponseBody.try_from_proto. destruct (r_body resp) as [[]|]; eauto. Qed.

(** A response is delivered whatever host it comes from: the stream it
    arrived on is not compared with the host the request was sent to, so any
    connected agent that names the request id of another host's request answers
    it, and the handlers parked on it receive that answer. *)
Theorem any_host_answers now host resp p e sinks :
  Pending.entries p !! r_request_id resp = Some e ->
  Pending.state e = Pending.Waiting sinks ->
  exists body,
    ResponseBody.try_from_proto parse_json resp = Some body /\
    (deliver_response parse_json now host resp p).1 =
      (fun s => Wake s (Pending.RCoold body)) <$> sinks.
Proof.
  intros He Hw. destruct (try_from_proto_total resp) as [body Hb]. exists body. split; [done|].
  unfold deliver_response, Pending.get. rewrite He. simpl. rewrite Hb.
  unfold Pending.deliver, Pending.deliver_locked. rewrite He, Hw. simpl.
  rewrite <- list_fmap_compose. done.
Qed.

(** A stale task unregisters a live agent: when an agent has reconnected
    before the task of its previous stream ended, the end of that task removes
    the host from the table although the new stream is up, and every dispatch to
    the host is then refused as not connected. *)
Theorem stale_exit_unregisters_live_stream w ss1 ss2 :
  w_sessions w !! ss_tx ss1 = Some ss1 -> w_sessions w !! ss_tx ss2 = Some ss2 ->
  ss_host ss1 = ss_host ss2 -> ss_tx ss1 <> ss_tx ss2 ->
  exists w', step cfg parse_json w w' /\
    w_sessions w' !! ss_tx ss2 = Some ss2 /\
    forall env, de_host_id env = ss_host ss2 ->
      route_coold (sv_streams (w_sv w')) env = PushError 404 "host not connected".
Proof.
  intros H1 H2 Hh Htx. eexists. split.
  { eapply (step_close cfg parse_json w ss1 0 None); [done|reflexivity|reflexivity]. }
  simpl. split; [by rewrite lookup_delete_ne|].
  intros env Henv. unfold route_coold, Streams.get, Streams.remove.
  by rewrite Henv, Hh, lookup_delete_eq.
Qed.
End Facts.

(* ------------------------------------------------------------------ *)
(** ** The properties at work *)

Module Demo.
Definition cfg : Config :=
  match load (fun _ => None) (fun _ => Some "ec-key") (fun _ => None)
          (parsed_defaults "10.42.0.1:6443") with
  | Ok c => c
  | Err _ => parsed_defaults ""
  end.

Definition hello : Hello := mkHello "10.42.0.7" "1.0" 1 1 ["containers.list"; "coold.logs"].
Definition request : StreamRequest :=
  mkRequest (Some "Bearer t") (parse_socket_addr "10.42.0.7:50000") (Some (Ok (ClientMsg.Hello hello))).
Definition denylist : RevocationStore := mkStore ∅ None.
Definition no_json : string -> option json := fun _ => None.

#[export] Instance lib : JwtLib := coold_lib demo_header demo_claims.

(** The agent connects, and connects again before its first stream ends. *)
Definition connect1 := stream cfg 2000 2000 0 2000 request (server0 denylist).
Definition connect2 := stream cfg 2010 2010 10 2010 request connect1.2.
Definition ss1 : session := mkSession "10.42.0.7" 0%nat 5000 request.
Definition ss2 : session := mkSession "10.42.0.7" 1%nat 5000 request.
Definition w1 : world := mkWorld connect1.2 (<[ss_tx ss1 := ss1]> ∅) 0.
Definition w2 : world := mkWorld connect2.2 (<[ss_tx ss2 := ss2]> (<[ss_tx ss1 := ss1]> ∅)) 0.

Lemma triple_eta {A B C} (x : A * B * C) a : x.1.1 = a -> x = (a, x.1.2, x.2).
Proof. intros <-. by destruct x as [[] ]. Qed.

Lemma w1_step : step cfg no_json (world0 denylist) w1.
Proof.
  apply (step_connect cfg no_json (world0 denylist) 2000 2000 0 2000 request ss1 connect1.1.2 connect1.2).
  apply triple_eta. vm_compute. reflexivity.
Qed.
Lemma w1_reachable : reachable cfg no_json w1.
Proof. exists denylist. eapply rtc_once, w1_step. Qed.
Lemma w2_reachable : reachable cfg no_json w2.
Proof.
  exists denylist. eapply rtc_l; [apply w1_step|]. apply rtc_once.
  apply (step_connect cfg no_json w1 2010 2010 10 2010 request ss2 connect2.1.2 connect2.2).
  apply triple_eta. vm_compute. reflexivity.
Qed.

Definition entry1 : Streams.StreamEntry :=
  Streams.mkStreamEntry O ["containers.list"] ["containers.list"; "coold.logs"] 0 true.

Lemma registered_streams_authorized_witness :
  sv_streams (w_sv w1) !! "10.42.0.7" = Some entry1 /\
  exists ss, w_sessions w1 !! 0%nat = Some ss /\ ss_host ss = "10.42.0.7".
Proof.
  assert (sv_streams (w_sv w1) !! "10.42.0.7" = Some entry1) as E by (vm_compute; reflexivity).
  split; [exact E|].
  destruct (registered_streams_authorized cfg no_json w1 "10.42.0.7" entry1 w1_reachable
              eq_refl eq_refl eq_refl E) as (ss & _ & _ & _ & _ & _ & _ & _ & Hss & Hh & _).
  exists ss. exact (conj Hss Hh).
Defined.

Definition list_env : DispatchEnvelope := mkDispatchEnvelope "10.42.0.7" "r1" CommandPayload.ContainersList.

Lemma routed_commands_authorized_witness :
  exists e ss, sv_streams (w_sv w1) !! "10.42.0.7" = Some e /\ w_sessions w1 !! Streams.e_tx e = Some ss.
Proof.
  destruct (routed_commands_authorized cfg no_json w1 list_env "10.42.0.7"
              (mkServerMsg "r1" (Some Cmd.ContainersList)) w1_reachable
              ltac:(vm_compute; reflexivity)) as (_ & _ & e & ss & _ & _ & _ & _ & _ & _ & He & Hss & _).
  exists e, ss. exact (conj He Hss).
Defined.

Lemma publish_tasks_bounded_witness : (w_publishing w1 <= 256)%nat.
Proof. exact (proj1 (publish_tasks_bounded cfg no_json w1 w1_reachable)). Defined.

(** Request r1, sent to one host, answered by another. *)
Definition table : Pending.t := (Pending.park "r1"
  (Pending.insert_waiting 0 "r1" "10.42.0.7" Pending.Coold 10 Pending.new).2).2.

Lemma any_host_answers_witness :
  (deliver_response no_json 1 "10.42.0.66" (mkResponse "r1" (Some (Body.CooldLogs "forged"))) table).1 =
  [Wake 0%nat (Pending.RCoold (ResponseBody.output "forged"))].
Proof.
  destruct (any_host_answers no_json 1 "10.42.0.66" (mkResponse "r1" (Some (Body.CooldLogs "forged")))
              table (Pending.mkEntry "10.42.0.7" Pending.Coold 0 (Pending.Waiting [0%nat])) [0%nat]
              ltac:(vm_compute; reflexivity) eq_refl) as (body & Hb & E).
  vm_compute in Hb. injection Hb as <-. exact E.
Defined.

Lemma stale_exit_unregisters_live_stream_witness :
  reachable cfg no_json w2 /\
  exists w', step cfg no_json w2 w' /\ w_sessions w' !! 1%nat = Some ss2 /\
    route_coold (sv_streams (w_sv w')) list_env = PushError 404 "host not connected".
Proof.
  split; [exact w2_reachable|].
  destruct (stale_exit_unregisters_live_stream cfg no_json w2 ss1 ss2 eq_refl eq_refl eq_refl
              ltac:(discriminate)) as (w' & Hs & H2 & Hr).
  exists w'. exact (conj Hs (conj H2 (Hr list_env eq_refl))).
Defined.
End Demo.
