(* ===== verification/FluxBridge.v ===== *)
(** * The Unix-socket lane

    [flux/src/unix_bridge.rs]: the HTTP handlers Laravel calls, from the
    dispatch of a command to an agent to the management of the denylist, and
    the access rights of the socket.

    A dispatch runs while the stream tasks and the sweeper use the same tables.
    [dispatch_send] is the handler up to the point where it waits: what other
    tasks do to the pending table between its two critical sections is the
    argument [between], and the stream table it reads the second time is its
    own argument.  [await_coold] turns the end of the wait into the reply. *)

From S2P Require Import Prelude RustStr Messages Net FluxState FluxRouting FluxAuth FluxRevocation.
From S2P Require Import FluxConfig FluxServer.
Local Open Scope Z_scope.

(* ------------------------------------------------------------------ *)
(** ** Replies *)

Inductive ReplyBody :=
  | Envelope (e : ResponseEnvelope)
  | JsonBody (j : json).

Record Reply := mkReply { rp_status : Z; rp_body : ReplyBody }.

Definition code_to_status (code : Z) : Z :=
  if (400 <=? code) && (code <=? 499) then code
  else if (500 <=? code) && (code <=? 599) then code
  else 500.

Definition coold_err (request_id : string) (code : Z) (message : string) : Reply :=
  mkReply (code_to_status code)
    (Envelope (mkResponseEnvelope request_id (ResponseBody.Error code message))).

(* ------------------------------------------------------------------ *)
(** ** Dispatch *)

Inductive TrySend := SendOk | SendFull | SendClosed.

Inductive dispatch_result :=
  | Replied (r : Reply)
  (** the command was queued on [tx]; the handler waits on [rx] *)
  | Awaiting (rx : Pending.sink) (tx : Streams.sender) (msg : ServerMsg).

Section Dispatch.
Context (pending_max : nat).

(** The handler of [POST /v1/coold/dispatch], up to its wait. *)
Definition dispatch_send (streams streams_later : Streams.t) (now : Z)
    (between : Pending.t -> Pending.t) (try_send : Streams.sender -> ServerMsg -> TrySend)
    (env : DispatchEnvelope) (p : Pending.t) : dispatch_result * Pending.t :=
  let request_id := de_request_id env in
  match route_coold streams env with
  | PushError code message => (Replied (coold_err request_id code message), p)
  | SendCoold target msg =>
      match Pending.insert_waiting now request_id target Pending.Coold pending_max p with
      | (Pending.Duplicate, p1) =>
          (Replied (coold_err request_id 409 "request_id already in flight"), p1)
      | (Pending.AtCapacity, p1) =>
          (Replied (coold_err request_id 503 "flux at pending-dispatch capacity"), p1)
      | (Pending.Inserted, p1) =>
          match Pending.park request_id (between p1) with
          | (Pending.AlreadyLanded _, p2) | (Pending.NotFound, p2) =>
              (Replied (coold_err request_id 500 "pending state lost after insert"), p2)
          | (Pending.Parked rx, p2) =>
              match Streams.get_tx target streams_later with
              | None =>
                  (Replied (coold_err request_id 503 "host stream gone"),
                   (Pending.remove request_id p2).2)
              | Some tx =>
                  match try_send tx msg with
                  | SendOk => (Awaiting rx tx msg, p2)
                  | SendFull =>
                      (Replied (coold_err request_id 503 "host command queue full"),
                       (Pending.remove request_id p2).2)
                  | SendClosed =>
                      (Replied (coold_err request_id 503 "host stream send failed"),
                       (Pending.remove request_id p2).2)
                  end
              end
          end
      end
  end.
End Dispatch.

(** How a wait on a [oneshot] receiver under a timeout ends. *)
Inductive AwaitOutcome :=
  | GotResponse (d : Pending.ResponseData)
  | SinkDropped
  | TimedOut.

Definition await_coold (request_id : string) (o : AwaitOutcome) : Reply :=
  match o with
  | GotResponse (Pending.RCoold body) =>
      mkReply 200 (Envelope (mkResponseEnvelope request_id body))
  | SinkDropped => coold_err request_id 504 "dispatch timeout"
  | TimedOut => coold_err request_id 504 "dispatch timeout"
  end.

(** The whole handler, given how a wait would end. *)
Definition coold_dispatch (pending_max : nat) (streams streams_later : Streams.t) (now : Z)
    (between : Pending.t -> Pending.t) (try_send : Streams.sender -> ServerMsg -> TrySend)
    (wait : Pending.sink -> AwaitOutcome) (env : DispatchEnvelope) (p : Pending.t) : Reply :=
  match (dispatch_send pending_max streams streams_later now between try_send env p).1 with
  | Replied r => r
  | Awaiting rx _ _ => await_coold (de_request_id env) (wait rx)
  end.

(* ------------------------------------------------------------------ *)
(** ** The other endpoints *)

Definition health : Reply := mkReply 200 (JsonBody (JObj [("ok", JBool true)])).

Definition item_json (i : Streams.StreamInventoryItem) : json :=
  JObj [("host_id", JStr (Streams.it_host_id i)); ("caps", jstrs (Streams.it_caps i))].

Definition stream_inventory (streams : Streams.t) : Reply :=
  mkReply 200 (JsonBody (JArr (item_json <$> Streams.snapshot streams))).

Section Tokens.
Context `{fmt : EntryFormat}.

Definition error_json (message : string) : json := JObj [("error", JStr message)].

Definition revoke_token (io : IoOutcome) (j : string) (expires_at : option Z)
    (s : RevocationStore) (f : fs) : Reply * RevocationStore * fs :=
  if is_empty (trim j) then (mkReply 400 (JsonBody (error_json "jti is required")), s, f)
  else match revoke io j expires_at s f with
       | (Ok _, s1, f1) => (mkReply 200 (JsonBody (JObj [("revoked", JStr j)])), s1, f1)
       | (Err _, s1, f1) =>
           (mkReply 500 (JsonBody (error_json "failed to persist revocation")), s1, f1)
       end.

Definition unrevoke_token (io : IoOutcome) (j : string) (s : RevocationStore) (f : fs)
    : Reply * RevocationStore * fs :=
  match unrevoke io j s f with
  | (Ok removed, s1, f1) =>
      (mkReply 200 (JsonBody (JObj [("jti", JStr j); ("removed", JBool removed)])), s1, f1)
  | (Err _, s1, f1) =>
      (mkReply 500 (JsonBody (error_json "failed to persist revocation")), s1, f1)
  end.

(** [expires_at] is omitted when it is absent. *)
Definition revocation_json (e : RevocationEntry) : json :=
  JObj (("jti", JStr (re_jti e)) ::
        match re_expires_at e with Some z => [("expires_at", JNum z)] | None => [] end).

Definition list_revocations (s : RevocationStore) : Reply :=
  mkReply 200 (JsonBody (JArr (revocation_json <$> list_entries s))).
End Tokens.

(* ------------------------------------------------------------------ *)
(** ** The socket *)

Inductive SysCall :=
  | CreateDirAll (p : string)
  | RemoveFile (p : string)
  | BindSocket (p : string)
  | Chmod (p : string) (mode : Z)
  | Chown (p : string) (gid : Z).

Inductive BindError :=
  | SysFailed (c : SysCall)
  | UnknownGroup (g : string).

(** [Path::parent] of a socket path; a bare name has the empty parent, for
    which nothing is created. *)
Definition parent (p : string) : option string :=
  match rsplit_once "/" p with
  | Some ("", _) => Some "/"
  | Some (dir, _) => Some dir
  | None => None
  end.

Section Bind.
(** Whether a system call succeeds; removing an absent file counts as such.
    [getgrnam] gives the id of a group. *)
Context (ok : SysCall -> bool) (resolve_gid : string -> option Z).

Definition call (c : SysCall) (k : list SysCall * result unit BindError)
    : list SysCall * result unit BindError :=
  if ok c then (c :: k.1, k.2) else ([c], Err (SysFailed c)).

Definition socket_mode (group : option string) : Z :=
  match group with Some _ => 432 (* 0o660 *) | None => 384 (* 0o600 *) end.

(** The system calls made, in order, and the result. *)
Definition bind (path : string) (group : option string) : list SysCall * result unit BindError :=
  let rest :=
    call (RemoveFile path)
    (call (BindSocket path)
    (call (Chmod path (socket_mode group))
     match group with
     | None => ([], Ok ())
     | Some g => match resolve_gid g with
                 | None => ([], Err (UnknownGroup g))
                 | Some gid => call (Chown path gid) ([], Ok ())
                 end
     end)) in
  match parent path with
  | Some dir => call (CreateDirAll dir) rest
  | None => rest
  end.
End Bind.

(* ------------------------------------------------------------------ *)
(** ** Properties *)

Section DispatchFacts.
Context (pending_max : nat).

(** The statuses an error reply can carry. *)
Lemma coold_err_status r code m : 400 <= code <= 599 -> rp_status (coold_err r code m) = code.
Proof. intros H. unfold coold_err, code_to_status. simpl. zcases; reflexivity. Qed.

Lemma insert_delete_entries (p : Pending.t) r e n :
  Pending.entries p !! r = None ->
  Pending.entries (Pending.remove r (Pending.mkPending (<[r := e]> (Pending.entries p)) n)).2 =
  Pending.entries p.
Proof. intros H. simpl. by rewrite delete_insert_eq, delete_id. Qed.

(** What the table holds while a dispatch waits. *)
Definition waiting_entry (now : Z) (target : string) (rx : Pending.sink) : Pending.PendingEntry :=
  Pending.mkEntry target Pending.Coold now (Pending.Waiting [rx]).

(** The first two steps of an admitted dispatch. *)
Lemma insert_park now r target p :
  (size (Pending.entries p) < pending_max)%nat ->
  Pending.entries p !! r = None ->
  exists p1, Pending.insert_waiting now r target Pending.Coold pending_max p = (Pending.Inserted, p1) /\
    Pending.park r p1 =
      (Pending.Parked (Pending.next_sink p),
       Pending.mkPending (<[r := waiting_entry now target (Pending.next_sink p)]> (Pending.entries p))
         (S (Pending.next_sink p))).
Proof.
  intros Hs Hn. unfold Pending.insert_waiting.
  destruct (Nat.leb_spec pending_max (size (Pending.entries p))); [lia|]. rewrite Hn.
  eexists. split; [done|]. unfold Pending.park, Pending.park_locked. simpl.
  rewrite lookup_insert_eq. simpl. by rewrite insert_insert_eq.
Qed.

(** The dispatch endpoint, case by case, when no other task touches the
    request id in between.  An unknown host gives 404, a capability the token
    lacks 403, one the agent lacks 501, a full table 503, an id in flight 409, a
    stream that went away, is full or is closed 503, and in all these cases the
    pending table ends as it was: a failed dispatch leaks nothing and leaves the
    first holder of a duplicate id alone.  Otherwise the command of the envelope
    is queued on the channel of the host and the handler waits, alone, on a fresh
    sink. *)
Theorem dispatch_decision streams streams_later now try_send env p :
  let '(res, p') := dispatch_send pending_max streams streams_later now id try_send env p in
  let err code := exists m, res = Replied (coold_err (de_request_id env) code m) in
  let full := (pending_max <= size (Pending.entries p))%nat in
  let cap := required_capability (de_command env) in
  match streams !! de_host_id env with
  | None => err 404
  | Some e =>
      if has_cap cap (Streams.e_caps e) then
        if decide full then err 503
        else match Pending.entries p !! de_request_id env with
             | Some _ => err 409
             | None =>
                 match Streams.get_tx (de_host_id env) streams_later with
                 | None => err 503
                 | Some tx =>
                     let msg := mkServerMsg (de_request_id env) (Some (to_command (de_command env))) in
                     match try_send tx msg with
                     | SendOk =>
                         res = Awaiting (Pending.next_sink p) tx msg /\
                         Pending.entries p' =
                           <[de_request_id env :=
                               waiting_entry now (de_host_id env) (Pending.next_sink p)]>
                             (Pending.entries p)
                     | _ => err 503
                     end
                 end
             end
      else if has_cap cap (Streams.e_advertised_caps e) then err 403
      else err 501
  end /\
  (match res with Replied _ => Pending.entries p' = Pending.entries p | _ => True end).
Proof.
  unfold dispatch_send, route_coold, Streams.get.
  destruct (streams !! de_host_id env) as [e|]; cbn -[has_cap coold_err]; [|eauto].
  destruct (has_cap _ (Streams.e_caps e)); cbn -[has_cap coold_err];
    [|destruct (has_cap _ (Streams.e_advertised_caps e)); cbn -[coold_err]; eauto].
  case_decide as Hf.
  { unfold Pending.insert_waiting. destruct (Nat.leb_spec pending_max (size (Pending.entries p)));
      [eauto|lia]. }
  destruct (Pending.entries p !! de_request_id env) as [e'|] eqn:Hn.
  { unfold Pending.insert_waiting. destruct (Nat.leb_spec pending_max (size (Pending.entries p)));
      [lia|]. rewrite Hn. eauto. }
  destruct (insert_park now (de_request_id env) (de_host_id env) p ltac:(lia) Hn) as (p1 & -> & Hpk).
  change (id p1) with p1. rewrite Hpk.
  destruct (Streams.get_tx _ _) as [tx|]; [|split; [eauto|by apply insert_delete_entries]].
  destruct (try_send tx _); [done|split; [eauto|by apply insert_delete_entries]..].
Qed.
End DispatchFacts.

Section RoundTrip.
Context (parse_json : string -> option json) (pending_max : nat).

(** Dispatch end to end: once a command is queued, the agent's response to
    its request id, handled by the stream task, wakes exactly the waiting handler
    with the converted body, the handler replies 200 with that body under the
    request id, and nothing of the exchange stays in the table. *)
Theorem dispatch_roundtrip streams streams_later now try_send env p rx tx msg p1 now' host resp body :
  dispatch_send pending_max streams streams_later now id try_send env p = (Awaiting rx tx msg, p1) ->
  r_request_id resp = de_request_id env ->
  ResponseBody.try_from_proto parse_json resp = Some body ->
  let '(eff, p2) := deliver_response parse_json now' host resp p1 in
  sm_request_id msg = r_request_id resp /\
  eff = [Wake rx (Pending.RCoold body)] /\
  Pending.entries p2 = Pending.entries p /\
  await_coold (de_request_id env) (GotResponse (Pending.RCoold body)) =
    mkReply 200 (Envelope (mkResponseEnvelope (de_request_id env) body)).
Proof.
  intros Hd Hr Hb. unfold dispatch_send in Hd.
  destruct (route_coold streams env) as [target m|code m] eqn:Hroute; [|by simplify_eq].
  assert (sm_request_id m = de_request_id env) as Hm.
  { unfold route_coold in Hroute. repeat case_match; by simplify_eq. }
  destruct (Nat.leb_spec pending_max (size (Pending.entries p))) as [Hf|Hf].
  { unfold Pending.insert_waiting in Hd. destruct (Nat.leb_spec pending_max (size (Pending.entries p)));
      [by simplify_eq|lia]. }
  destruct (Pending.entries p !! de_request_id env) as [e'|] eqn:Hn.
  { unfold Pending.insert_waiting in Hd. destruct (Nat.leb_spec pending_max (size (Pending.entries p)));
      [lia|]. rewrite Hn in Hd. by simplify_eq. }
  destruct (insert_park pending_max now (de_request_id env) target p Hf Hn) as (p0 & Hi & Hpk).
  rewrite Hi in Hd. change (id p0) with p0 in Hd. rewrite Hpk in Hd.
  destruct (Streams.get_tx _ _) as [tx'|]; [|by simplify_eq].
  destruct (try_send tx' m); simplify_eq.
  unfold deliver_response, Pending.get. rewrite Hr. simpl. rewrite lookup_insert_eq. simpl. rewrite Hb.
  unfold Pending.deliver, Pending.deliver_locked. simpl. rewrite lookup_insert_eq. simpl.
  split_and!; [done|done| |done]. by rewrite insert_insert_eq, delete_insert_eq, delete_id.
Qed.
End RoundTrip.

(** A stream that presents a token of a revoked id is refused. *)
Lemma revoked_refused `{lib : JwtLib} cfg (s : RevocationStore) j clock now req jwt :
  is_revoked s j = true -> rq_authorization req = Some ("Bearer " +:+ jwt) ->
  (forall key va c, decode clock jwt key va = Some c -> jti c = Some j) ->
  accept cfg clock now s req = Err (Unauthenticated "invalid credentials").
Proof.
  intros Hr Hauth Hdec. unfold accept. rewrite Hauth. cbn [mbind option_bind].
  assert (strip_prefix "Bearer " ("Bearer " +:+ jwt) = Some jwt) as -> by by apply strip_prefix_Some.
  destruct (verify_jwt _ _ _ _ _ _) as [v|] eqn:Hv; [|done].
  exfalso. apply verify_jwt_Ok in Hv as (hd & pem & key & kind & c & _ & _ & _ & _ & Hd & _ & Hrev & _).
  apply Hdec, Hrev in Hd. congruence.
Qed.

(** Revoking through the endpoint takes effect at once: a call with a
    non-blank id answers 200 or 500, and in both cases no later stream request
    that presents a token of that id is accepted until the id is removed from
    the denylist. *)
Theorem revoked_token_cannot_connect `{lib : JwtLib} `{fmt : EntryFormat} cfg io j exp s f clock now req jwt :
  trim j <> "" ->
  rq_authorization req = Some ("Bearer " +:+ jwt) ->
  (forall key va c, decode clock jwt key va = Some c -> jti c = Some j) ->
  let '(reply, s1, _) := revoke_token io j exp s f in
  (rp_status reply = 200 \/ rp_status reply = 500) /\
  accept cfg clock now s1 req = Err (Unauthenticated "invalid credentials").
Proof.
  intros Hj Hauth Hdec. unfold revoke_token. destruct (is_empty (trim j)) eqn:He; [by destruct (trim j)|].
  unfold revoke. destruct (persist io (with_inner (insert j exp) s) f) as [[u|e] f1]; (split; [cbn; auto|]).
  all: eapply revoked_refused; [|exact Hauth|exact Hdec]; unfold is_revoked, store_revocation_check; cbn;
    by rewrite lookup_insert_eq.
Qed.

(** The socket is never left open to others: when [bind] succeeds the last
    mode it sets on the path admits the owner only, or the owner and the
    configured group, whose id is then the group of the socket. *)
Theorem bind_restricts_socket ok resolve_gid path group :
  (bind ok resolve_gid path group).2 = Ok () ->
  exists before,
    match group with
    | None => (bind ok resolve_gid path group).1 = before ++ [BindSocket path; Chmod path 384]
    | Some g => exists gid, resolve_gid g = Some gid /\
        (bind ok resolve_gid path group).1 =
          before ++ [BindSocket path; Chmod path 432; Chown path gid]
    end.
Proof.
  unfold bind, call, socket_mode. intros H.
  exists (match parent path with Some d => [CreateDirAll d] | None => [] end ++ [RemoveFile path]).
  destruct group as [g|], (parent path) as [d|];
    repeat match goal with
       | H : context [ok ?c] |- _ => destruct (ok c); simpl in *; try discriminate
       | H : context [resolve_gid ?g] |- _ => destruct (resolve_gid g); simpl in *; try discriminate
       end; try done; by eexists.
Qed.

(* ------------------------------------------------------------------ *)
(** ** The properties at work *)

Module Demo.
Import FluxServer.Demo.

Definition streams : Streams.t := sv_streams (w_sv w1).
Definition send_ok : Streams.sender -> ServerMsg -> TrySend := fun _ _ => SendOk.
Definition sent : dispatch_result * Pending.t :=
  dispatch_send 10 streams streams 0 id send_ok list_env Pending.new.
Definition answer : Response := mkResponse "r1" (Some (Body.ContainersList [])).

Lemma dispatch_roundtrip_witness :
  (deliver_response no_json 5 "10.42.0.7" answer sent.2).1 =
  [Wake 0%nat (Pending.RCoold (ResponseBody.Ok (JArr [])))].
Proof.
  assert (sent = (Awaiting 0%nat 0%nat (mkServerMsg "r1" (Some Cmd.ContainersList)), sent.2)) as E
    by (vm_compute; reflexivity).
  pose proof (dispatch_roundtrip no_json 10 streams streams 0 send_ok list_env Pending.new _ _ _ _
                5 "10.42.0.7" answer (ResponseBody.Ok (JArr [])) E eq_refl eq_refl) as H.
  destruct (deliver_response no_json 5 "10.42.0.7" answer sent.2) as [eff p2].
  exact (proj1 (proj2 H)).
Defined.

Lemma revoked_token_cannot_connect_witness :
  let fmt := FluxRevocation.Demo.bits_format in
  accept cfg 2000 2000 (revoke_token io_ok "token-1" (Some 5000) denylist ∅).1.2 request =
  Err (Unauthenticated "invalid credentials").
Proof.
  intros fmt.
  pose proof (revoked_token_cannot_connect cfg io_ok "token-1" (Some 5000) denylist ∅ 2000 2000 request "t"
                ltac:(vm_compute; discriminate) eq_refl) as H.
  specialize (H ltac:(intros key va c Hc;
    apply (toy_decode_Some demo_header demo_claims _ 2000 "t" key va) in Hc as [-> _]; reflexivity)).
  destruct (revoke_token _ _ _ _ _) as [[reply s1] f1]. exact (proj2 H).
Defined.

Lemma bind_restricts_socket_witness :
  (bind (fun _ => true) (fun _ => Some 33) "/run/coolify/flux.sock" (Some "www-data")).2 = Ok () /\
  exists before gid,
    (bind (fun _ => true) (fun _ => Some 33) "/run/coolify/flux.sock" (Some "www-data")).1 =
    before ++ [BindSocket "/run/coolify/flux.sock"; Chmod "/run/coolify/flux.sock" 432;
               Chown "/run/coolify/flux.sock" gid].
Proof.
  split; [reflexivity|].
  destruct (bind_restricts_socket (fun _ => true) (fun _ => Some 33) "/run/coolify/flux.sock"
              (Some "www-data") eq_refl) as (before & gid & _ & E).
  exists before, gid. exact E.
Defined.
End Demo.
