(* ===== verification/FluxMain.v ===== *)
(** * Flux as a whole

    [flux/src/main.rs] ([main], the tasks it joins) and [flux/src/unix_bridge.rs]
    ([run]: the routes of the socket): how the program starts, what a request on
    the socket does to the shared tables, and which ends of its tasks end it.

    [match_path] and [method_call] are the table of routes of [run], read as
    [axum] documents it: a path is matched as a whole, [:jti] is one non-empty
    segment, a [GET] route answers [HEAD].  The [Json] extractor is the class
    [JsonExtractor], with what its documentation promises as laws; the JSON
    parser, the decoding of percent escapes, the file system and the clock are
    parameters. *)

From S2P Require Import Prelude RustStr RustPath Messages Serde Net FluxState FluxRouting FluxEnvelope FluxAuth FluxRevocation.
From S2P Require Import FluxConfig FluxServer FluxBridge.
Local Open Scope Z_scope.

(* ------------------------------------------------------------------ *)
(** ** The routes *)

Inductive Method := GET | HEAD | POST | DELETE | OtherMethod.
#[export] Instance Method_eq_dec : EqDecision Method.
Proof. solve_decision. Defined.

Record HttpRequest := mkHttpRequest {
  hr_method : Method;
  hr_path : string;
  (** whether the content type is JSON *)
  hr_json : bool;
  hr_body : string;
}.

Inductive Route := RHealth | RStreams | RDispatch | RRevoke | RUnrevoke (segment : string).

Definition match_path (path : string) : option Route :=
  if decide (path = "/v1/health") then Some RHealth
  else if decide (path = "/v1/streams") then Some RStreams
  else if decide (path = "/v1/coold/dispatch") then Some RDispatch
  else if decide (path = "/v1/tokens/revoke") then Some RRevoke
  else match strip_prefix "/v1/tokens/revoke/" path with
       | Some segment => if is_empty segment || contains_char "/" segment then None else Some (RUnrevoke segment)
       | None => None
       end.

Inductive Call :=
  | CallHealth | CallStreams | CallDispatch | CallRevoke | CallListRevocations | CallUnrevoke (segment : string).

Definition is_get (m : Method) : bool := match m with GET | HEAD => true | _ => false end.

Definition method_call (r : Route) (m : Method) : option Call :=
  match r with
  | RHealth => if is_get m then Some CallHealth else None
  | RStreams => if is_get m then Some CallStreams else None
  | RDispatch => if decide (m = POST) then Some CallDispatch else None
  | RRevoke => if decide (m = POST) then Some CallRevoke else if is_get m then Some CallListRevocations else None
  | RUnrevoke segment => if decide (m = DELETE) then Some (CallUnrevoke segment) else None
  end.

(** The handler of a request, or the status it is refused with. *)
Definition route (req : HttpRequest) : result Call Z :=
  match match_path (hr_path req) with
  | None => Err 404
  | Some r => match method_call r (hr_method req) with Some c => Ok c | None => Err 405 end
  end.

(* ------------------------------------------------------------------ *)
(** ** A request *)

Inductive Outcome :=
  | Answered (r : Reply)
  | Rejected (status : Z)
  | Waits (request_id : string) (rx : Pending.sink) (tx : Streams.sender) (msg : ServerMsg).

Definition BODY_LIMIT : Z := 2 * 1024 * 1024.

(** The [Json] extractor of axum: the value of the body, or the status the
    request is refused with before its handler runs. *)
Class JsonExtractor := extract_json : forall A, (json -> option A) -> HttpRequest -> result A Z.
Definition extract {ext : JsonExtractor} {A} (dec : json -> option A) (req : HttpRequest) : result A Z :=
  extract_json A dec req.

(** What it documents: a JSON body within the limit that reads as the type of
    the handler is handed on, and a refusal is one of its client errors. *)
Class JsonExtractorLaws (parse_json : string -> option json) (ext : JsonExtractor) : Prop := {
  extract_reads A (dec : json -> option A) req j a :
    hr_json req = true -> Z.of_nat (String.length (hr_body req)) <= BODY_LIMIT ->
    parse_json (hr_body req) = Some j -> dec j = Some a -> extract dec req = Ok a;
  extract_refuses A (dec : json -> option A) req status :
    extract dec req = Err status -> 400 <= status <= 422;
}.

Section App.
Context {ext : JsonExtractor} (percent_decode : string -> option string).
Context `{fmt : EntryFormat} (cfg : Config).
(** The clock, what other tasks do between the two critical sections of a
    dispatch, the stream table at its second read, the agents' queues, and the
    outcomes of the file system. *)
Context (now : Z) (between : Pending.t -> Pending.t) (streams_later : Streams.t)
  (try_send : Streams.sender -> ServerMsg -> TrySend) (io : IoOutcome).

Definition app_call (req : HttpRequest) (sv : server) (f : fs) : Outcome * server * fs :=
  match route req with
  | Err status => (Rejected status, sv, f)
  | Ok CallHealth => (Answered health, sv, f)
  | Ok CallStreams => (Answered (stream_inventory (sv_streams sv)), sv, f)
  | Ok CallDispatch =>
      match extract dec_envelope req with
      | Err status => (Rejected status, sv, f)
      | Ok env =>
          match dispatch_send (pending_max cfg) (sv_streams sv) streams_later now between try_send env (sv_pending sv) with
          | (Replied r, p) => (Answered r, set_pending p sv, f)
          | (Awaiting rx tx msg, p) => (Waits (de_request_id env) rx tx msg, set_pending p sv, f)
          end
      end
  | Ok CallRevoke =>
      match extract dec_revoke_request req with
      | Err status => (Rejected status, sv, f)
      | Ok r =>
          let '(reply, store, f1) := revoke_token io (rr_jti r) (rr_expires_at r) (sv_revocations sv) f in
          (Answered reply, set_revocations store sv, f1)
      end
  | Ok CallListRevocations => (Answered (list_revocations (sv_revocations sv)), sv, f)
  | Ok (CallUnrevoke segment) =>
      match percent_decode segment with
      | None => (Rejected 400, sv, f)
      | Some j =>
          let '(reply, store, f1) := unrevoke_token io j (sv_revocations sv) f in
          (Answered reply, set_revocations store sv, f1)
      end
  end.
End App.

(* ------------------------------------------------------------------ *)
(** ** The start *)

Inductive StartError :=
  | LoadFailed (e : ConfigError)
  | NoLogDirectory
  | NoLogName
  | LogDirectoryFailed (dir : string).

(** [init_tracing]: the directory and the name of the log file. *)
Definition init_tracing (create_dir_all : string -> bool) (log_file_path : string) : result (string * string) StartError :=
  match RustPath.parent log_file_path, RustPath.file_name log_file_path with
  | None, _ => Err NoLogDirectory
  | Some _, None => Err NoLogName
  | Some dir, Some name => if create_dir_all dir then Ok (dir, name) else Err (LogDirectoryFailed dir)
  end.

Section Start.
Context `{fmt : EntryFormat} (env read_to_string : string -> option string) (read_dir : string -> option (list string))
  (create_dir_all : string -> bool) (read_revocations : string -> ReadOutcome) (now : Z).

(** [main] up to its tasks: the configuration and the shared tables. *)
Definition start (parsed : Config) : result (Config * server) StartError :=
  match FluxConfig.load env read_to_string read_dir parsed with
  | Err e => Err (LoadFailed e)
  | Ok cfg =>
      match init_tracing create_dir_all FLUX_LOG_FILE_PATH with
      | Err e => Err e
      | Ok _ => Ok (cfg, server0 (FluxRevocation.load now (read_revocations (revocation_path cfg)) (revocation_path cfg)))
      end
  end.
End Start.

(* ------------------------------------------------------------------ *)
(** ** The tasks *)

Inductive FluxTask :=
  | GrpcServer | UnixBridge | PendingSweeper | RevocationSweeper | RegistryHeartbeat | CooldHeartbeat.

Definition joined : list FluxTask :=
  [GrpcServer; UnixBridge; PendingSweeper; RevocationSweeper; RegistryHeartbeat; CooldHeartbeat].

(** [try_join!]: the first task in this order that has failed, or the end of all. *)
Fixpoint try_join {E} (ends : list (option (result unit E))) : option (result unit E) :=
  match ends with
  | [] => Some (Ok tt)
  | Some (Err e) :: _ => Some (Err e)
  | Some (Ok _) :: rest => try_join rest
  | None :: rest => match try_join rest with Some (Err e) => Some (Err e) | _ => None end
  end.

Inductive FluxError :=
  | Listening (e : ListenError)
  | Serving (message : string)
  | Binding (e : BindError).

Section Tasks.
Context (env read : string -> option string) (ok : SysCall -> bool) (resolve_gid : string -> option Z) (cfg : Config).

(** How the code of a task lets it end, [served] being how the server did once
    it was listening: the two that listen can fail, the others loop. *)
Definition task_end (served : option (result unit string)) (t : FluxTask) : option (result unit FluxError) :=
  match t with
  | GrpcServer =>
      match listen env read cfg with
      | Err e => Some (Err (Listening e))
      | Ok _ => match served with
                | Some (Ok _) => Some (Ok tt)
                | Some (Err m) => Some (Err (Serving m))
                | None => None
                end
      end
  | UnixBridge =>
      match (bind ok resolve_gid (unix_socket_path cfg) (unix_socket_group cfg)).2 with
      | Err e => Some (Err (Binding e))
      | Ok _ => None
      end
  | PendingSweeper | RevocationSweeper | RegistryHeartbeat | CooldHeartbeat => None
  end.

Definition flux_run (served : option (result unit string)) : option (result unit FluxError) :=
  try_join (task_end served <$> joined).
End Tasks.

(** [tokio::time::interval] panics on a period of zero; the ticker of the
    registry's heartbeat is made only when there is a registry. *)
Definition heartbeat_panics (cfg : Config) : bool :=
  match from_config cfg with
  | None => false
  | Some _ => bool_decide (laravel_heartbeat_interval_secs cfg = 0)
  end.

(* ------------------------------------------------------------------ *)
(** ** Properties *)

Section Requests.
Context (parse_json : string -> option json) {ext : JsonExtractor} {ext_laws : JsonExtractorLaws parse_json ext}.
Context (percent_decode : string -> option string) `{fmt : EntryFormat} (cfg : Config).
Notation call now between later try_send io := (app_call percent_decode cfg now between later try_send io).

(** What a request may write. *)
Definition writes_pending (req : HttpRequest) : Prop := hr_method req = POST /\ hr_path req = "/v1/coold/dispatch".
Definition writes_denylist (req : HttpRequest) : Prop :=
  hr_method req = POST /\ hr_path req = "/v1/tokens/revoke" \/
  hr_method req = DELETE /\ exists segment, hr_path req = "/v1/tokens/revoke/" +:+ segment /\ segment <> "".

Lemma match_path_Some path r : match_path path = Some r ->
  match r with
  | RHealth => path = "/v1/health"
  | RStreams => path = "/v1/streams"
  | RDispatch => path = "/v1/coold/dispatch"
  | RRevoke => path = "/v1/tokens/revoke"
  | RUnrevoke segment => path = "/v1/tokens/revoke/" +:+ segment /\ segment <> "" /\ contains_char "/" segment = false
  end.
Proof.
  unfold match_path. repeat (case_decide; [by intros [= <-]|]).
  destruct (strip_prefix _ path) as [segment|] eqn:E; [|done]. apply strip_prefix_Some in E as ->.
  destruct (is_empty segment) eqn:Es, (contains_char "/" segment) eqn:Ec; try done. intros [= <-].
  by split_and!; [..|]; destruct segment.
Qed.

Lemma route_Ok req c : route req = Ok c ->
  match c with
  | CallHealth => is_get (hr_method req) = true /\ hr_path req = "/v1/health"
  | CallStreams => is_get (hr_method req) = true /\ hr_path req = "/v1/streams"
  | CallDispatch => writes_pending req
  | CallRevoke => hr_method req = POST /\ hr_path req = "/v1/tokens/revoke"
  | CallListRevocations => is_get (hr_method req) = true /\ hr_path req = "/v1/tokens/revoke"
  | CallUnrevoke segment => hr_method req = DELETE /\ hr_path req = "/v1/tokens/revoke/" +:+ segment /\ segment <> ""
  end.
Proof.
  unfold route, writes_pending. destruct (match_path (hr_path req)) as [r|] eqn:E; [|done]. apply match_path_Some in E.
  destruct (method_call r (hr_method req)) as [c'|] eqn:Em; [|done]. intros [= <-].
  destruct r; cbn [method_call] in Em; destruct (is_get (hr_method req)); repeat case_decide; simplify_eq; naive_solver.
Qed.

(** C35. A request reaches no further than its route: the stream table, the permits
    and the channels are never touched, the pending table only by a dispatch, the
    denylist and its file only by a revocation or its removal, and a request that
    is refused, for its path, its method or its body, changes nothing. *)
Theorem request_reach now between later try_send io req sv f :
  let '(o, sv', f') := call now between later try_send io req sv f in
  sv_streams sv' = sv_streams sv /\ sv_permits sv' = sv_permits sv /\ sv_next_tx sv' = sv_next_tx sv /\
  (sv_pending sv' = sv_pending sv \/ writes_pending req) /\
  (sv_revocations sv' = sv_revocations sv /\ f' = f \/ writes_denylist req) /\
  match o with Rejected status => sv' = sv /\ f' = f /\ 400 <= status <= 422 | _ => True end.
Proof.
  unfold app_call. destruct (route req) as [c|status] eqn:E.
  2: { unfold route in E. repeat case_match; simplify_eq; split_and!; auto; lia. }
  apply route_Ok in E. unfold writes_denylist.
  destruct c; repeat case_match; simplify_eq; cbn; split_and!; auto;
    first [by eapply extract_refuses | lia | right; naive_solver].
Qed.
End Requests.

(** *** One request, from the body to the reply *)

Definition dispatch_request (body : string) : HttpRequest := mkHttpRequest POST "/v1/coold/dispatch" true body.
Definition revoke_request (body : string) : HttpRequest := mkHttpRequest POST "/v1/tokens/revoke" true body.

Section EndToEnd.
Context (parse_json : string -> option json) {ext : JsonExtractor} {ext_laws : JsonExtractorLaws parse_json ext}.
Context (percent_decode : string -> option string) `{fmt : EntryFormat} (cfg : Config).
Notation call now later try_send io := (app_call percent_decode cfg now id later try_send io).

Lemma extract_Ok {A} (dec : json -> option A) method path body j a :
  Z.of_nat (String.length body) <= BODY_LIMIT -> parse_json body = Some j -> dec j = Some a ->
  extract dec (mkHttpRequest method path true body) = Ok a.
Proof. intros Hl Hj Ha. by eapply extract_reads. Qed.

End EndToEnd.

(** *** A revocation and a restart *)

Section Revoked.
Context (parse_json : string -> option json) {ext : JsonExtractor} {ext_laws : JsonExtractorLaws parse_json ext}.
Context (percent_decode : string -> option string)
  `{lib : JwtLib} `{fmt : EntryFormat} {fmt_laws : EntryFormatLaws fmt}.

Lemma start_server env read_to_string read_dir create_dir_all read_revocations now parsed cfg sv :
  start env read_to_string read_dir create_dir_all read_revocations now parsed = Ok (cfg, sv) ->
  revocation_path cfg = revocation_path parsed /\
  sv = server0 (FluxRevocation.load now (read_revocations (revocation_path parsed)) (revocation_path parsed)).
Proof.
  unfold start. destruct (FluxConfig.load env read_to_string read_dir parsed) as [cfg'|] eqn:El; [|done].
  destruct (init_tracing create_dir_all FLUX_LOG_FILE_PATH); [|done]. intros [= <- <-].
  assert (revocation_path cfg' = revocation_path parsed) as Hp.
  { unfold FluxConfig.load in El. destruct (read_to_string _); [|done].
    destruct (load_jwt_keys_dir _ _ _); [|done]. injection El as <-. done. }
  by rewrite Hp.
Qed.

(** The denylist has the token, in memory and on its file. *)
Definition on_file (j : string) (exp : option Z) (p : string) (f : fs) : Prop :=
  exists s0, f !! p = Some (to_json (list_entries s0)) /\ inner s0 !! j = Some exp.
Definition denied (j : string) (exp : option Z) (p : string) (sv : server) (f : fs) : Prop :=
  path (sv_revocations sv) = Some p /\ inner (sv_revocations sv) !! j = Some exp /\ on_file j exp p f.

(** A request that revokes the token [j] anew, or lifts its revocation. *)
Definition readdresses (j : string) (req : HttpRequest) : Prop :=
  (route req = Ok CallRevoke /\ exists r, extract dec_revoke_request req = Ok r /\ rr_jti r = j) \/
  (exists segment, route req = Ok (CallUnrevoke segment) /\ percent_decode segment = Some j).

(** Everything that happens to the server and its files while the revocation of
    [j] has not expired and no request changes it: other requests, streams that
    open, receive and end, the loops, and a restart from the files. *)
Inductive happens (j : string) (exp : option Z) (p : string) : server * fs -> server * fs -> Prop :=
  | happens_request cfg now between later try_send io req o sv f sv' f' :
      ~ readdresses j req ->
      app_call percent_decode cfg now between later try_send io req sv f = (o, sv', f') ->
      happens j exp p (sv, f) (sv', f')
  | happens_stream cfg clock now now_instant task_now req r eff sv f sv' :
      stream cfg clock now now_instant task_now req sv = (r, eff, sv') -> happens j exp p (sv, f) (sv', f)
  | happens_message cfg now host m r eff sv f sv' :
      on_msg cfg parse_json now host m sv = (r, eff, sv') -> happens j exp p (sv, f) (sv', f)
  | happens_finish cfg host reason sv f : happens j exp p (sv, f) ((finish cfg host reason sv).2, f)
  | happens_heartbeat cfg now sv f : happens j exp p (sv, f) ((heartbeat_turn cfg now sv).2, f)
  | happens_sweep cfg now sv f : happens j exp p (sv, f) (pending_sweep cfg now sv, f)
  | happens_prune io now sv f sv' f' :
      unexpired now exp = true -> revocation_sweep io now f sv = (sv', f') -> happens j exp p (sv, f) (sv', f')
  | happens_restart env rts rd cda now parsed cfg sv f sv' :
      unexpired now exp = true -> revocation_path parsed = p ->
      start env rts rd cda (read_file f) now parsed = Ok (cfg, sv') -> happens j exp p (sv, f) (sv', f).

Lemma persist_keeps j exp p io s f :
  path s = Some p -> inner s !! j = Some exp -> on_file j exp p f -> on_file j exp p (persist io s f).2.
Proof.
  intros Hp Hj (s0 & Hf & H0). unfold on_file. rewrite (persist_file io s f p Hp).
  destruct (persist io s f).1; eauto.
Qed.

Lemma denied_same j exp p sv sv' f :
  sv_revocations sv' = sv_revocations sv -> denied j exp p sv f -> denied j exp p sv' f.
Proof. intros E. unfold denied. by rewrite E. Qed.

(** A change of the denylist that keeps the entry of [j], written or not. *)
Lemma denied_write j exp p io g sv f :
  denied j exp p sv f -> g (inner (sv_revocations sv)) !! j = Some exp ->
  denied j exp p (set_revocations (with_inner g (sv_revocations sv)) sv)
    (persist io (with_inner g (sv_revocations sv)) f).2.
Proof. intros (Hp & _ & Hf) Hg. split_and!; [done..|]. by apply persist_keeps. Qed.

Lemma denied_request j exp p cfg now between later try_send io req sv f :
  ~ readdresses j req -> denied j exp p sv f ->
  let '(_, sv', f') := app_call percent_decode cfg now between later try_send io req sv f in
  denied j exp p sv' f'.
Proof.
  intros Hn Hd. unfold app_call. destruct (route req) as [[]|] eqn:Er; try done.
  - destruct (extract dec_envelope req); [|done].
    destruct (dispatch_send _ _ _ _ _ _ _ _) as [[] ?]; by apply (denied_same _ _ _ sv).
  - destruct (extract dec_revoke_request req) as [r|] eqn:Ex; [|done].
    unfold revoke_token, revoke. destruct (is_empty _); [by apply (denied_same _ _ _ sv)|].
    pose proof (denied_write j exp p io (insert (rr_jti r) (rr_expires_at r)) sv f Hd) as H.
    destruct (persist io _ f) as [[[]|e] f1]; apply H; rewrite lookup_insert_ne; try apply Hd;
      intros E; apply Hn; left; eauto.
  - destruct (percent_decode segment) as [j'|] eqn:Ej; [|done]. unfold unrevoke_token, unrevoke.
    pose proof (denied_write j exp p io (delete j') sv f Hd) as H.
    destruct (persist io _ f) as [[[]|e] f1]; apply H; rewrite lookup_delete_ne; try apply Hd;
      intros E; apply Hn; right; exists segment; by subst.
Qed.

Lemma denied_prune j exp p io now sv f :
  unexpired now exp = true -> denied j exp p sv f ->
  denied j exp p (revocation_sweep io now f sv).1 (revocation_sweep io now f sv).2.
Proof.
  intros He Hd. unfold revocation_sweep, prune.
  assert (retain_unexpired now (inner (sv_revocations sv)) !! j = Some exp) as Hj.
  { destruct Hd as (_ & Hj & _). by rewrite retain_lookup, Hj, He. }
  destruct (0 <? _)%nat.
  - pose proof (denied_write j exp p io (retain_unexpired now) sv f Hd Hj) as H. by destruct (persist io _ f).
  - destruct Hd as (Hp & _ & Hf). split_and!; done.
Qed.

Lemma denied_restart j exp p env rts rd cda now parsed cfg sv f sv' :
  unexpired now exp = true -> revocation_path parsed = p ->
  start env rts rd cda (read_file f) now parsed = Ok (cfg, sv') ->
  denied j exp p sv f -> denied j exp p sv' f.
Proof.
  intros He Hpath [_ ->]%start_server (_ & _ & s0 & Hf & H0). subst p. split_and!; [done| |by exists s0].
  unfold read_file. rewrite Hf. cbn [sv_revocations server0]. by rewrite load_written, retain_lookup, H0, He.
Qed.

(** The tasks of the streams and the loops do not touch the denylist. *)
Lemma on_msg_revocations cfg now host m sv :
  sv_revocations (on_msg cfg parse_json now host m sv).2 = sv_revocations sv.
Proof.
  unfold on_msg, spawn_bounded_publish. destruct m as [[[]|]|]; try done; cbn; repeat case_match; by simplify_eq.
Qed.

Lemma denied_happens j exp p x y :
  happens j exp p x y -> denied j exp p x.1 x.2 -> denied j exp p y.1 y.2.
Proof.
  destruct 1 as [cfg now between later ts io req o sv f sv' f' Hn Hc|cfg ? ? ? ? req r eff sv f sv' Hs|
    cfg now host m r eff sv f sv' Hm|cfg host reason sv f|cfg now sv f|cfg now sv f|io now sv f sv' f' He Hp|
    env rts rd cda now parsed cfg sv f sv' He Hp Hs]; cbn [fst snd]; intros Hd.
  - pose proof (denied_request j exp p cfg now between later ts io req sv f Hn Hd) as H. by rewrite Hc in H.
  - apply (denied_same _ _ _ sv); [|done]. unfold stream in Hs. destruct (accept _ _ _ _ _); by simplify_eq.
  - apply (denied_same _ _ _ sv); [|done]. pose proof (on_msg_revocations cfg now host m sv) as H. by rewrite Hm in H.
  - by apply (denied_same _ _ _ sv).
  - apply (denied_same _ _ _ sv); [|done]. unfold heartbeat_turn. by destruct (Streams.mark_stale _ _ _).
  - by apply (denied_same _ _ _ sv).
  - pose proof (denied_prune j exp p io now sv f He Hd) as H. by rewrite Hp in H.
  - by eapply denied_restart.
Qed.

(** The entry of a token whose revocation was answered with 200. *)
Lemma revocation_answered cfg now between later try_send io body j r sv f reply sv' f' p :
  path (sv_revocations sv) = Some p ->
  Z.of_nat (String.length body) <= BODY_LIMIT -> parse_json body = Some j -> dec_revoke_request j = Some r ->
  app_call percent_decode cfg now between later try_send io (revoke_request body) sv f = (Answered reply, sv', f') ->
  rp_status reply = 200 -> denied (rr_jti r) (rr_expires_at r) p sv' f'.
Proof.
  intros Hp Hlen Hj Hr Hcall Hok. unfold app_call, revoke_request in Hcall.
  change (route (mkHttpRequest POST "/v1/tokens/revoke" true body)) with (@Ok Call Z CallRevoke) in Hcall.
  rewrite (extract_Ok parse_json dec_revoke_request _ _ _ _ r Hlen Hj Hr) in Hcall.
  unfold revoke_token, revoke in Hcall. destruct (is_empty (trim (rr_jti r))); [by simplify_eq|].
  set (s1 := with_inner (insert (rr_jti r) (rr_expires_at r)) (sv_revocations sv)) in *.
  assert (inner s1 !! rr_jti r = Some (rr_expires_at r)) as H1 by (unfold s1; cbn; apply lookup_insert_eq).
  pose proof (persist_file io s1 f p Hp) as Hf. destruct (persist io s1 f) as [[[]|e] f1]; simplify_eq.
  split_and!; [done..|]. by exists s1.
Qed.

End Revoked.

(** *** The end *)

Section Ends.
Context (env read : string -> option string) (ok : SysCall -> bool) (resolve_gid : string -> option Z) (cfg : Config).
Notation bound := (bind ok resolve_gid (unix_socket_path cfg) (unix_socket_group cfg)).2.

(** Flux goes on as long as both listeners do: it ends only with an error, of
    the address or the certificate, of the serving, or of the socket, and it does
    end when there is one. *)
Theorem flux_ends_why served :
  match flux_run env read ok resolve_gid cfg served with
  | Some (Ok _) => False
  | Some (Err (Listening e)) => listen env read cfg = Err e
  | Some (Err (Serving m)) => served = Some (Err m) /\ exists l, listen env read cfg = Ok l
  | Some (Err (Binding e)) => bound = Err e
  | None => (exists l, listen env read cfg = Ok l) /\ bound = Ok tt /\ forall m, served <> Some (Err m)
  end.
Proof.
  unfold flux_run, joined. cbn [fmap list_fmap task_end try_join].
  destruct (listen env read cfg) as [l|e]; [|done].
  destruct served as [[[]|m]|]; destruct bound as [[]|e]; cbn; try done; split_and!; eauto; naive_solver.
Qed.
End Ends.

(* ------------------------------------------------------------------ *)
(** ** One flux *)

Module Demo.
Import FluxServer.Demo FluxBridge.Demo FluxRevocation.Demo.

Definition sv : server := w_sv w1.
Definition body : string := "list the containers".
Definition parse_json (s : string) : option json :=
  if decide (s = body) then Some (envelope_json list_env)
  else if decide (s = "revoke") then Some (JObj [("jti", JStr "token-1"); ("expires_at", JNum 5000)]) else None.
Definition percent_decode (s : string) : option string := Some s.

(** An extractor that keeps the laws. *)
#[export] Instance extractor : JsonExtractor := fun A dec req =>
  if negb (hr_json req) then Err 415
  else if BODY_LIMIT <? Z.of_nat (String.length (hr_body req)) then Err 413
  else match parse_json (hr_body req) with
       | None => Err 400
       | Some j => match dec j with Some a => Ok a | None => Err 422 end
       end.
#[export] Instance extractor_laws : JsonExtractorLaws parse_json extractor.
Proof.
  split; unfold extract, extract_json, extractor.
  - intros A dec req j a Ht Hl Hj Ha. rewrite Ht. cbn [negb]. destruct (Z.ltb_spec BODY_LIMIT (Z.of_nat (String.length (hr_body req)))); [lia|].
    by rewrite Hj, Ha.
  - intros A dec req status H. repeat case_match; simplify_eq; lia.
Qed.
Definition nothing : fs := ∅.


Lemma request_reach_witness :
  let '(o, sv', f') := app_call percent_decode cfg 0 id (sv_streams sv) send_ok io_ok
    (mkHttpRequest GET "/v1/coold/dispatch" true body) sv nothing in
  o = Rejected 405 /\ sv' = sv /\ f' = nothing.
Proof.
  pose proof (request_reach parse_json percent_decode cfg 0 id (sv_streams sv) send_ok io_ok
    (mkHttpRequest GET "/v1/coold/dispatch" true body) sv nothing) as H.
  cbn in *. destruct H as (_ & _ & _ & _ & _ & H1 & H2 & _). exact (conj eq_refl (conj H1 H2)).
Defined.

Definition no_env (_ : string) : option string := None.
Definition read_key (_ : string) : option string := Some "ec-key".
Definition no_dir (_ : string) : option (list string) := None.
Definition made (_ : string) : bool := true.
Definition parsed : Config := parsed_defaults "10.42.0.1:6443".
Definition started (f : fs) (now : Z) := FluxMain.start no_env read_key no_dir made (read_file f) now parsed.
Definition started_server (f : fs) (now : Z) : server :=
  match started f now with Ok (_, s) => s | Err _ => server0 denylist end.
Definition revoked := app_call percent_decode cfg 0 id Streams.new send_ok io_ok (revoke_request "revoke")
  (started_server nothing 1000) nothing.

Lemma token_id key va c : decode 2000 "t" key va = Some c -> jti c = Some "token-1".
Proof. intros Hc. apply (toy_decode_Some demo_header demo_claims _ 2000 "t" key va) in Hc as [-> _]. reflexivity. Qed.

(** Revoked, swept, and started again. *)
Definition swept := revocation_sweep io_ok 1500 revoked.2 revoked.1.2.


(** A heartbeat interval of zero is accepted, and ends the program when the
    first ticker is made, where the interval of the pings is raised to one. *)
Definition eager : Config :=
  mkConfig "10.42.0.1:6443" "/run/coolify/flux.sock" None 10 "/etc/coolify/jwt.pub" "" None ∅ false false false 3600
    "/var/lib/flux/revocations.json" None None "info" 30 (Some "flux-1") (Some "http://a") (Some "http://b") None
    (Some "http://laravel") (Some "token") 10 0 0 45.
Theorem zero_heartbeat_panics :
  exists cfg sv, FluxMain.start no_env read_key no_dir made (read_file nothing) 0 eager = Ok (cfg, sv) /\
    heartbeat_panics cfg = true /\ ping_period cfg = 1.
Proof. do 2 eexists. split; [reflexivity|]. split; vm_compute; reflexivity. Qed.
End Demo.
