(* ===== verification/Subnet.v ===== *)
(** * Address allocation

    [coolify-cli/src/wireguard/subnet.rs]: the management address of every host
    and the container subnet of every (namespace, host) pair, chosen from two
    pools so that an existing assignment is kept when it is still usable.

    The two allocators run the same three loops over different values; the loops
    are written once, over a value type with its numeric key.  The search for a
    free slot need not end: it answers [None] when the fuel, one more than the
    number of slots taken, is used up, which is shown to mean that the loop of
    the source runs for ever. *)

From S2P Require Import Prelude RustStr Net.
Local Open Scope Z_scope.

Record Warning := mkWarning { w_host : string; w_reason : string }.

Inductive AllocError :=
  | BadPrefix
  | DuplicateHost (h : string)
  | DuplicateNamespace (ns : string)
  | PoolExhausted
  | NetError.

(** The loops over a [BTreeSet] of items seen: the first repeated one. *)
Fixpoint first_duplicate (seen : gset string) (l : list string) : option string :=
  match l with
  | [] => None
  | x :: l' => if decide (x ∈ seen) then Some x else first_duplicate ({[x]} ∪ seen) l'
  end.

(* ------------------------------------------------------------------ *)
(** ** The loops *)

(** [loop { if n > limit bail; if free break; n = n.saturating_add(step) }]:
    [Some None] is the bail-out. *)
Fixpoint search (step limit : Z) (used : gset Z) (fuel : nat) (n : Z) : option (option Z) :=
  match fuel with
  | O => None
  | S fuel' =>
      if limit <? n then Some None
      else if decide (n ∈ used) then search step limit used fuel' (sat_add32 n step)
      else Some (Some n)
  end.

Section Loops.
Context {V : Type} (raw : V -> Z) (usable : V -> bool) (bad dup : V -> string).
Context (make : Z -> option V) (start step limit : Z) (hosts : list string).

Definition reuse_one (acc : gmap string V * gset Z * list Warning) (hv : string * V)
    : gmap string V * gset Z * list Warning :=
  let '(res, used, warnings) := acc in
  let '(host, v) := hv in
  if negb (bool_decide (host ∈ hosts)) then acc
  else if negb (usable v) then (res, used, warnings ++ [mkWarning host (bad v)])
  else if decide (raw v ∈ used) then (res, used, warnings ++ [mkWarning host (dup v)])
  else (<[host := v]> res, {[raw v]} ∪ used, warnings).

(** [for (host, v) in existing]. *)
Definition reuse (existing : gmap string V) : gmap string V * gset Z * list Warning :=
  foldl reuse_one (∅, ∅, []) (btree_list existing).

(** [for host in hosts]; [None] when a search never ends. *)
Fixpoint fill (todo : list string) (res : gmap string V) (used : gset Z)
    : option (result (gmap string V) AllocError) :=
  match todo with
  | [] => Some (Ok res)
  | host :: todo' =>
      match res !! host with
      | Some _ => fill todo' res used
      | None =>
          match search step limit used (S (size used)) start with
          | None => None
          | Some None => Some (Err PoolExhausted)
          | Some (Some n) =>
              match make n with
              | None => Some (Err NetError)
              | Some v => fill todo' (<[host := v]> res) ({[n]} ∪ used)
              end
          end
      end
  end.

Definition assign (existing : gmap string V)
    : option (result (gmap string V * list Warning) AllocError) :=
  match first_duplicate ∅ hosts with
  | Some h => Some (Err (DuplicateHost h))
  | None =>
      let '(res, used, warnings) := reuse existing in
      match fill hosts res used with
      | None => None
      | Some (Err e) => Some (Err e)
      | Some (Ok res') => Some (Ok (res', warnings))
      end
  end.
End Loops.
Arguments reuse_one : simpl never.

(* ------------------------------------------------------------------ *)
(** ** The allocators *)

Section Allocators.
Context `{api : Ipv4NetApi}.

(** [u32 + 1], wrapping as a release build does. *)
Definition machine_ip (net : Ipv4Net) : Z := (net_network net + 1) mod 4294967296.

(** [1u32.checked_shl(32 - prefix).unwrap_or(1)]. *)
Definition subnet_step (prefix : Z) : Z :=
  if 32 - prefix <? 32 then Z.shiftl 1 (32 - prefix) else 1.

Definition allocate (pool : Ipv4Net) (prefix : Z) (existing : gmap string Ipv4Net)
    (hosts : list string) : option (result (gmap string Ipv4Net * list Warning) AllocError) :=
  if (prefix <? net_prefix_len pool) || (32 <? prefix) then Some (Err BadPrefix)
  else
    assign net_network
      (fun net => (net_prefix_len net =? prefix) && net_contains pool (net_network net))
      (fun net => "existing subnet " +:+ net_show net +:+ " is not a /" +:+ show_Z prefix +:+
                  " inside pool " +:+ net_show pool +:+ ", reassigning")
      (fun net => "duplicate subnet " +:+ net_show net +:+ ", reassigning")
      (fun n => net_new n prefix)
      (net_network pool) (subnet_step prefix) (net_broadcast pool) hosts existing.

Definition allocate_mgmt_ips (pool : Ipv4Net) (existing : gmap string Z) (hosts : list string)
    : option (result (gmap string Z * list Warning) AllocError) :=
  let base := net_network pool in
  let broadcast := net_broadcast pool in
  assign (fun ip => ip)
    (fun ip => negb ((ip =? base) || (ip =? broadcast) || negb (net_contains pool ip)))
    (fun ip => "existing mgmt IP " +:+ show_ipv4 ip +:+ " is not usable inside pool " +:+
               net_show pool +:+ ", reassigning")
    (fun ip => "duplicate mgmt IP " +:+ show_ipv4 ip +:+ ", reassigning")
    Some (sat_add32 base 1) 1 (broadcast - 1) hosts existing.

Definition pair_key (ns h : string) : string := ns +:+ "/" +:+ h.

(** [out[ns][h]], if present. *)
Definition subnet_at (out : gmap string (gmap string Ipv4Net)) (ns h : string) : option Ipv4Net :=
  out !! ns ≫= (fun m => m !! h).

Definition all_existing (existing : gmap string (gmap string Ipv4Net)) (namespaces hosts : list string)
    : gmap string Ipv4Net :=
  foldl (fun acc '(ns, h) =>
           match subnet_at existing ns h with
           | Some n => <[pair_key ns h := n]> acc
           | None => acc
           end) ∅ (ns ← namespaces; h ← hosts; [(ns, h)]).

(** [out.entry(ns).or_default().insert(h, net)]. *)
Definition entry_insert {A} (ns h : string) (a : A) (out : gmap string (gmap string A))
    : gmap string (gmap string A) :=
  <[ns := <[h := a]> (default ∅ (out !! ns))]> out.

Definition regroup (flat : gmap string Ipv4Net) (namespaces hosts : list string)
    : gmap string (gmap string Ipv4Net) :=
  foldl (fun out '(ns, h) =>
           match flat !! pair_key ns h with
           | Some net => entry_insert ns h net out
           | None => out (* [flat[&key]] would panic: never, see below *)
           end) ∅ (ns ← namespaces; h ← hosts; [(ns, h)]).

Definition allocate_namespaced (pool : Ipv4Net) (prefix : Z)
    (existing : gmap string (gmap string Ipv4Net)) (namespaces hosts : list string)
    : option (result (gmap string (gmap string Ipv4Net) * list Warning) AllocError) :=
  match first_duplicate ∅ namespaces with
  | Some ns => Some (Err (DuplicateNamespace ns))
  | None =>
      let keys := (ns ← namespaces; h ← hosts; [pair_key ns h]) in
      match allocate pool prefix (all_existing existing namespaces hosts) keys with
      | None => None
      | Some (Err e) => Some (Err e)
      | Some (Ok (flat, warnings)) => Some (Ok (regroup flat namespaces hosts, warnings))
      end
  end.
End Allocators.

(* ------------------------------------------------------------------ *)
(** ** The search *)

(** The value of [n] after [i] turns of the loop. *)
Definition probe (step n i : Z) : Z := Z.min (n + i * step) u32_max.

Lemma probe_0 step n : is_u32 n -> probe step n 0 = n.
Proof. unfold probe, is_u32. lia. Qed.

Lemma probe_S step n i :
  is_u32 n -> 0 <= step -> 0 <= i -> probe step (sat_add32 n step) i = probe step n (1 + i).
Proof.
  unfold probe, sat_add32, is_u32. intros Hn Hs Hi.
  replace ((1 + i) * step) with (step + i * step) by ring. nia.
Qed.

Lemma sat_add32_u32 n step : is_u32 n -> 0 <= step -> is_u32 (sat_add32 n step).
Proof. unfold is_u32, sat_add32, u32_max. lia. Qed.

Section SearchFacts.
Context (step limit : Z) (used : gset Z) (Hstep : 0 < step).

(** The loop has not ended after [fuel] turns exactly when every value it tried
    was below the limit and taken. *)
Lemma search_None fuel n :
  is_u32 n ->
  search step limit used fuel n = None <->
  forall i, (i < fuel)%nat ->
    probe step n (Z.of_nat i) <= limit /\ probe step n (Z.of_nat i) ∈ used.
Proof.
  revert n. induction fuel as [|fuel IH]; intros n Hn; simpl; [split; [lia|done]|].
  pose proof (sat_add32_u32 n step Hn ltac:(lia)) as Hn'. split.
  - destruct (Z.ltb_spec limit n) as [|Hle]; [done|]. case_decide as Hu; [|done].
    intros H i Hi. destruct i as [|i]; [by rewrite probe_0|].
    rewrite (IH _ Hn') in H. specialize (H i ltac:(lia)).
    rewrite probe_S in H by (auto with lia). by rewrite Nat2Z.inj_succ, <- Z.add_1_l.
  - intros H. pose proof (H 0%nat ltac:(lia)) as [H0 H1]. rewrite probe_0 in H0, H1 by done.
    destruct (Z.ltb_spec limit n); [lia|]. rewrite decide_True by done.
    apply IH; [done|]. intros i Hi. rewrite probe_S by (auto with lia).
    replace (1 + Z.of_nat i) with (Z.of_nat (S i)) by lia. apply H. lia.
Qed.

Lemma search_Some fuel n r :
  is_u32 n -> search step limit used fuel n = Some r ->
  exists i, (forall j, (j < i)%nat ->
               probe step n (Z.of_nat j) <= limit /\ probe step n (Z.of_nat j) ∈ used) /\
    match r with
    | Some x => x = probe step n (Z.of_nat i) /\ x <= limit /\ x ∉ used
    | None => limit < probe step n (Z.of_nat i)
    end.
Proof.
  revert n. induction fuel as [|fuel IH]; intros n Hn; simpl; [done|].
  pose proof (sat_add32_u32 n step Hn ltac:(lia)) as Hn'.
  destruct (Z.ltb_spec limit n) as [Hlt|Hle].
  { intros [= <-]. exists 0%nat. rewrite probe_0 by done. split; [lia|done]. }
  case_decide as Hu.
  - intros H. destruct (IH _ Hn' H) as (i & Hj & Hr).
    assert (forall k, probe step (sat_add32 n step) (Z.of_nat k) = probe step n (Z.of_nat (S k))) as Hp.
    { intros k. rewrite probe_S by (auto with lia). f_equal. lia. }
    exists (S i). rewrite Hp in Hr. split; [|done]. intros [|j] Hlt; [by rewrite probe_0|].
    rewrite <- Hp. apply Hj. lia.
  - intros [= <-]. exists 0%nat. rewrite probe_0 by done. split; [lia|done].
Qed.

Lemma probes_bounded (f : Z -> Z) m :
  (forall i j, f i = f j -> i = j) ->
  (forall i, (i < m)%nat -> f (Z.of_nat i) ∈ used) -> (m <= size used)%nat.
Proof.
  intros Hinj Hin. set (l := (fun i => f (Z.of_nat i)) <$> seq 0 m).
  assert (NoDup l) as Hn.
  { apply NoDup_fmap_2; [|apply NoDup_seq]. intros i j Hij%Hinj. lia. }
  assert (length l = m) as Hl by (unfold l; by rewrite length_fmap, length_seq).
  rewrite <- Hl, <- (size_list_to_set (C := gset Z) l Hn). apply subseteq_size.
  intros x. rewrite elem_of_list_to_set. unfold l. rewrite list_elem_of_fmap.
  intros (i & -> & Hi%elem_of_seq). apply Hin. lia.
Qed.

Lemma linear_inj n i j : n + i * step = n + j * step -> i = j.
Proof. intros H. apply (Z.mul_reg_r i j step); lia. Qed.

(** Below the top of the address space the search always ends. *)
Lemma search_returns n :
  is_u32 n -> limit < u32_max -> search step limit used (S (size used)) n <> None.
Proof.
  intros Hn Hl H. rewrite search_None in H by done.
  assert (S (size used) <= size used)%nat; [|lia].
  apply (probes_bounded (fun i => n + i * step)); [intros i j; apply linear_inj|].
  intros i Hi. destruct (H i Hi) as [H1 H2]. unfold probe in *.
  by rewrite Z.min_l in H2 by lia.
Qed.

(** Running out of this fuel means that the loop never ends. *)
Lemma search_loops n :
  is_u32 n -> search step limit used (S (size used)) n = None ->
  forall fuel, search step limit used fuel n = None.
Proof.
  intros Hn H fuel. rewrite search_None in H |- * by done.
  destruct (decide (n + Z.of_nat (size used) * step <= u32_max)) as [Hle|Hgt].
  - exfalso. assert (S (size used) <= size used)%nat; [|lia].
    apply (probes_bounded (fun i => n + i * step)); [intros i j; apply linear_inj|].
    intros i Hi. destruct (H i Hi) as [_ H2]. unfold probe in H2. rewrite Z.min_l in H2; [done|]. nia.
  - intros i _. destruct (decide (i < S (size used))%nat) as [Hi|Hi]; [by apply H|].
    replace (probe step n (Z.of_nat i)) with (probe step n (Z.of_nat (size used)))
      by (unfold probe; nia). apply H. lia.
Qed.
End SearchFacts.

Lemma first_duplicate_None seen l :
  first_duplicate seen l = None <-> NoDup l /\ forall x, x ∈ l -> x ∉ seen.
Proof.
  revert seen. induction l as [|x l IH]; intros seen; simpl.
  { split; [intros _; split; [constructor|by intros ? ?%elem_of_nil]|done]. }
  rewrite NoDup_cons. case_decide as D.
  - split; [done|]. intros [_ H]. destruct (H x); [left|done].
  - rewrite IH. split; intros H; [|set_solver].
    destruct H as [Hn Hs]. split; [split; [|done]|set_solver].
    intros Hx. apply (Hs x Hx). set_solver.
Qed.

(* ------------------------------------------------------------------ *)
(** ** The assignment *)

Section AssignFacts.
Context {V : Type} (raw : V -> Z) (usable : V -> bool) (bad dup : V -> string).
Context (make : Z -> option V) (start step limit : Z) (hosts : list string).

Notation reuse_one := (reuse_one raw usable bad dup hosts).
Notation reuse := (reuse raw usable bad dup hosts).
Notation fill := (fill make start step limit).
Notation assign := (assign raw usable bad dup make start step limit hosts).

(** What holds between the loops: the assignments made so far are usable,
    have distinct keys, and account for every key taken. *)
Record Good (res : gmap string V) (used : gset Z) : Prop := mkGood {
  good_usable h v : res !! h = Some v -> usable v = true /\ raw v ∈ used;
  good_inj h h' v v' : res !! h = Some v -> res !! h' = Some v' -> raw v = raw v' -> h = h';
  good_used n : n ∈ used -> exists h v, res !! h = Some v /\ raw v = n;
  good_hosts h v : res !! h = Some v -> h ∈ hosts;
}.

Lemma Good_empty : Good ∅ ∅.
Proof. split; set_solver. Qed.

Lemma Good_insert res used h v :
  Good res used -> res !! h = None -> usable v = true -> raw v ∉ used -> h ∈ hosts ->
  Good (<[h := v]> res) ({[raw v]} ∪ used).
Proof.
  intros [Hu Hi Hus Hh] Hn Hv Hr Hin. split.
  - intros k w. rewrite lookup_insert. case_decide; [|intros [? ?]%Hu; set_solver].
    intros [= <-]. set_solver.
  - intros k k' w w'. rewrite !lookup_insert. repeat case_decide; subst; try by eauto.
    + intros [= <-] [_ Hx]%Hu Heq. rewrite <- Heq in Hx. done.
    + intros [_ Hx]%Hu [= <-] Heq. rewrite Heq in Hx. done.
  - intros n [->%elem_of_singleton|Hn']%elem_of_union.
    + exists h, v. by rewrite lookup_insert_eq.
    + apply Hus in Hn' as (k & w & Hk & <-). exists k, w. split; [|done].
      rewrite lookup_insert_ne; [done|]. congruence.
  - intros k w. rewrite lookup_insert. case_decide; [by intros _; subst|eauto].
Qed.

Lemma Good_size res used : Good res used -> (size used <= size res)%nat.
Proof.
  intros [_ _ Hus _]. transitivity (length (raw <$> (map_to_list res).*2)).
  - rewrite <- size_list_to_set_le. apply subseteq_size. intros n (h & v & Hh & <-)%Hus.
    apply elem_of_list_to_set, list_elem_of_fmap. exists v. split; [done|].
    apply list_elem_of_fmap. exists (h, v). by rewrite elem_of_map_to_list.
  - by rewrite !length_fmap, length_map_to_list.
Qed.

Lemma reuse_one_Good res used ws h v :
  Good res used -> res !! h = None ->
  let '(res', used', _) := reuse_one (res, used, ws) (h, v) in Good res' used'.
Proof.
  intros HG Hn. unfold Subnet.reuse_one. case_bool_decide as Hh; simpl; [|done].
  destruct (usable v) eqn:Hv; simpl; [|done]. case_decide; [done|]. by apply Good_insert.
Qed.

Lemma reuse_one_other res used ws h v k :
  k <> h -> (reuse_one (res, used, ws) (h, v)).1.1 !! k = res !! k.
Proof.
  intros Hne. unfold Subnet.reuse_one. case_bool_decide; simpl; [|done].
  destruct (usable v); simpl; [|done]. case_decide; simpl; [done|]. by rewrite lookup_insert_ne.
Qed.

(** The keep loop, from any point of it on. *)
Lemma foldl_reuse_Good l : forall acc,
  NoDup l.*1 -> Good acc.1.1 acc.1.2 -> (forall k, k ∈ l.*1 -> acc.1.1 !! k = None) ->
  let acc' := foldl reuse_one acc l in
  Good acc'.1.1 acc'.1.2 /\ forall k, k ∉ l.*1 -> acc'.1.1 !! k = acc.1.1 !! k.
Proof.
  induction l as [|[h v] l IH]; intros [[res used] ws] Hn HG Hfresh; simpl in *; [done|].
  apply NoDup_cons in Hn as [Hnin Hn].
  pose proof (reuse_one_Good res used ws h v HG (Hfresh h ltac:(left))) as HG1.
  pose proof (fun k => reuse_one_other res used ws h v k) as Hother.
  destruct (reuse_one (res, used, ws) (h, v)) as [[res1 used1] ws1] eqn:E. simpl in *.
  destruct (IH (res1, used1, ws1) Hn HG1) as [HG2 Hk]; simpl.
  { intros k Hin. rewrite Hother by (intros ->; done). apply Hfresh. by right. }
  split; [done|]. intros k [Hk1 Hk2]%not_elem_of_cons. rewrite Hk by done. by apply Hother.
Qed.

Lemma reuse_Good existing :
  Good (reuse existing).1.1 (reuse existing).1.2.
Proof.
  apply (foldl_reuse_Good (btree_list existing) (∅, ∅, [])).
  - auto with coold.
  - apply Good_empty.
  - intros. apply lookup_empty.
Qed.

(** An existing assignment worth keeping: usable, of a wanted host, its key
    claimed by no other such host. *)
Definition keeper (existing : gmap string V) (h : string) (v : V) : Prop :=
  existing !! h = Some v /\ h ∈ hosts /\ usable v = true /\
  forall h' v', existing !! h' = Some v' -> h' ∈ hosts -> usable v' = true -> raw v' = raw v -> h' = h.

Lemma foldl_reuse_keeps existing l : forall acc,
  NoDup l.*1 -> Good acc.1.1 acc.1.2 -> (forall k, k ∈ l.*1 -> acc.1.1 !! k = None) ->
  (forall k w, (k, w) ∈ l -> existing !! k = Some w) ->
  (forall k w, acc.1.1 !! k = Some w -> existing !! k = Some w) ->
  (forall h v, (h, v) ∈ l -> keeper existing h v -> (foldl reuse_one acc l).1.1 !! h = Some v) /\
  ((forall h v, (h, v) ∈ l -> keeper existing h v) -> (foldl reuse_one acc l).2 = acc.2).
Proof.
  induction l as [|[h v] l IH]; intros [[res used] ws] Hn HG Hfresh Hex Hacc; simpl in *.
  { split; [intros h v []%elem_of_nil|done]. }
  apply NoDup_cons in Hn as [Hnin Hn].
  pose proof (Hfresh h ltac:(left)) as Hh.
  pose proof (reuse_one_Good res used ws h v HG Hh) as HG1.
  pose proof (fun k => reuse_one_other res used ws h v k) as Hother.
  assert (keeper existing h v ->
          reuse_one (res, used, ws) (h, v) = (<[h := v]> res, {[raw v]} ∪ used, ws)) as Hkeep.
  { intros (Hx & Hin & Hv & Huniq). unfold Subnet.reuse_one.
    rewrite bool_decide_eq_true_2, Hv by done. simpl. rewrite decide_False; [done|].
    intros (h' & v' & Hh' & Hraw)%(good_used _ _ HG).
    assert (h' = h) as ->; [|congruence]. destruct (good_usable _ _ HG _ _ Hh').
    eauto using good_hosts. }
  assert (forall k w, (reuse_one (res, used, ws) (h, v)).1.1 !! k = Some w -> existing !! k = Some w) as Hacc1.
  { intros k w. destruct (decide (k = h)) as [->|Hne]; [|rewrite Hother by done; eauto].
    unfold Subnet.reuse_one. case_bool_decide; simpl; [|congruence].
    destruct (usable v); simpl; [|congruence]. case_decide; simpl; [congruence|].
    rewrite lookup_insert_eq. intros [= <-]. apply Hex. left. }
  destruct (reuse_one (res, used, ws) (h, v)) as [[res1 used1] ws1] eqn:E. simpl in *.
  assert (forall k, k ∈ l.*1 -> res1 !! k = None) as Hfresh1.
  { intros k Hin. rewrite Hother by (intros ->; done). apply Hfresh. by right. }
  destruct (IH (res1, used1, ws1) Hn HG1 Hfresh1) as [Hk Hw]; simpl; [|done|].
  { intros k w Hin. apply Hex. by right. }
  split.
  - intros k w [[= -> ->]|Hin]%elem_of_cons Hkw; [|eauto].
    destruct (foldl_reuse_Good l (res1, used1, ws1) Hn HG1 Hfresh1) as [_ Hsame].
    rewrite Hsame by done. simpl. apply Hkeep in Hkw. simplify_eq. by rewrite lookup_insert_eq.
  - intros Hall. rewrite Hw by (intros; apply Hall; by right). simpl.
    specialize (Hkeep (Hall h v ltac:(left))). by simplify_eq.
Qed.

Lemma reuse_keeps existing :
  (forall h v, keeper existing h v -> (reuse existing).1.1 !! h = Some v) /\
  ((forall h v, existing !! h = Some v -> keeper existing h v) -> (reuse existing).2 = []).
Proof.
  unfold Subnet.reuse.
  destruct (foldl_reuse_keeps existing (btree_list existing) (∅, ∅, [])) as [Hk Hw].
  - auto with coold.
  - apply Good_empty.
  - intros. apply lookup_empty.
  - intros k w. by rewrite elem_of_btree_list.
  - done.
  - split; [|intros H; apply Hw; intros h v; rewrite elem_of_btree_list; auto].
    intros h v Hkv. apply Hk; [|done]. apply elem_of_btree_list, Hkv.
Qed.

(** *** The fill loop, when the slots make usable values *)

Context (Hstart : is_u32 start) (Hstep : 0 < step) (Hlimit : limit < u32_max).
Context (Hmake : forall k, 0 <= k -> start + k * step <= limit ->
  exists v, make (start + k * step) = Some v /\ raw v = start + k * step /\ usable v = true).

(** A free slot is found unless all are taken. *)
Lemma search_slot used :
  match search step limit used (S (size used)) start with
  | None => False
  | Some (Some n) => exists v, make n = Some v /\ raw v = n /\ usable v = true /\ n ∉ used
  | Some None => forall k, 0 <= k -> start + k * step <= limit -> start + k * step ∈ used
  end.
Proof.
  destruct (search step limit used (S (size used)) start) as [r|] eqn:E.
  - destruct (search_Some step limit used Hstep _ _ _ Hstart E) as (i & Hj & Hr).
    destruct r as [n|].
    + destruct Hr as (-> & Hle & Hnin). unfold probe in *. rewrite Z.min_l in * by lia.
      destruct (Hmake (Z.of_nat i)) as (v & Hv & Hraw & Hus); [lia|done|eauto].
    + intros k Hk Hle. destruct (Hj (Z.to_nat k)) as [H1 H2]; [unfold probe in Hr; nia|].
      unfold probe in *. rewrite Z2Nat.id in * by lia. by rewrite Z.min_l in H2 by lia.
  - by apply search_returns in E.
Qed.

Lemma Good_room res used h :
  Good res used -> h ∈ hosts -> res !! h = None -> (size used < length hosts)%nat.
Proof.
  intros HG Hh Hn. apply Good_size in HG as Hsz.
  assert (size res < length hosts)%nat; [|lia].
  assert (dom res ⊂ list_to_set hosts) as Hsub.
  { split; [intros k [v Hv]%elem_of_dom; apply elem_of_list_to_set; by eapply good_hosts|].
    intros Hsub. assert (h ∈ dom res) as [v Hv]%elem_of_dom by (apply Hsub; by apply elem_of_list_to_set).
    congruence. }
  apply subset_size in Hsub. rewrite size_dom in Hsub.
  pose proof (size_list_to_set_le hosts). lia.
Qed.

Lemma fill_spec todo : forall res used,
  (forall h, h ∈ todo -> h ∈ hosts) -> Good res used ->
  match fill todo res used with
  | Some (Ok res') =>
      (exists used', Good res' used') /\ res ⊆ res' /\ forall h, h ∈ todo -> is_Some (res' !! h)
  | Some (Err e) =>
      e = PoolExhausted /\ (exists h, h ∈ todo /\ res !! h = None) /\
      forall m, (forall i, 0 <= i < Z.of_nat m -> start + i * step <= limit) -> (m < length hosts)%nat
  | None => False
  end.
Proof.
  induction todo as [|h todo IH]; intros res used Hin HG; cbn [Subnet.fill].
  { split_and!; [eauto|done|]. intros h []%elem_of_nil. }
  destruct (res !! h) as [v|] eqn:Hh.
  { specialize (IH res used (fun k Hk => Hin k (list_elem_of_further _ _ _ Hk)) HG).
    destruct (fill todo res used) as [[res'|]|];
      [|destruct IH as (? & (k & ? & ?) & ?); split_and!; [done| |done]; exists k; by split; [right|]|done].
    destruct IH as (HG' & Hsub & Hall). split_and!; [done|done|].
    intros k [->|Hk]%elem_of_cons; [exists v; by eapply lookup_weaken|auto]. }
  pose proof (search_slot used) as Hs.
  destruct (search step limit used (S (size used)) start) as [[n|]|]; [| |done].
  - destruct Hs as (v & Hv & Hraw & Hus & Hnin). rewrite Hv. rewrite <- Hraw in Hnin.
    specialize (IH (<[h := v]> res) ({[n]} ∪ used) (fun k Hk => Hin k (list_elem_of_further _ _ _ Hk))).
    rewrite <- Hraw in *. specialize (IH ltac:(apply Good_insert; auto; apply Hin; left)).
    destruct (fill todo _ _) as [[res'|]|];
      [|destruct IH as (? & _ & ?); split_and!; [done| |done]; exists h; by split; [left|]|done].
    destruct IH as (HG' & Hsub & Hall). split_and!; [done| |].
    + etransitivity; [by apply insert_subseteq|done].
    + intros k [->|Hk]%elem_of_cons; [|auto]. exists v. eapply lookup_weaken; [|done].
      apply lookup_insert_eq.
  - split_and!; [done|exists h; by split; [left|]|]. intros m Hm.
    assert (size used < length hosts)%nat by (apply (Good_room res used h); auto; apply Hin; left).
    assert (m <= size used)%nat; [|lia].
    apply (probes_bounded used (fun i => start + i * step)); [by apply linear_inj|].
    intros i Hi. apply Hs; [lia|]. apply Hm. lia.
Qed.

(** The whole assignment: it returns; on success every wanted host and no other
    has a usable value with a key of its own, and keepers keep theirs; it only
    fails on a repeated host or a full pool. *)
Lemma assign_spec existing :
  match assign existing with
  | Some (Ok (m, ws)) =>
      NoDup hosts /\
      (forall h, is_Some (m !! h) <-> h ∈ hosts) /\
      (forall h v, m !! h = Some v -> usable v = true) /\
      (forall h h' v v', m !! h = Some v -> m !! h' = Some v' -> raw v = raw v' -> h = h') /\
      (forall h v, keeper existing h v -> m !! h = Some v) /\
      ((forall h v, existing !! h = Some v -> keeper existing h v) -> ws = [])
  | Some (Err e) =>
      (exists h, e = DuplicateHost h /\ ~ NoDup hosts) \/
      (e = PoolExhausted /\ (exists h, h ∈ hosts /\ forall v, ~ keeper existing h v) /\
       forall m, (forall i, 0 <= i < Z.of_nat m -> start + i * step <= limit) -> (m < length hosts)%nat)
  | None => False
  end.
Proof.
  unfold Subnet.assign. destruct (first_duplicate ∅ hosts) as [d|] eqn:Hd.
  { left. exists d. split; [done|]. intros Hn.
    assert (first_duplicate ∅ hosts = None); [|congruence]. apply first_duplicate_None. set_solver. }
  apply first_duplicate_None in Hd as [Hnd _].
  pose proof (reuse_Good existing) as HG. destruct (reuse_keeps existing) as [Hk Hw].
  destruct (reuse existing) as [[res used] ws]. simpl in *.
  pose proof (fill_spec hosts res used (fun h Hh => Hh) HG) as Hf.
  destruct (fill hosts res used) as [[m|e]|]; [|right|done].
  2: { destruct Hf as (-> & (h & Hh & Hn) & Hroom). split_and!; [done| |done].
       exists h. split; [done|]. intros v Hv%Hk. congruence. }
  destruct Hf as ([used' HG'] & Hsub & Hall). split_and!; try done.
  - intros h. split; [intros [v Hv]; by eapply good_hosts|auto].
  - intros h v Hv. by eapply good_usable.
  - intros h h' v v'. by eapply good_inj.
  - intros h v Hkv. eapply lookup_weaken; [|done]. auto.
Qed.
End AssignFacts.

(* ------------------------------------------------------------------ *)
(** ** Blocks of addresses *)

Section NetFacts.
Context `{api : Ipv4NetApi} {laws : Ipv4NetLaws api}.

Definition block_size (p : Z) : Z := 2 ^ (32 - p).

Lemma block_size_pos p : p <= 32 -> 0 < block_size p.
Proof. intros H. apply Z.pow_pos_nonneg; lia. Qed.

Lemma block_size_split p q : 0 <= p <= q -> q <= 32 -> block_size p = block_size q * 2 ^ (q - p).
Proof. intros H Hq. unfold block_size. rewrite <- Z.pow_add_r by lia. f_equal. lia. Qed.

(** A network address is a multiple of its block's size. *)
Lemma network_multiple n :
  exists a, net_network n = block_size (net_prefix_len n) * a /\ 0 <= a.
Proof.
  pose proof (net_prefix_range n). pose proof (block_size_pos (net_prefix_len n) ltac:(lia)) as Hb.
  exists (net_addr n / block_size (net_prefix_len n)). rewrite net_network_def.
  unfold block_size in *. pose proof (net_addr_u32 n) as Ha. unfold is_u32 in Ha. split.
  - pose proof (Z.div_mod (net_addr n) (2 ^ (32 - net_prefix_len n))). lia.
  - apply Z.div_pos; lia.
Qed.

Lemma network_range n : 0 <= net_network n <= net_broadcast n /\ net_broadcast n <= u32_max.
Proof.
  destruct (network_multiple n) as (a & Ha & Ha0). pose proof (net_prefix_range n) as Hp.
  pose proof (block_size_pos (net_prefix_len n) ltac:(lia)) as Hb.
  pose proof (net_network_def n) as Hn. pose proof (net_addr_u32 n) as Hu. unfold is_u32, u32_max in *.
  rewrite net_broadcast_def. fold (block_size (net_prefix_len n)) in *.
  pose proof (Z.mod_pos_bound (net_addr n) (block_size (net_prefix_len n)) Hb).
  assert (4294967296 = block_size (net_prefix_len n) * 2 ^ net_prefix_len n) as Htop.
  { change 4294967296 with (block_size 0). rewrite (block_size_split 0 (net_prefix_len n)) by lia.
    by rewrite Z.sub_0_r. }
  assert (block_size (net_prefix_len n) * a <= 4294967295) as Hle by (rewrite <- Ha, Hn; lia).
  set (s := block_size (net_prefix_len n)) in *. set (t := 2 ^ net_prefix_len n) in *.
  assert (a < t) by nia. rewrite Ha. nia.
Qed.

(** A block of a longer prefix that starts in a pool lies in it. *)
Lemma block_inside pool n :
  net_prefix_len pool <= net_prefix_len n -> net_contains pool (net_network n) = true ->
  net_network pool <= net_network n /\ net_broadcast n <= net_broadcast pool.
Proof.
  intros Hp [Hlo Hhi]%net_contains_def. split; [done|].
  pose proof (net_prefix_range pool) as Hq. pose proof (net_prefix_range n) as Hq'.
  destruct (network_multiple pool) as (a & Ha & _). destruct (network_multiple n) as (b & Hb & _).
  pose proof (block_size_split (net_prefix_len pool) (net_prefix_len n) ltac:(lia) ltac:(lia)) as Hsp.
  pose proof (block_size_pos (net_prefix_len n) ltac:(lia)) as Hs.
  rewrite net_broadcast_def in Hhi. rewrite !net_broadcast_def.
  fold (block_size (net_prefix_len n)) (block_size (net_prefix_len pool)) in *.
  generalize dependent (block_size (net_prefix_len n)). intros s Hb Hsp Hs.
  generalize dependent (2 ^ (net_prefix_len n - net_prefix_len pool)). intros t Hsp.
  rewrite Hsp in *. rewrite Ha, Hb in *.
  assert (b < t * (a + 1)) by (apply (Z.mul_lt_mono_pos_l s); lia).
  assert (s * (b + 1) <= s * (t * (a + 1))) by (apply Z.mul_le_mono_nonneg_l; lia). lia.
Qed.

Definition disjoint_nets (n m : Ipv4Net) : Prop :=
  net_broadcast n < net_network m \/ net_broadcast m < net_network n.

(** Blocks of one size that start at different addresses do not meet. *)
Lemma blocks_disjoint n m :
  net_prefix_len n = net_prefix_len m -> net_network n <> net_network m -> disjoint_nets n m.
Proof.
  intros Hp Hne. destruct (network_multiple n) as (a & Ha & _).
  destruct (network_multiple m) as (b & Hb & _). unfold disjoint_nets. rewrite !net_broadcast_def.
  pose proof (net_prefix_range m). pose proof (block_size_pos (net_prefix_len m) ltac:(lia)) as Hs.
  rewrite <- Hp in *. fold (block_size (net_prefix_len n)) in *.
  set (s := block_size (net_prefix_len n)) in *. rewrite Ha, Hb in *.
  assert (a < b \/ b < a) as [?|?] by (destruct (Z.lt_trichotomy a b) as [?|[->|?]]; [lia|done|lia]); nia.
Qed.

(** Below the top of the address space the step is the size of a block. *)
Lemma subnet_step_size pool prefix :
  net_broadcast pool < u32_max -> net_prefix_len pool <= prefix <= 32 ->
  1 <= prefix /\ subnet_step prefix = block_size prefix.
Proof.
  intros Htop Hp. pose proof (net_prefix_range pool) as Hq.
  assert (1 <= prefix).
  { destruct (decide (prefix = 0)) as [->|]; [|lia]. exfalso.
    assert (net_prefix_len pool = 0) as H0 by lia.
    destruct (network_range pool) as [H1 _]. rewrite net_broadcast_def, H0 in Htop.
    unfold u32_max in Htop. change (2 ^ (32 - 0)) with 4294967296 in Htop. lia. }
  split; [done|]. unfold subnet_step. destruct (Z.ltb_spec (32 - prefix) 32); [|lia].
  by rewrite Z.shiftl_1_l.
Qed.

(** What a slot of the pool makes. *)
Lemma slot_net pool prefix k :
  net_broadcast pool < u32_max -> net_prefix_len pool <= prefix <= 32 -> 0 <= k ->
  let n := net_network pool + k * subnet_step prefix in
  n <= net_broadcast pool ->
  exists v, net_new n prefix = Some v /\ net_network v = n /\
    (net_prefix_len v =? prefix) && net_contains pool (net_network v) = true.
Proof.
  intros Htop Hp Hk n Hle. destruct (subnet_step_size pool prefix Htop Hp) as [H1 Hstep].
  destruct (network_range pool) as [[H0 _] _]. pose proof (net_prefix_range pool) as Hq.
  pose proof (block_size_pos prefix ltac:(lia)) as Hs.
  destruct (net_new_some n prefix) as (v & Hv & Haddr & Hpl); [unfold is_u32, u32_max in *; nia|lia|].
  exists v. split; [done|].
  assert (net_network v = n) as Hnet.
  { rewrite net_network_def, Haddr, Hpl. fold (block_size prefix).
    destruct (network_multiple pool) as (a & Ha & _).
    assert (n = (2 ^ (prefix - net_prefix_len pool) * a + k) * block_size prefix) as Hn.
    { unfold n. rewrite Ha, Hstep, (block_size_split (net_prefix_len pool) prefix) by lia. ring. }
    rewrite Hn, Z.mod_mul by lia. lia. }
  split; [done|]. rewrite Hnet, Hpl, Z.eqb_refl. simpl. apply net_contains_def. nia.
Qed.
End NetFacts.

(* ------------------------------------------------------------------ *)
(** ** Properties of the allocators *)

Section AllocatorFacts.
Context `{api : Ipv4NetApi} {laws : Ipv4NetLaws api}.

Lemma allocate_prefix pool prefix existing hosts r :
  allocate pool prefix existing hosts = Some (Ok r) -> net_prefix_len pool <= prefix <= 32.
Proof.
  unfold allocate. destruct (Z.ltb_spec prefix (net_prefix_len pool)); [done|].
  destruct (Z.ltb_spec 32 prefix); [done|lia].
Qed.

(** [assign_spec] at the subnets of a pool. *)
Lemma allocate_spec pool prefix existing hosts :
  net_broadcast pool < u32_max -> net_prefix_len pool <= prefix <= 32 ->
  let usable net := (net_prefix_len net =? prefix) && net_contains pool (net_network net) in
  match allocate pool prefix existing hosts with
  | Some (Ok (m, ws)) =>
      NoDup hosts /\
      (forall h, is_Some (m !! h) <-> h ∈ hosts) /\
      (forall h v, m !! h = Some v -> usable v = true) /\
      (forall h h' v v', m !! h = Some v -> m !! h' = Some v' -> net_network v = net_network v' -> h = h') /\
      (forall h v, keeper net_network usable hosts existing h v -> m !! h = Some v) /\
      ((forall h v, existing !! h = Some v -> keeper net_network usable hosts existing h v) -> ws = [])
  | Some (Err e) =>
      (exists h, e = DuplicateHost h /\ ~ NoDup hosts) \/
      (e = PoolExhausted /\
       (exists h, h ∈ hosts /\ forall v, ~ keeper net_network usable hosts existing h v) /\
       forall m, (forall i, 0 <= i < Z.of_nat m ->
                    net_network pool + i * subnet_step prefix <= net_broadcast pool) ->
                 (m < length hosts)%nat)
  | None => False
  end.
Proof.
  intros Htop Hp usable. unfold allocate.
  destruct (subnet_step_size pool prefix Htop Hp) as [H1 Hstep].
  destruct (Z.ltb_spec prefix (net_prefix_len pool)); [lia|].
  destruct (Z.ltb_spec 32 prefix); [lia|]. simpl.
  destruct (network_range pool) as [[? ?] ?].
  apply assign_spec; [unfold is_u32; lia| |done|].
  - rewrite Hstep. apply block_size_pos. lia.
  - intros k Hk Hle. by apply slot_net.
Qed.

(** C20. Subnets never collide: a successful allocation from a pool that does not
    end at the top of the address space gives a subnet to each host, and to no
    one else, of the requested size, wholly inside the pool, and disjoint from
    the subnet of every other host. *)
Theorem allocate_disjoint pool prefix existing hosts m ws :
  net_broadcast pool < u32_max ->
  allocate pool prefix existing hosts = Some (Ok (m, ws)) ->
  (forall h, is_Some (m !! h) <-> h ∈ hosts) /\
  (forall h n, m !! h = Some n -> net_prefix_len n = prefix /\
     net_network pool <= net_network n /\ net_broadcast n <= net_broadcast pool) /\
  (forall h h' n n', h <> h' -> m !! h = Some n -> m !! h' = Some n' -> disjoint_nets n n').
Proof.
  intros Htop Ha.
  pose proof (allocate_prefix _ _ _ _ _ Ha) as Hp.
  pose proof (allocate_spec pool prefix existing hosts Htop Hp) as Hs. rewrite Ha in Hs.
  destruct Hs as (_ & Hdom & Hus & Hinj & _).
  assert (forall h n, m !! h = Some n -> net_prefix_len n = prefix /\
            net_contains pool (net_network n) = true) as Hu.
  { intros h n Hn. apply Hus, andb_true_iff in Hn as [->%Z.eqb_eq ?]. done. }
  split_and!; [done| |].
  - intros h n [Hpl Hc]%Hu. split; [done|]. apply block_inside; [lia|done].
  - intros h h' n n' Hne Hn Hn'. apply blocks_disjoint.
    + by rewrite (proj1 (Hu _ _ Hn)), (proj1 (Hu _ _ Hn')).
    + intros Heq. by eapply Hne, Hinj.
Qed.

(** The allocator fails only when it must: for distinct hosts, as many as
    the pool has blocks of the requested size or fewer, it returns an
    assignment, whatever was assigned before. *)
Theorem allocate_total pool prefix existing hosts :
  net_broadcast pool < u32_max -> net_prefix_len pool <= prefix <= 32 ->
  NoDup hosts -> Z.of_nat (length hosts) <= 2 ^ (prefix - net_prefix_len pool) ->
  exists m ws, allocate pool prefix existing hosts = Some (Ok (m, ws)).
Proof.
  intros Htop Hp Hn Hlen.
  pose proof (allocate_spec pool prefix existing hosts Htop Hp) as Hs.
  destruct (allocate pool prefix existing hosts) as [[[m ws]|e]|]; [eauto| |done]. exfalso.
  destruct Hs as [(h & _ & Hd)|(_ & _ & Hroom)]; [done|].
  assert (Z.to_nat (2 ^ (prefix - net_prefix_len pool)) < length hosts)%nat; [|lia].
  apply Hroom. intros i Hi. destruct (subnet_step_size pool prefix Htop Hp) as [_ Hstep].
  rewrite net_broadcast_def, Hstep. fold (block_size (net_prefix_len pool)).
  pose proof (net_prefix_range pool).
  rewrite (block_size_split (net_prefix_len pool) prefix) by lia.
  pose proof (block_size_pos prefix ltac:(lia)).
  rewrite Z2Nat.id in Hi by lia. set (t := 2 ^ (prefix - net_prefix_len pool)) in *.
  assert ((i + 1) * block_size prefix <= t * block_size prefix) by (apply Z.mul_le_mono_nonneg_r; lia).
  lia.
Qed.

Lemma stable_spec pool prefix existing hosts m ws :
  net_broadcast pool < u32_max ->
  allocate pool prefix existing hosts = Some (Ok (m, ws)) ->
  (forall h n, existing !! h = Some n -> h ∈ hosts ->
     net_prefix_len n = prefix -> net_contains pool (net_network n) = true ->
     (forall h' n', existing !! h' = Some n' -> h' ∈ hosts -> net_network n' = net_network n -> h' = h) ->
     m !! h = Some n) /\
  allocate pool prefix m hosts = Some (Ok (m, [])).
Proof.
  intros Htop Ha.
  pose proof (allocate_prefix _ _ _ _ _ Ha) as Hp.
  pose proof (allocate_spec pool prefix existing hosts Htop Hp) as Hs. rewrite Ha in Hs.
  destruct Hs as (Hnd & Hdom & Hus & Hinj & Hkeep & _). split.
  - intros h n Hn Hh Hpl Hc Huniq. apply Hkeep. split_and!; [done|done| |eauto].
    by rewrite Hpl, Z.eqb_refl, Hc.
  - pose proof (allocate_spec pool prefix m hosts Htop Hp) as Hs.
    assert (forall h v, m !! h = Some v -> keeper net_network
              (fun net => (net_prefix_len net =? prefix) && net_contains pool (net_network net))
              hosts m h v) as Hall.
    { intros h v Hv. split_and!; [done|apply Hdom; eauto|eauto|]. intros h' v' Hv' _ _ Heq. eauto. }
    destruct (allocate pool prefix m hosts) as [[[m' ws']|e]|] eqn:Ha'; [| |done].
    + destruct Hs as (_ & Hdom' & _ & _ & Hkeep' & Hws). rewrite (Hws Hall). do 3 f_equal.
      apply map_eq. intros h. destruct (m !! h) as [v|] eqn:Hv; [by apply Hkeep', Hall|].
      destruct (m' !! h) as [v'|] eqn:Hv'; [|done].
      assert (is_Some (m !! h)) as [v Hv2] by (apply Hdom, Hdom'; eauto). congruence.
    + destruct Hs as [(h & _ & Hd)|(_ & (h & Hh & Hno) & _)]; [done|]. exfalso.
      apply Hdom in Hh as [v Hv]. by eapply Hno, Hall.
Qed.

(** Assignments are stable: a host keeps its subnet whenever that is a block
    of the right size in the pool that no other wanted host claims, whatever
    hosts are added or removed around it; and running the allocator again on its
    own result changes nothing and warns of nothing. *)
Theorem allocate_stable pool prefix existing hosts m ws :
  net_broadcast pool < u32_max ->
  allocate pool prefix existing hosts = Some (Ok (m, ws)) ->
  (forall h n, existing !! h = Some n -> h ∈ hosts ->
     net_prefix_len n = prefix -> net_contains pool (net_network n) = true ->
     (forall h' n', existing !! h' = Some n' -> h' ∈ hosts -> net_network n' = net_network n -> h' = h) ->
     m !! h = Some n) /\
  allocate pool prefix m hosts = Some (Ok (m, [])).
Proof. apply stable_spec. Qed.

Lemma mgmt_spec pool existing hosts :
  let usable ip := net_network pool < ip < net_broadcast pool in
  match allocate_mgmt_ips pool existing hosts with
  | Some (Ok (m, ws)) =>
      (forall h, is_Some (m !! h) <-> h ∈ hosts) /\
      (forall h ip, m !! h = Some ip -> usable ip) /\
      (forall h h' ip, m !! h = Some ip -> m !! h' = Some ip -> h = h') /\
      (forall h ip, existing !! h = Some ip -> h ∈ hosts -> usable ip ->
         (forall h', existing !! h' = Some ip -> h' ∈ hosts -> h' = h) -> m !! h = Some ip) /\
      ((forall h ip, existing !! h = Some ip -> h ∈ hosts /\ usable ip) ->
       (forall h h' ip, existing !! h = Some ip -> existing !! h' = Some ip -> h = h') -> ws = [])
  | Some (Err (DuplicateHost _)) => ~ NoDup hosts
  | Some (Err e) =>
      e = PoolExhausted /\
      (exists h, h ∈ hosts /\ forall ip, existing !! h = Some ip -> usable ip ->
         exists h', existing !! h' = Some ip /\ h' ∈ hosts /\ h' <> h) /\
      net_broadcast pool - net_network pool - 1 < Z.of_nat (length hosts)
  | None => False
  end.
Proof.
  intros usable. destruct (network_range pool) as [[? ?] ?].
  set (us := fun ip => negb ((ip =? net_network pool) || (ip =? net_broadcast pool)
                             || negb (net_contains pool ip))).
  assert (forall ip, us ip = true <-> usable ip) as Hus.
  { intros ip. unfold us, usable. rewrite negb_true_iff, !orb_false_iff, negb_false_iff, !Z.eqb_neq,
      net_contains_def. lia. }
  pose proof (assign_spec (fun ip => ip) us
    (fun ip => "existing mgmt IP " +:+ show_ipv4 ip +:+ " is not usable inside pool " +:+
               net_show pool +:+ ", reassigning")
    (fun ip => "duplicate mgmt IP " +:+ show_ipv4 ip +:+ ", reassigning")
    Some (sat_add32 (net_network pool) 1) 1 (net_broadcast pool - 1) hosts) as Hs.
  specialize (Hs ltac:(apply sat_add32_u32; unfold is_u32; lia) ltac:(lia) ltac:(lia)).
  specialize (Hs ltac:(intros k Hk Hle; eexists; split_and!; [done|done|]; apply Hus; unfold usable, sat_add32 in *; lia)
                existing).
  unfold allocate_mgmt_ips. fold us.
  destruct (assign _ _ _ _ _ _ _ _ _ existing) as [[[m ws]|e]|]; [| |done].
  - destruct Hs as (_ & Hdom & Hu & Hinj & Hk & Hws). split_and!; [done| |eauto| |].
    + intros h ip Hip. apply Hus. eauto.
    + intros h ip Hex Hh Hip Huniq. apply Hk. split_and!; [done|done|by apply Hus|].
      intros h' v' Hv' Hh' _ ->. eauto.
    + intros Hall Hone. apply Hws. intros h ip Hip. destruct (Hall h ip Hip) as [Hh Hu'].
      split_and!; [done|done|by apply Hus|]. intros h' v' Hv' _ _ ->. eauto.
  - destruct Hs as [(h & -> & Hd)|(-> & (h & Hh & Hno) & Hroom)]; [done|]. split_and!; [done| |].
    { exists h. split; [done|]. intros ip Hip Hu.
      destruct (decide (Exists (fun h' => existing !! h' = Some ip /\ h' <> h) hosts)) as [Hx|Hn];
        [apply Exists_exists in Hx as (h' & ? & ? & ?); by exists h'|]. exfalso. apply (Hno ip). split_and!; [done|done|by apply Hus|].
      intros h' v' Hv' Hh' _ ->. destruct (decide (h' = h)); [done|]. exfalso. apply Hn, Exists_exists. by exists h'. }
    destruct (decide (net_broadcast pool - net_network pool - 1 < 0)) as [|Hpos]; [lia|].
    specialize (Hroom (Z.to_nat (net_broadcast pool - net_network pool - 1))).
    rewrite Z2Nat.id in Hroom by lia.
    specialize (Hroom ltac:(intros i Hi; unfold sat_add32; lia)). lia.
Qed.

(** Management addresses, in every case: the allocator returns; on success
    each host and no other has an address, strictly between the network and the
    broadcast address of the pool and its own alone, and a usable address no
    other wanted host claims is kept; otherwise a host is listed twice, or the
    pool has fewer usable addresses than there are hosts. *)
Theorem allocate_mgmt_ips_correct pool existing hosts :
  let usable ip := net_network pool < ip < net_broadcast pool in
  match allocate_mgmt_ips pool existing hosts with
  | Some (Ok (m, ws)) =>
      (forall h, is_Some (m !! h) <-> h ∈ hosts) /\
      (forall h ip, m !! h = Some ip -> usable ip) /\
      (forall h h' ip, m !! h = Some ip -> m !! h' = Some ip -> h = h') /\
      (forall h ip, existing !! h = Some ip -> h ∈ hosts -> usable ip ->
         (forall h', existing !! h' = Some ip -> h' ∈ hosts -> h' = h) -> m !! h = Some ip)
  | Some (Err (DuplicateHost _)) => ~ NoDup hosts
  | Some (Err e) =>
      e = PoolExhausted /\ net_broadcast pool - net_network pool - 1 < Z.of_nat (length hosts)
  | None => False
  end.
Proof.
  pose proof (mgmt_spec pool existing hosts) as H. cbv zeta in *.
  destruct (allocate_mgmt_ips pool existing hosts) as [[[m ws]|[]]|]; tauto.
Qed.

Lemma regroup_lookup (flat : gmap string Ipv4Net) l ns h : forall out,
  foldl (fun out '(ns, h) =>
           match flat !! pair_key ns h with
           | Some net => entry_insert ns h net out
           | None => out
           end) out l !! ns ≫= (fun m => m !! h) =
  if decide ((ns, h) ∈ l /\ is_Some (flat !! pair_key ns h)) then flat !! pair_key ns h
  else out !! ns ≫= (fun m => m !! h).
Proof.
  induction l as [|[ns' h'] l IH]; intros out.
  { cbn [foldl]. rewrite decide_False; [done|]. by intros [[]%elem_of_nil _]. }
  cbn [foldl]. rewrite IH. clear IH.
  destruct (decide ((ns, h) ∈ l /\ is_Some (flat !! pair_key ns h))) as [[H1 H2]|Hn].
  { rewrite decide_True; [done|]. split; [by right|done]. }
  destruct (decide ((ns, h) = (ns', h'))) as [[= <- <-]|Hne].
  - destruct (flat !! pair_key ns h) as [net|] eqn:E.
    + rewrite decide_True by (split; [left|done]). unfold entry_insert.
      rewrite lookup_insert_eq. simpl. apply lookup_insert_eq.
    + rewrite decide_False; [done|]. intros [_ [? ?]]. done.
  - rewrite (decide_False (P := (ns, h) ∈ (ns', h') :: l /\ _))
      by (intros [[?|?]%elem_of_cons ?]; naive_solver).
    destruct (flat !! pair_key ns' h') as [net|]; [|done]. unfold entry_insert.
    rewrite lookup_insert. case_decide as D; [|done]. subst ns'. simpl.
    rewrite lookup_insert_ne by congruence. by destruct (out !! ns).
Qed.

Lemma pairs_elem (namespaces hosts : list string) ns h :
  (ns, h) ∈ (ns ← namespaces; h ← hosts; [(ns, h)]) <-> ns ∈ namespaces /\ h ∈ hosts.
Proof.
  rewrite list_elem_of_bind. split.
  - intros (ns' & (h' & Hin & Hh)%list_elem_of_bind & Hns).
    apply list_elem_of_singleton in Hin as [= -> ->]. done.
  - intros [Hns Hh]. exists ns. split; [|done]. apply list_elem_of_bind. exists h. split; [|done].
    by apply list_elem_of_singleton.
Qed.

Lemma pairs_keys (namespaces hosts : list string) :
  (ns ← namespaces; h ← hosts; [pair_key ns h]) =
  (fun nh => pair_key nh.1 nh.2) <$> (ns ← namespaces; h ← hosts; [(ns, h)]).
Proof.
  induction namespaces as [|ns namespaces IH]; [done|]. cbn [mbind list_bind].
  rewrite fmap_app. f_equal; [|apply IH]. clear IH.
  induction hosts as [|h hosts IH]; [done|]. cbn [mbind list_bind]. rewrite fmap_app. f_equal. apply IH.
Qed.

Lemma namespaced_spec pool prefix existing namespaces hosts out ws :
  net_broadcast pool < u32_max ->
  allocate_namespaced pool prefix existing namespaces hosts = Some (Ok (out, ws)) ->
  let at_ := subnet_at out in
  (forall ns h, is_Some (at_ ns h) <-> ns ∈ namespaces /\ h ∈ hosts) /\
  (forall ns h n, at_ ns h = Some n -> net_prefix_len n = prefix /\
     net_network pool <= net_network n /\ net_broadcast n <= net_broadcast pool) /\
  (forall ns h ns' h' n n', (ns, h) <> (ns', h') ->
     at_ ns h = Some n -> at_ ns' h' = Some n' -> disjoint_nets n n').
Proof.
  intros Htop Ha at_. unfold allocate_namespaced in Ha.
  destruct (first_duplicate ∅ namespaces) as [d|]; [done|].
  rewrite pairs_keys in Ha. set (pairs := (ns ← namespaces; h ← hosts; [(ns, h)])) in *.
  set (keys := (fun nh => pair_key nh.1 nh.2) <$> pairs) in *.
  destruct (allocate pool prefix _ keys) as [[[flat w]|]|] eqn:Hal; [|done|done].
  injection Ha as <- <-.
  pose proof (allocate_prefix _ _ _ _ _ Hal) as Hp.
  pose proof (allocate_spec pool prefix (all_existing existing namespaces hosts) keys Htop Hp) as Hs.
  rewrite Hal in Hs. destruct Hs as (Hnd & Hdom & Hus & Hinj & _).
  assert (forall ns h n, at_ ns h = Some n -> (ns, h) ∈ pairs /\ flat !! pair_key ns h = Some n) as Hat.
  { intros ns h n. unfold at_, subnet_at, regroup. rewrite regroup_lookup. case_decide as D; [tauto|done]. }
  assert (forall h n, flat !! h = Some n -> net_prefix_len n = prefix /\
            net_contains pool (net_network n) = true) as Hu.
  { intros h n Hn. apply Hus, andb_true_iff in Hn as [->%Z.eqb_eq ?]. done. }
  split_and!.
  - intros ns h. rewrite <- pairs_elem. fold pairs. split; [intros [n [? _]%Hat]; done|].
    intros Hin. assert (is_Some (flat !! pair_key ns h)) as Hf.
    { apply Hdom. apply list_elem_of_fmap. by exists (ns, h). }
    unfold at_, subnet_at, regroup. rewrite regroup_lookup, decide_True by done. done.
  - intros ns h n [_ [Hpl Hc]%Hu]%Hat. split; [done|]. apply block_inside; [lia|done].
  - intros ns h ns' h' n n' Hne [Hin Hn]%Hat [Hin' Hn']%Hat. apply blocks_disjoint.
    + by rewrite (proj1 (Hu _ _ Hn)), (proj1 (Hu _ _ Hn')).
    + intros Heq. apply Hne.
      by apply (NoDup_fmap_inj_on (fun nh => pair_key nh.1 nh.2) pairs); [..|eapply Hinj].
Qed.

(** The same across namespaces: every (namespace, host) pair, and no other,
    has a subnet of the requested size inside the container pool, and the
    subnets of two different pairs never overlap. *)
Theorem allocate_namespaced_disjoint pool prefix existing namespaces hosts out ws :
  net_broadcast pool < u32_max ->
  allocate_namespaced pool prefix existing namespaces hosts = Some (Ok (out, ws)) ->
  let at_ := subnet_at out in
  (forall ns h, is_Some (at_ ns h) <-> ns ∈ namespaces /\ h ∈ hosts) /\
  (forall ns h n, at_ ns h = Some n -> net_prefix_len n = prefix /\
     net_network pool <= net_network n /\ net_broadcast n <= net_broadcast pool) /\
  (forall ns h ns' h' n n', (ns, h) <> (ns', h') ->
     at_ ns h = Some n -> at_ ns' h' = Some n' -> disjoint_nets n n').
Proof. apply namespaced_spec. Qed.
(** *** Allocating again *)

Lemma mgmt_idem pool existing hosts m ws :
  allocate_mgmt_ips pool existing hosts = Some (Ok (m, ws)) ->
  allocate_mgmt_ips pool m hosts = Some (Ok (m, [])).
Proof.
  intros Ha. pose proof (mgmt_spec pool existing hosts) as Hs. rewrite Ha in Hs. cbv zeta in Hs.
  destruct Hs as (Hdom & Hus & Hinj & _ & _).
  pose proof (mgmt_spec pool m hosts) as Hs. cbv zeta in Hs.
  assert (NoDup hosts) as Hnd.
  { unfold allocate_mgmt_ips, assign in Ha. destruct (first_duplicate ∅ hosts) eqn:Hd; [done|].
    by apply first_duplicate_None in Hd as [? _]. }
  destruct (allocate_mgmt_ips pool m hosts) as [[[m' ws']|e]|]; [| |done].
  - destruct Hs as (Hdom' & _ & _ & Hkeep & Hws). rewrite Hws.
    2: { intros h ip Hip. split; [apply Hdom; eauto|eauto]. }
    2: { done. }
    do 3 f_equal.
    apply map_eq. intros h. destruct (m !! h) as [ip|] eqn:Hip.
    + apply Hkeep; [done|apply Hdom; eauto|eauto|]. intros h' Hh' _. eauto.
    + destruct (m' !! h) as [ip'|] eqn:Hip'; [|done].
      assert (is_Some (m !! h)) as [? ?] by (apply Hdom, Hdom'; eauto). congruence.
  - exfalso. destruct e as [|d|n| |]; [|done|..].
    all: destruct Hs as (_ & (h & Hh & Hno) & _); apply Hdom in Hh as [ip Hip];
      destruct (Hno ip Hip) as (h' & Hh' & _ & Hne); [eauto|]; apply Hne; eauto.
Qed.

Lemma all_existing_lookup (existing : gmap string (gmap string Ipv4Net)) (l : list (string * string)) :
  forall acc : gmap string Ipv4Net,
  NoDup ((fun nh => pair_key nh.1 nh.2) <$> l) ->
  let res := foldl (fun acc '(ns, h) =>
               match subnet_at existing ns h with
               | Some n => <[pair_key ns h := n]> acc
               | None => acc
               end) acc l in
  (forall ns h n, (ns, h) ∈ l -> subnet_at existing ns h = Some n -> res !! pair_key ns h = Some n) /\
  (forall k, k ∉ ((fun nh => pair_key nh.1 nh.2) <$> l) -> res !! k = acc !! k).
Proof.
  induction l as [|[ns0 h0] l IH]; intros acc Hn; cbn [foldl].
  { split; [intros ns h n []%elem_of_nil|done]. }
  rewrite fmap_cons in *. apply NoDup_cons in Hn as [Hnin Hn]. cbn [fst snd] in *.
  set (acc1 := match subnet_at existing ns0 h0 with Some n => <[pair_key ns0 h0 := n]> acc | None => acc end).
  destruct (IH acc1 Hn) as [H1 H2]. split.
  - intros ns h n [[= -> ->]|Hin]%elem_of_cons Hs; [|by apply H1].
    rewrite H2 by done. unfold acc1. by rewrite Hs, lookup_insert_eq.
  - intros k [Hk Hk']%not_elem_of_cons. rewrite H2 by done. unfold acc1.
    destruct (subnet_at existing ns0 h0); [|done]. by rewrite lookup_insert_ne.
Qed.

Lemma namespaced_idem pool prefix existing namespaces hosts out ws existing' :
  net_broadcast pool < u32_max ->
  allocate_namespaced pool prefix existing namespaces hosts = Some (Ok (out, ws)) ->
  (forall ns h, ns ∈ namespaces -> h ∈ hosts -> subnet_at existing' ns h = subnet_at out ns h) ->
  allocate_namespaced pool prefix existing' namespaces hosts = Some (Ok (out, [])).
Proof.
  intros Htop Ha Hsame. unfold allocate_namespaced in *.
  destruct (first_duplicate ∅ namespaces) as [d|]; [done|].
  rewrite pairs_keys in *. set (pairs := (ns ← namespaces; h ← hosts; [(ns, h)])) in *.
  set (keys := (fun nh => pair_key nh.1 nh.2) <$> pairs) in *.
  destruct (allocate pool prefix _ keys) as [[[flat w]|]|] eqn:Hal; [|done|done].
  injection Ha as <- <-.
  destruct (stable_spec pool prefix _ keys flat w Htop Hal) as [_ Hidem].
  pose proof (allocate_spec pool prefix (all_existing existing namespaces hosts) keys Htop
                (allocate_prefix _ _ _ _ _ Hal)) as Hs.
  rewrite Hal in Hs. destruct Hs as (Hnd & Hdom & _).
  assert (all_existing existing' namespaces hosts = flat) as ->; [|by rewrite Hidem].
  destruct (all_existing_lookup existing' pairs ∅ Hnd) as [H1 H2].
  apply map_eq. intros k. destruct (decide (k ∈ keys)) as [Hk|Hk].
  - pose proof (proj2 (Hdom k) Hk) as [n Hn].
    apply list_elem_of_fmap in Hk as ([ns h] & -> & Hin). cbn [fst snd] in *. rewrite Hn.
    apply pairs_elem in Hin as Hin'. destruct Hin' as [Hns Hh].
    apply H1; [done|]. rewrite Hsame by done. unfold subnet_at, regroup. rewrite regroup_lookup.
    rewrite decide_True; [done|]. split; [done|eauto].
  - unfold all_existing. fold pairs. rewrite H2 by done. rewrite lookup_empty.
    destruct (flat !! k) as [n|] eqn:Hn; [|done]. exfalso. apply Hk, Hdom. eauto.
Qed.

(** Allocation across namespaces returns. *)
Lemma namespaced_returns pool prefix existing namespaces hosts :
  net_broadcast pool < u32_max -> allocate_namespaced pool prefix existing namespaces hosts <> None.
Proof.
  intros Htop. unfold allocate_namespaced. destruct (first_duplicate ∅ namespaces); [done|].
  destruct (decide (net_prefix_len pool <= prefix <= 32)) as [Hp|Hp].
  - pose proof (allocate_spec pool prefix (all_existing existing namespaces hosts)
      (ns ← namespaces; h ← hosts; [pair_key ns h]) Htop Hp) as Hs.
    by destruct (allocate _ _ _ _) as [[[]|]|].
  - unfold allocate. destruct (Z.ltb_spec prefix (net_prefix_len pool)); [done|].
    destruct (Z.ltb_spec 32 prefix); [done|lia].
Qed.
End AllocatorFacts.

(* ------------------------------------------------------------------ *)
(** ** The properties at work, and the top of the address space *)

Module Demo.
Definition net (ip p : Z) : Ipv4Net := default (mkCnet 0 0 eq_refl) (cnet_new ip p).

Definition pool : Ipv4Net := net (of_octets 10 210 0 0) 16.
Definition hosts : list string := ["a"; "b"].
Definition before : gmap string Ipv4Net := {["b" := net (of_octets 10 210 7 0) 24]}.
Definition assignment : gmap string Ipv4Net :=
  match allocate pool 24 before hosts with Some (Ok (m, _)) => m | _ => ∅ end.

Lemma allocated : allocate pool 24 before hosts = Some (Ok (assignment, [])).
Proof. vm_compute. reflexivity. Qed.

Lemma allocate_disjoint_witness :
  net_broadcast pool < u32_max /\
  exists na nb, assignment !! "a" = Some na /\ assignment !! "b" = Some nb /\ disjoint_nets na nb.
Proof.
  assert (net_broadcast pool < u32_max) as Ht by (vm_compute; reflexivity). split; [exact Ht|].
  destruct (allocate_disjoint pool 24 before hosts assignment [] Ht allocated) as (Hdom & _ & Hd).
  destruct (proj2 (Hdom "a") ltac:(left)) as [na Ha].
  destruct (proj2 (Hdom "b") ltac:(right; left)) as [nb Hb].
  exists na, nb. split; [exact Ha|]. split; [exact Hb|]. exact (Hd "a" "b" na nb ltac:(discriminate) Ha Hb).
Defined.

Lemma allocate_total_witness : exists m ws, allocate pool 24 before hosts = Some (Ok (m, ws)).
Proof.
  apply (allocate_total pool 24 before hosts).
  - vm_compute. reflexivity.
  - vm_compute. split; discriminate.
  - apply (bool_decide_eq_true_1 _). vm_compute. reflexivity.
  - vm_compute. discriminate.
Defined.

Lemma allocate_stable_witness :
  assignment !! "b" = Some (net (of_octets 10 210 7 0) 24) /\
  allocate pool 24 assignment hosts = Some (Ok (assignment, [])).
Proof.
  destruct (allocate_stable pool 24 before hosts assignment [] ltac:(vm_compute; reflexivity) allocated)
    as [Hk Hi].
  split; [|exact Hi]. apply Hk; try reflexivity.
  - right; left.
  - unfold before. intros h' n' [<- _]%lookup_singleton_Some _ _. reflexivity.
Defined.

Definition ns_assignment : gmap string (gmap string Ipv4Net) :=
  match allocate_namespaced pool 24 ∅ ["default"; "db"] hosts with Some (Ok (m, _)) => m | _ => ∅ end.

Lemma allocate_namespaced_disjoint_witness :
  exists n n', subnet_at ns_assignment "default" "a" = Some n /\
    subnet_at ns_assignment "db" "a" = Some n' /\ disjoint_nets n n'.
Proof.
  destruct (allocate_namespaced_disjoint pool 24 ∅ ["default"; "db"] hosts ns_assignment []
              ltac:(vm_compute; reflexivity) ltac:(vm_compute; reflexivity)) as (Hdom & _ & Hd).
  destruct (proj2 (Hdom "default" "a") ltac:(split; left)) as [n Hn].
  destruct (proj2 (Hdom "db" "a") ltac:(split; [right; left|left])) as [n' Hn'].
  exists n, n'. split; [exact Hn|]. split; [exact Hn'|].
  exact (Hd "default" "a" "db" "a" n n' ltac:(discriminate) Hn Hn').
Defined.

Definition mgmt_pool : Ipv4Net := net (of_octets 10 200 0 0) 24.
Definition mgmt_assignment : gmap string Z :=
  match allocate_mgmt_ips mgmt_pool {["b" := of_octets 10 200 0 9]} hosts with Some (Ok (m, _)) => m | _ => ∅ end.

Lemma allocate_mgmt_ips_correct_witness :
  mgmt_assignment !! "b" = Some (of_octets 10 200 0 9) /\
  forall ip, mgmt_assignment !! "a" = Some ip -> mgmt_assignment !! "b" = Some ip -> "a" = "b".
Proof.
  pose proof (allocate_mgmt_ips_correct mgmt_pool {["b" := of_octets 10 200 0 9]} hosts) as H.
  replace (allocate_mgmt_ips mgmt_pool {["b" := of_octets 10 200 0 9]} hosts)
    with (Some (Ok (T := gmap string Z * list Warning) (E := AllocError) (mgmt_assignment, []))) in H
    by (vm_compute; reflexivity).
  destruct H as (_ & _ & Hinj & Hkeep). split; [|intros ip; apply Hinj].
  apply Hkeep; [reflexivity|right; left|vm_compute; split; reflexivity|].
  intros h' [<- _]%lookup_singleton_Some _. reflexivity.
Defined.

(** The last /24 of the address space, in halves. *)
Definition top_pool : Ipv4Net := net (of_octets 255 255 255 0) 24.
Definition top3 : gmap string Ipv4Net :=
  match allocate top_pool 25 ∅ ["a"; "b"; "c"] with Some (Ok (m, _)) => m | _ => ∅ end.

(** At the top of the address space the saturating step breaks the
    allocator: in the pool 255.255.255.0/24, which has two /25 blocks, a third
    host is not refused but given a subnet whose network is the second host's,
    and with a fourth the search goes on for ever. *)
Theorem allocate_top_of_space :
  allocate top_pool 25 ∅ ["a"; "b"; "c"] = Some (Ok (top3, [])) /\
  net_network <$> top3 !! "b" = net_network <$> top3 !! "c" /\
  allocate top_pool 25 ∅ ["a"; "b"; "c"; "d"] = None /\
  forall fuel, search (subnet_step 25) (net_broadcast top_pool)
    {[4294967040; 4294967168; 4294967295]} fuel (net_network top_pool) = None.
Proof.
  split; [vm_compute; reflexivity|]. split; [vm_compute; reflexivity|].
  split; [vm_compute; reflexivity|].
  apply search_loops; [vm_compute; reflexivity|vm_compute; split; discriminate|].
  vm_compute. reflexivity.
Qed.
End Demo.
