(* ===== verification/Mesh.v ===== *)
(** * The mesh: observed and desired state

    [coolify-cli/src/wireguard/state.rs], the actions and plans of
    [wireguard/plan.rs], and the names the command line admits
    ([coolify-cli/src/meshnet.rs]). *)

From S2P Require Import Prelude RustStr Net Subnet.
Local Open Scope Z_scope.

(* ------------------------------------------------------------------ *)
(** ** Names ([meshnet.rs]) *)

Definition podman_network_for (ns : string) : string := "coolify-" +:+ ns +:+ "-mesh".

Definition in_range (lo hi : ascii) (c : ascii) : bool :=
  ((N_of_ascii lo <=? N_of_ascii c) && (N_of_ascii c <=? N_of_ascii hi))%N.
Definition lower_alnum (c : ascii) : bool := in_range "a" "z" c || in_range "0" "9" c.
Definition alnum (c : ascii) : bool := lower_alnum c || in_range "A" "Z" c.

(** The regular expression of a DNS label: one to 63 characters, lower-case
    letters, digits and dashes, no dash at either end. *)
Definition is_label (s : string) : bool :=
  match s with
  | "" => false
  | String c _ =>
      lower_alnum c && (String.length s <=? 63)%nat &&
      all_chars (fun c => lower_alnum c || bool_decide (c = "-"%char)) s &&
      match last_char s with Some l => lower_alnum l | None => false end
  end.

(** A leading alphanumeric, then at most [max] of alphanumerics and [._-]. *)
Definition is_word (max : nat) (s : string) : bool :=
  match s with
  | "" => false
  | String c r =>
      alnum c && (String.length r <=? max)%nat &&
      all_chars (fun c => alnum c || bool_decide (c ∈ ["."; "_"; "-"]%char)) r
  end.

Inductive NameError :=
  | NoNamespaces
  | InvalidNamespace (ns : string)
  | RepeatedNamespace (ns : string)
  | InvalidInterface (iface : string)
  | InvalidVersion (label version : string).

Fixpoint check_namespaces (seen : gset string) (l : list string) : result unit NameError :=
  match l with
  | [] => Ok ()
  | ns :: l' =>
      if negb (is_label ns) then Err (InvalidNamespace ns)
      else if decide (ns ∈ seen) then Err (RepeatedNamespace ns)
      else check_namespaces ({[ns]} ∪ seen) l'
  end.

Definition validate_namespaces (namespaces : list string) : result unit NameError :=
  match namespaces with
  | [] => Err NoNamespaces
  | _ => check_namespaces ∅ namespaces
  end.

Definition validate_namespace (ns : string) : result unit NameError :=
  if is_label ns then Ok () else Err (InvalidNamespace ns).

Definition validate_interface (iface : string) : result unit NameError :=
  if is_word 14 iface then Ok () else Err (InvalidInterface iface).

Definition validate_version (label version : string) : result unit NameError :=
  if is_word 63 version then Ok () else Err (InvalidVersion label version).

(* ------------------------------------------------------------------ *)
(** ** Observed state *)

Section State.
Context `{api : Ipv4NetApi}.

Record Peer := mkPeer {
  p_public_key : string;
  p_endpoint : string;
  p_allowed_ips : list string;
  p_latest_handshake : Z;
  p_persistent_keepalive : Z;
}.
Definition peer_default : Peer := mkPeer "" "" [] 0 0.

Record NamespaceServerState := mkNs {
  ns_namespace : string;
  ns_network_exists : bool;
  ns_container_subnet : option Ipv4Net;
  ns_dns_enabled : bool;
  ns_label : string;
}.

Record ServerState := mkServerState {
  s_host : string;
  s_installed : bool;
  s_keys_exist : bool;
  s_public_key : string;
  s_wireguard_mgmt_ip : option Z;
  s_listen_port : Z;
  s_interface : string;
  s_active : bool;
  s_peers : list Peer;
  s_podman_installed : bool;
  s_podman_socket_active : bool;
  s_namespaces : gmap string NamespaceServerState;
  s_ip_forward_enabled : bool;
  s_firewall_active : bool;
  s_default_deny_active : bool;
  s_firewall_unit_sha256 : string;
  s_bridge_table_exists : bool;
  s_nft_available : bool;
  s_corrosion_installed : bool;
  s_corrosion_active : bool;
  s_corrosion_config_hash : string;
  s_corrosion_schema_exists : bool;
  s_corrosion_schema_sha256 : string;
  s_coold_installed : bool;
  s_coold_active : bool;
  s_corrosion_version : string;
  s_coold_version : string;
  s_coold_unit_sha256 : string;
}.

Definition server_default : ServerState :=
  mkServerState "" false false "" None 0 "" false [] false false ∅ false false false "" false false
    false false "" false "" false false "" "" "".

(** [MeshState]: the probed servers by host. *)
Definition MeshState : Type := gmap string ServerState.

Definition assigned_mgmt_ips (m : MeshState) : gmap string Z := omap s_wireguard_mgmt_ip m.

(** The subnets in use, by namespace and then by host. *)
Definition assigned_container_subnets (m : MeshState) : gmap string (gmap string Ipv4Net) :=
  foldl (fun out '(host, s) =>
    foldl (fun out '(ns, st) =>
      match ns_container_subnet st with
      | Some net => entry_insert ns host net out
      | None => out
      end) out (btree_list (s_namespaces s))) ∅ (btree_list m).

(* ------------------------------------------------------------------ *)
(** ** Desired state *)

Inductive Intent := Bootstrap | Extend | Upgrade.
#[export] Instance Intent_eq_dec : EqDecision Intent.
Proof. solve_decision. Defined.

Record SelfSignedCert := mkCert { cert_pem : string; key_pem : string }.

Record DesiredMesh := mkDesired {
  d_hosts : list string;
  d_nodes : list string;
  d_interface : string;
  d_mgmt_pool : Ipv4Net;
  d_container_pool : Ipv4Net;
  d_container_prefix : Z;
  d_listen_port : Z;
  d_listen_port_overrides : gmap string Z;
  d_endpoint_overrides : gmap string string;
  d_install_podman : bool;
  d_namespaces : list string;
  d_default_deny_containers : bool;
  d_install_coold : bool;
  d_coold_version : string;
  d_corrosion_version : string;
  d_corrosion_gossip_port : Z;
  d_corrosion_api_port : Z;
  d_coold_sha256 : option string;
  d_corrosion_sha256 : option string;
  d_corrosion_gossip_tls : option SelfSignedCert;
  d_flux_tls : option SelfSignedCert;
  d_flux_tls_url : option string;
  d_intent : Intent;
  d_new_nodes : list string;
  d_allow_replace : bool;
  d_allow_nightly : bool;
}.

Definition FLUX_PIN_PATH : string := "/etc/coolify/flux.pin".
Definition HOST_JWT_PATH : string := "/etc/coolify/host-jwt".

Record FluxConfig := mkFluxConfig {
  fc_url : string;
  fc_jwt_path : string;
  fc_tls_pin_path : option string;
}.

Definition is_node (d : DesiredMesh) (host : string) : bool :=
  existsb (fun h => bool_decide (h = host)) (d_nodes d).

Definition coold_flux_config (d : DesiredMesh) : option FluxConfig :=
  (fun url => mkFluxConfig url HOST_JWT_PATH (Some FLUX_PIN_PATH)) <$> d_flux_tls_url d.

Definition sorted_namespaces (d : DesiredMesh) : list string := merge_sort String.le (d_namespaces d).

Definition listen_port_for (d : DesiredMesh) (host : string) : Z :=
  default (d_listen_port d) (d_listen_port_overrides d !! host).

Definition endpoint_for (d : DesiredMesh) (host : string) : string :=
  match d_endpoint_overrides d !! host with
  | Some e => e
  | None => match split_once ":" host with Some (h, _) => h | None => host end
  end.

(* ------------------------------------------------------------------ *)
(** ** Actions and plans *)

Inductive ActionType :=
  | InstallWg | GenKeyPair | AllocateMgmtIp | AllocateContainerSubnet | WriteConfig
  | EnableService | ReloadService | AddPeer | RemovePeer | InstallPodman | EnablePodmanSocket
  | EnableIpForward | CreatePodmanNetwork | RecreatePodmanNetwork | InstallFirewall
  | InstallCorrosion | InstallCoold | WriteCorrosionConfig | WriteCorrosionSchema
  | InstallCorrosionService | InstallCooldService.
#[export] Instance ActionType_eq_dec : EqDecision ActionType.
Proof. solve_decision. Defined.

Record PlannedAction := mkAction {
  a_host : string;
  a_namespace : string;
  a_type : ActionType;
  a_detail : string;
}.

Record SkippedAction := mkSkipped { sk_action : PlannedAction; sk_reason : string }.

Record Plan := mkPlan {
  pl_actions : list PlannedAction;
  pl_mgmt_assignments : gmap string Z;
  pl_subnet_assignments : gmap string (gmap string Ipv4Net);
  pl_warnings : list Warning;
  pl_skipped : list SkippedAction;
}.

Definition plan_is_empty (p : Plan) : bool :=
  match pl_actions p with [] => true | _ => false end.
End State.

(* ------------------------------------------------------------------ *)
(** ** Properties *)

Definition name_char (c : ascii) : bool := alnum c || bool_decide (c ∈ ["."; "_"; "-"]%char).

Lemma label_chars ns : is_label ns = true -> all_chars name_char ns = true.
Proof.
  destruct ns as [|c r]; [done|]. cbn -[all_chars]. intros H. apply andb_true_iff in H as [H _].
  apply andb_true_iff in H as [_ H]. eapply all_chars_impl, H. intros c'. unfold name_char, alnum.
  rewrite !orb_true_iff. intros [->|Hc%bool_decide_eq_true]; [auto|].
  right. apply bool_decide_eq_true. subst. set_solver.
Qed.

Lemma word_chars n s : is_word n s = true -> all_chars name_char s = true.
Proof.
  destruct s as [|c r]; [done|]. simpl. rewrite !andb_true_iff. intros [[Hc _] Hr].
  split; [by unfold name_char; rewrite Hc|done].
Qed.

(** What [validate_namespaces] accepts: a non-empty list of distinct labels. *)
Lemma validate_namespaces_Ok l :
  validate_namespaces l = Ok () <->
  l <> [] /\ NoDup l /\ Forall (fun ns => is_label ns = true) l.
Proof.
  assert (forall seen, check_namespaces seen l = Ok () <->
            NoDup l /\ Forall (fun ns => is_label ns = true /\ ns ∉ seen) l) as Hc.
  { induction l as [|ns l IH]; intros seen; simpl.
    { split; [intros _; split; constructor|done]. }
    rewrite NoDup_cons, Forall_cons. destruct (is_label ns); simpl; [|naive_solver].
    case_decide; [naive_solver|]. rewrite IH. rewrite !Forall_forall. set_solver. }
  unfold validate_namespaces. destruct l as [|ns l]; [naive_solver|]. rewrite Hc.
  rewrite !Forall_forall. set_solver.
Qed.

(** The characters that end a word, quote or expand in a shell or a unit file. *)
Definition shell_chars : list ascii :=
  [" "; "009"; "010"; "013"; "034"; "'"; "`"; "$"; ";"; "&"; "|"; "<"; ">"; "("; ")"; "{"; "}"; "*"; "?";
   "["; "]"; "!"; "#"; "~"; "\"; "/"; "%"; "@"; "="; ","; ":"]%char.

Lemma name_char_not_shell c : c ∈ shell_chars -> name_char c = false.
Proof.
  intros Hc. assert (forallb (fun c => negb (name_char c)) shell_chars = true) as Hall by (vm_compute; reflexivity).
  rewrite forallb_forall in Hall. apply negb_true_iff, Hall. by apply list_elem_of_In.
Qed.

(** The names the command line admits are safe to write into a shell command
    or a systemd unit: namespaces are distinct, and no admitted namespace,
    interface or version is empty, longer than its limit, or has a character
    that a shell or a unit file treats specially. *)
Theorem validated_names_safe namespaces iface label version :
  validate_namespaces namespaces = Ok () -> validate_interface iface = Ok () ->
  validate_version label version = Ok () ->
  namespaces <> [] /\ NoDup namespaces /\
  Forall (fun ns => (String.length ns <= 63)%nat) namespaces /\
  (String.length iface <= 15)%nat /\ (String.length version <= 64)%nat /\
  forall s c, s ∈ iface :: version :: namespaces -> c ∈ shell_chars -> s <> "" /\ contains_char c s = false.
Proof.
  intros (Hne & Hnd & Hl)%validate_namespaces_Ok Hi Hv. unfold validate_interface, validate_version in *.
  destruct (is_word 14 iface) eqn:Ei, (is_word 63 version) eqn:Ev; try done.
  assert (forall n s, is_word n s = true -> (String.length s <= S n)%nat) as Hlen.
  { intros n [|x s]; [done|]. cbn. rewrite !andb_true_iff, Nat.leb_le. lia. }
  assert (forall s, is_label s = true -> (String.length s <= 63)%nat) as Hlab.
  { intros [|x s]; [done|]. unfold is_label. rewrite !andb_true_iff, Nat.leb_le. tauto. }
  split_and!; [done|done|by eapply Forall_impl| by apply (Hlen 14%nat)| by apply (Hlen 63%nat)|].
  intros s c Hs Hc. assert (s <> "" /\ all_chars name_char s = true) as [Hs0 Hsc].
  { rewrite !elem_of_cons in Hs. destruct Hs as [->|[->|Hs]].
    - split; [by destruct iface|by eapply word_chars].
    - split; [by destruct version|by eapply word_chars].
    - rewrite Forall_forall in Hl. specialize (Hl _ Hs). split; [by destruct s|by apply label_chars]. }
  split; [done|]. eapply all_chars_no_char; [by apply name_char_not_shell|done].
Qed.

Lemma validated_names_safe_witness : contains_char ";" "wg0" = false.
Proof.
  apply (validated_names_safe ["default"; "apps-1"] "wg0" "--coold-version" "v1.2.3"
           ltac:(vm_compute; reflexivity) ltac:(vm_compute; reflexivity) ltac:(vm_compute; reflexivity)).
  - left.
  - apply (bool_decide_eq_true_1 _). vm_compute. reflexivity.
Defined.

(** *** The subnets in use *)

Section MeshFacts.
Context `{api : Ipv4NetApi}.

Lemma subnet_at_insert (out : gmap string (gmap string Ipv4Net)) ns h n ns' h' :
  subnet_at (entry_insert ns h n out) ns' h' =
  if decide (ns = ns' /\ h = h') then Some n else subnet_at out ns' h'.
Proof.
  unfold subnet_at, entry_insert. rewrite lookup_insert.
  destruct (decide (ns = ns')) as [->|Hns]; cbn [mbind option_bind].
  - rewrite lookup_insert. destruct (decide (h = h')) as [->|Hh].
    + by rewrite decide_True.
    + rewrite decide_False by tauto. by destruct (out !! ns').
  - by rewrite decide_False by tauto.
Qed.

(** One host's contribution. *)
Lemma host_subnets_fold host ns h l : forall out,
  NoDup l.*1 ->
  subnet_at (foldl (fun out '(ns, st) =>
      match ns_container_subnet st with
      | Some net => entry_insert ns host net out
      | None => out
      end) out l) ns h =
  match (if decide (h = host) then list_to_map (M := gmap string NamespaceServerState) l !! ns ≫= ns_container_subnet
         else None) with
  | Some n => Some n
  | None => subnet_at out ns h
  end.
Proof.
  induction l as [|[ns0 st0] l IH]; intros out Hn; cbn [foldl].
  { cbn. by case_decide. }
  rewrite fmap_cons in Hn. apply NoDup_cons in Hn as [Hnin Hn]. rewrite IH by done.
  cbn [list_to_map foldr curry uncurry fst snd].
  destruct (decide (h = host)) as [->|Hh].
  - destruct (decide (ns0 = ns)) as [->|Hns].
    + rewrite (not_elem_of_list_to_map_1 l ns Hnin). cbn [mbind option_bind].
      unfold list_to_map at 1. cbn. rewrite lookup_insert_eq. cbn.
      destruct (ns_container_subnet st0); [|done]. by rewrite subnet_at_insert, decide_True.
    + unfold list_to_map at 2. cbn. rewrite lookup_insert_ne by done.
      fold (list_to_map (M := gmap string NamespaceServerState) l).
      destruct (list_to_map l !! ns ≫= ns_container_subnet); [done|].
      destruct (ns_container_subnet st0); [|done]. by rewrite subnet_at_insert, decide_False by naive_solver.
  - destruct (ns_container_subnet st0); [|done]. by rewrite subnet_at_insert, decide_False by naive_solver.
Qed.

Lemma assigned_fold ns h l : forall out,
  NoDup l.*1 ->
  subnet_at (foldl (fun out '(host, s) =>
    foldl (fun out '(ns, st) =>
      match ns_container_subnet st with
      | Some net => entry_insert ns host net out
      | None => out
      end) out (btree_list (s_namespaces s))) out l) ns h =
  match list_to_map (M := gmap string ServerState) l !! h ≫= (fun s => s_namespaces s !! ns ≫= ns_container_subnet) with
  | Some n => Some n
  | None => subnet_at out ns h
  end.
Proof.
  induction l as [|[host s] l IH]; intros out Hn; cbn [foldl]; [done|].
  rewrite fmap_cons in Hn. apply NoDup_cons in Hn as [Hnin Hn]. rewrite IH by done.
  rewrite host_subnets_fold by auto with coold. rewrite list_to_map_btree.
  rewrite list_to_map_cons. destruct (decide (h = host)) as [->|Hh].
  - rewrite (not_elem_of_list_to_map_1 l host Hnin), lookup_insert_eq. done.
  - by rewrite lookup_insert_ne.
Qed.

(** The table of subnets in use, looked up. *)
Lemma assigned_container_subnets_at (m : MeshState) ns h :
  subnet_at (assigned_container_subnets m) ns h =
  m !! h ≫= (fun s => s_namespaces s !! ns ≫= ns_container_subnet).
Proof.
  unfold assigned_container_subnets. rewrite assigned_fold by auto with coold.
  rewrite list_to_map_btree. case_match; [done|]. unfold subnet_at. by rewrite lookup_empty.
Qed.
End MeshFacts.
