(* ===== verification/MeshText.v ===== *)
(** * What is written to the hosts

    The texts [coolify-cli] renders: the WireGuard configuration
    ([wireguard/config.rs]), the firewall unit and bridge rules
    ([wireguard/firewall.rs]), and the configuration, units and install scripts
    of Corrosion and coold ([services/]).  Each is the source's format string
    with its arguments in place. *)

From S2P Require Import Prelude RustStr Net Subnet Mesh.
Local Open Scope Z_scope.

(** [for x in l { b.push_str(&f(x)) }]. *)
Definition concat_map {A} (f : A -> string) (l : list A) : string := foldr (fun a s => f a +:+ s) "" l.

Section Texts.
Context `{api : Ipv4NetApi}.

(* ------------------------------------------------------------------ *)
(** ** WireGuard *)

Record PeerConfig := mkPeerConfig {
  pc_endpoint : string;
  pc_public_key : string;
  pc_mgmt_ip : Z;
  pc_container_subnets : list Ipv4Net;
}.

Definition genkey_command : string :=
  "mkdir -p /etc/wireguard && (umask 077; wg genkey | tee /etc/wireguard/privatekey | wg pubkey | tee /etc/wireguard/publickey) && chmod 600 /etc/wireguard/privatekey".

Definition allowed_ips_line (p : PeerConfig) : string :=
  join ", " ((show_ipv4 (pc_mgmt_ip p) +:+ "/32") :: (net_show <$> pc_container_subnets p)).

(** The port of an endpoint is kept when it has one. *)
Definition endpoint_addr (endpoint : string) (listen_port : Z) : string :=
  if match rsplit_once ":" endpoint with
     | Some (_, port) => match parse_uint u16_max port with Some _ => true | None => false end
     | None => false
     end
  then endpoint
  else endpoint +:+ ":" +:+ show_Z listen_port.

Definition render_interface (mgmt_ip listen_port : Z) : string :=
  "[Interface]" +:+ lf +:+
  "Address = " +:+ show_ipv4 mgmt_ip +:+ "/32" +:+ lf +:+
  "ListenPort = " +:+ show_Z listen_port +:+ lf +:+
  "PrivateKey = __PRIVKEY__" +:+ lf.

Definition render_peer (listen_port : Z) (p : PeerConfig) : string :=
  lf +:+
  "[Peer]" +:+ lf +:+
  "# " +:+ pc_endpoint p +:+ lf +:+
  "PublicKey = " +:+ pc_public_key p +:+ lf +:+
  "AllowedIPs = " +:+ allowed_ips_line p +:+ lf +:+
  "Endpoint = " +:+ endpoint_addr (pc_endpoint p) listen_port +:+ lf +:+
  "PersistentKeepalive = 25" +:+ lf.

Definition render_config (mgmt_ip listen_port : Z) (peers : list PeerConfig) : string :=
  render_interface mgmt_ip listen_port +:+ concat_map (render_peer listen_port) peers.

Definition write_config_command (iface : string) (mgmt_ip listen_port : Z) (peers : list PeerConfig) : string :=
  "PRIVKEY=$(cat /etc/wireguard/privatekey) && mkdir -p /etc/wireguard && { echo " +:+ dq +:+ "[Interface]" +:+
  dq +:+ "; echo " +:+ dq +:+ "Address = " +:+ show_ipv4 mgmt_ip +:+ "/32" +:+ dq +:+ "; echo " +:+ dq +:+
  "ListenPort = " +:+ show_Z listen_port +:+ dq +:+ "; echo " +:+ dq +:+ "PrivateKey = $PRIVKEY" +:+ dq +:+
  "; " +:+
  concat_map (fun p =>
    "echo " +:+ dq +:+ dq +:+ "; echo " +:+ dq +:+ "[Peer]" +:+ dq +:+ "; echo " +:+ dq +:+ "# " +:+ pc_endpoint p +:+
    dq +:+ "; echo " +:+ dq +:+ "PublicKey = " +:+ pc_public_key p +:+ dq +:+ "; echo " +:+ dq +:+ "AllowedIPs = " +:+
    allowed_ips_line p +:+ dq +:+ "; echo " +:+ dq +:+ "Endpoint = " +:+ endpoint_addr (pc_endpoint p) listen_port +:+
    dq +:+ "; echo " +:+ dq +:+ "PersistentKeepalive = 25" +:+ dq +:+ "; ") peers +:+
  "} > /etc/wireguard/" +:+ iface +:+ ".conf.tmp && chmod 600 /etc/wireguard/" +:+ iface +:+ ".conf.tmp && mv /etc/wireguard/" +:+
  iface +:+ ".conf.tmp /etc/wireguard/" +:+ iface +:+ ".conf".

(* ------------------------------------------------------------------ *)
(** ** Firewall *)

Definition ALLOW_RULES_PATH : string := "/etc/coolify/allow.rules".
Definition BRIDGE_TABLE_NAME : string := "coolify_bridge".
Definition BRIDGE_ALLOW_RULES_PATH : string := "/etc/coolify/allow.nft".
Definition BRIDGE_SCAFFOLD_PATH : string := "/etc/coolify/bridge-fw.nft".
Definition FIREWALL_UNIT_PATH : string := "/etc/systemd/system/coolify-mesh-fw.service".
Definition FIREWALL_SERVICE_NAME : string := "coolify-mesh-fw.service".

Definition firewall_head (iface : string) : string :=
  "[Unit]" +:+ lf +:+
  "Description=Coolify mesh firewall rules" +:+ lf +:+
  "After=wg-quick@" +:+ iface +:+ ".service network-online.target" +:+ lf +:+
  "Wants=network-online.target" +:+ lf +:+
  lf +:+
  "[Service]" +:+ lf +:+
  "Type=oneshot" +:+ lf +:+
  "RemainAfterExit=yes" +:+ lf +:+
  lf.

Definition firewall_nat (iface : string) (sn : Ipv4Net) : string :=
  "ExecStart=/bin/sh -c " +:+ dq +:+ "/usr/sbin/iptables -t nat -C POSTROUTING -s " +:+ net_show sn +:+
  " -o " +:+ iface +:+ " -j RETURN 2>/dev/null || /usr/sbin/iptables -t nat -I POSTROUTING -s " +:+ net_show sn +:+
  " -o " +:+ iface +:+ " -j RETURN" +:+ dq +:+ lf +:+
  "ExecStart=/bin/sh -c " +:+ dq +:+ "nft list chain inet netavark POSTROUTING >/dev/null 2>&1 && (nft list chain inet netavark POSTROUTING | grep -F 'ip saddr " +:+
  net_show sn +:+ " oifname \" +:+ dq +:+ iface +:+ "\" +:+ dq +:+ " accept' >/dev/null 2>&1 || nft insert rule inet netavark POSTROUTING ip saddr " +:+
  net_show sn +:+ " oifname \" +:+ dq +:+ iface +:+ "\" +:+ dq +:+ " accept) || true" +:+ dq +:+ lf.

Definition firewall_deny_clear (sn : Ipv4Net) : string :=
  "ExecStart=/bin/sh -c " +:+ dq +:+ "/usr/sbin/iptables -D FORWARD -s " +:+ net_show sn +:+ " -j ACCEPT 2>/dev/null || true" +:+
  dq +:+ lf +:+
  "ExecStart=/bin/sh -c " +:+ dq +:+ "/usr/sbin/iptables -D FORWARD -d " +:+ net_show sn +:+ " -j ACCEPT 2>/dev/null || true" +:+
  dq +:+ lf.

Definition firewall_deny_chains : string :=
  lf +:+
  "ExecStart=/bin/sh -c " +:+ dq +:+ "/usr/sbin/iptables -N COOLIFY-ALLOW 2>/dev/null || true" +:+ dq +:+
  lf +:+
  "ExecStart=/bin/sh -c " +:+ dq +:+ "/usr/sbin/iptables -N COOLIFY-INTRA 2>/dev/null || true" +:+ dq +:+
  lf +:+
  "ExecStart=/usr/sbin/iptables -F COOLIFY-INTRA" +:+ lf +:+
  "ExecStart=/usr/sbin/iptables -A COOLIFY-INTRA -j COOLIFY-ALLOW" +:+ lf +:+
  "ExecStart=/usr/sbin/iptables -A COOLIFY-INTRA -j DROP" +:+ lf +:+
  "ExecStart=/bin/sh -c " +:+ dq +:+ "[ -s " +:+ ALLOW_RULES_PATH +:+ " ] && /usr/sbin/iptables -F COOLIFY-ALLOW && /usr/sbin/iptables-restore --noflush < " +:+
  ALLOW_RULES_PATH +:+ " || true" +:+ dq +:+ lf +:+
  "ExecStart=/bin/sh -c " +:+ dq +:+ "/usr/sbin/iptables -C FORWARD -m conntrack --ctstate ESTABLISHED,RELATED -j ACCEPT 2>/dev/null || /usr/sbin/iptables -I FORWARD 1 -m conntrack --ctstate ESTABLISHED,RELATED -j ACCEPT" +:+
  dq +:+ lf.

Definition firewall_deny_jump (sn : Ipv4Net) : string :=
  "ExecStart=/bin/sh -c " +:+ dq +:+ "/usr/sbin/iptables -C FORWARD -d " +:+ net_show sn +:+ " -j COOLIFY-INTRA 2>/dev/null || /usr/sbin/iptables -A FORWARD -d " +:+
  net_show sn +:+ " -j COOLIFY-INTRA" +:+ dq +:+ lf +:+
  "ExecStart=/bin/sh -c " +:+ dq +:+ "/usr/sbin/iptables -C FORWARD -s " +:+ net_show sn +:+ " -j COOLIFY-INTRA 2>/dev/null || /usr/sbin/iptables -A FORWARD -s " +:+
  net_show sn +:+ " -j COOLIFY-INTRA" +:+ dq +:+ lf.

Definition firewall_deny_bridge : string :=
  "ExecStart=/bin/sh -c " +:+ dq +:+ "nft list table bridge " +:+ BRIDGE_TABLE_NAME +:+ " >/dev/null 2>&1 || nft add table bridge " +:+
  BRIDGE_TABLE_NAME +:+ dq +:+ lf +:+
  "ExecStart=/bin/sh -c " +:+ dq +:+ "nft add chain bridge " +:+ BRIDGE_TABLE_NAME +:+ " coolify_allow '{ }' 2>/dev/null || true" +:+
  dq +:+ lf +:+
  "ExecStart=/bin/sh -c " +:+ dq +:+ "nft delete chain bridge " +:+ BRIDGE_TABLE_NAME +:+ " forward 2>/dev/null || true" +:+
  dq +:+ lf +:+
  "ExecStart=/bin/sh -c " +:+ dq +:+ "nft delete chain bridge " +:+ BRIDGE_TABLE_NAME +:+ " coolify_intra 2>/dev/null || true" +:+
  dq +:+ lf +:+
  "ExecStart=/bin/sh -c " +:+ dq +:+ "nft -f " +:+ BRIDGE_SCAFFOLD_PATH +:+ dq +:+ lf +:+
  "ExecStart=/bin/sh -c " +:+ dq +:+ "[ -s " +:+ BRIDGE_ALLOW_RULES_PATH +:+ " ] && nft -f " +:+ BRIDGE_ALLOW_RULES_PATH +:+
  " || true" +:+ dq +:+ lf.

Definition firewall_open_clear : string :=
  "# Tear down default-deny scaffold from prior run." +:+ lf +:+
  "ExecStart=/bin/sh -c " +:+ dq +:+ "/usr/sbin/iptables -F COOLIFY-INTRA 2>/dev/null || true" +:+ dq +:+
  lf +:+
  "ExecStart=/bin/sh -c " +:+ dq +:+ "/usr/sbin/iptables -X COOLIFY-INTRA 2>/dev/null || true" +:+ dq +:+
  lf +:+
  "ExecStart=/bin/sh -c " +:+ dq +:+ "nft delete table bridge " +:+ BRIDGE_TABLE_NAME +:+ " 2>/dev/null || true" +:+
  dq +:+ lf.

Definition firewall_open_accept (sn : Ipv4Net) : string :=
  "ExecStart=/bin/sh -c " +:+ dq +:+ "/usr/sbin/iptables -C FORWARD -s " +:+ net_show sn +:+ " -j ACCEPT 2>/dev/null || /usr/sbin/iptables -I FORWARD -s " +:+
  net_show sn +:+ " -j ACCEPT" +:+ dq +:+ lf +:+
  "ExecStart=/bin/sh -c " +:+ dq +:+ "/usr/sbin/iptables -C FORWARD -d " +:+ net_show sn +:+ " -j ACCEPT 2>/dev/null || /usr/sbin/iptables -I FORWARD -d " +:+
  net_show sn +:+ " -j ACCEPT" +:+ dq +:+ lf.

Definition firewall_service_unit (iface : string) (namespaces : list string)
    (container_subnets : list Ipv4Net) (default_deny : bool) : string :=
  firewall_head iface +:+ concat_map (firewall_nat iface) container_subnets +:+
  (if default_deny then
     "# Remove blanket ACCEPT from prior mode-A run." +:+ lf +:+
     concat_map firewall_deny_clear container_subnets +:+ firewall_deny_chains +:+
     concat_map firewall_deny_jump container_subnets +:+ firewall_deny_bridge
   else
     firewall_open_clear +:+ concat_map firewall_open_accept container_subnets) +:+
  lf +:+
  "[Install]" +:+ lf +:+
  "WantedBy=multi-user.target" +:+ lf.

Definition render_bridge_scaffold (subnets : list Ipv4Net) : string :=
  let set := "{ " +:+ join ", " (merge_sort String.le (net_show <$> subnets)) +:+ " }" in
  "# Managed by coolify — do not edit manually." +:+ lf +:+
  "add table bridge " +:+ BRIDGE_TABLE_NAME +:+ lf +:+
  "add chain bridge " +:+ BRIDGE_TABLE_NAME +:+ " coolify_intra" +:+ lf +:+
  "flush chain bridge " +:+ BRIDGE_TABLE_NAME +:+ " coolify_intra" +:+ lf +:+
  "add rule bridge " +:+ BRIDGE_TABLE_NAME +:+ " coolify_intra jump coolify_allow" +:+ lf +:+
  "add rule bridge " +:+ BRIDGE_TABLE_NAME +:+ " coolify_intra drop" +:+ lf +:+
  "add chain bridge " +:+ BRIDGE_TABLE_NAME +:+ " forward { type filter hook forward priority -200; policy accept; }" +:+
  lf +:+
  "flush chain bridge " +:+ BRIDGE_TABLE_NAME +:+ " forward" +:+ lf +:+
  "add rule bridge " +:+ BRIDGE_TABLE_NAME +:+ " forward meta protocol != ip accept" +:+ lf +:+
  "add rule bridge " +:+ BRIDGE_TABLE_NAME +:+ " forward ct state established,related accept" +:+ lf +:+
  "add rule bridge " +:+ BRIDGE_TABLE_NAME +:+ " forward ip saddr " +:+ set +:+ " jump coolify_intra" +:+
  lf +:+
  "add rule bridge " +:+ BRIDGE_TABLE_NAME +:+ " forward ip daddr " +:+ set +:+ " jump coolify_intra" +:+
  lf.

Definition install_firewall_command (iface : string) (namespaces : list string)
    (subnets : list Ipv4Net) (default_deny : bool) : string :=
  let unit := firewall_service_unit iface namespaces subnets default_deny in
  "cat > " +:+ FIREWALL_UNIT_PATH +:+ ".tmp <<'COOLIFY_FW_EOF'" +:+ lf +:+
  unit +:+ "COOLIFY_FW_EOF" +:+ lf +:+
  "mv " +:+ FIREWALL_UNIT_PATH +:+ ".tmp " +:+ FIREWALL_UNIT_PATH +:+ " && mkdir -p /etc/coolify && " +:+
  (if default_deny then
     let scaffold := render_bridge_scaffold subnets in
     "cat > " +:+ BRIDGE_SCAFFOLD_PATH +:+ ".tmp <<'COOLIFY_BR_EOF'" +:+ lf +:+
     scaffold +:+ "COOLIFY_BR_EOF" +:+ lf +:+
     "mv " +:+ BRIDGE_SCAFFOLD_PATH +:+ ".tmp " +:+ BRIDGE_SCAFFOLD_PATH +:+ " && "
   else "rm -f " +:+ BRIDGE_SCAFFOLD_PATH +:+ " && ") +:+
  "systemctl daemon-reload && systemctl enable " +:+ FIREWALL_SERVICE_NAME +:+ " && systemctl restart " +:+
  FIREWALL_SERVICE_NAME.

(* ------------------------------------------------------------------ *)
(** ** Release checksums *)

(** The shell text that checks a downloaded archive. *)
Definition checksum_verify_snippet (tarball url artifact : string) (sha256 : option string) : string :=
  match sha256 with
  | Some digest =>
      "printf '%s  %s\n' '" +:+ digest +:+ "' " +:+ dq +:+ tarball +:+ dq +:+ " | sha256sum -c - >/dev/null 2>&1 || { echo " +:+
      dq +:+ artifact +:+ ": sha256 mismatch (expected pinned " +:+ digest +:+ ")" +:+ dq +:+ " >&2; exit 1; }"
  | None =>
      "if curl -fsSL --retry 3 --max-time 60 -o " +:+ dq +:+ tarball +:+ ".sha256" +:+ dq +:+ " " +:+ dq +:+
      url +:+ ".sha256" +:+ dq +:+ " 2>/dev/null; then printf '%s  %s\n' " +:+ dq +:+ "$(awk '{print $1}' " +:+
      dq +:+ tarball +:+ ".sha256" +:+ dq +:+ ")" +:+ dq +:+ " " +:+ dq +:+ tarball +:+ dq +:+ " | sha256sum -c - >/dev/null 2>&1 || { echo " +:+
      dq +:+ artifact +:+ ": sha256 mismatch vs published checksum" +:+ dq +:+ " >&2; exit 1; }; else echo " +:+
      dq +:+ artifact +:+ ": no published sha256 to verify against; proceeding (pin one to enforce)" +:+ dq +:+
      " >&2; fi"
  end.

(* ------------------------------------------------------------------ *)
(** ** Corrosion *)

Definition COOLIFY_SCHEMA_SQL : string :=
  "CREATE TABLE service_endpoints (" +:+ lf +:+
  "    container_id    TEXT NOT NULL DEFAULT '' PRIMARY KEY," +:+ lf +:+
  "    container_name  TEXT NOT NULL DEFAULT ''," +:+ lf +:+
  "    namespace       TEXT NOT NULL DEFAULT ''," +:+ lf +:+
  "    host_mgmt_ip    TEXT NOT NULL DEFAULT ''," +:+ lf +:+
  "    container_ip    TEXT NOT NULL DEFAULT ''," +:+ lf +:+
  "    state           TEXT NOT NULL DEFAULT ''," +:+ lf +:+
  "    health          TEXT NOT NULL DEFAULT 'unknown'," +:+ lf +:+
  "    updated_at      INTEGER NOT NULL DEFAULT 0" +:+ lf +:+
  ");" +:+ lf.
Definition GOSSIP_TLS_CERT_PATH : string :=
  "/etc/corrosion/tls/gossip.pem".
Definition GOSSIP_TLS_KEY_PATH : string :=
  "/etc/corrosion/tls/gossip.key".

Definition gossip_tls_toml : string :=
  "plaintext = false" +:+ lf +:+
  "[gossip.tls]" +:+ lf +:+
  "cert_file = " +:+ dq +:+ GOSSIP_TLS_CERT_PATH +:+ dq +:+ lf +:+
  "key_file = " +:+ dq +:+ GOSSIP_TLS_KEY_PATH +:+ dq +:+ lf +:+
  "insecure = true".

(** [config_bytes]: [None] when the assertion on the bind address fails. *)
Definition config_bytes (bind_addr gossip_port api_port : Z) (peers : list Z) (gossip_tls : bool)
    : option string :=
  if bind_addr =? 0 then None else
  let sorted := merge_sort Z.le peers in
  let bootstrap := join ", " ((fun p => dq +:+ show_ipv4 p +:+ ":" +:+ show_Z gossip_port +:+ dq) <$> sorted) in
  let gossip_auth := if gossip_tls then gossip_tls_toml else "plaintext = true" in
  Some ("# generated by coolify — do not edit" +:+ lf +:+
  "[db]" +:+ lf +:+
  "path = " +:+ dq +:+ "/var/lib/corrosion/corrosion.db" +:+ dq +:+ lf +:+
  "schema_paths = [" +:+ dq +:+ "/etc/corrosion/schemas" +:+ dq +:+ "]" +:+ lf +:+
  lf +:+
  "[gossip]" +:+ lf +:+
  "addr = " +:+ dq +:+ show_ipv4 bind_addr +:+ ":" +:+ show_Z gossip_port +:+ dq +:+ lf +:+
  "bootstrap = [" +:+ bootstrap +:+ "]" +:+ lf +:+
  gossip_auth +:+ lf +:+
  lf +:+
  "[api]" +:+ lf +:+
  "addr = " +:+ dq +:+ "127.0.0.1:" +:+ show_Z api_port +:+ dq +:+ lf +:+
  lf +:+
  "[admin]" +:+ lf +:+
  "path = " +:+ dq +:+ "/var/run/corrosion/admin.sock" +:+ dq +:+ lf).

Definition corrosion_install_command (version : string) (sha256 : option string) : string :=
  let verify := checksum_verify_snippet "$DLDIR/corrosion.tar.gz" "$URL" "corrosion" sha256 in
  "set -e" +:+ lf +:+
  "DEBIAN_FRONTEND=noninteractive apt-get update -qq 2>/dev/null" +:+ lf +:+
  "DEBIAN_FRONTEND=noninteractive apt-get install -y -o Dpkg::Options::=" +:+ dq +:+ "--force-confold" +:+
  dq +:+ " ca-certificates curl tar 2>&1 >/dev/null" +:+ lf +:+
  "ARCH_RAW=$(uname -m)" +:+ lf +:+
  "case " +:+ dq +:+ "$ARCH_RAW" +:+ dq +:+ " in" +:+ lf +:+
  "  x86_64)  ARCH=x86_64-unknown-linux-gnu ;;" +:+ lf +:+
  "  aarch64) ARCH=aarch64-unknown-linux-gnu ;;" +:+ lf +:+
  "  *) echo " +:+ dq +:+ "unsupported arch: $ARCH_RAW" +:+ dq +:+ " >&2; exit 1 ;;" +:+ lf +:+
  "esac" +:+ lf +:+
  "URL=" +:+ dq +:+ "https://github.com/superfly/corrosion/releases/download/" +:+ version +:+ "/corrosion-${ARCH}.tar.gz" +:+
  dq +:+ lf +:+
  "DLDIR=$(mktemp -d)" +:+ lf +:+
  "trap 'rm -rf " +:+ dq +:+ "$DLDIR" +:+ dq +:+ "' EXIT" +:+ lf +:+
  "curl -fsSL --retry 3 --max-time 120 -o " +:+ dq +:+ "$DLDIR/corrosion.tar.gz" +:+ dq +:+ " " +:+ dq +:+
  "$URL" +:+ dq +:+ lf +:+
  verify +:+ lf +:+
  "tar -xzf " +:+ dq +:+ "$DLDIR/corrosion.tar.gz" +:+ dq +:+ " -C " +:+ dq +:+ "$DLDIR" +:+ dq +:+ lf +:+
  "test -f " +:+ dq +:+ "$DLDIR/corrosion" +:+ dq +:+ " || { echo " +:+ dq +:+ "corrosion binary not found in tarball" +:+
  dq +:+ " >&2; exit 1; }" +:+ lf +:+
  "install -m 0755 " +:+ dq +:+ "$DLDIR/corrosion" +:+ dq +:+ " /usr/local/bin/corrosion.tmp" +:+ lf +:+
  "mv /usr/local/bin/corrosion.tmp /usr/local/bin/corrosion" +:+ lf +:+
  "echo '" +:+ version +:+ "' > /usr/local/bin/corrosion.version".

Definition corrosion_service_unit (iface : string) : string :=
  "[Unit]" +:+ lf +:+
  "Description=Corrosion agent" +:+ lf +:+
  "After=network-online.target wg-quick@" +:+ iface +:+ ".service" +:+ lf +:+
  "Wants=network-online.target" +:+ lf +:+
  "Requires=wg-quick@" +:+ iface +:+ ".service" +:+ lf +:+
  lf +:+
  "[Service]" +:+ lf +:+
  "ExecStart=/usr/local/bin/corrosion agent --config /etc/corrosion/config.toml" +:+ lf +:+
  "Restart=on-failure" +:+ lf +:+
  "RestartSec=2s" +:+ lf +:+
  "StateDirectory=corrosion" +:+ lf +:+
  "WorkingDirectory=/var/lib/corrosion" +:+ lf +:+
  lf +:+
  "[Install]" +:+ lf +:+
  "WantedBy=multi-user.target" +:+ lf.

(* ------------------------------------------------------------------ *)
(** ** coold *)

Definition DEFAULT_COOLD_DNS_ZONE : string := "coolify.internal".
Definition MESH_DNS_ANCHOR_SERVICE : string := "coolify-mesh-dns-anchor.service".
Definition MESH_DNS_RESOLVER_SERVICE : string := "coolify-mesh-dns-resolver.service".
Definition MESH_DNS_ANCHOR_IMAGE : string := "docker.io/library/alpine:3.20".

Record CooldNamespace := mkCooldNamespace {
  cn_name : string;
  cn_network : string;
  cn_bridge_gateway : Z;
}.

Definition namespace_entry (n : CooldNamespace) : string :=
  cn_name n +:+ ":" +:+ cn_network n +:+ ":" +:+ show_ipv4 (cn_bridge_gateway n).

Definition namespaces_env_value (ns : list CooldNamespace) : string :=
  join "," (namespace_entry <$> ns).

Definition hardening_directives : string :=
  "NoNewPrivileges=yes" +:+ lf +:+
  "ProtectSystem=strict" +:+ lf +:+
  "ProtectHome=yes" +:+ lf +:+
  "PrivateTmp=yes" +:+ lf +:+
  "ReadWritePaths=/etc/coolify /data/coolify /var/lib/containers" +:+ lf +:+
  "ReadWritePaths=-/run/containers -/run/netavark -/run/libpod" +:+ lf.

Definition coold_service_unit (mgmt_ip : Z) (namespaces : list CooldNamespace)
    (flux : option FluxConfig) : string :=
  let ns_env :=
    match namespaces with
    | [] => ""
    | _ => "Environment=COOLIFY_COOLD_NAMESPACES=" +:+ namespaces_env_value namespaces +:+ lf +:+
           "Environment=COOLIFY_COOLD_DNS_ZONE=" +:+ DEFAULT_COOLD_DNS_ZONE +:+ lf
    end in
  let flux_env :=
    match flux with
    | None => ""
    | Some s =>
        let pin_env := match fc_tls_pin_path s with
                       | Some p => "Environment=COOLIFY_COOLD_FLUX_TLS_PIN_PATH=" +:+ p +:+ lf
                       | None => ""
                       end in
        "Environment=COOLIFY_COOLD_FLUX_URL=" +:+ fc_url s +:+ lf +:+
        "Environment=COOLIFY_COOLD_HOST_JWT_PATH=" +:+ fc_jwt_path s +:+ lf +:+
        pin_env
    end in
  let mesh_dns_units :=
    match namespaces with
    | [] => ""
    | _ => " " +:+ MESH_DNS_ANCHOR_SERVICE +:+ " " +:+ MESH_DNS_RESOLVER_SERVICE
    end in
  "[Unit]" +:+ lf +:+
  "Description=Coolify host agent" +:+ lf +:+
  "Wants=corrosion.service" +:+ mesh_dns_units +:+ lf +:+
  "After=corrosion.service network-online.target podman.socket coolify-mesh-fw.service" +:+ mesh_dns_units +:+
  lf +:+
  lf +:+
  "[Service]" +:+ lf +:+
  "Environment=COOLIFY_COOLD_HOST_MGMT_IP=" +:+ show_ipv4 mgmt_ip +:+ lf +:+
  ns_env +:+ flux_env +:+ "ExecStart=/usr/local/bin/coold" +:+ lf +:+
  "AmbientCapabilities=CAP_NET_BIND_SERVICE CAP_NET_ADMIN CAP_NET_RAW" +:+ lf +:+
  hardening_directives +:+ "Restart=on-failure" +:+ lf +:+
  "RestartSec=2s" +:+ lf +:+
  lf +:+
  "[Install]" +:+ lf +:+
  "WantedBy=multi-user.target" +:+ lf.

Definition mesh_dns_anchor_container_name (namespace : string) : string := "coolify-mesh-dns-anchor-" +:+ namespace.

Definition mesh_dns_anchor_unit (namespaces : list CooldNamespace) : string :=
  let starts := join "; " ((fun n =>
    "podman run -d --replace --name " +:+ mesh_dns_anchor_container_name (cn_name n) +:+ " --network " +:+
    cn_network n +:+ " --label io.coolify.managed=true --label io.coolify.role=mesh-dns-anchor --label io.coolify.namespace=" +:+
    cn_name n +:+ " " +:+ MESH_DNS_ANCHOR_IMAGE +:+ " sleep infinity >/dev/null") <$> namespaces) in
  let stops := join "; " ((fun n =>
    "podman rm -f " +:+ mesh_dns_anchor_container_name (cn_name n) +:+ " >/dev/null 2>&1 || true") <$> namespaces) in
  "[Unit]" +:+ lf +:+
  "Description=Coolify mesh DNS anchor containers" +:+ lf +:+
  "After=network-online.target podman.socket" +:+ lf +:+
  "Requires=podman.socket" +:+ lf +:+
  lf +:+
  "[Service]" +:+ lf +:+
  "Type=oneshot" +:+ lf +:+
  "RemainAfterExit=yes" +:+ lf +:+
  "ExecStart=/bin/sh -eu -c '" +:+ starts +:+ "'" +:+ lf +:+
  "ExecStop=/bin/sh -c '" +:+ stops +:+ "'" +:+ lf +:+
  lf +:+
  "[Install]" +:+ lf +:+
  "WantedBy=multi-user.target" +:+ lf.

Definition mesh_dns_resolver_unit (namespaces : list CooldNamespace) : string :=
  let commands := join "; " ((fun n =>
    "iface=$(podman network inspect " +:+ cn_network n +:+ " --format '{{.NetworkInterface}}' 2>/dev/null || true); if [ -n " +:+
    dq +:+ "$iface" +:+ dq +:+ " ]; then resolvectl dns " +:+ dq +:+ "$iface" +:+ dq +:+ " " +:+ show_ipv4 (cn_bridge_gateway n) +:+
    " || true; resolvectl domain " +:+ dq +:+ "$iface" +:+ dq +:+ " '~" +:+ DEFAULT_COOLD_DNS_ZONE +:+ "' || true; resolvectl default-route " +:+
    dq +:+ "$iface" +:+ dq +:+ " false || true; fi") <$> namespaces) in
  "[Unit]" +:+ lf +:+
  "Description=Configure Coolify mesh DNS resolver" +:+ lf +:+
  "After=systemd-resolved.service " +:+ MESH_DNS_ANCHOR_SERVICE +:+ lf +:+
  "Wants=systemd-resolved.service " +:+ MESH_DNS_ANCHOR_SERVICE +:+ lf +:+
  lf +:+
  "[Service]" +:+ lf +:+
  "Type=oneshot" +:+ lf +:+
  "ExecStart=/bin/sh -eu -c 'command -v resolvectl >/dev/null 2>&1 || exit 0; " +:+ commands +:+ "'" +:+
  lf +:+
  lf +:+
  "[Install]" +:+ lf +:+
  "WantedBy=multi-user.target" +:+ lf.

Definition coold_install_command (version : string) (sha256 : option string) : string :=
  let verify := checksum_verify_snippet "$DLDIR/coold.tar.gz" "$URL" "coold" sha256 in
  "set -e" +:+ lf +:+
  "DEBIAN_FRONTEND=noninteractive apt-get update -qq 2>/dev/null" +:+ lf +:+
  "DEBIAN_FRONTEND=noninteractive apt-get install -y -o Dpkg::Options::=" +:+ dq +:+ "--force-confold" +:+
  dq +:+ " ca-certificates curl tar 2>&1 >/dev/null" +:+ lf +:+
  "ARCH_RAW=$(uname -m)" +:+ lf +:+
  "case " +:+ dq +:+ "$ARCH_RAW" +:+ dq +:+ " in" +:+ lf +:+
  "  x86_64)  ARCH=amd64 ;;" +:+ lf +:+
  "  aarch64) ARCH=arm64 ;;" +:+ lf +:+
  "  *) echo " +:+ dq +:+ "unsupported arch: $ARCH_RAW" +:+ dq +:+ " >&2; exit 1 ;;" +:+ lf +:+
  "esac" +:+ lf +:+
  "URL=" +:+ dq +:+ "https://github.com/coollabsio/coold/releases/download/" +:+ version +:+ "/coold-linux-${ARCH}.tar.gz" +:+
  dq +:+ lf +:+
  "DLDIR=$(mktemp -d)" +:+ lf +:+
  "trap 'rm -rf " +:+ dq +:+ "$DLDIR" +:+ dq +:+ "' EXIT" +:+ lf +:+
  "curl -fsSL --retry 3 --max-time 120 -o " +:+ dq +:+ "$DLDIR/coold.tar.gz" +:+ dq +:+ " " +:+ dq +:+
  "$URL" +:+ dq +:+ lf +:+
  verify +:+ lf +:+
  "tar -xzf " +:+ dq +:+ "$DLDIR/coold.tar.gz" +:+ dq +:+ " -C " +:+ dq +:+ "$DLDIR" +:+ dq +:+ lf +:+
  "test -f " +:+ dq +:+ "$DLDIR/coold" +:+ dq +:+ " || { echo " +:+ dq +:+ "coold binary not found in tarball" +:+
  dq +:+ " >&2; exit 1; }" +:+ lf +:+
  "install -m 0755 " +:+ dq +:+ "$DLDIR/coold" +:+ dq +:+ " /usr/local/bin/coold.tmp" +:+ lf +:+
  "mv /usr/local/bin/coold.tmp /usr/local/bin/coold" +:+ lf +:+
  "echo '" +:+ version +:+ "' > /usr/local/bin/coold.version".
End Texts.

(* ------------------------------------------------------------------ *)
(** ** [services/builder.rs] *)

Definition BUILDER_WORK_DIR : string := "/var/lib/coolify-builder/work".
Definition BUILDER_BINARY_PATH : string := "/usr/local/bin/builder".

Definition builder_install_command (version : string) : string :=
  "set -e" +:+ lf +:+
  "DEBIAN_FRONTEND=noninteractive apt-get update -qq 2>/dev/null" +:+ lf +:+
  "DEBIAN_FRONTEND=noninteractive apt-get install -y -o Dpkg::Options::=" +:+ dq +:+ "--force-confold" +:+ dq +:+ " buildah git ca-certificates 2>&1 >/dev/null" +:+ lf +:+
  "mkdir -p " +:+ BUILDER_WORK_DIR +:+ lf +:+
  "ARCH_RAW=$(uname -m)" +:+ lf +:+
  "case " +:+ dq +:+ "$ARCH_RAW" +:+ dq +:+ " in" +:+ lf +:+
  "  x86_64)  ARCH=amd64 ;;" +:+ lf +:+
  "  aarch64) ARCH=arm64 ;;" +:+ lf +:+
  "  *) echo " +:+ dq +:+ "unsupported arch: $ARCH_RAW" +:+ dq +:+ " >&2; exit 1 ;;" +:+ lf +:+
  "esac" +:+ lf +:+
  "URL=" +:+ dq +:+ "https://github.com/coollabsio/coold/releases/download/" +:+ version +:+ "/builder-linux-${ARCH}.tar.gz" +:+ dq +:+ lf +:+
  "DLDIR=$(mktemp -d)" +:+ lf +:+
  "trap 'rm -rf " +:+ dq +:+ "$DLDIR" +:+ dq +:+ "' EXIT" +:+ lf +:+
  "curl -fsSL --retry 3 --max-time 120 -o " +:+ dq +:+ "$DLDIR/builder.tar.gz" +:+ dq +:+ " " +:+ dq +:+ "$URL" +:+ dq +:+ lf +:+
  "tar -xzf " +:+ dq +:+ "$DLDIR/builder.tar.gz" +:+ dq +:+ " -C " +:+ dq +:+ "$DLDIR" +:+ dq +:+ lf +:+
  "test -f " +:+ dq +:+ "$DLDIR/builder" +:+ dq +:+ " || { echo " +:+ dq +:+ "builder binary not found in tarball" +:+ dq +:+ " >&2; exit 1; }" +:+ lf +:+
  "install -m 0755 " +:+ dq +:+ "$DLDIR/builder" +:+ dq +:+ " " +:+ BUILDER_BINARY_PATH +:+ ".tmp" +:+ lf +:+
  "mv " +:+ BUILDER_BINARY_PATH +:+ ".tmp " +:+ BUILDER_BINARY_PATH +:+ lf +:+
  "echo '" +:+ version +:+ "' > " +:+ BUILDER_BINARY_PATH +:+ ".version".
