(* ===== verification/WgConfig.v ===== *)
(** * Reading a host back

    [coolify-cli/src/wireguard/reconstruct.rs]: the state of a host from the
    output of the probe script, which carries the WireGuard configuration file
    and the interface dump.

    A line [KEY=value] of the output assigns the field of its key, so that the
    last line of a key counts.  Base64 decoding is the [base64] crate's, a
    parameter.  The configuration written by [MeshText.render_config] is read
    back exactly. *)

From S2P Require Import Prelude RustStr Net Subnet Mesh MeshText.
Local Open Scope Z_scope.

(** [str::parse::<i64>]. *)
Definition parse_i64 (s : string) : option Z :=
  match s with
  | String "-" r =>
      match r with
      | String "+" _ => None
      | _ => Z.opp <$> parse_uint 9223372036854775808 r
      end
  | _ => parse_uint 9223372036854775807 s
  end.

Section Reconstruct.
Context `{api : Ipv4NetApi}.
(** [base64::STANDARD.decode], followed by [String::from_utf8]. *)
Context (b64_decode : string -> option string).

(* ------------------------------------------------------------------ *)
(** ** The configuration file *)

(** What [parse_config] reads, with the peer section it is in. *)
Record scan := mkScan {
  sc_mgmt_ip : option Z;
  sc_listen_port : Z;
  sc_peers : list Peer;
  sc_cur : option Peer;
}.

Definition push_cur (s : scan) : list Peer :=
  match sc_cur s with Some p => sc_peers s ++ [p] | None => sc_peers s end.

Definition set_cur (s : scan) (p : Peer) : scan :=
  mkScan (sc_mgmt_ip s) (sc_listen_port s) (sc_peers s) (Some p).

Definition assign_key (s : scan) (k v : string) : scan :=
  match sc_cur s with
  | None =>
      if decide (k = "Address") then
        match split "/" v with
        | x :: _ => match parse_ipv4 x with
                    | Some ip => mkScan (Some ip) (sc_listen_port s) (sc_peers s) None
                    | None => s
                    end
        | [] => s
        end
      else if decide (k = "ListenPort") then
        mkScan (sc_mgmt_ip s) (default 0 (parse_uint u16_max v)) (sc_peers s) None
      else s
  | Some p =>
      if decide (k = "PublicKey") then
        set_cur s (mkPeer v (p_endpoint p) (p_allowed_ips p) (p_latest_handshake p)
                     (p_persistent_keepalive p))
      else if decide (k = "Endpoint") then
        set_cur s (mkPeer (p_public_key p) v (p_allowed_ips p) (p_latest_handshake p)
                     (p_persistent_keepalive p))
      else if decide (k = "AllowedIPs") then
        set_cur s (mkPeer (p_public_key p) (p_endpoint p) (trim <$> split "," v)
                     (p_latest_handshake p) (p_persistent_keepalive p))
      else if decide (k = "PersistentKeepalive") then
        set_cur s (mkPeer (p_public_key p) (p_endpoint p) (p_allowed_ips p)
                     (p_latest_handshake p) (default 0 (parse_uint u16_max v)))
      else s
  end.

Definition config_line (s : scan) (line : string) : scan :=
  let line := trim line in
  if decide (line = "[Peer]") then
    mkScan (sc_mgmt_ip s) (sc_listen_port s) (push_cur s) (Some peer_default)
  else match split_once "=" line with
       | None => s
       | Some (k, v) => assign_key s (trim k) (trim v)
       end.

(** The management address, the listen port and the peers of a file. *)
Definition parse_config (cfg : string) : option Z * Z * list Peer :=
  let s := foldl config_line (mkScan None 0 [] None) (lines cfg) in
  (sc_mgmt_ip s, sc_listen_port s, push_cur s).

(* ------------------------------------------------------------------ *)
(** ** The interface dump *)

Definition dump_peer (p : Peer) (line : string) : Peer :=
  let fields := split "009" line in
  if (5 <? length fields)%nat then
    mkPeer (p_public_key p) (p_endpoint p) (p_allowed_ips p)
      (match fields !! 5%nat with Some f => default 0 (parse_i64 f) | None => 0 end)
      (p_persistent_keepalive p)
  else p.

(** Line [i] of the dump after the first goes to peer [i]. *)
Fixpoint dump_peers (peers : list Peer) (ls : list string) : list Peer :=
  match peers, ls with
  | p :: peers', l :: ls' => dump_peer p l :: dump_peers peers' ls'
  | _, _ => peers
  end.

Definition parse_dump (dump : string) (peers : list Peer) : bool * list Peer :=
  (negb (is_empty (trim dump)), dump_peers peers (tail (lines dump))).

(* ------------------------------------------------------------------ *)
(** ** The probe output *)

Definition decode_b64 (s : string) : string := default "" (b64_decode (trim s)).

Definition probe_value (text key : string) : option string :=
  last (omap (fun line => match split_once "=" line with
                          | Some (k, v) => if decide (k = key) then Some v else None
                          | None => None
                          end) (lines text)).

Definition probe_flag (text key : string) : bool :=
  match probe_value text key with Some v => bool_decide (trim v = "1") | None => false end.
Definition probe_text (text key : string) : string :=
  match probe_value text key with Some v => trim v | None => "" end.
Definition probe_b64 (text key : string) : string :=
  match probe_value text key with Some v => decode_b64 v | None => "" end.

(** A line [NS=name|network|subnet|dns|label]. *)
Definition ns_line (line : string) : option NamespaceServerState :=
  match strip_prefix "NS=" line with
  | None => None
  | Some rest =>
      match split "|" rest with
      | ns :: net :: subnet :: dns :: label :: _ =>
          Some (mkNs ns (negb (bool_decide (net = "missing"))) (net_parse subnet)
                  (bool_decide (trim dns = "true")) (trim label))
      | _ => None
      end
  end.

Definition ns_default (ns : string) : NamespaceServerState := mkNs ns false None false "".

Definition probe_namespaces (namespaces : list string) (text : string)
    : gmap string NamespaceServerState :=
  let found := foldl (fun m line => match ns_line line with
                                    | Some st => <[ns_namespace st := st]> m
                                    | None => m
                                    end) ∅ (lines text) in
  foldl (fun m ns => match m !! ns with Some _ => m | None => <[ns := ns_default ns]> m end)
    found namespaces.

Definition parse_probe (host iface : string) (namespaces : list string) (text : string) : ServerState :=
  let '(mgmt_ip, listen_port, peers) := parse_config (probe_b64 text "CONFIG_B64") in
  let '(active, peers') := parse_dump (probe_b64 text "WG_DUMP_B64") peers in
  {| s_host := host;
     s_installed := probe_flag text "WG_INSTALLED";
     s_keys_exist := probe_flag text "KEYS_EXIST";
     s_public_key := probe_text text "PUBLIC_KEY";
     s_wireguard_mgmt_ip := mgmt_ip;
     s_listen_port := listen_port;
     s_interface := iface;
     s_active := active;
     s_peers := peers';
     s_podman_installed := probe_flag text "PODMAN_INSTALLED";
     s_podman_socket_active := probe_flag text "PODMAN_SOCKET_ACTIVE";
     s_namespaces := probe_namespaces namespaces text;
     s_ip_forward_enabled := probe_flag text "IP_FORWARD";
     s_firewall_active := probe_flag text "FW_ACTIVE";
     s_default_deny_active := probe_flag text "DEFAULT_DENY";
     s_firewall_unit_sha256 := probe_text text "FW_HASH";
     s_bridge_table_exists := probe_flag text "BRIDGE_TABLE";
     s_nft_available := probe_flag text "NFT_AVAILABLE";
     s_corrosion_installed := probe_flag text "CORROSION_INSTALLED";
     s_corrosion_active := probe_flag text "CORROSION_ACTIVE";
     s_corrosion_config_hash := probe_text text "CORROSION_CONFIG_HASH";
     s_corrosion_schema_exists := probe_flag text "CORROSION_SCHEMA_EXISTS";
     s_corrosion_schema_sha256 := probe_text text "CORROSION_SCHEMA_HASH";
     s_coold_installed := probe_flag text "COOLIFY_COOLD_INSTALLED";
     s_coold_active := probe_flag text "COOLIFY_COOLD_ACTIVE";
     s_corrosion_version := probe_text text "CORROSION_VERSION";
     s_coold_version := probe_text text "COOLIFY_COOLD_VERSION";
     s_coold_unit_sha256 := probe_text text "COOLIFY_COOLD_UNIT_HASH" |}.
End Reconstruct.

(* ------------------------------------------------------------------ *)
(** ** Properties *)

Section ConfigFacts.
Context `{api : Ipv4NetApi} {laws : Ipv4NetLaws api}.

(** A peer the command line can produce: a key and an endpoint of visible
    characters. *)
Definition wf_peer (p : PeerConfig) : Prop :=
  all_chars visible (pc_public_key p) = true /\ pc_public_key p <> "" /\
  all_chars visible (pc_endpoint p) = true /\ pc_endpoint p <> "" /\ is_u32 (pc_mgmt_ip p).

(** The peer section as it should be read. *)
Definition peer_of (listen_port : Z) (p : PeerConfig) : Peer :=
  mkPeer (pc_public_key p) (endpoint_addr (pc_endpoint p) listen_port)
    ((show_ipv4 (pc_mgmt_ip p) +:+ "/32") :: (net_show <$> pc_container_subnets p)) 0 25.

Lemma ip_chars_visible s : all_chars ip_char s = true -> all_chars visible s = true.
Proof. apply all_chars_impl, ip_char_visible. Qed.

Lemma visible_app a b :
  all_chars visible a = true -> all_chars visible b = true -> all_chars visible (a +:+ b) = true.
Proof. intros Ha Hb. by rewrite all_chars_app, Ha, Hb. Qed.

(** The entries of an address list: visible, without a comma, not empty. *)
Definition list_item (s : string) : Prop :=
  (all_chars visible s = true /\ contains_char "," s = false) /\ s <> "".

Lemma slashed_item a b :
  all_chars ip_char a = true -> all_chars ip_char b = true -> a <> "" -> list_item (a +:+ "/" +:+ b).
Proof.
  intros Ha Hb Hne. split; [|by apply app_nonempty_l].
  assert (all_chars (fun c => ip_char c || bool_decide (c = "/"%char)) (a +:+ "/" +:+ b) = true) as H.
  { rewrite !all_chars_app. rewrite !andb_true_iff. split_and!; [|done|].
    - eapply all_chars_impl, Ha. by intros c ->.
    - eapply all_chars_impl, Hb. by intros c ->. }
  split; [|eapply all_chars_no_char, H; done]. eapply all_chars_impl, H.
  intros c [Hc|Hc%bool_decide_eq_true]%orb_true_iff; [by apply ip_char_visible|by subst].
Qed.

Lemma show_ipv4_nonempty a : show_ipv4 a <> "".
Proof. unfold show_ipv4. apply app_nonempty_l, show_Z_nonempty. Qed.

Lemma allowed_items p :
  Forall list_item ((show_ipv4 (pc_mgmt_ip p) +:+ "/32") :: (net_show <$> pc_container_subnets p)).
Proof.
  apply Forall_cons. split; [|apply Forall_fmap, Forall_forall; intros n _; simpl; rewrite net_show_def];
    apply slashed_item; auto using show_ipv4_chars, digits_ip_chars, show_ipv4_nonempty.
Qed.

Lemma join_neat l :
  l <> [] -> Forall list_item l -> neat (join ", " l) /\ join ", " l <> "".
Proof.
  intros Hne H. induction l as [|s l IH]; [done|]. apply Forall_cons in H as [[[Hv _] Hs] Hl].
  destruct l as [|s' l]; [split; [by apply all_visible_neat|done]|].
  destruct (IH ltac:(done) Hl) as [Hn Hn'].
  change (join ", " (s :: s' :: l)) with (s +:+ ", " +:+ join ", " (s' :: l)). split.
  - apply neat_app; [done|done|by apply all_visible_neat|done|done].
  - by apply app_nonempty_l.
Qed.

Lemma allowed_neat p : neat (allowed_ips_line p) /\ allowed_ips_line p <> "".
Proof. apply join_neat; [done|apply allowed_items]. Qed.

Lemma allowed_split p :
  trim <$> split "," (allowed_ips_line p) =
  (show_ipv4 (pc_mgmt_ip p) +:+ "/32") :: (net_show <$> pc_container_subnets p).
Proof.
  apply split_join; [done|]. eapply Forall_impl; [apply allowed_items|]. by intros s [? _].
Qed.

Lemma endpoint_visible e port :
  all_chars visible e = true -> e <> "" ->
  all_chars visible (endpoint_addr e port) = true /\ endpoint_addr e port <> "".
Proof.
  intros He Hne. unfold endpoint_addr. case_match; [done|]. split; [|by apply app_nonempty_l].
  rewrite !all_chars_app, He. simpl. apply ip_chars_visible, digits_ip_chars.
Qed.

(** A key of the file: visible, not a section, without an equals sign. *)
Definition plain_key (k : string) : bool :=
  all_chars (fun c => visible c && negb (bool_decide (c = "="%char))) k &&
  match first_char k with Some c => negb (bool_decide (c = "["%char)) | None => false end.

(** A key-value line is read as that key and value. *)
Lemma config_line_kv s (k v : string) :
  plain_key k = true -> neat v -> v <> "" -> config_line s (k +:+ " = " +:+ v) = assign_key s k v.
Proof.
  intros [Hk Hf]%andb_true_iff Hv Hv'.
  assert (all_chars visible k = true) as Hvis.
  { eapply all_chars_impl, Hk. intros c. by rewrite andb_true_iff; intros [? _]. }
  assert (k <> "") as Hne by (by destruct k). unfold config_line.
  rewrite (trim_neat (k +:+ " = " +:+ v)) by (apply neat_app; [done|done|by apply all_visible_neat|done|done]).
  rewrite decide_False.
  2: { intros E. destruct k as [|c k]; [done|]. rewrite string_app_cons in E. by injection E as -> _. }
  assert (k +:+ " = " +:+ v = (k +:+ " ") +:+ String "=" (String " " v)) as ->
    by (by rewrite <- string_app_assoc).
  rewrite split_once_app.
  - by rewrite trim_space, trim_space_end.
  - apply (all_chars_no_char (fun c => negb (bool_decide (c = "="%char)))); [done|].
    rewrite all_chars_app, andb_true_iff. split; [|done]. eapply all_chars_impl, Hk.
    intros c. by rewrite andb_true_iff; intros [_ ?].
Qed.

(** A comment line is not read. *)
Lemma config_line_comment s p v : sc_cur s = Some p -> neat v -> v <> "" -> config_line s ("# " +:+ v) = s.
Proof.
  intros Hcur Hv Hne. unfold config_line.
  rewrite (trim_neat ("# " +:+ v)) by (apply (neat_app "#" " " v); done).
  rewrite decide_False by done.
  destruct (split_once "=" ("# " +:+ v)) as [[k w]|] eqn:E; [|done].
  assert (exists k', k = String "#" k') as [k' ->].
  { change ("# " +:+ v) with (String "#" (String " " v)) in E. simpl in E.
    destruct (split_once "=" v) as [[h t]|]; [|done]. injection E as <- _. eauto. }
  destruct (trim_first "#" k' eq_refl) as [k'' ->]. unfold assign_key. rewrite Hcur.
  by repeat rewrite decide_False by done.
Qed.

Lemma config_line_empty s : config_line s "" = s.
Proof. reflexivity. Qed.

Lemma config_line_peer s :
  config_line s "[Peer]" =
  mkScan (sc_mgmt_ip s) (sc_listen_port s) (push_cur s) (Some peer_default).
Proof. reflexivity. Qed.

(** The lines of a rendered peer section, followed by [rest]. *)
Lemma render_peer_lines port p rest :
  wf_peer p ->
  lines (render_peer port p +:+ rest) =
  [""; "[Peer]"; "# " +:+ pc_endpoint p; "PublicKey" +:+ " = " +:+ pc_public_key p;
   "AllowedIPs" +:+ " = " +:+ allowed_ips_line p;
   "Endpoint" +:+ " = " +:+ endpoint_addr (pc_endpoint p) port; "PersistentKeepalive" +:+ " = " +:+ "25"]
  ++ lines rest.
Proof.
  intros (Hk & Hk0 & He & He0 & _).
  destruct (endpoint_visible (pc_endpoint p) port He He0) as [Hv _].
  destruct (allowed_neat p) as [[Ha _] _].
  assert (forall s, all_chars visible s = true -> all_chars printable s = true) as Hp.
  { intros s. apply all_chars_impl, visible_printable. }
  unfold render_peer. rewrite <- !string_app_assoc. rewrite lines_lf. cbn [app]. f_equal.
  rewrite lines_cons by done. f_equal.
  rewrite lines_cons2 by auto. f_equal. rewrite lines_cons2 by auto. f_equal.
  rewrite lines_cons2 by auto. f_equal. rewrite lines_cons2 by auto. f_equal.
  rewrite lines_cons by done. f_equal.
Qed.

(** Each key of a peer section sets its field. *)
Section AssignKey.
Context (m : option Z) (port : Z) (ps : list Peer) (k e : string) (ips : list string) (h ka : Z).
Notation at_peer := (fun p => mkScan m port ps (Some p)).

Lemma assign_public_key v :
  assign_key (at_peer (mkPeer k e ips h ka)) "PublicKey" v = at_peer (mkPeer v e ips h ka).
Proof. reflexivity. Qed.
Lemma assign_endpoint v :
  assign_key (at_peer (mkPeer k e ips h ka)) "Endpoint" v = at_peer (mkPeer k v ips h ka).
Proof. reflexivity. Qed.
Lemma assign_allowed_ips v :
  assign_key (at_peer (mkPeer k e ips h ka)) "AllowedIPs" v =
  at_peer (mkPeer k e (trim <$> split "," v) h ka).
Proof. reflexivity. Qed.
Lemma assign_keepalive :
  assign_key (at_peer (mkPeer k e ips h ka)) "PersistentKeepalive" "25" =
  at_peer (mkPeer k e ips h 25).
Proof. reflexivity. Qed.
End AssignKey.

(** Reading a rendered peer section finishes the previous peer and starts this
    one. *)
Lemma scan_peer port s p :
  wf_peer p ->
  foldl config_line s
    [""; "[Peer]"; "# " +:+ pc_endpoint p; "PublicKey" +:+ " = " +:+ pc_public_key p;
     "AllowedIPs" +:+ " = " +:+ allowed_ips_line p;
     "Endpoint" +:+ " = " +:+ endpoint_addr (pc_endpoint p) port; "PersistentKeepalive" +:+ " = " +:+ "25"] =
  mkScan (sc_mgmt_ip s) (sc_listen_port s) (push_cur s) (Some (peer_of port p)).
Proof.
  intros (Hk & Hk0 & He & He0 & _).
  destruct (endpoint_visible (pc_endpoint p) port He He0) as [Hv Hv0].
  destruct (allowed_neat p) as [Ha Ha0]. cbn [foldl].
  rewrite config_line_empty, config_line_peer. unfold peer_default.
  erewrite config_line_comment by (auto using all_visible_neat).
  rewrite (config_line_kv _ "PublicKey") by (auto using all_visible_neat).
  rewrite (config_line_kv _ "AllowedIPs") by (auto using all_visible_neat).
  rewrite (config_line_kv _ "Endpoint") by (auto using all_visible_neat).
  rewrite (config_line_kv _ "PersistentKeepalive") by (auto using all_visible_neat).
  rewrite assign_public_key, assign_allowed_ips, assign_endpoint, assign_keepalive.
  rewrite allowed_split. reflexivity.
Qed.

Lemma scan_peers port peers : forall s,
  Forall wf_peer peers ->
  let s' := foldl config_line s (lines (concat_map (render_peer port) peers)) in
  sc_mgmt_ip s' = sc_mgmt_ip s /\ sc_listen_port s' = sc_listen_port s /\
  push_cur s' = push_cur s ++ (peer_of port <$> peers).
Proof.
  induction peers as [|p peers IH]; intros s Hw; cbn [concat_map foldr].
  { cbn. by rewrite app_nil_r. }
  apply Forall_cons in Hw as [Hp Hw]. rewrite render_peer_lines by done.
  rewrite foldl_app, scan_peer by done. fold (concat_map (render_peer port) peers).
  destruct (IH (mkScan (sc_mgmt_ip s) (sc_listen_port s) (push_cur s) (Some (peer_of port p))) Hw)
    as (-> & -> & ->). cbn [push_cur sc_cur sc_peers sc_mgmt_ip sc_listen_port].
  by rewrite <- app_assoc.
Qed.

Lemma scan_interface mgmt_ip port rest :
  is_u32 mgmt_ip -> is_u16 port ->
  foldl config_line (mkScan None 0 [] None) (lines (render_interface mgmt_ip port +:+ rest)) =
  foldl config_line (mkScan (Some mgmt_ip) port [] None) (lines rest).
Proof.
  intros Hip Hport. unfold render_interface. rewrite <- !string_app_assoc.
  destruct (slashed_item (show_ipv4 mgmt_ip) "32" (show_ipv4_chars _) eq_refl (show_ipv4_nonempty _))
    as [[Ha _] Ha0].
  pose proof (ip_chars_visible _ (digits_ip_chars port)) as Hp.
  assert (forall s, all_chars visible s = true -> all_chars printable s = true) as Hvp.
  { intros s. apply all_chars_impl, visible_printable. }
  rewrite lines_cons by done. rewrite (string_app_assoc (show_ipv4 mgmt_ip)).
  rewrite lines_cons2 by (done || by apply Hvp). rewrite lines_cons2 by auto.
  rewrite lines_cons by done. cbn [foldl].
  change (config_line (mkScan None 0 [] None) "[Interface]") with (mkScan None 0 [] None).
  change ("Address = " +:+ ?x) with ("Address" +:+ " = " +:+ x).
  change ("ListenPort = " +:+ ?x) with ("ListenPort" +:+ " = " +:+ x).
  rewrite (config_line_kv _ "Address") by (auto using all_visible_neat).
  rewrite (config_line_kv _ "ListenPort") by (auto with coold).
  assert (split "/" (show_ipv4 mgmt_ip +:+ "/32") = [show_ipv4 mgmt_ip; "32"]) as Hs.
  { change (show_ipv4 mgmt_ip +:+ "/32") with (show_ipv4 mgmt_ip +:+ String "/" "32").
    rewrite split_app; [done|]. apply (all_chars_no_char ip_char); [done|apply show_ipv4_chars]. }
  unfold assign_key at 2. cbn [sc_cur]. rewrite decide_True by done. rewrite Hs.
  rewrite parse_show_ipv4 by done. unfold assign_key. cbn [sc_cur sc_listen_port sc_peers sc_mgmt_ip].
  rewrite decide_False, decide_True by done. rewrite parse_uint_show by done. reflexivity.
Qed.

(** C24. The configuration survives the round trip: what [render_config] writes
    for a host, [parse_config] reads back as its management address, its listen
    port, and its peers in order, each with its key, its endpoint with a port,
    and exactly the addresses routed to it. *)
Theorem config_roundtrip mgmt_ip port peers :
  is_u32 mgmt_ip -> is_u16 port -> Forall wf_peer peers ->
  parse_config (render_config mgmt_ip port peers) = (Some mgmt_ip, port, peer_of port <$> peers).
Proof.
  intros Hip Hport Hw. unfold parse_config, render_config. rewrite scan_interface by done.
  destruct (scan_peers port peers (mkScan (Some mgmt_ip) port [] None) Hw) as (-> & -> & ->).
  reflexivity.
Qed.
End ConfigFacts.

Module Demo.
Import Subnet.Demo.

Definition peer1 : PeerConfig :=
  mkPeerConfig "203.0.113.11" "BBBBBBBBBBBBBBBBBBBBBBBBBBBBBBBBBBBBBBBBBBB=" (of_octets 100 64 0 2)
    [net (of_octets 10 210 1 0) 24].

Lemma config_roundtrip_witness :
  parse_config (render_config (of_octets 100 64 0 1) 51820 [peer1]) =
  (Some (of_octets 100 64 0 1), 51820,
   [mkPeer "BBBBBBBBBBBBBBBBBBBBBBBBBBBBBBBBBBBBBBBBBBB=" "203.0.113.11:51820"
      ["100.64.0.2/32"; "10.210.1.0/24"] 0 25]).
Proof.
  rewrite (config_roundtrip (of_octets 100 64 0 1) 51820 [peer1]).
  - vm_compute. reflexivity.
  - vm_compute. split; discriminate.
  - vm_compute. split; discriminate.
  - apply Forall_cons. split; [|apply Forall_nil; exact I].
    unfold wf_peer. vm_compute. repeat split; discriminate.
Defined.
End Demo.
