(* ===== verification/Ssh.v ===== *)
(** * Reaching the hosts

    [coolify-cli/src/ssh.rs]: which host and port a node names, the arguments
    of the [ssh] process, the text that writes a file on a host, and the
    [Runner] the provisioning code is written against.

    A [Runner] is what the code sees of a host: the answer to a command, which
    may depend on everything run on that host before.  Hosts do not influence
    each other. *)

From S2P Require Import Prelude RustStr.
Local Open Scope Z_scope.

(* ------------------------------------------------------------------ *)
(** ** Flags *)

Record SshMeshFlags := mkSshFlags {
  f_nodes : list string;
  f_ssh_key : option string;
  f_ssh_config : option string;
  f_ssh_user : string;
  f_ssh_port : Z;
  f_ssh_passphrase_prompt : bool;
  f_concurrency : Z;
  f_ssh_timeout : string;
}.

Inductive SshFlagError := NodesRequired | KeyOrConfigRequired.

Definition validate_ssh_access (f : SshMeshFlags) : result unit SshFlagError :=
  match f_ssh_key f, f_ssh_config f with
  | None, None => Err KeyOrConfigRequired
  | _, _ => Ok ()
  end.

Definition validate (f : SshMeshFlags) : result unit SshFlagError :=
  match f_nodes f with
  | [] => Err NodesRequired
  | _ => validate_ssh_access f
  end.

(** A duration, in nanoseconds; [v * 60] wraps at 64 bits, as in a release build. *)
Definition parse_duration (s : string) : option Z :=
  match strip_suffix "ms" s with
  | Some raw => (fun v => v * 1000000) <$> parse_uint u64_max raw
  | None =>
      match strip_suffix "s" s with
      | Some raw => from_secs <$> parse_uint u64_max raw
      | None =>
          match strip_suffix "m" s with
          | Some raw => (fun v => from_secs ((v * 60) mod 2 ^ 64)) <$> parse_uint u64_max raw
          | None => from_secs <$> parse_uint u64_max s
          end
      end
  end.

Definition timeout (f : SshMeshFlags) : Z := default (from_secs 30) (parse_duration (f_ssh_timeout f)).

Record SshClient := mkSshClient {
  c_key : option string;
  c_config : option string;
  c_timeout : Z;
}.

Definition client (f : SshMeshFlags) : SshClient := mkSshClient (f_ssh_key f) (f_ssh_config f) (timeout f).

(* ------------------------------------------------------------------ *)
(** ** The [ssh] process *)

Definition split_host_port (host : string) (default_port : Z) : string * Z :=
  match rsplit_once ":" host with
  | None => (host, default_port)
  | Some (name, raw_port) =>
      if is_empty name || contains_char ":" name then (host, default_port)
      else match parse_uint u16_max raw_port with
           | Some port => (name, port)
           | None => (host, default_port)
           end
  end.

(** [None] is the panic of [expect]: neither a configuration nor a key. *)
Definition ssh_command_args (config key : option string) (timeout port : Z) (dest remote_cmd : string)
    : option (list string) :=
  head ← match config with
         | Some c => Some ["-F"; c]
         | None => (fun k => ["-i"; k; "-p"; show_Z port]) <$> key
         end;
  Some (head ++
        ["-o"; "StrictHostKeyChecking=no"; "-o"; "UserKnownHostsFile=/dev/null"; "-o";
         "ConnectTimeout=" +:+ show_Z (Z.max (timeout / 1000000000) 1)] ++
        match config with
        | None => ["-o"; "ControlMaster=auto"; "-o"; "ControlPath=/tmp/coolify-ssh-%C"; "-o";
                   "ControlPersist=60s"]
        | Some _ => []
        end ++ [dest; remote_cmd]).

(** The arguments [SshClient::run] starts [ssh] with; [shell_escape] is the
    crate of that name. *)
Definition ssh_run_args (shell_escape : string -> string) (c : SshClient) (host user : string) (port : Z)
    (cmd : string) : option (list string) :=
  let '(ssh_host, ssh_port) := split_host_port host port in
  ssh_command_args (c_config c) (c_key c) (c_timeout c) ssh_port (user +:+ "@" +:+ ssh_host)
    (if decide (user = "root") then cmd else "sudo -n bash -lc " +:+ shell_escape cmd).

(* ------------------------------------------------------------------ *)
(** ** Text helpers *)

Definition heredoc (path body mode : string) : string :=
  "cat > " +:+ path +:+ ".tmp <<'COOLIFY_CLI_EOF'" +:+ lf +:+ body +:+ "COOLIFY_CLI_EOF" +:+ lf +:+
  "chmod " +:+ mode +:+ " " +:+ path +:+ ".tmp && mv " +:+ path +:+ ".tmp " +:+ path.

Definition first_line (s : string) : option string :=
  List.find (fun l => negb (is_empty l)) (trim <$> lines s).

(* ------------------------------------------------------------------ *)
(** ** Runners *)

Record RunOutput := mkOutput { o_stdout : string; o_stderr : string; o_status : Z }.

(** [Runner]: the answer to a command, given the commands already run there. *)
Class Runner := {
  run : string (* host *) -> string (* user *) -> Z (* port *) ->
        list string (* history *) -> string (* command *) -> result RunOutput string
}.

(** How the [ssh] process ends: not within the time allowed, not started, or with
    an exit code (none when a signal ended it) and what it wrote. *)
Inductive SshEnd :=
  | TimedOut
  | SpawnFailed
  | Exited (code : option Z) (out err : string).

(** [SshClient::run] from the end of the process on; an error is its outermost
    message, the one [for_each_server] keeps. *)
Definition ssh_answer (host : string) (e : SshEnd) : result RunOutput string :=
  match e with
  | TimedOut => Err "ssh command timed out"
  | SpawnFailed => Err "spawn ssh"
  | Exited code out err =>
      let status := default 255 code in
      let o := mkOutput (from_utf8_lossy out) (from_utf8_lossy err) status in
      if bool_decide (code = Some 0) then Ok o
      else Err ("ssh " +:+ host +:+ ": exit " +:+ show_Z status +:+ ": " +:+
                default "" (match first_line (o_stderr o) with Some l => Some l | None => first_line (o_stdout o) end))
  end.

(** [SshClient::run]; [ssh] is the process, given its arguments. *)
Definition ssh_run (shell_escape : string -> string) (ssh : list string -> SshEnd) (c : SshClient) (host user : string) (port : Z)
    (cmd : string) : option (result RunOutput string) :=
  ssh_answer host ∘ ssh <$> ssh_run_args shell_escape c host user port cmd.

Record ServerResult (T : Type) := mkServerResult {
  sr_host : string;
  sr_result : option T;
  sr_error : option string;
}.
Arguments mkServerResult {T}.
Arguments sr_host {T}.
Arguments sr_result {T}.
Arguments sr_error {T}.

Definition server_result {T} (host : string) (r : result T string) : ServerResult T :=
  match r with
  | Ok v => mkServerResult host (Some v) None
  | Err e => mkServerResult host None (Some e)
  end.

(* ------------------------------------------------------------------ *)
(** ** Properties *)

Lemma split_named_port name port default_port :
  name <> "" -> contains_char ":" name = false -> is_u16 port ->
  split_host_port (name +:+ ":" +:+ show_Z port) default_port = (name, port).
Proof.
  intros Hn Hc Hp. unfold split_host_port. change (":" +:+ show_Z port) with (String ":" (show_Z port)). rewrite rsplit_once_last.
  - destruct name; [done|]. rewrite Hc. cbn [is_empty orb]. by rewrite parse_uint_show.
  - apply (all_chars_no_char is_digit); [done|apply show_Z_chars].
Qed.

(** A node written [name:port] is reached at that port, a name without a
    colon at the default one. *)
Theorem split_host_port_roundtrip name port default_port :
  name <> "" -> contains_char ":" name = false -> is_u16 port ->
  split_host_port (name +:+ ":" +:+ show_Z port) default_port = (name, port) /\
  split_host_port name default_port = (name, default_port).
Proof.
  intros Hn Hc Hp. split; [by apply split_named_port|]. unfold split_host_port.
  destruct (rsplit_once ":" name) as [[h t]|] eqn:E; [|done].
  apply rsplit_once_app in E as ->. by rewrite contains_char_app, orb_true_r in Hc.
Qed.

Lemma split_host_port_roundtrip_witness :
  split_host_port ("10.0.0.7" +:+ ":" +:+ show_Z 2222) 22 = ("10.0.0.7", 2222).
Proof.
  apply (split_host_port_roundtrip "10.0.0.7" 2222 22); [discriminate|reflexivity|].
  unfold is_u16, u16_max. lia.
Defined.

(** Flags that pass [validate] give a client [ssh] can be started with. *)
Lemma validated_client_runs f escape host user port cmd :
  validate_ssh_access f = Ok () ->
  is_Some (ssh_run_args escape (client f) host user port cmd).
Proof.
  unfold validate_ssh_access, ssh_run_args, ssh_command_args. cbn [c_config c_key client].
  destruct (split_host_port host port) as [h p].
  destruct (f_ssh_key f), (f_ssh_config f); cbn; [eauto..|done].
Qed.

(** A command run over [ssh] succeeds only when the process exits with 0, and
    then answers with what it wrote; validated flags never make it panic. *)
Theorem ssh_run_answers f escape ssh host user port cmd :
  validate_ssh_access f = Ok () ->
  exists args r, ssh_run_args escape (client f) host user port cmd = Some args /\
    ssh_run escape ssh (client f) host user port cmd = Some r /\
    forall o, r = Ok o <-> exists out err, ssh args = Exited (Some 0) out err /\
      o = mkOutput (from_utf8_lossy out) (from_utf8_lossy err) 0.
Proof.
  intros Hv. destruct (validated_client_runs f escape host user port cmd Hv) as [args Ha]. unfold ssh_run. rewrite Ha.
  exists args, (ssh_answer host (ssh args)). split; [done|]. split; [done|]. intros o. unfold ssh_answer.
  destruct (ssh args) as [| |[code|] out err]; [naive_solver..| |naive_solver].
  case_bool_decide as Hc; [injection Hc as ->; naive_solver|]. split; [done|]. naive_solver.
Qed.

Lemma ssh_run_answers_witness : ssh_run (fun s => s) (fun _ => Exited (Some 0) "up" "")
    (client (mkSshFlags ["a"] (Some "/k") None "root" 22 false 10 "30s")) "a:2222" "root" 22 "uptime" = Some (Ok (mkOutput "up" "" 0)).
Proof.
  destruct (ssh_run_answers (mkSshFlags ["a"] (Some "/k") None "root" 22 false 10 "30s") (fun s => s) (fun _ => Exited (Some 0) "up" "")
    "a:2222" "root" 22 "uptime" eq_refl) as (args & r & Ha & -> & Hr). f_equal. apply Hr. by exists "up", "".
Defined.

(** With a configuration file the port of a node is dropped: it is not among the
    arguments, whatever the node's [host:port] or the default port says. *)
Theorem node_port_dropped escape c config name port port' default_port user cmd :
  c_config c = Some config -> name <> "" -> contains_char ":" name = false -> is_u16 port -> is_u16 port' ->
  ssh_run_args escape c (name +:+ ":" +:+ show_Z port) user default_port cmd =
  ssh_run_args escape c (name +:+ ":" +:+ show_Z port') user default_port cmd.
Proof.
  intros Hc Hn Hcol Hp Hp'. unfold ssh_run_args. rewrite !split_named_port by done. unfold ssh_command_args. by rewrite Hc.
Qed.

Lemma node_port_dropped_witness : ssh_run_args (fun s => s) (mkSshClient None (Some "/c") 1) ("a" +:+ ":" +:+ show_Z 2222) "root" 22 "id" =
  ssh_run_args (fun s => s) (mkSshClient None (Some "/c") 1) ("a" +:+ ":" +:+ show_Z 22) "root" 22 "id".
Proof. apply (node_port_dropped _ _ "/c"); try done; unfold is_u16, u16_max; lia. Defined.
