(* ===== verification/Plan.v ===== *)
(** * Planning

    [coolify-cli/src/wireguard/intent.rs] and [wireguard/plan.rs]: the actions
    that take the observed mesh to the desired one, and which of them an intent
    lets through.

    [build_plan] answers [None] where the source would not return: an allocator
    that never ends, a map indexed at an absent key, or the assertion in
    [config_bytes].  SHA-256 is the [sha2] crate's, a parameter. *)

From S2P Require Import Prelude RustStr Net Subnet Mesh MeshText.
Local Open Scope Z_scope.

(* ------------------------------------------------------------------ *)
(** ** Intents *)

Inductive Category :=
  | SafeAlways | PeerRefresh | DestructiveReplace | VersionBump | WipeDb | SchemaFirstWrite.

Inductive PlanError :=
  | DefaultDenyNeedsPodman
  | CooldNeedsPodman
  | NamespaceRequired
  | NftMissing (host : string)
  | ExtendNeedsNewNodes
  | NewNodeNotANode (h : string)
  | UpgradeNightly (flag : string)
  | AllocFailed (e : AllocError).

Section Intents.
Context `{api : Ipv4NetApi}.

Definition categorize (a : PlannedAction) : Category :=
  match a_type a with
  | InstallWg | GenKeyPair | AllocateMgmtIp | AllocateContainerSubnet | EnableService
  | InstallPodman | EnablePodmanSocket | EnableIpForward | CreatePodmanNetwork | AddPeer
  | RemovePeer => SafeAlways
  | WriteConfig | ReloadService | InstallFirewall | WriteCorrosionConfig
  | InstallCorrosionService | InstallCooldService => PeerRefresh
  | RecreatePodmanNetwork => DestructiveReplace
  | InstallCorrosion | InstallCoold => VersionBump
  | WriteCorrosionSchema =>
      if contains_str "DB will be reset" (a_detail a) then WipeDb else SchemaFirstWrite
  end.

Fixpoint check_new_nodes (nodes new_nodes : list string) : result unit PlanError :=
  match new_nodes with
  | [] => Ok ()
  | h :: rest => if negb (bool_decide (h ∈ nodes)) then Err (NewNodeNotANode h)
                 else check_new_nodes nodes rest
  end.

Fixpoint check_versions (versions : list (string * string)) : result unit PlanError :=
  match versions with
  | [] => Ok ()
  | (flag, v) :: rest => if decide (v = "nightly") then Err (UpgradeNightly flag) else check_versions rest
  end.

Definition validate_intent (d : DesiredMesh) : result unit PlanError :=
  match d_intent d with
  | Bootstrap => Ok ()
  | Extend =>
      match d_new_nodes d with
      | [] => Err ExtendNeedsNewNodes
      | _ => check_new_nodes (d_nodes d) (d_new_nodes d)
      end
  | Upgrade =>
      if negb (d_allow_nightly d) then
        check_versions
          (match d_nodes d with
           | [] => []
           | _ => [("--coold-version", d_coold_version d);
                   ("--corrosion-version", d_corrosion_version d)]
           end)
      else Ok ()
  end.

(** [Some reason]: the action is skipped. *)
Definition decide_action (a : PlannedAction) (d : DesiredMesh) (new_nodes : gset string) : option string :=
  let is_new := bool_decide (a_host a ∈ new_nodes) in
  match d_intent d with
  | Bootstrap => None
  | Extend =>
      if is_new then None
      else match categorize a with
           | SafeAlways | PeerRefresh | SchemaFirstWrite => None
           | DestructiveReplace =>
               if d_allow_replace d then None
               else Some "extend: destructive-replace on existing host blocked; pass --allow-replace to override"
           | VersionBump =>
               Some "extend: version-bump on existing host skipped; use `coolify init upgrade` to bump versions"
           | WipeDb =>
               Some "extend: corrosion DB wipe on existing host is never allowed; resolve schema drift with `coolify init upgrade` on a fresh schema"
           end
  | Upgrade =>
      match categorize a with
      | VersionBump => None
      | PeerRefresh =>
          match a_type a with
          | InstallCorrosionService | InstallCooldService => None
          | _ => Some "upgrade: peer-refresh skipped; use `coolify init extend` for mesh topology changes"
          end
      | _ => Some "upgrade: non-version-bump action skipped"
      end
  end.

(** The loop of [filter_by_intent]: actions kept, actions skipped. *)
Fixpoint split_actions (d : DesiredMesh) (new_nodes : gset string) (l : list PlannedAction)
    : list PlannedAction * list SkippedAction :=
  match l with
  | [] => ([], [])
  | a :: l' =>
      let '(kept, skipped) := split_actions d new_nodes l' in
      match decide_action a d new_nodes with
      | Some reason => (kept, mkSkipped a reason :: skipped)
      | None => (a :: kept, skipped)
      end
  end.

Definition filter_by_intent (p : Plan) (d : DesiredMesh) : Plan :=
  if decide (d_intent d = Bootstrap) then p
  else
    let '(kept, skipped) := split_actions d (list_to_set (d_new_nodes d)) (pl_actions p) in
    mkPlan kept (pl_mgmt_assignments p) (pl_subnet_assignments p) (pl_warnings p)
      (pl_skipped p ++ skipped).
End Intents.

(* ------------------------------------------------------------------ *)
(** ** The plan *)

Definition binary_version_drift (want : string) (installed : bool) (have : string) : bool :=
  negb installed || is_empty have || bool_decide (want ∈ ["nightly"; "latest"])
  || negb (bool_decide (have = want)).

(** [&k[..8]] panics when the ninth byte goes on with a character. *)
Definition continues (c : ascii) : bool := byte_in 128 191 c.
Definition truncate_key (k : string) : option string :=
  if (String.length k <=? 8)%nat then Some k
  else if from_option continues false (String.get 8 k) then None
  else Some (String.substring 0 8 k +:+ "...").

(** The actions on the peers of the given keys, one each. *)
Definition peer_actions (host : string) (t : ActionType) (keys : gset string) : option (list PlannedAction) :=
  mapM (fun k => mkAction host "" t <$> truncate_key k) (btree_set_list keys).

Definition show_bool (b : bool) : string := if b then "true" else "false".
Definition show_len {A} (l : list A) : string := show_Z (Z.of_nat (length l)).

Section Planning.
Context `{api : Ipv4NetApi} (sha256_hex : string -> string).

(** [push] under a condition. *)
Definition push_if (b : bool) (host ns : string) (t : ActionType) (detail : string)
    : list PlannedAction :=
  if b then [mkAction host ns t detail] else [].

Definition peer_keys (s : ServerState) : gset string := list_to_set (p_public_key <$> s_peers s).

Definition desired_keys (d : DesiredMesh) (current : MeshState) (host : string) : gset string :=
  list_to_set (filter (fun k => negb (is_empty k))
    (omap (fun p => s_public_key <$> current !! p) (filter (fun p => p <> host) (d_hosts d)))).

Definition peer_key_pending (d : DesiredMesh) (current : MeshState) (host : string) : bool :=
  existsb (fun p => negb (bool_decide (p = host)) &&
                    match current !! p with Some s => is_empty (s_public_key s) | None => true end)
    (d_hosts d).

Definition needs_config (d : DesiredMesh) (current : MeshState) (mgmt_ip : Z) (host : string)
    (state : ServerState) : bool :=
  let mgmt_mismatch := negb (bool_decide (s_wireguard_mgmt_ip state = Some mgmt_ip)) in
  let peer_drift := negb (bool_decide (desired_keys d current host ⊆ peer_keys state)) in
  mgmt_mismatch || peer_drift || peer_key_pending d current host || negb (s_keys_exist state)
  || negb (s_installed state)
  || ((1 <? length (d_hosts d))%nat && negb (s_listen_port state =? listen_port_for d host)).

(** The WireGuard part of a host's plan. *)
Definition wireguard_actions (d : DesiredMesh) (current : MeshState) (mgmt_ip : Z) (host : string)
    (state : ServerState) : option (list PlannedAction) :=
  let want := desired_keys d current host in
  let have := peer_keys state in
  let needs := needs_config d current mgmt_ip host state in
  added ← peer_actions host AddPeer (want ∖ have);
  removed ← peer_actions host RemovePeer (have ∖ want);
  Some (
  push_if (negb (s_installed state)) host "" InstallWg "wireguard not installed" ++
  push_if (negb (s_keys_exist state)) host "" GenKeyPair "missing /etc/wireguard/privatekey" ++
  added ++ removed ++
  push_if needs host "" WriteConfig
    (d_interface d +:+ ".conf (" +:+ show_Z (sat_sub (Z.of_nat (length (d_hosts d))) 1) +:+ " peer(s))") ++
  (if negb (s_active state) then
     [mkAction host "" EnableService ("systemctl enable --now wg-quick@" +:+ d_interface d)]
   else push_if needs host "" ReloadService
          ("systemctl reload wg-quick@" +:+ d_interface d +:+ " (config changed)"))).

Definition namespace_actions (host : string) (state : ServerState) (ns : string) (want : Ipv4Net)
    : list PlannedAction :=
  let net_name := podman_network_for ns in
  let create := mkAction host ns CreatePodmanNetwork
                  (net_name +:+ " subnet=" +:+ net_show want +:+ " gateway=" +:+
                   show_ipv4 (machine_ip want)) in
  match s_namespaces state !! ns with
  | None => [create]
  | Some nss =>
      if negb (ns_network_exists nss) then [create]
      else push_if (ns_dns_enabled nss || negb (bool_decide (ns_container_subnet nss = Some want))
                    || negb (bool_decide (ns_label nss = ns)))
             host ns RecreatePodmanNetwork (net_name +:+ " — drift")
  end.

(** [ns_sorted.iter().map(|ns| subnets[ns][host])]. *)
Definition host_subnets (d : DesiredMesh) (subnets : gmap string (gmap string Ipv4Net)) (host : string)
    : option (list Ipv4Net) :=
  mapM (fun ns => subnet_at subnets ns host) (sorted_namespaces d).

Definition podman_actions (d : DesiredMesh) (host : string) (state : ServerState) (nets : list Ipv4Net)
    : list PlannedAction :=
  let expected := firewall_service_unit (d_interface d) (sorted_namespaces d) nets
                    (d_default_deny_containers d) in
  push_if (negb (s_podman_installed state)) host "" InstallPodman "podman not installed" ++
  push_if (negb (s_podman_socket_active state)) host "" EnablePodmanSocket
    "systemctl enable --now podman.socket" ++
  push_if (negb (s_ip_forward_enabled state)) host "" EnableIpForward "net.ipv4.ip_forward=1" ++
  ('(ns, want) ← zip (sorted_namespaces d) nets; namespace_actions host state ns want) ++
  push_if (negb (s_firewall_active state)
           || negb (Bool.eqb (s_default_deny_active state) (d_default_deny_containers d))
           || negb (bool_decide (s_firewall_unit_sha256 state = sha256_hex expected)))
    host "" InstallFirewall
    ("coolify-mesh-fw.service (" +:+ d_interface d +:+ ", " +:+ show_len nets +:+
     " namespace(s), default-deny=" +:+ show_bool (d_default_deny_containers d) +:+ ")").

Definition ns_configs (d : DesiredMesh) (nets : list Ipv4Net) : list CooldNamespace :=
  (fun '(ns, net) => mkCooldNamespace ns (podman_network_for ns) (machine_ip net)) <$>
  zip (sorted_namespaces d) nets.

Definition node_peers (d : DesiredMesh) (mgmt : gmap string Z) (host : string) : list Z :=
  omap (fun h => mgmt !! h) (filter (fun h => h <> host) (d_nodes d)).

Definition schema_detail (state : ServerState) (schema_drift : bool) : string :=
  if schema_drift && negb (is_empty (s_corrosion_schema_sha256 state))
  then "/etc/corrosion/schemas/coolify.sql [schema drift — DB will be reset]"
  else "/etc/corrosion/schemas/coolify.sql".

Definition coold_actions (d : DesiredMesh) (mgmt : gmap string Z) (host : string) (mgmt_ip : Z)
    (state : ServerState) (nets : list Ipv4Net) : option (list PlannedAction) :=
  let corrosion_drift := binary_version_drift (d_corrosion_version d) (s_corrosion_installed state)
                           (s_corrosion_version state) in
  let coold_drift := binary_version_drift (d_coold_version d) (s_coold_installed state)
                       (s_coold_version state) in
  let peers := node_peers d mgmt host in
  cfg ← config_bytes mgmt_ip (d_corrosion_gossip_port d) (d_corrosion_api_port d) peers
          (match d_corrosion_gossip_tls d with Some _ => true | None => false end);
  let cfg_drift := negb (bool_decide (s_corrosion_config_hash state = sha256_hex cfg)) in
  let schema_drift := negb (bool_decide (s_corrosion_schema_sha256 state =
                                         sha256_hex COOLIFY_SCHEMA_SQL)) in
  let coold_unit := coold_service_unit mgmt_ip (ns_configs d nets) (coold_flux_config d) in
  let coold_unit_drift := negb (bool_decide (s_coold_unit_sha256 state = sha256_hex coold_unit)) in
  Some (
    push_if corrosion_drift host "" InstallCorrosion
      ("corrosion " +:+ d_corrosion_version d +:+ " → /usr/local/bin/corrosion") ++
    push_if coold_drift host "" InstallCoold
      ("coold " +:+ d_coold_version d +:+ " → /usr/local/bin/coold") ++
    push_if cfg_drift host "" WriteCorrosionConfig
      ("/etc/corrosion/config.toml (peers=" +:+ show_len peers +:+ ")") ++
    push_if (negb (s_corrosion_schema_exists state) || schema_drift) host "" WriteCorrosionSchema
      (schema_detail state schema_drift) ++
    push_if (negb (s_corrosion_active state) || cfg_drift || corrosion_drift || schema_drift)
      host "" InstallCorrosionService "systemctl enable --now corrosion" ++
    push_if (negb (s_coold_active state) || cfg_drift || coold_drift || coold_unit_drift)
      host "" InstallCooldService
      ("systemctl enable --now coold (mgmt=" +:+ show_ipv4 mgmt_ip +:+ ", namespaces=" +:+
       show_len (ns_configs d nets) +:+ ")")).

(** The actions of one host, in order. *)
Definition host_actions (d : DesiredMesh) (current : MeshState) (mgmt : gmap string Z)
    (subnets : gmap string (gmap string Ipv4Net)) (host : string) : option (list PlannedAction) :=
  let state := default server_default (current !! host) in
  mgmt_ip ← mgmt !! host;
  wireguard ← wireguard_actions d current mgmt_ip host state;
  podman ← (if is_node d host && d_install_podman d
            then podman_actions d host state <$> host_subnets d subnets host
            else Some []);
  coold ← (if is_node d host && d_install_coold d
           then host_subnets d subnets host ≫= coold_actions d mgmt host mgmt_ip state
           else Some []);
  Some (wireguard ++ podman ++ coold).

Fixpoint check_nft (d : DesiredMesh) (current : MeshState) (nodes : list string)
    : result unit PlanError :=
  match nodes with
  | [] => Ok ()
  | host :: rest =>
      match current !! host with
      | Some s => if d_default_deny_containers d && negb (s_nft_available s)
                  then Err (NftMissing host) else check_nft d current rest
      | None => check_nft d current rest
      end
  end.

(** The guards before any allocation. *)
Definition check_request (d : DesiredMesh) (current : MeshState) : result unit PlanError :=
  let has_nodes := negb (bool_decide (d_nodes d = [])) in
  (guard! negb (has_nodes && d_default_deny_containers d && negb (d_install_podman d))
     else DefaultDenyNeedsPodman in
   guard! negb (has_nodes && d_install_coold d && negb (d_install_podman d)) else CooldNeedsPodman in
   guard! negb (has_nodes && d_install_podman d && bool_decide (d_namespaces d = []))
     else NamespaceRequired in
   let? _ := validate_intent d in
   check_nft d current (d_nodes d))%rust.

Definition build_plan (d : DesiredMesh) (current : MeshState) : option (result Plan PlanError) :=
  match check_request d current with
  | Err e => Some (Err e)
  | Ok _ =>
      match allocate_mgmt_ips (d_mgmt_pool d) (assigned_mgmt_ips current) (d_hosts d) with
      | None => None
      | Some (Err e) => Some (Err (AllocFailed e))
      | Some (Ok (mgmt, warnings)) =>
          match allocate_namespaced (d_container_pool d) (d_container_prefix d)
                  (assigned_container_subnets current) (d_namespaces d) (d_nodes d) with
          | None => None
          | Some (Err e) => Some (Err (AllocFailed e))
          | Some (Ok (subnets, cont_warnings)) =>
              match mapM (host_actions d current mgmt subnets) (d_hosts d) with
              | None => None
              | Some actions =>
                  Some (Ok (filter_by_intent
                    (mkPlan (mjoin actions) mgmt subnets (warnings ++ cont_warnings) []) d))
              end
          end
      end
  end.
End Planning.

(* ------------------------------------------------------------------ *)
(** ** Properties of the intents *)

Section IntentFacts.
Context `{api : Ipv4NetApi}.

Lemma split_actions_spec d new_nodes l :
  let '(kept, skipped) := split_actions d new_nodes l in
  kept = filter (fun a => decide_action a d new_nodes = None) l /\
  l ≡ₚ kept ++ (sk_action <$> skipped) /\
  Forall (fun s => decide_action (sk_action s) d new_nodes = Some (sk_reason s)) skipped.
Proof.
  induction l as [|a l IH]; cbn [split_actions]; [done|].
  destruct (split_actions d new_nodes l) as [kept skipped]. destruct IH as (Hk & Hp & Hr).
  destruct (decide_action a d new_nodes) as [r|] eqn:E; rewrite filter_cons.
  - rewrite decide_False by congruence. split_and!; [done| |by constructor].
    rewrite Hp at 1. apply Permutation_middle.
  - rewrite decide_True by done. split_and!; [by f_equal| |done]. simpl. by rewrite <- Hp.
Qed.

Lemma filter_by_intent_actions p d a :
  a ∈ pl_actions (filter_by_intent p d) ->
  a ∈ pl_actions p /\
  (d_intent d <> Bootstrap -> decide_action a d (list_to_set (d_new_nodes d)) = None).
Proof.
  unfold filter_by_intent. case_decide; [done|].
  pose proof (split_actions_spec d (list_to_set (d_new_nodes d)) (pl_actions p)) as Hs.
  destruct (split_actions _ _ _) as [kept skipped]. destruct Hs as (-> & _ & _). simpl.
  rewrite list_elem_of_filter. tauto.
Qed.

(** What an intent lets through. *)
Lemma kept_by_intent p d a :
  a ∈ pl_actions (filter_by_intent p d) ->
  match d_intent d with
  | Bootstrap => True
  | Extend =>
      a_host a ∉ d_new_nodes d ->
      a_type a <> InstallCoold /\ a_type a <> InstallCorrosion /\
      (a_type a = WriteCorrosionSchema -> contains_str "DB will be reset" (a_detail a) = false) /\
      (a_type a = RecreatePodmanNetwork -> d_allow_replace d = true)
  | Upgrade =>
      a_type a ∈ [InstallCoold; InstallCorrosion; InstallCorrosionService; InstallCooldService]
  end.
Proof.
  intros [_ Hd]%filter_by_intent_actions. unfold decide_action, categorize in Hd.
  destruct (d_intent d); [done| |]; specialize (Hd ltac:(done)).
  - intros Hn. rewrite bool_decide_eq_false_2 in Hd by set_solver.
    destruct (a_type a), (d_allow_replace d), (contains_str "DB will be reset" (a_detail a)); done.
  - destruct (a_type a), (contains_str "DB will be reset" (a_detail a)); try done; set_solver.
Qed.

(** Intents hold actions back and lose none: every planned action is either
    kept or reported as skipped.  Extending a mesh never resets the database of
    an existing host, never changes its versions, and recreates its networks
    only when replacement is allowed; upgrading does nothing but install
    binaries and their services. *)
Theorem intent_filter_safe p d :
  let p' := filter_by_intent p d in
  (exists skipped, pl_skipped p' = pl_skipped p ++ skipped /\
     pl_actions p ≡ₚ pl_actions p' ++ (sk_action <$> skipped)) /\
  (forall a, a ∈ pl_actions p' ->
     match d_intent d with
     | Bootstrap => True
     | Extend =>
         a_host a ∉ d_new_nodes d ->
         a_type a <> InstallCoold /\ a_type a <> InstallCorrosion /\
         (a_type a = WriteCorrosionSchema -> contains_str "DB will be reset" (a_detail a) = false) /\
         (a_type a = RecreatePodmanNetwork -> d_allow_replace d = true)
     | Upgrade =>
         a_type a ∈ [InstallCoold; InstallCorrosion; InstallCorrosionService; InstallCooldService]
     end).
Proof.
  intros p'. split.
  - unfold p', filter_by_intent. case_decide; [exists []; by rewrite !app_nil_r|].
    pose proof (split_actions_spec d (list_to_set (d_new_nodes d)) (pl_actions p)) as Hs.
    destruct (split_actions _ _ _) as [kept skipped]. destruct Hs as (_ & Hp & _). by exists skipped.
  - intros a. apply kept_by_intent.
Qed.
Lemma is_node_spec d host : is_node d host = true <-> host ∈ d_nodes d.
Proof.
  unfold is_node. rewrite existsb_exists. setoid_rewrite bool_decide_eq_true.
  setoid_rewrite <- list_elem_of_In. split; [by intros (x & Hx & ->)|eauto].
Qed.

Lemma sorted_namespaces_perm d : sorted_namespaces d ≡ₚ d_namespaces d.
Proof. apply merge_sort_Permutation. Qed.
End IntentFacts.

(* ------------------------------------------------------------------ *)
(** ** The plan always returns *)

Section PlanFacts.
Context `{api : Ipv4NetApi} {laws : Ipv4NetLaws api} (sha256_hex : string -> string).

(** The assignments a plan works with. *)
Record assigned (d : DesiredMesh) (mgmt : gmap string Z) (subnets : gmap string (gmap string Ipv4Net))
    : Prop := {
  as_mgmt h : h ∈ d_hosts d -> exists ip, mgmt !! h = Some ip /\ 0 < ip;
  as_subnets ns h : ns ∈ d_namespaces d -> h ∈ d_nodes d -> is_Some (subnet_at subnets ns h);
}.

Lemma allocated_assigned d existing mgmt ws existing' subnets ws' :
  net_broadcast (d_container_pool d) < u32_max ->
  allocate_mgmt_ips (d_mgmt_pool d) existing (d_hosts d) = Some (Ok (mgmt, ws)) ->
  allocate_namespaced (d_container_pool d) (d_container_prefix d) existing' (d_namespaces d) (d_nodes d) =
    Some (Ok (subnets, ws')) ->
  assigned d mgmt subnets.
Proof.
  intros Htop Hm Hs. split.
  - pose proof (mgmt_spec (d_mgmt_pool d) existing (d_hosts d)) as Hspec. rewrite Hm in Hspec.
    destruct Hspec as (Hdom & Hus & _). intros h Hh. apply Hdom in Hh as [ip Hip].
    exists ip. split; [done|]. apply Hus in Hip. destruct (network_range (d_mgmt_pool d)). lia.
  - destruct (namespaced_spec _ _ _ _ _ _ _ Htop Hs) as (Hdom & _). intros ns h Hns Hh. by apply Hdom.
Qed.

Lemma host_subnets_some d mgmt subnets h :
  assigned d mgmt subnets -> h ∈ d_nodes d -> exists nets, host_subnets d subnets h = Some nets.
Proof.
  intros Ha Hh. unfold host_subnets. apply mapM_is_Some, Forall_forall. intros ns Hns.
  rewrite sorted_namespaces_perm in Hns. by eapply as_subnets.
Qed.

Lemma config_bytes_some ip g a peers tls : 0 < ip -> exists cfg, config_bytes ip g a peers tls = Some cfg.
Proof. intros Hip. unfold config_bytes. destruct (Z.eqb_spec ip 0); [lia|eauto]. Qed.

(** The public keys that were read from the hosts are ASCII, as base64 is. *)
Definition ascii_keys (current : MeshState) : Prop :=
  forall h s, current !! h = Some s ->
    Forall (fun k => all_chars (byte_in 0 127) k = true) (s_public_key s :: (p_public_key <$> s_peers s)).

Lemma get_all_chars q s i c : all_chars q s = true -> String.get i s = Some c -> q c = true.
Proof.
  revert i. induction s as [|c' s IH]; intros i Hs Hg; [by destruct i|].
  apply andb_true_iff in Hs as [Hc Hs]. destruct i as [|i]; cbn in Hg; [congruence|by eapply IH].
Qed.

Lemma truncate_key_ascii k : all_chars (byte_in 0 127) k = true -> is_Some (truncate_key k).
Proof.
  intros Hk. unfold truncate_key. destruct (String.length k <=? 8)%nat; [eauto|].
  destruct (String.get 8 k) as [c|] eqn:E; cbn; [|eauto].
  apply (get_all_chars _ _ _ _ Hk) in E. unfold continues, byte_in in *.
  destruct (N.leb_spec 128 (N_of_ascii c)); cbn; [|eauto].
  apply andb_true_iff in E as [_ E%N.leb_le]. lia.
Qed.

Lemma peer_actions_some host t (keys : gset string) :
  (forall k, k ∈ keys -> all_chars (byte_in 0 127) k = true) -> is_Some (peer_actions host t keys).
Proof.
  intros Hk. apply mapM_is_Some, Forall_forall. intros k Hin%elem_of_btree_set_list.
  apply fmap_is_Some, truncate_key_ascii, Hk, Hin.
Qed.

Lemma wireguard_actions_some d current ip h :
  ascii_keys current -> is_Some (wireguard_actions d current ip h (default server_default (current !! h))).
Proof.
  intros Hk. unfold wireguard_actions.
  destruct (peer_actions_some h AddPeer (desired_keys d current h ∖ peer_keys (default server_default (current !! h))))
    as [added ->].
  { intros k [Hin _]%elem_of_difference. unfold desired_keys in Hin.
    apply elem_of_list_to_set, list_elem_of_filter in Hin as [_ (p & _ & Hp)%list_elem_of_omap].
    destruct (current !! p) as [s|] eqn:Hs; [|done]. injection Hp as <-.
    by apply Hk, Forall_cons in Hs as [? _]. }
  destruct (peer_actions_some h RemovePeer (peer_keys (default server_default (current !! h)) ∖ desired_keys d current h))
    as [removed ->]; [|by eexists].
  intros k [Hin _]%elem_of_difference. unfold peer_keys in Hin. apply elem_of_list_to_set in Hin.
  destruct (current !! h) as [s|] eqn:Hs; cbn in Hin; [|by apply not_elem_of_nil in Hin].
  apply Hk, Forall_cons in Hs as [_ Hs]. rewrite Forall_forall in Hs. by apply Hs.
Qed.

Lemma host_actions_some d current mgmt subnets h :
  ascii_keys current -> assigned d mgmt subnets -> h ∈ d_hosts d ->
  is_Some (host_actions sha256_hex d current mgmt subnets h).
Proof.
  intros Hk Ha Hh. destruct (as_mgmt _ _ _ Ha h Hh) as (ip & Hip & Hpos).
  unfold host_actions. rewrite Hip. cbn [mbind option_bind].
  destruct (wireguard_actions_some d current ip h Hk) as [wg ->]. cbn [mbind option_bind].
  destruct (is_node d h) eqn:Hn; cbn [andb]; [|by eexists].
  apply is_node_spec in Hn. destruct (host_subnets_some _ _ _ _ Ha Hn) as [nets Hnets]. rewrite Hnets.
  unfold coold_actions.
  destruct (config_bytes_some ip (d_corrosion_gossip_port d) (d_corrosion_api_port d)
              (node_peers d mgmt h)
              (match d_corrosion_gossip_tls d with Some _ => true | None => false end) Hpos) as [cfg Hcfg].
  cbn [mbind option_bind]. rewrite Hcfg.
  destruct (d_install_podman d), (d_install_coold d); cbn; by eexists.
Qed.

(** C37. Planning ends in a plan or an error: with a container pool that does not
    end at the top of the address space, and public keys read from the hosts that
    are ASCII, no allocator loops, no table is read at a missing key, no key is cut
    inside a character, and the Corrosion configuration is never asked to bind the
    unspecified address. *)
Theorem build_plan_returns d current :
  net_broadcast (d_container_pool d) < u32_max -> ascii_keys current ->
  exists r, build_plan sha256_hex d current = Some r.
Proof.
  intros Htop Hkeys. unfold build_plan. destruct (check_request d current) as [u|e]; [|eauto].
  pose proof (mgmt_spec (d_mgmt_pool d) (assigned_mgmt_ips current) (d_hosts d)) as Hm.
  destruct (allocate_mgmt_ips _ _ _) as [[[mgmt ws]|e]|] eqn:Ea; [|eauto|done].
  pose proof (namespaced_returns (d_container_pool d) (d_container_prefix d)
                (assigned_container_subnets current) (d_namespaces d) (d_nodes d) Htop) as Hn.
  destruct (allocate_namespaced _ _ _ _ _) as [[[subnets ws']|e]|] eqn:En; [|eauto|done].
  pose proof (allocated_assigned _ _ _ _ _ _ _ Htop Ea En) as Has.
  assert (is_Some (mapM (host_actions sha256_hex d current mgmt subnets) (d_hosts d))) as [acts ->]; [|eauto].
  apply mapM_is_Some, Forall_forall. intros h Hh. by apply host_actions_some.
Qed.
End PlanFacts.

(* ------------------------------------------------------------------ *)
(** ** A provisioned mesh *)

Section Convergence.
Context `{api : Ipv4NetApi} {laws : Ipv4NetLaws api} (sha256_hex : string -> string).
Variables (d : DesiredMesh) (mgmt : gmap string Z) (subnets : gmap string (gmap string Ipv4Net))
  (current : MeshState).

(** WireGuard runs with the assigned address, the wanted port and a peer for
    every other host. *)
Record wg_provisioned (host : string) (s : ServerState) : Prop := {
  wp_installed : s_installed s = true;
  wp_keys : s_keys_exist s = true;
  wp_key : s_public_key s <> "";
  wp_ip : s_wireguard_mgmt_ip s = mgmt !! host;
  wp_port : s_listen_port s = listen_port_for d host;
  wp_active : s_active s = true;
  wp_peers : peer_keys s = desired_keys d current host;
}.

(** Podman runs with a network per namespace and the firewall unit on disk is
    the one rendered from the request. *)
Record podman_provisioned (host : string) (s : ServerState) : Prop := {
  pp_installed : s_podman_installed s = true;
  pp_socket : s_podman_socket_active s = true;
  pp_forward : s_ip_forward_enabled s = true;
  pp_networks ns : ns ∈ d_namespaces d ->
    exists st, s_namespaces s !! ns = Some st /\ ns_network_exists st = true /\
      ns_container_subnet st = subnet_at subnets ns host /\ ns_dns_enabled st = false /\ ns_label st = ns;
  pp_firewall : s_firewall_active s = true;
  pp_deny : s_default_deny_active s = d_default_deny_containers d;
  pp_unit : forall nets, host_subnets d subnets host = Some nets ->
    s_firewall_unit_sha256 s = sha256_hex (firewall_service_unit (d_interface d) (sorted_namespaces d)
                                             nets (d_default_deny_containers d));
}.

(** Corrosion and coold run, at the requested versions, from the rendered
    configuration, schema and unit. *)
Record coold_provisioned (host : string) (s : ServerState) : Prop := {
  cp_corrosion : s_corrosion_installed s = true;
  cp_corrosion_version : s_corrosion_version s = d_corrosion_version d;
  cp_corrosion_active : s_corrosion_active s = true;
  cp_coold : s_coold_installed s = true;
  cp_coold_version : s_coold_version s = d_coold_version d;
  cp_coold_active : s_coold_active s = true;
  cp_config : forall ip cfg, mgmt !! host = Some ip ->
    config_bytes ip (d_corrosion_gossip_port d) (d_corrosion_api_port d) (node_peers d mgmt host)
      (match d_corrosion_gossip_tls d with Some _ => true | None => false end) = Some cfg ->
    s_corrosion_config_hash s = sha256_hex cfg;
  cp_schema : s_corrosion_schema_exists s = true;
  cp_schema_hash : s_corrosion_schema_sha256 s = sha256_hex COOLIFY_SCHEMA_SQL;
  cp_unit : forall ip nets, mgmt !! host = Some ip -> host_subnets d subnets host = Some nets ->
    s_coold_unit_sha256 s = sha256_hex (coold_service_unit ip (ns_configs d nets) (coold_flux_config d));
}.

Definition pinned (v : string) : Prop := v ∉ [""; "nightly"; "latest"].

(** The observed mesh is the requested one, under these assignments. *)
Record provisioned : Prop := {
  pr_hosts h : is_Some (current !! h) <-> h ∈ d_hosts d;
  pr_wg h s : current !! h = Some s -> wg_provisioned h s;
  pr_nft h s : h ∈ d_nodes d -> current !! h = Some s -> d_default_deny_containers d = true ->
    s_nft_available s = true;
  pr_networks h s ns : current !! h = Some s -> ns ∈ d_namespaces d -> h ∈ d_nodes d ->
    s_namespaces s !! ns ≫= ns_container_subnet = subnet_at subnets ns h;
  pr_podman h s : h ∈ d_nodes d -> d_install_podman d = true -> current !! h = Some s ->
    podman_provisioned h s;
  pr_coold h s : h ∈ d_nodes d -> d_install_coold d = true -> current !! h = Some s ->
    coold_provisioned h s;
}.

Lemma push_if_false b host ns t det : b = false -> push_if b host ns t det = [].
Proof. by intros ->. Qed.

Lemma drift_pinned v : pinned v -> binary_version_drift v true v = false.
Proof.
  unfold pinned, binary_version_drift. intros Hp. cbn [negb orb].
  rewrite !bool_decide_eq_false_2, bool_decide_eq_true_2 by set_solver.
  destruct v; [exfalso; apply Hp; left|done].
Qed.

Context (prov : provisioned).

Lemma peers_have_keys h s : current !! h = Some s -> peer_key_pending d current h = false.
Proof.
  intros _. apply not_true_iff_false. unfold peer_key_pending. rewrite existsb_exists.
  intros (p & Hp & Hk). apply list_elem_of_In in Hp. apply andb_true_iff in Hk as [_ Hk].
  destruct (proj2 (pr_hosts prov p) Hp) as [sp Hsp]. rewrite Hsp in Hk.
  pose proof (wp_key _ _ (pr_wg prov p sp Hsp)). by destruct (s_public_key sp).
Qed.

Lemma wireguard_quiet h s ip :
  current !! h = Some s -> mgmt !! h = Some ip -> wireguard_actions d current ip h s = Some [].
Proof.
  intros Hs Hip. pose proof (pr_wg prov h s Hs) as W. unfold wireguard_actions, needs_config.
  rewrite (peers_have_keys h s Hs), (wp_installed _ _ W), (wp_keys _ _ W), (wp_active _ _ W),
    (wp_port _ _ W), (wp_peers _ _ W), (wp_ip _ _ W), Hip, Z.eqb_refl.
  rewrite !bool_decide_eq_true_2 by done. rewrite andb_false_r.
  unfold peer_actions. rewrite !btree_set_list_empty by set_solver. done.
Qed.

Lemma podman_quiet h s nets :
  h ∈ d_nodes d -> d_install_podman d = true -> current !! h = Some s ->
  host_subnets d subnets h = Some nets -> podman_actions sha256_hex d h s nets = [].
Proof.
  intros Hn Hi Hs Hnets. pose proof (pr_podman prov h s Hn Hi Hs) as P. unfold podman_actions.
  rewrite (pp_installed _ _ P), (pp_socket _ _ P), (pp_forward _ _ P), (pp_firewall _ _ P),
    (pp_deny _ _ P), (pp_unit _ _ P nets Hnets), eqb_reflx.
  rewrite bool_decide_eq_true_2 by done. cbn [push_if negb orb app]. rewrite app_nil_r.
  apply bind_all_nil. intros [ns want] Hz.
  apply mapM_Some in Hnets. rewrite list_elem_of_lookup in Hz. destruct Hz as [i Hz].
  apply lookup_zip_Some in Hz as [Hns Hw]. pose proof (Forall2_lookup_lr _ _ _ _ _ _ Hnets Hns Hw) as Hat.
  assert (ns ∈ d_namespaces d) as Hin
    by (rewrite <- sorted_namespaces_perm; by eapply list_elem_of_lookup_2).
  destruct (pp_networks _ _ P ns Hin) as (st & Hst & Hex & Hc & Hdns & Hl).
  unfold namespace_actions. rewrite Hst, Hex, Hdns, Hc, Hl, Hat.
  by rewrite !bool_decide_eq_true_2.
Qed.

Lemma nft_present nodes : nodes ⊆ d_nodes d -> check_nft d current nodes = Ok ().
Proof.
  induction nodes as [|h nodes IH]; intros Hsub; cbn [check_nft]; [done|].
  specialize (IH ltac:(set_solver)). destruct (current !! h) as [s|] eqn:Hs; [|done].
  destruct (d_default_deny_containers d) eqn:Hd; [|done].
  by rewrite (pr_nft prov h s) by (done || set_solver).
Qed.

Context (coold_pinned : pinned (d_coold_version d)) (corrosion_pinned : pinned (d_corrosion_version d)).

Lemma coold_quiet h s ip nets :
  h ∈ d_nodes d -> d_install_coold d = true -> current !! h = Some s -> mgmt !! h = Some ip -> 0 < ip ->
  host_subnets d subnets h = Some nets -> coold_actions sha256_hex d mgmt h ip s nets = Some [].
Proof.
  intros Hn Hi Hs Hip Hpos Hnets. pose proof (pr_coold prov h s Hn Hi Hs) as P. unfold coold_actions.
  destruct (config_bytes_some ip (d_corrosion_gossip_port d) (d_corrosion_api_port d)
              (node_peers d mgmt h)
              (match d_corrosion_gossip_tls d with Some _ => true | None => false end) Hpos) as [cfg Hcfg].
  rewrite Hcfg. cbn [mbind option_bind].
  rewrite (cp_corrosion _ _ P), (cp_corrosion_version _ _ P), (cp_corrosion_active _ _ P),
    (cp_coold _ _ P), (cp_coold_version _ _ P), (cp_coold_active _ _ P), (cp_config _ _ P ip cfg Hip Hcfg),
    (cp_schema _ _ P), (cp_schema_hash _ _ P), (cp_unit _ _ P ip nets Hip Hnets).
  rewrite !drift_pinned, !bool_decide_eq_true_2 by done. done.
Qed.

Lemma host_quiet h :
  assigned d mgmt subnets -> h ∈ d_hosts d -> host_actions sha256_hex d current mgmt subnets h = Some [].
Proof.
  intros Ha Hh. destruct (as_mgmt _ _ _ Ha h Hh) as (ip & Hip & Hpos).
  destruct (proj2 (pr_hosts prov h) Hh) as [s Hs].
  unfold host_actions. rewrite Hs, Hip. cbn [mbind option_bind from_option id].
  rewrite (wireguard_quiet h s ip Hs Hip). cbn [mbind option_bind].
  destruct (is_node d h) eqn:Hn; cbn [andb]; [|done].
  apply is_node_spec in Hn. destruct (host_subnets_some _ _ _ _ Ha Hn) as [nets Hnets]. rewrite Hnets.
  assert ((if d_install_podman d then podman_actions sha256_hex d h s <$> Some nets else Some []) = Some [])
    as ->.
  { destruct (d_install_podman d) eqn:Hp; [|done]. cbn [fmap option_fmap option_map].
    by rewrite (podman_quiet h s nets). }
  cbn [mbind option_bind app].
  assert ((if d_install_coold d then coold_actions sha256_hex d mgmt h ip s nets else Some []) = Some [])
    as ->; [|done].
  destruct (d_install_coold d) eqn:Hc; [|done]. by apply coold_quiet.
Qed.
End Convergence.

Section Idempotence.
Context `{api : Ipv4NetApi} {laws : Ipv4NetLaws api} (sha256_hex : string -> string).

Lemma filter_quiet (d : DesiredMesh) mgmt subnets ws :
  filter_by_intent (mkPlan [] mgmt subnets ws []) d = mkPlan [] mgmt subnets ws [].
Proof. unfold filter_by_intent. by case_decide. Qed.

Lemma filter_keeps_assignments (p : Plan) d :
  pl_mgmt_assignments (filter_by_intent p d) = pl_mgmt_assignments p /\
  pl_subnet_assignments (filter_by_intent p d) = pl_subnet_assignments p.
Proof. unfold filter_by_intent. case_decide; [done|]. by destruct (split_actions _ _ _). Qed.

(** What a successful plan went through. *)
Lemma build_plan_Ok d current p :
  build_plan sha256_hex d current = Some (Ok p) ->
  exists ws ws', check_request d current = Ok () /\
    allocate_mgmt_ips (d_mgmt_pool d) (assigned_mgmt_ips current) (d_hosts d) =
      Some (Ok (pl_mgmt_assignments p, ws)) /\
    allocate_namespaced (d_container_pool d) (d_container_prefix d) (assigned_container_subnets current)
      (d_namespaces d) (d_nodes d) = Some (Ok (pl_subnet_assignments p, ws')).
Proof.
  unfold build_plan. destruct (check_request d current) as [[]|e]; [|done].
  destruct (allocate_mgmt_ips _ _ _) as [[[mgmt ws]|e]|]; [|done|done].
  destruct (allocate_namespaced _ _ _ _ _) as [[[subnets ws']|e]|]; [|done|done].
  destruct (mapM _ _) as [actions|]; [|done]. intros [= <-].
  destruct (filter_keeps_assignments
              (mkPlan (mjoin actions) mgmt subnets (ws ++ ws') []) d) as [-> ->]. eauto.
Qed.

Lemma provisioned_checks d before mgmt subnets current :
  check_request d before = Ok () -> provisioned sha256_hex d mgmt subnets current ->
  check_request d current = Ok ().
Proof.
  intros Hc Hp. unfold check_request in *.
  rewrite (nft_present sha256_hex d mgmt subnets current Hp (d_nodes d)) by set_solver.
  do 3 (case_match; [|discriminate]). destruct (validate_intent d) as [[]|e]; [done|discriminate].
Qed.

Lemma provisioned_ips d mgmt subnets current :
  (forall h, is_Some (mgmt !! h) <-> h ∈ d_hosts d) ->
  provisioned sha256_hex d mgmt subnets current -> assigned_mgmt_ips current = mgmt.
Proof.
  intros Hdom Hp. apply map_eq. intros h. 
  transitivity (current !! h ≫= s_wireguard_mgmt_ip); [apply (lookup_omap (M := gmap string))|].
  destruct (current !! h) as [s|] eqn:Hs; cbn [mbind option_bind].
  - exact (wp_ip _ _ _ _ _ (pr_wg _ _ _ _ _ Hp h s Hs)).
  - destruct (mgmt !! h) as [ip|] eqn:Hip; [|done].
    assert (h ∈ d_hosts d) as Hh by (apply Hdom; eauto).
    apply (pr_hosts _ _ _ _ _ Hp) in Hh as [? ?]. congruence.
Qed.

(** C6. Applying a plan settles the mesh: once every host is observed as the
    request and the assignments of its plan ask for (pinned versions, the files
    and units as rendered, one network per namespace, a peer for every other
    host), planning the same request again gives an empty plan with the same
    addresses and subnets, no warning and nothing skipped. *)
Theorem provisioned_mesh_is_stable d before p current :
  net_broadcast (d_container_pool d) < u32_max ->
  d_nodes d ⊆ d_hosts d ->
  pinned (d_coold_version d) -> pinned (d_corrosion_version d) ->
  build_plan sha256_hex d before = Some (Ok p) ->
  provisioned sha256_hex d (pl_mgmt_assignments p) (pl_subnet_assignments p) current ->
  build_plan sha256_hex d current =
    Some (Ok (mkPlan [] (pl_mgmt_assignments p) (pl_subnet_assignments p) [] [])).
Proof.
  intros Htop Hsub Hv1 Hv2 Hb Hp. destruct (build_plan_Ok _ _ _ Hb) as (ws & ws' & Hc & Hm & Hn).
  pose proof (allocated_assigned _ _ _ _ _ _ _ Htop Hm Hn) as Ha.
  assert (forall h, is_Some (pl_mgmt_assignments p !! h) <-> h ∈ d_hosts d) as Hdom.
  { pose proof (mgmt_spec (d_mgmt_pool d) (assigned_mgmt_ips before) (d_hosts d)) as Hs.
    rewrite Hm in Hs. apply Hs. }
  unfold build_plan. rewrite (provisioned_checks _ _ _ _ _ Hc Hp), (provisioned_ips _ _ _ _ Hdom Hp),
    (mgmt_idem _ _ _ _ _ Hm).
  rewrite (namespaced_idem _ _ _ _ _ _ _ (assigned_container_subnets current) Htop Hn).
  - replace (mapM _ (d_hosts d)) with (Some ((fun _ : string => @nil PlannedAction) <$> d_hosts d)).
    + rewrite <- (filter_quiet d). replace (mjoin _) with (@nil PlannedAction); [done|].
      clear. induction (d_hosts d) as [|h l IH]; [done|exact IH].
    + symmetry. apply mapM_Some, Forall2_fmap_r, Forall_Forall2_diag, Forall_forall.
      intros h Hh. by eapply host_quiet.
  - intros ns h Hns Hh. rewrite assigned_container_subnets_at.
    destruct (proj2 (pr_hosts _ _ _ _ _ Hp h) (Hsub _ Hh)) as [s Hs]. rewrite Hs.
    by apply (pr_networks _ _ _ _ _ Hp).
Qed.
End Idempotence.

(* ------------------------------------------------------------------ *)
(** ** Peers that are no longer wanted *)

Section StalePeers.
Context `{api : Ipv4NetApi}.

Lemma in_push_if a b host ns t det :
  a ∈ push_if b host ns t det <-> b = true /\ a = mkAction host ns t det.
Proof. destruct b; cbn; rewrite ?list_elem_of_singleton; set_solver. Qed.

Definition with_peers (s : ServerState) (peers : list Peer) : ServerState :=
  mkServerState (s_host s) (s_installed s) (s_keys_exist s) (s_public_key s) (s_wireguard_mgmt_ip s)
    (s_listen_port s) (s_interface s) (s_active s) peers (s_podman_installed s)
    (s_podman_socket_active s) (s_namespaces s) (s_ip_forward_enabled s) (s_firewall_active s)
    (s_default_deny_active s) (s_firewall_unit_sha256 s) (s_bridge_table_exists s) (s_nft_available s)
    (s_corrosion_installed s) (s_corrosion_active s) (s_corrosion_config_hash s)
    (s_corrosion_schema_exists s) (s_corrosion_schema_sha256 s) (s_coold_installed s) (s_coold_active s)
    (s_corrosion_version s) (s_coold_version s) (s_coold_unit_sha256 s).

(** What [peer_actions] gives. *)
Lemma peer_actions_elem host t (keys : gset string) acts k :
  peer_actions host t keys = Some acts -> k ∈ keys ->
  exists short, truncate_key k = Some short /\ mkAction host "" t short ∈ acts.
Proof.
  intros H%mapM_Some [i Hi]%elem_of_btree_set_list%list_elem_of_lookup.
  destruct (Forall2_lookup_l _ _ _ _ _ H Hi) as (a & Ha & Hk).
  destruct (truncate_key k) as [short|]; [|done]. injection Hk as <-.
  exists short. split; [done|by eapply list_elem_of_lookup_2].
Qed.

Lemma peer_actions_inv host t (keys : gset string) acts a :
  peer_actions host t keys = Some acts -> a ∈ acts ->
  exists k short, truncate_key k = Some short /\ a = mkAction host "" t short.
Proof.
  intros H%mapM_Some [i Hi]%list_elem_of_lookup. destruct (Forall2_lookup_r _ _ _ _ _ H Hi) as (k & _ & Hk).
  destruct (truncate_key k) as [short|] eqn:E; [|done]. injection Hk as <-. eauto.
Qed.

(** A server taken out of the mesh keeps its place in the others' WireGuard
    configuration: on a host that has every wanted peer, however many unwanted
    ones are left, the plan lists a removal for each unwanted key but neither
    writes the configuration nor reloads the service because of them. *)
Theorem unwanted_peer_stays d current ip host s extra :
  needs_config d current ip host s = false ->
  let s' := with_peers s (s_peers s ++ extra) in
  forall actions, wireguard_actions d current ip host s' = Some actions ->
  (forall k, k ∈ p_public_key <$> extra -> k ∉ desired_keys d current host ->
     exists short, truncate_key k = Some short /\ mkAction host "" RemovePeer short ∈ actions) /\
  forall a, a ∈ actions -> a_type a ∈ [RemovePeer; EnableService].
Proof.
  intros Hn s' actions Hacts.
  assert (peer_keys s' = peer_keys s ∪ list_to_set (p_public_key <$> extra)) as Hk.
  { unfold peer_keys, s'. cbn [s_peers with_peers]. by rewrite fmap_app, list_to_set_app_L. }
  assert (desired_keys d current host ⊆ peer_keys s) as Hsub.
  { unfold needs_config in Hn. apply (bool_decide_eq_true_1 _), negb_false_iff.
    repeat (apply orb_false_iff in Hn as [Hn ?]); done. }
  assert (needs_config d current ip host s' = false) as Hn'.
  { rewrite <- Hn. unfold needs_config. rewrite !(bool_decide_eq_true_2 (desired_keys _ _ _ ⊆ _)); [done|done|].
    rewrite Hk. set_solver. }
  assert (s_installed s = true /\ s_keys_exist s = true) as [Hi Hke].
  { unfold needs_config in Hn. repeat (apply orb_false_iff in Hn as [Hn ?]).
    split; by apply negb_false_iff. }
  unfold wireguard_actions in Hacts. rewrite Hn' in Hacts.
  change (s_installed s') with (s_installed s) in Hacts. change (s_keys_exist s') with (s_keys_exist s) in Hacts.
  rewrite Hi, Hke in Hacts. cbn [negb push_if app] in Hacts.
  assert (peer_actions host AddPeer (desired_keys d current host ∖ peer_keys s') = Some []) as Hadd.
  { unfold peer_actions. by rewrite btree_set_list_empty by (rewrite Hk; set_solver). }
  rewrite Hadd in Hacts. cbn [mbind option_bind] in Hacts. apply bind_Some in Hacts as (removed & Hr & Hacts). injection Hacts as <-. cbn [app]. split.
  - intros k Hex Hd. destruct (peer_actions_elem _ _ _ _ k Hr) as (short & Hs & Hin).
    + rewrite Hk. set_solver.
    + exists short. split; [done|]. apply elem_of_app. by left.
  - intros a [(k & short & _ & ->)%(peer_actions_inv _ _ _ _ _ Hr)|Ha]%elem_of_app; [left|].
    destruct (s_active s); cbn in Ha; [by apply not_elem_of_nil in Ha|]. apply list_elem_of_singleton in Ha as ->. right. left.
Qed.
End StalePeers.

(* ------------------------------------------------------------------ *)
(** ** A mesh of two hosts *)

Module Demo.
Definition net := Subnet.Demo.net.

Definition desired (intent : Intent) : DesiredMesh :=
  mkDesired ["a"; "b"] ["b"] "wg0" (net (of_octets 10 200 0 0) 24) (net (of_octets 10 210 0 0) 16) 24
    51820 ∅ ∅ true ["default"; "apps"] true true "v1.0.0" "v2.0.0" 8787 8080 None None None None None
    intent [] false false.

(** A hash that can be read back. *)
Definition sha (s : string) : string := s.

Definition first_plan (intent : Intent) : Plan :=
  match build_plan sha (desired intent) ∅ with
  | Some (Ok p) => p
  | _ => mkPlan [] ∅ ∅ [] []
  end.

Lemma build_plan_returns_witness : exists r, build_plan sha (desired Bootstrap) ∅ = Some r.
Proof.
  apply (build_plan_returns sha (desired Bootstrap) ∅).
  - vm_compute. reflexivity.
  - intros h s Hs. discriminate (eq_trans (eq_sym Hs) (lookup_empty h)).
Defined.

(** A key with a character across its ninth byte ends the command line. *)
Definition cut_key : string := "1234567" +:+ String "195" (String "169" "").
Lemma cut_key_panics : truncate_key cut_key = None.
Proof. reflexivity. Qed.

(** The state a probe finds once everything has been applied. *)
Definition key_of (h : string) : string := h +:+ "-public-key".

Definition settled (d : DesiredMesh) (p : Plan) (host : string) : ServerState :=
  let nets := default [] (host_subnets d (pl_subnet_assignments p) host) in
  let ip := default 0 (pl_mgmt_assignments p !! host) in
  let fw := firewall_service_unit (d_interface d) (sorted_namespaces d) nets (d_default_deny_containers d) in
  let cfg := default "" (config_bytes ip (d_corrosion_gossip_port d) (d_corrosion_api_port d)
               (node_peers d (pl_mgmt_assignments p) host)
               (match d_corrosion_gossip_tls d with Some _ => true | None => false end)) in
  let unit := coold_service_unit ip (ns_configs d nets) (coold_flux_config d) in
  mkServerState host true true (key_of host) (Some ip) (listen_port_for d host) (d_interface d) true
    ((fun h => mkPeer (key_of h) "" [] 0 0) <$> filter (fun h => h <> host) (d_hosts d)) true true
    (list_to_map ((fun '(ns, n) => (ns, mkNs ns true (Some n) false ns)) <$> zip (sorted_namespaces d) nets))
    true true (d_default_deny_containers d) (sha fw) true true true true (sha cfg) true
    (sha COOLIFY_SCHEMA_SQL) true true (d_corrosion_version d) (d_coold_version d) (sha unit).

Definition settled_mesh (d : DesiredMesh) (p : Plan) : MeshState :=
  list_to_map ((fun h => (h, settled d p h)) <$> d_hosts d).

Definition dm := desired Bootstrap.
Definition plan := first_plan Bootstrap.
Definition mesh := settled_mesh dm plan.

Lemma mesh_cases h s : mesh !! h = Some s -> h = "a" /\ s = settled dm plan "a" \/ h = "b" /\ s = settled dm plan "b".
Proof.
  intros Hs%(elem_of_list_to_map_2 (M := gmap string))%list_elem_of_In.
  destruct Hs as [[= <- <-]|[[= <- <-]|[]]]; auto.
Qed.

Lemma settled_wg h : h ∈ d_hosts dm -> wg_provisioned dm (pl_mgmt_assignments plan) mesh h (settled dm plan h).
Proof.
  intros Hh. apply list_elem_of_In in Hh. destruct Hh as [<-|[<-|[]]]; constructor; vm_compute; done.
Qed.

Lemma settled_networks ns : ns ∈ d_namespaces dm ->
  exists st, s_namespaces (settled dm plan "b") !! ns = Some st /\ ns_network_exists st = true /\
    ns_container_subnet st = subnet_at (pl_subnet_assignments plan) ns "b" /\ ns_dns_enabled st = false /\
    ns_label st = ns.
Proof.
  intros Hns. exists (default (mkNs "" false None false "") (s_namespaces (settled dm plan "b") !! ns)).
  apply list_elem_of_In in Hns. destruct Hns as [<-|[<-|[]]]; split_and!; vm_refl.
Qed.

Lemma settled_provisioned :
  provisioned sha dm (pl_mgmt_assignments plan) (pl_subnet_assignments plan) mesh.
Proof.
  assert (forall h, h ∈ d_nodes dm -> h = "b") as Hb by (intros h Hh; by apply list_elem_of_singleton in Hh).
  constructor.
  - intros h. split.
    + intros [s [[-> _]|[-> _]]%mesh_cases]; [left|right; left].
    + intros Hh. apply list_elem_of_In in Hh. destruct Hh as [<-|[<-|[]]]; eexists; reflexivity.
  - intros h s [[-> ->]|[-> ->]]%mesh_cases; apply settled_wg; [left|right; left].
  - intros h s _ [[-> ->]|[-> ->]]%mesh_cases _; reflexivity.
  - intros h s ns [[-> ->]|[-> ->]]%mesh_cases Hns Hn%Hb; [done|].
    destruct (settled_networks ns Hns) as (st & -> & _ & Hc & _). exact Hc.
  - intros h s ->%Hb _ [[? _]|[_ ->]]%mesh_cases; [done|]. constructor; try reflexivity.
    + exact settled_networks.
    + intros nets Hn. unfold settled. rewrite Hn. reflexivity.
  - intros h s ->%Hb _ [[? _]|[_ ->]]%mesh_cases; [done|]. constructor; try reflexivity.
    + intros ip cfg Hi Hc. unfold settled. rewrite Hi. cbn [from_option id s_corrosion_config_hash]. by rewrite Hc.
    + intros ip nets Hi Hn. unfold settled. rewrite Hi, Hn. reflexivity.
Qed.

Lemma provisioned_mesh_is_stable_witness :
  build_plan sha dm mesh =
    Some (Ok (mkPlan [] (pl_mgmt_assignments plan) (pl_subnet_assignments plan) [] [])).
Proof.
  apply (provisioned_mesh_is_stable sha dm ∅ plan mesh).
  - vm_compute. reflexivity.
  - intros h ->%list_elem_of_singleton. right. left.
  - apply (bool_decide_eq_true_1 _). vm_compute. reflexivity.
  - apply (bool_decide_eq_true_1 _). vm_compute. reflexivity.
  - vm_refl.
  - exact settled_provisioned.
Defined.

Definition with_stale : ServerState :=
  with_peers (settled dm plan "a") (s_peers (settled dm plan "a") ++ [mkPeer (key_of "c") "" [] 0 0]).
Definition stale_actions : list PlannedAction :=
  default [] (wireguard_actions dm mesh (of_octets 10 200 0 1) "a" with_stale).

Lemma unwanted_peer_stays_witness :
  exists short, truncate_key (key_of "c") = Some short /\ mkAction "a" "" RemovePeer short ∈ stale_actions.
Proof.
  destruct (unwanted_peer_stays dm mesh (of_octets 10 200 0 1) "a" (settled dm plan "a")
              [mkPeer (key_of "c") "" [] 0 0] ltac:(vm_compute; reflexivity) stale_actions ltac:(vm_refl)) as [Hr _].
  apply (Hr (key_of "c")); [left|]. apply (bool_decide_eq_false_1 _). vm_compute. reflexivity.
Defined.
End Demo.
