(* ===== verification/Apply.v ===== *)
(** * Applying a plan

    [coolify-cli/src/wireguard/apply.rs] and the probe of
    [wireguard/reconstruct.rs]: the commands run on each host, phase by phase.

    The hosts of a phase run concurrently; what one host is asked depends only
    on the plan and on that host, so each host's commands are a sequence of
    their own and only the order in which hosts finish is open.  That order is
    [order], a permutation of the hosts.  [None] is a panic: a table indexed at
    a missing key, or the assertion in [config_bytes]. *)

From S2P Require Import Prelude RustStr Net Subnet Mesh MeshText WgConfig Ssh Plan.
Local Open Scope Z_scope.

(* ------------------------------------------------------------------ *)
(** ** Commands *)

Definition APT_WG : string :=
  "DEBIAN_FRONTEND=noninteractive apt-get update -qq 2>/dev/null && DEBIAN_FRONTEND=noninteractive apt-get install -y -o Dpkg::Options::=" +:+
  dq +:+ "--force-confold" +:+ dq +:+ " wireguard wireguard-tools 2>&1".
Definition APT_PODMAN : string :=
  "DEBIAN_FRONTEND=noninteractive apt-get update -qq 2>/dev/null && DEBIAN_FRONTEND=noninteractive apt-get install -y -o Dpkg::Options::=" +:+
  dq +:+ "--force-confold" +:+ dq +:+ " podman nftables 2>&1".
Definition ENABLE_PODMAN : string := "systemctl enable --now podman.socket 2>&1".
Definition ENABLE_IP_FORWARD : string :=
  "sysctl -w net.ipv4.ip_forward=1 && mkdir -p /etc/sysctl.d && echo 'net.ipv4.ip_forward=1' > /etc/sysctl.d/99-coolify-mesh.conf".
Definition GOSSIP_TLS_DIR : string := "/etc/corrosion/tls".

(** The script of [probe]. *)
Definition probe_script (iface : string) (namespaces : list string) : string :=
  "set +e" +:+ lf +:+
  "printf 'WG_INSTALLED='; command -v wg >/dev/null 2>&1 && echo 1 || echo 0" +:+ lf +:+
  "printf 'KEYS_EXIST='; test -s /etc/wireguard/publickey && test -s /etc/wireguard/privatekey && echo 1 || echo 0" +:+
  lf +:+
  "printf 'PUBLIC_KEY='; cat /etc/wireguard/publickey 2>/dev/null || true; echo" +:+ lf +:+
  "printf 'CONFIG_B64='; base64 -w0 /etc/wireguard/" +:+ iface +:+ ".conf 2>/dev/null || true; echo" +:+
  lf +:+
  "printf 'WG_DUMP_B64='; wg show " +:+ iface +:+ " dump 2>/dev/null | base64 -w0 || true; echo" +:+ lf +:+
  "printf 'PODMAN_INSTALLED='; command -v podman >/dev/null 2>&1 && echo 1 || echo 0" +:+ lf +:+
  "printf 'PODMAN_SOCKET_ACTIVE='; systemctl is-active --quiet podman.socket && echo 1 || echo 0" +:+ lf +:+
  "printf 'IP_FORWARD='; cat /proc/sys/net/ipv4/ip_forward 2>/dev/null || echo 0" +:+ lf +:+
  "printf 'FW_ACTIVE='; systemctl is-active --quiet coolify-mesh-fw.service && echo 1 || echo 0" +:+ lf +:+
  "printf 'DEFAULT_DENY='; iptables -S COOLIFY-INTRA 2>/dev/null | grep -q -- '-A COOLIFY-INTRA -j DROP' && echo 1 || echo 0" +:+
  lf +:+
  "printf 'FW_HASH='; sha256sum /etc/systemd/system/coolify-mesh-fw.service 2>/dev/null | awk '{print $1}'; echo" +:+
  lf +:+
  "printf 'NFT_AVAILABLE='; command -v nft >/dev/null 2>&1 && echo 1 || echo 0" +:+ lf +:+
  "printf 'BRIDGE_TABLE='; nft list table bridge coolify_bridge >/dev/null 2>&1 && echo 1 || echo 0" +:+
  lf +:+
  "printf 'CORROSION_INSTALLED='; test -x /usr/local/bin/corrosion && echo 1 || echo 0" +:+ lf +:+
  "printf 'CORROSION_ACTIVE='; systemctl is-active --quiet corrosion && echo 1 || echo 0" +:+ lf +:+
  "printf 'CORROSION_CONFIG_HASH='; sha256sum /etc/corrosion/config.toml 2>/dev/null | awk '{print $1}'; echo" +:+
  lf +:+
  "printf 'CORROSION_SCHEMA_EXISTS='; test -s /etc/corrosion/schemas/coolify.sql && echo 1 || echo 0" +:+
  lf +:+
  "printf 'CORROSION_SCHEMA_HASH='; sha256sum /etc/corrosion/schemas/coolify.sql 2>/dev/null | awk '{print $1}'; echo" +:+
  lf +:+
  "printf 'COOLIFY_COOLD_INSTALLED='; test -x /usr/local/bin/coold && echo 1 || echo 0" +:+ lf +:+
  "printf 'COOLIFY_COOLD_ACTIVE='; systemctl is-active --quiet coold && echo 1 || echo 0" +:+ lf +:+
  "printf 'CORROSION_VERSION='; cat /usr/local/bin/corrosion.version 2>/dev/null || true; echo" +:+ lf +:+
  "printf 'COOLIFY_COOLD_VERSION='; cat /usr/local/bin/coold.version 2>/dev/null || true; echo" +:+ lf +:+
  "printf 'COOLIFY_COOLD_UNIT_HASH='; sha256sum /etc/systemd/system/coold.service 2>/dev/null | awk '{print $1}'; echo" +:+
  lf +:+
  "for ns in " +:+ join " " namespaces +:+ "; do net=" +:+ dq +:+ "coolify-${ns}-mesh" +:+ dq +:+ "; printf 'NS=%s|' " +:+
  dq +:+ "$ns" +:+ dq +:+ "; podman network inspect " +:+ dq +:+ "$net" +:+ dq +:+ " --format '{{.Name}}|{{range .Subnets}}{{.Subnet}}{{end}}|{{.DNSEnabled}}|{{index .Labels " +:+
  dq +:+ "io.coolify.namespace" +:+ dq +:+ "}}' 2>/dev/null || echo 'missing|||'; done" +:+ lf.

Definition service_command (active : bool) (iface : string) : string :=
  if active then
    "systemctl restart wg-quick@" +:+ iface +:+ " 2>&1 || wg syncconf " +:+ iface +:+ " <(wg-quick strip " +:+
  iface +:+ ") 2>&1"
  else
    "systemctl enable --now wg-quick@" +:+ iface +:+ " 2>&1".

Section Commands.
Context `{api : Ipv4NetApi}.

Definition network_command (recreate : bool) (ns : string) (sn : Ipv4Net) : string :=
  let net := podman_network_for ns in
  let gw := machine_ip sn in
  if recreate then
    "podman network rm -f " +:+ net +:+ " 2>&1 && podman network create --driver bridge --disable-dns --label io.coolify.managed=true --label io.coolify.namespace=" +:+
  ns +:+ " --subnet=" +:+ net_show sn +:+ " --gateway=" +:+ show_ipv4 gw +:+ " " +:+ net
  else
    "podman network exists " +:+ net +:+ " 2>/dev/null && echo 'network exists, skipping' || podman network create --driver bridge --disable-dns --label io.coolify.managed=true --label io.coolify.namespace=" +:+
  ns +:+ " --subnet=" +:+ net_show sn +:+ " --gateway=" +:+ show_ipv4 gw +:+ " " +:+ net.

Definition corrosion_config_command (d : DesiredMesh) (cfg : string) : string :=
  let tls_provision :=
    match d_corrosion_gossip_tls d with
    | Some tls =>
        "mkdir -p " +:+ GOSSIP_TLS_DIR +:+ " && " +:+ heredoc GOSSIP_TLS_CERT_PATH (cert_pem tls) "0644" +:+
        " && " +:+ heredoc GOSSIP_TLS_KEY_PATH (key_pem tls) "0600" +:+ " && "
    | None => ""
    end in
  "mkdir -p /etc/corrosion && " +:+ tls_provision +:+ heredoc "/etc/corrosion/config.toml" cfg "0644".

Definition corrosion_schema_command : string :=
  "mkdir -p /etc/corrosion/schemas && " +:+
  heredoc "/etc/corrosion/schemas/coolify.sql" COOLIFY_SCHEMA_SQL "0644".

Definition corrosion_service_command (d : DesiredMesh) : string :=
  heredoc "/etc/systemd/system/corrosion.service" (corrosion_service_unit (d_interface d)) "0644" +:+
  " && systemctl daemon-reload && systemctl enable --now corrosion".

Definition coold_service_command (d : DesiredMesh) (ip : Z) (ns : list CooldNamespace) : string :=
  let flux_pin :=
    match d_flux_tls d with
    | Some tls => heredoc "/etc/coolify/flux.pin" (cert_pem tls) "0644" +:+ " && "
    | None => ""
    end in
  "mkdir -p /etc/coolify /data/coolify && " +:+ flux_pin +:+
  "rm -f /etc/systemd/resolved.conf.d/coolify-internal.conf && " +:+
  heredoc "/etc/systemd/system/coolify-mesh-dns-anchor.service" (mesh_dns_anchor_unit ns) "0644" +:+ " && " +:+
  heredoc "/etc/systemd/system/coolify-mesh-dns-resolver.service" (mesh_dns_resolver_unit ns) "0644" +:+
  " && " +:+
  heredoc "/etc/systemd/system/coold.service" (coold_service_unit ip ns (coold_flux_config d)) "0644" +:+
  " && systemctl daemon-reload && systemctl enable --now " +:+ MESH_DNS_ANCHOR_SERVICE +:+ " " +:+
  MESH_DNS_RESOLVER_SERVICE +:+ " coold".
End Commands.

(* ------------------------------------------------------------------ *)
(** ** Steps and phases *)

(** The commands run on each host so far. *)
Notation World := (gmap string (list string)).

Section Applying.
Context `{api : Ipv4NetApi} (sha256_hex : string -> string) (b64_decode : string -> option string)
  `{rn : Runner} (user : string) (port : Z).

Record ActionResult := mkResult {
  ar_action : PlannedAction;
  ar_status : string;
  ar_detail : string;
}.

Definition should_run (plan : Plan) (host : string) (t : ActionType) (namespace : string) : bool :=
  existsb (fun a => bool_decide (a_host a = host) && bool_decide (a_type a = t) &&
                    (is_empty namespace || bool_decide (a_namespace a = namespace)))
    (pl_actions plan).

(** A call of [step] a phase may reach: its arguments, the command being [None]
    where computing it panics. *)
Record Step := mkStep { st_type : ActionType; st_ns : string; st_cmd : option string }.

Definition step_if (b : bool) (t : ActionType) (ns : string) (cmd : option string) : list Step :=
  if b then [mkStep t ns cmd] else [].

Definition err_result (host : string) (t : ActionType) (e : string) : ActionResult :=
  mkResult (mkAction host "" t "") "error" e.

(** The body of a phase: its calls of [step], each with [?].  The first failure
    ends the phase and its error is the phase's. *)
Fixpoint run_steps (host : string) (hist : list string) (steps : list Step) (out : list ActionResult)
    : list string * option (result (list ActionResult) string) :=
  match steps with
  | [] => (hist, Some (Ok out))
  | mkStep t ns None :: _ => (hist, None)
  | mkStep t ns (Some cmd) :: rest =>
      match run host user port hist cmd with
      | Ok o => run_steps host (hist ++ [cmd]) rest
                  (out ++ [mkResult (mkAction host ns t "") "ok" (default "" (first_line (o_stdout o)))])
      | Err e => (hist ++ [cmd], Some (Err e))
      end
  end.

Definition phase1_steps (d : DesiredMesh) (current : MeshState) (planned : Plan) (host : string) : list Step :=
  let st := default server_default (current !! host) in
  step_if (negb (s_installed st) && should_run planned host InstallWg "") InstallWg "" (Some APT_WG) ++
  step_if (negb (s_keys_exist st) && should_run planned host GenKeyPair "") GenKeyPair ""
    (Some genkey_command) ++
  (if is_node d host && d_install_podman d then
     step_if (negb (s_podman_installed st) && should_run planned host InstallPodman "") InstallPodman ""
       (Some APT_PODMAN) ++
     step_if (negb (s_podman_socket_active st) && should_run planned host EnablePodmanSocket "")
       EnablePodmanSocket "" (Some ENABLE_PODMAN) ++
     step_if (negb (s_ip_forward_enabled st) && should_run planned host EnableIpForward "")
       EnableIpForward "" (Some ENABLE_IP_FORWARD)
   else []).

(** The peers of a host: the other hosts whose key is known. *)
Definition peer_configs (d : DesiredMesh) (fresh : MeshState) (mgmt : gmap string Z)
    (subnets : gmap string (gmap string Ipv4Net)) (host : string) : option (list PeerConfig) :=
  omap id <$> mapM (fun p =>
    match fresh !! p with
    | Some s =>
        if is_empty (s_public_key s) then Some None
        else ip ← mgmt !! p;
             nets ← (if is_node d p then host_subnets d subnets p else Some []);
             Some (Some (mkPeerConfig (endpoint_for d p) (s_public_key s) ip nets))
    | None => Some None
    end) (filter (fun p => p <> host) (d_hosts d)).

Definition network_step (planned : Plan) (subnets : gmap string (gmap string Ipv4Net)) (host ns : string)
    : list Step :=
  let create := should_run planned host CreatePodmanNetwork ns in
  let recreate := should_run planned host RecreatePodmanNetwork ns in
  step_if (create || recreate) (if recreate then RecreatePodmanNetwork else CreatePodmanNetwork) ns
    (network_command recreate ns <$> subnet_at subnets ns host).

Definition is_active (fresh : MeshState) (host : string) : bool :=
  match fresh !! host with Some s => s_active s | None => false end.

Definition phase2_steps (d : DesiredMesh) (fresh : MeshState) (mgmt : gmap string Z)
    (subnets : gmap string (gmap string Ipv4Net)) (planned : Plan) (host : string) (peers : list PeerConfig)
    : list Step :=
  let active := is_active fresh host in
  let svc_action := if active then ReloadService else EnableService in
  step_if (should_run planned host WriteConfig "") WriteConfig ""
    ((fun ip => write_config_command (d_interface d) ip (listen_port_for d host) peers) <$> mgmt !! host) ++
  step_if (should_run planned host svc_action "") svc_action ""
    (Some (service_command active (d_interface d))) ++
  (if is_node d host && d_install_podman d then
     (sorted_namespaces d ≫= network_step planned subnets host) ++
     step_if (should_run planned host InstallFirewall "") InstallFirewall ""
       ((fun nets => install_firewall_command (d_interface d) (sorted_namespaces d) nets
                       (d_default_deny_containers d)) <$> host_subnets d subnets host)
   else []).

(** The addresses of the other nodes; indexing the table panics at a node
    without one. *)
Definition gossip_peers (d : DesiredMesh) (mgmt : gmap string Z) (host : string) : option (list Z) :=
  mapM (fun h => mgmt !! h) (filter (fun h => h <> host) (d_nodes d)).

Definition phase3_steps (d : DesiredMesh) (mgmt : gmap string Z)
    (subnets : gmap string (gmap string Ipv4Net)) (planned : Plan) (host : string) : list Step :=
  step_if (should_run planned host InstallCorrosion "") InstallCorrosion ""
    (Some (corrosion_install_command (d_corrosion_version d) (d_corrosion_sha256 d))) ++
  step_if (should_run planned host InstallCoold "") InstallCoold ""
    (Some (coold_install_command (d_coold_version d) (d_coold_sha256 d))) ++
  match gossip_peers d mgmt host with
  | None => [mkStep WriteCorrosionConfig "" None]
  | Some peers =>
      step_if (should_run planned host WriteCorrosionConfig "") WriteCorrosionConfig ""
        (ip ← mgmt !! host;
         cfg ← config_bytes ip (d_corrosion_gossip_port d) (d_corrosion_api_port d) peers
                 (match d_corrosion_gossip_tls d with Some _ => true | None => false end);
         Some (corrosion_config_command d cfg)) ++
      step_if (should_run planned host WriteCorrosionSchema "") WriteCorrosionSchema ""
        (Some corrosion_schema_command) ++
      step_if (should_run planned host InstallCorrosionService "") InstallCorrosionService ""
        (Some (corrosion_service_command d)) ++
      step_if (should_run planned host InstallCooldService "") InstallCooldService ""
        (nets ← host_subnets d subnets host;
         ip ← mgmt !! host;
         Some (coold_service_command d ip (ns_configs d nets)))
  end.

(** A phase on one host: the commands run there, appended to its history, and
    the phase's result. *)
Definition Phase (T : Type) : Type := string -> list string -> list string * option (result T string).

Definition phase1 (d : DesiredMesh) (current : MeshState) (planned : Plan) : Phase (list ActionResult) :=
  fun host hist => run_steps host hist (phase1_steps d current planned host) [].

Definition phase2 (d : DesiredMesh) (fresh : MeshState) (mgmt : gmap string Z)
    (subnets : gmap string (gmap string Ipv4Net)) (planned : Plan) : Phase (list ActionResult) :=
  fun host hist =>
    match peer_configs d fresh mgmt subnets host with
    | None => (hist, None)
    | Some peers => run_steps host hist (phase2_steps d fresh mgmt subnets planned host peers) []
    end.

Definition phase3 (d : DesiredMesh) (mgmt : gmap string Z)
    (subnets : gmap string (gmap string Ipv4Net)) (planned : Plan) : Phase (list ActionResult) :=
  fun host hist => run_steps host hist (phase3_steps d mgmt subnets planned host) [].

Definition probe (iface : string) (namespaces : list string) : Phase ServerState :=
  fun host hist =>
    let script := probe_script iface namespaces in
    (hist ++ [script],
     Some match run host user port hist script with
          | Ok o => Ok (parse_probe b64_decode host iface namespaces (o_stdout o))
          | Err e => Err e
          end).

(* ------------------------------------------------------------------ *)
(** ** All hosts *)

Definition log_of (w : World) (host : string) : list string := default [] (w !! host).

(** [for_each_server], over the hosts in the order they finish. *)
Fixpoint for_each_server {T} (hosts : list string) (f : Phase T) (w : World)
    : World * option (list (ServerResult T)) :=
  match hosts with
  | [] => (w, Some [])
  | host :: rest =>
      let '(hist, r) := f host (log_of w host) in
      let w1 := <[host := hist]> w in
      match r with
      | None => (w1, None)
      | Some r =>
          let '(w2, rs) := for_each_server rest f w1 in
          (w2, (fun rs => server_result host r :: rs) <$> rs)
      end
  end.

(** The servers whose probe succeeded. *)
Definition collect_state (rs : list (ServerResult ServerState)) : MeshState :=
  foldl (fun m r => match sr_result r with
                    | Some s => <[sr_host r := s]> m
                    | None => m
                    end) ∅ rs.

Context (order : list string -> list string).

Definition reconstruct (hosts : list string) (iface : string) (namespaces : list string) (w : World)
    : World * option MeshState :=
  let '(w', rs) := for_each_server (order hosts) (probe iface namespaces) w in
  (w', collect_state <$> rs).

(** The loop over a phase's results: everything reported, and whether a host
    failed. *)
Definition gather (t : ActionType) (rs : list (ServerResult (list ActionResult)))
    : list ActionResult * bool :=
  foldl (fun '(all, failed) r =>
    match sr_result r with
    | Some v => (all ++ v, failed)
    | None => (all ++ [err_result (sr_host r) t (default "" (sr_error r))], true)
    end) ([], false) rs.

Inductive ApplyError :=
  | PlanFailed (e : PlanError)
  | Phase1Failed
  | ReallocFailed (e : AllocError)
  | Phase2Failed
  | Phase3Failed.

(** Phases 2 and 3, once every host has its keys. *)
Definition apply_rest (d : DesiredMesh) (planned : Plan) (fresh : MeshState) (mgmt : gmap string Z)
    (subnets : gmap string (gmap string Ipv4Net)) (all1 : list ActionResult) (w : World)
    : World * option (result (list ActionResult) ApplyError) :=
  let '(w2, r2) := for_each_server (order (d_hosts d)) (phase2 d fresh mgmt subnets planned) w in
  match r2 with
  | None => (w2, None)
  | Some rs2 =>
      let '(all2, failed2) := gather WriteConfig rs2 in
      if failed2 then (w2, Some (Err Phase2Failed))
      else if d_install_coold d then
        let '(w3, r3) := for_each_server (order (d_nodes d)) (phase3 d mgmt subnets planned) w2 in
        match r3 with
        | None => (w3, None)
        | Some rs3 =>
            let '(all3, failed3) := gather InstallCoold rs3 in
            if failed3 then (w3, Some (Err Phase3Failed))
            else (w3, Some (Ok (all1 ++ all2 ++ all3)))
        end
      else (w2, Some (Ok (all1 ++ all2)))
  end.

Definition plan_only (d : DesiredMesh) (w : World) : World * option (result Plan PlanError) :=
  let '(w1, current) := reconstruct (d_hosts d) (d_interface d) (d_namespaces d) w in
  (w1, match current with Some current => build_plan sha256_hex d current | None => None end).

Definition apply_mesh (d : DesiredMesh) (current : MeshState) (w : World)
    : World * option (result (list ActionResult) ApplyError) :=
  match build_plan sha256_hex d current with
  | None => (w, None)
  | Some (Err e) => (w, Some (Err (PlanFailed e)))
  | Some (Ok planned) =>
      let '(w1, r1) := for_each_server (order (d_hosts d)) (phase1 d current planned) w in
      match r1 with
      | None => (w1, None)
      | Some rs1 =>
          let '(all1, failed1) := gather InstallWg rs1 in
          if failed1 then (w1, Some (Err Phase1Failed))
          else
            let '(w2, fresh) := reconstruct (d_hosts d) (d_interface d) (d_namespaces d) w1 in
            match fresh with
            | None => (w2, None)
            | Some fresh =>
                match allocate_mgmt_ips (d_mgmt_pool d) (assigned_mgmt_ips fresh) (d_hosts d) with
                | None => (w2, None)
                | Some (Err e) => (w2, Some (Err (ReallocFailed e)))
                | Some (Ok (mgmt, _)) =>
                    match allocate_namespaced (d_container_pool d) (d_container_prefix d)
                            (assigned_container_subnets fresh) (d_namespaces d) (d_nodes d) with
                    | None => (w2, None)
                    | Some (Err e) => (w2, Some (Err (ReallocFailed e)))
                    | Some (Ok (subnets, _)) => apply_rest d planned fresh mgmt subnets all1 w2
                    end
                end
            end
      end
  end.

(* ------------------------------------------------------------------ *)
(** ** Verification of the result *)

Record VerifyResult := mkVerify {
  v_host : string;
  v_wireguard_ip : string;
  v_peer_count : nat;
  v_status : string;
}.

Definition addr_command (iface : string) : string :=
  "ip -o -4 addr show " +:+ iface +:+ " 2>/dev/null | awk '{print $4}' | cut -d/ -f1 | head -n1".
Definition dump_command (iface : string) : string := "wg show " +:+ iface +:+ " dump 2>/dev/null || true".

Definition verify_host (iface : string) : Phase VerifyResult :=
  fun host hist =>
    match run host user port hist (addr_command iface) with
    | Err e => (hist ++ [addr_command iface], Some (Err e))
    | Ok addr =>
        let ip := trim (default "" (head (lines (o_stdout addr)))) in
        let hist := hist ++ [addr_command iface] in
        (hist ++ [dump_command iface],
         Some match run host user port hist (dump_command iface) with
              | Err e => Err e
              | Ok dump => Ok (mkVerify host ip (length (drop 1 (lines (o_stdout dump)))) "ok")
              end)
    end.

Definition verify (hosts : list string) (iface : string) (w : World) : World * option (list VerifyResult) :=
  let '(w', rs) := for_each_server (order hosts) (verify_host iface) w in
  (w', (fun rs : list _ => (fun r => default (mkVerify (sr_host r) "" 0 "error") (sr_result r)) <$> rs) <$> rs).
End Applying.

(* ------------------------------------------------------------------ *)
(** ** Properties *)

Section ApplyFacts.
Context `{api : Ipv4NetApi} (sha256_hex : string -> string) (b64_decode : string -> option string)
  `{rn : Runner} (user : string) (port : Z).

(** *** One host *)

Lemma run_steps_log host steps : forall hist out,
  exists n, (run_steps user port host hist steps out).1 = hist ++ omap st_cmd (take n steps).
Proof.
  induction steps as [|[t ns [cmd|]] steps IH]; intros hist out; cbn [run_steps].
  - exists 0%nat. by rewrite app_nil_r.
  - destruct (run host user port hist cmd) as [o|e].
    + destruct (IH (hist ++ [cmd]) (out ++ [mkResult (mkAction host ns t "") "ok"
        (default "" (first_line (o_stdout o)))])) as [n Hn]. exists (S n). rewrite Hn, <- app_assoc. done.
    + by exists 1%nat.
  - exists 0%nat. by rewrite app_nil_r.
Qed.

(** A step that was reported as done. *)
Definition done_step (host : string) (s : Step) (r : ActionResult) : Prop :=
  ar_action r = mkAction host (st_ns s) (st_type s) "" /\ ar_status r = "ok".

Lemma run_steps_Ok host steps : forall hist out hist' res,
  run_steps user port host hist steps out = (hist', Some (Ok res)) ->
  hist' = hist ++ omap st_cmd steps /\ exists res', res = out ++ res' /\ Forall2 (done_step host) steps res'.
Proof.
  induction steps as [|[t ns [cmd|]] steps IH]; intros hist out hist' res; cbn [run_steps]; [|case_match|done].
  - intros [= <- <-]. rewrite app_nil_r. split; [done|]. exists []. by rewrite app_nil_r.
  - intros Hr. destruct (IH _ _ _ _ Hr) as [-> (res' & -> & Hres)]. rewrite <- !app_assoc.
    split; [done|]. eexists. split; [done|]. by constructor.
  - done.
Qed.

(** *** All hosts *)

Lemma log_of_insert (w : World) h hist h' :
  log_of (<[h := hist]> w) h' = if decide (h = h') then hist else log_of w h'.
Proof. unfold log_of. rewrite lookup_insert. by case_decide. Qed.

Lemma for_each_extends {T} (P : string -> string -> Prop) (f : Phase T) hosts :
  (forall h hist, exists cmds, (f h hist).1 = hist ++ cmds /\ Forall (P h) cmds) ->
  forall w h, exists cmds, log_of (for_each_server hosts f w).1 h = log_of w h ++ cmds /\ Forall (P h) cmds.
Proof.
  intros Hf. induction hosts as [|h0 hosts IH]; intros w h; cbn [for_each_server].
  { exists []. by rewrite app_nil_r. }
  pose proof (Hf h0 (log_of w h0)) as (c0 & Hc0 & HP0).
  destruct (f h0 (log_of w h0)) as [hist r]. cbn [fst] in Hc0. subst hist.
  assert (exists cmds, log_of (<[h0 := log_of w h0 ++ c0]> w) h = log_of w h ++ cmds /\ Forall (P h) cmds)
    as (c1 & Hc1 & HP1).
  { rewrite log_of_insert. case_decide; subst; [eauto|]. exists []. by rewrite app_nil_r. }
  destruct r as [r|]; [|eauto]. specialize (IH (<[h0 := log_of w h0 ++ c0]> w) h).
  destruct (for_each_server hosts f _) as [w2 rs]. cbn [fst] in *. destruct IH as (c2 & -> & HP2).
  exists (c1 ++ c2). rewrite Hc1, <- app_assoc. split; [done|]. by apply Forall_app.
Qed.

(** When no host panics every host ran once, from its own history. *)
Lemma for_each_Some {T} (f : Phase T) hosts : forall w w' rs,
  NoDup hosts -> for_each_server hosts f w = (w', Some rs) ->
  Forall2 (fun h r => exists x, (f h (log_of w h)).2 = Some x /\ r = server_result h x) hosts rs /\
  forall h, log_of w' h = if decide (h ∈ hosts) then (f h (log_of w h)).1 else log_of w h.
Proof.
  induction hosts as [|h0 hosts IH]; intros w w' rs Hnd; cbn [for_each_server].
  { intros [= <- <-]. split; [constructor|]. intros h. by rewrite decide_False by set_solver. }
  apply NoDup_cons in Hnd as [Hnin Hnd]. destruct (f h0 (log_of w h0)) as [hist [r|]] eqn:Hf0; [|done].
  destruct (for_each_server hosts f _) as [w2 [rs2|]] eqn:E; [|done]. intros [= <- <-].
  destruct (IH _ _ _ Hnd E) as [Hrs Hlog]. split.
  - constructor; [exists r; by rewrite Hf0|]. eapply Forall2_impl_mem; [exact Hrs|].
    intros h x Hh (y & Hy & ->). rewrite log_of_insert, decide_False in Hy by set_solver. eauto.
  - intros h. rewrite Hlog, log_of_insert. destruct (decide (h0 = h)) as [<-|Hne].
    + rewrite decide_False, decide_True by set_solver. by rewrite Hf0.
    + destruct (decide (h ∈ hosts)); [rewrite decide_True|rewrite decide_False]; set_solver.
Qed.

Lemma gather_spec t rs : forall all failed,
  foldl (fun '(all, failed) r =>
    match sr_result r with
    | Some v => (all ++ v, failed)
    | None => (all ++ [err_result (sr_host r) t (default "" (sr_error r))], true)
    end) (all, failed) rs =
  (all ++ (r ← rs; match sr_result r with
                   | Some v => v
                   | None => [err_result (sr_host r) t (default "" (sr_error r))]
                   end),
   failed || existsb (fun r => match sr_result r with Some _ => false | None => true end) rs).
Proof.
  induction rs as [|r rs IH]; intros all failed; cbn; [by rewrite app_nil_r, orb_false_r|].
  destruct (sr_result r); rewrite IH, <- app_assoc; f_equal. by rewrite orb_true_r.
Qed.

(** *** Which command an action is carried out by *)

Definition carries_out (d : DesiredMesh) (host : string) (t : ActionType) (ns cmd : string) : Prop :=
  match t with
  | InstallWg => cmd = APT_WG
  | GenKeyPair => cmd = genkey_command
  | InstallPodman => cmd = APT_PODMAN
  | EnablePodmanSocket => cmd = ENABLE_PODMAN
  | EnableIpForward => cmd = ENABLE_IP_FORWARD
  | WriteConfig => exists ip peers,
      cmd = write_config_command (d_interface d) ip (listen_port_for d host) peers
  | EnableService => cmd = service_command false (d_interface d)
  | ReloadService => cmd = service_command true (d_interface d)
  | CreatePodmanNetwork => exists sn, cmd = network_command false ns sn
  | RecreatePodmanNetwork => exists sn, cmd = network_command true ns sn
  | InstallFirewall => exists nets,
      cmd = install_firewall_command (d_interface d) (sorted_namespaces d) nets (d_default_deny_containers d)
  | InstallCorrosion => cmd = corrosion_install_command (d_corrosion_version d) (d_corrosion_sha256 d)
  | InstallCoold => cmd = coold_install_command (d_coold_version d) (d_coold_sha256 d)
  | WriteCorrosionConfig => exists cfg, cmd = corrosion_config_command d cfg
  | WriteCorrosionSchema => cmd = corrosion_schema_command
  | InstallCorrosionService => cmd = corrosion_service_command d
  | InstallCooldService => exists ip nss, cmd = coold_service_command d ip nss
  | AllocateMgmtIp | AllocateContainerSubnet | AddPeer | RemovePeer => False
  end.

(** A step of the plan. *)
Definition planned_step (d : DesiredMesh) (planned : Plan) (host : string) (s : Step) : Prop :=
  forall cmd, st_cmd s = Some cmd ->
  should_run planned host (st_type s) (st_ns s) = true /\ carries_out d host (st_type s) (st_ns s) cmd.

Lemma step_if_planned d planned host b t ns cmd :
  (b = true -> forall c, cmd = Some c -> should_run planned host t ns = true /\ carries_out d host t ns c) ->
  Forall (planned_step d planned host) (step_if b t ns cmd).
Proof.
  intros H. destruct b; [|constructor]. constructor; [|constructor]. intros c Hc. by apply H.
Qed.

Lemma step_if_constant d planned host b t c :
  (b = true -> should_run planned host t "" = true) -> carries_out d host t "" c ->
  Forall (planned_step d planned host) (step_if b t "" (Some c)).
Proof. intros Hb Hc. apply step_if_planned. intros Hbt c' Heq. apply (inj Some) in Heq. subst. auto. Qed.

Lemma phase1_planned d current planned host :
  Forall (planned_step d planned host) (phase1_steps d current planned host).
Proof.
  assert (forall b t c, carries_out d host t "" c -> Forall (planned_step d planned host)
            (step_if (b && should_run planned host t "") t "" (Some c))) as Hstep.
  { intros b t c Hc. apply step_if_constant; [|done]. by intros [_ ?]%andb_true_iff. }
  unfold phase1_steps. repeat (apply Forall_app; split); try (apply Hstep; reflexivity).
  destruct (is_node d host && d_install_podman d); [|constructor].
  repeat (apply Forall_app; split); apply Hstep; reflexivity.
Qed.

Lemma network_planned d planned subnets host ns :
  Forall (planned_step d planned host) (network_step planned subnets host ns).
Proof.
  unfold network_step. apply step_if_planned. intros Hr c Hc.
  apply fmap_Some in Hc as (sn & _ & ->).
  destruct (should_run planned host RecreatePodmanNetwork ns) eqn:E; [split; [done|by exists sn]|].
  rewrite orb_false_r in Hr. split; [done|by exists sn].
Qed.

Lemma phase2_planned d fresh mgmt subnets planned host peers :
  Forall (planned_step d planned host) (phase2_steps d fresh mgmt subnets planned host peers).
Proof.
  unfold phase2_steps. repeat (apply Forall_app; split).
  - apply step_if_planned. intros Hs c (ip & _ & ->)%fmap_Some. split; [done|by eexists _, _].
  - destruct (is_active fresh host); apply step_if_constant; done.
  - destruct (is_node d host && d_install_podman d); [|constructor]. apply Forall_app; split.
    + apply Forall_bind, Forall_true. intros ns. apply network_planned.
    + apply step_if_planned. intros Hs c (nets & _ & ->)%fmap_Some. split; [done|by eexists].
Qed.

Lemma phase3_planned d mgmt subnets planned host :
  Forall (planned_step d planned host) (phase3_steps d mgmt subnets planned host).
Proof.
  unfold phase3_steps. repeat (apply Forall_app; split);
    try (apply step_if_constant; [done|reflexivity]).
  destruct (gossip_peers d mgmt host) as [peers|]; [|by repeat constructor].
  repeat (apply Forall_app; split); try (apply step_if_constant; [done|reflexivity]);
    apply step_if_planned; intros Hs c Hc; (split; [exact Hs|]).
  - apply bind_Some in Hc as (ip & _ & Hc). apply bind_Some in Hc as (cfg & _ & Hc).
    apply (inj Some) in Hc. by exists cfg.
  - apply bind_Some in Hc as (nets & _ & Hc). apply bind_Some in Hc as (ip & _ & Hc).
    apply (inj Some) in Hc. by exists ip, (ns_configs d nets).
Qed.

#[local] Hint Resolve phase1_planned phase2_planned phase3_planned : coold.

Lemma should_run_spec planned host t ns :
  should_run planned host t ns = true <->
  exists a, a ∈ pl_actions planned /\ a_host a = host /\ a_type a = t /\ (ns = "" \/ a_namespace a = ns).
Proof.
  unfold should_run. rewrite existsb_exists. split.
  - intros (a & Ha & Hc). apply list_elem_of_In in Ha. exists a. split; [done|].
    apply andb_true_iff in Hc as [[Hh Ht]%andb_true_iff [Hn|Hn]%orb_true_iff];
      apply bool_decide_eq_true in Hh, Ht; [|apply bool_decide_eq_true in Hn; auto].
    by destruct ns; auto.
  - intros (a & Ha & <- & <- & Hn). exists a. split; [by apply list_elem_of_In|].
    rewrite !bool_decide_eq_true_2 by done. cbn. destruct Hn as [->|<-]; [done|].
    by rewrite (bool_decide_eq_true_2 (_ = _)), orb_true_r.
Qed.

(** *** Nothing but the plan is run *)

Definition authorized (d : DesiredMesh) (p : Plan) (host cmd : string) : Prop :=
  exists a ns, a ∈ pl_actions p /\ a_host a = host /\ (ns = "" \/ ns = a_namespace a) /\
               carries_out d host (a_type a) ns cmd.

Lemma planned_authorized d p host s cmd :
  planned_step d p host s -> st_cmd s = Some cmd -> authorized d p host cmd.
Proof.
  intros Hs Hc. destruct (Hs cmd Hc) as [(a & Ha & Hh & Ht & Hn)%should_run_spec Hco].
  exists a, (st_ns s). rewrite Ht. split_and!; [done|done| |done]. naive_solver.
Qed.

Definition allowed (d : DesiredMesh) (p : Plan) (host cmd : string) : Prop :=
  cmd = probe_script (d_interface d) (d_namespaces d) \/ authorized d p host cmd.

Lemma run_steps_allowed d p host steps hist out :
  Forall (planned_step d p host) steps ->
  exists cmds, (run_steps user port host hist steps out).1 = hist ++ cmds /\ Forall (allowed d p host) cmds.
Proof.
  intros Hs. destruct (run_steps_log host steps hist out) as [n ->]. eexists. split; [done|].
  apply Forall_forall. intros cmd (s & Hin & Hc)%list_elem_of_omap. right.
  eapply planned_authorized, Hc. rewrite Forall_forall in Hs. apply Hs.
  apply elem_of_take in Hin as (i & Hi & _). by eapply list_elem_of_lookup_2.
Qed.

Context (order : list string -> list string).

Lemma apply_rest_allowed d p fresh mgmt subnets all w host :
  exists cmds, log_of (apply_rest user port order d p fresh mgmt subnets all w).1 host =
               log_of w host ++ cmds /\ Forall (allowed d p host) cmds.
Proof.
  unfold apply_rest.
  pose proof (for_each_extends (allowed d p) (phase2 user port d fresh mgmt subnets p) (order (d_hosts d)))
    as H2. ospecialize (H2 _ w host).
  { intros h hist. unfold phase2. destruct (peer_configs d fresh mgmt subnets h) as [peers|].
    - apply run_steps_allowed; auto with coold.
    - exists []. by rewrite app_nil_r. }
  destruct (for_each_server _ _ w) as [w2 r2]. cbn [fst] in H2.
  destruct r2 as [rs2|]; [|done]. destruct (gather WriteConfig rs2) as [all2 [|]]; [done|].
  destruct (d_install_coold d); [|done].
  pose proof (for_each_extends (allowed d p) (phase3 user port d mgmt subnets p) (order (d_nodes d)))
    as H3. ospecialize (H3 _ w2 host).
  { intros h hist. apply run_steps_allowed; auto with coold. }
  destruct (for_each_server _ _ w2) as [w3 r3]. cbn [fst] in H3.
  destruct H2 as (c2 & Hc2 & HP2), H3 as (c3 & Hc3 & HP3).
  assert (exists cmds, log_of w3 host = log_of w host ++ cmds /\ Forall (allowed d p host) cmds) as Hall.
  { exists (c2 ++ c3). rewrite Hc3, Hc2, <- app_assoc. split; [done|]. by apply Forall_app. }
  destruct r3 as [rs3|]; [|done]. by destruct (gather InstallCoold rs3) as [all3 [|]].
Qed.

Lemma apply_mesh_allowed d current p w host :
  build_plan sha256_hex d current = Some (Ok p) ->
  exists cmds, log_of (apply_mesh sha256_hex b64_decode user port order d current w).1 host =
               log_of w host ++ cmds /\ Forall (allowed d p host) cmds.
Proof.
  intros Hb. unfold apply_mesh. rewrite Hb.
  pose proof (for_each_extends (allowed d p) (phase1 user port d current p) (order (d_hosts d))) as H1.
  ospecialize (H1 _ w host).
  { intros h hist. apply run_steps_allowed; auto with coold. }
  destruct (for_each_server _ _ w) as [w1 r1]. cbn [fst] in H1.
  destruct r1 as [rs1|]; [|done]. destruct (gather InstallWg rs1) as [all1 [|]]; [done|].
  unfold reconstruct.
  pose proof (for_each_extends (allowed d p) (probe b64_decode user port (d_interface d) (d_namespaces d))
                (order (d_hosts d))) as Hp.
  ospecialize (Hp _ w1 host).
  { intros h hist. eexists. split; [reflexivity|]. repeat constructor. }
  destruct (for_each_server _ (probe _ _ _ _ _) w1) as [w2 rp]. cbn [fst] in Hp.
  destruct H1 as (c1 & Hc1 & HP1), Hp as (c2 & Hc2 & HP2).
  assert (exists cmds, log_of w2 host = log_of w host ++ cmds /\ Forall (allowed d p host) cmds) as Hall.
  { exists (c1 ++ c2). rewrite Hc2, Hc1, <- app_assoc. split; [done|]. by apply Forall_app. }
  destruct rp as [rsp|]; cbn [fmap option_fmap option_map]; [|done].
  destruct (allocate_mgmt_ips _ _ _) as [[[mgmt ws]|e]|]; [|done|done].
  destruct (allocate_namespaced _ _ _ _ _) as [[[subnets ws']|e]|]; [|done|done].
  destruct (apply_rest_allowed d p (collect_state rsp) mgmt subnets all1 w2 host) as (c3 & Hc3 & HP3).
  destruct Hall as (c & Hc & HP). exists (c ++ c3). rewrite Hc3, Hc, <- app_assoc.
  split; [done|]. by apply Forall_app.
Qed.

(** Planning alone only looks. *)
Lemma plan_only_probes d w host :
  exists cmds, log_of (plan_only sha256_hex b64_decode user port order d w).1 host = log_of w host ++ cmds /\
    Forall (fun cmd => cmd = probe_script (d_interface d) (d_namespaces d)) cmds.
Proof.
  unfold plan_only, reconstruct.
  pose proof (for_each_extends (fun _ cmd => cmd = probe_script (d_interface d) (d_namespaces d))
    (probe b64_decode user port (d_interface d) (d_namespaces d)) (order (d_hosts d))) as Hp.
  ospecialize (Hp _ w host); [intros h hist; eexists; split; [reflexivity|]; repeat constructor|].
  by destruct (for_each_server _ (probe _ _ _ _ _) w).
Qed.

(** C30. Applying runs on a host nothing but the probe and the commands that
    carry out the actions planned for that host, each in the form its action
    has; with no plan nothing is run at all, and with an empty plan nothing but
    the probe. *)
Theorem only_planned_commands d current w host :
  let w' := (apply_mesh sha256_hex b64_decode user port order d current w).1 in
  match build_plan sha256_hex d current with
  | Some (Ok p) =>
      exists cmds, log_of w' host = log_of w host ++ cmds /\
        Forall (fun cmd => cmd = probe_script (d_interface d) (d_namespaces d) \/
          exists a ns, a ∈ pl_actions p /\ a_host a = host /\ (ns = "" \/ ns = a_namespace a) /\
                       carries_out d host (a_type a) ns cmd) cmds
  | _ => w' = w
  end.
Proof.
  cbv zeta. destruct (build_plan sha256_hex d current) as [[p|e]|] eqn:Hb.
  - exact (apply_mesh_allowed d current p w host Hb).
  - unfold apply_mesh. by rewrite Hb.
  - unfold apply_mesh. by rewrite Hb.
Qed.

(** *** A failed first phase *)

Lemma run_steps_no_panic host steps : forall hist out,
  Forall (fun s => is_Some (st_cmd s)) steps -> is_Some (run_steps user port host hist steps out).2.
Proof.
  induction steps as [|[t ns cmd] steps IH]; intros hist out Hs; cbn [run_steps]; [by eexists|].
  apply Forall_cons in Hs as [[c Hc] Hs]. cbn in Hc. subst cmd.
  destruct (run host user port hist c); [by apply IH|by eexists].
Qed.

Lemma step_if_no_panic b t ns c : Forall (fun s => is_Some (st_cmd s)) (step_if b t ns (Some c)).
Proof. destruct b; repeat constructor. by eexists. Qed.

Lemma phase1_no_panic d current p h hist : is_Some (phase1 user port d current p h hist).2.
Proof.
  apply run_steps_no_panic. unfold phase1_steps.
  destruct (is_node d h && d_install_podman d); repeat (apply Forall_app; split);
    solve [apply step_if_no_panic | constructor].
Qed.

Lemma for_each_no_panic {T} (f : Phase T) hosts : forall w,
  (forall h hist, is_Some (f h hist).2) -> is_Some (for_each_server hosts f w).2.
Proof.
  induction hosts as [|h hosts IH]; intros w Hf; cbn [for_each_server]; [by eexists|].
  pose proof (Hf h (log_of w h)) as [x Hx]. destruct (f h (log_of w h)) as [hist r]. cbn in Hx. subst r.
  destruct (IH (<[h := hist]> w) Hf) as [rs Hrs]. destruct (for_each_server hosts f _) as [w2 rs2].
  cbn in *. subst rs2. by eexists.
Qed.

Lemma planned_hosts_distinct d current p :
  build_plan sha256_hex d current = Some (Ok p) -> NoDup (d_hosts d).
Proof.
  intros Hb. destruct (build_plan_Ok _ _ _ _ Hb) as (ws & ws' & _ & Ha & _).
  unfold allocate_mgmt_ips, assign in Ha. destruct (first_duplicate ∅ (d_hosts d)) eqn:Hd; [done|].
  by apply first_duplicate_None in Hd as [Hd _].
Qed.

Context (order_perm : forall l, order l ≡ₚ l).

(** No host is configured until every host is ready: when the first phase
    (packages, keys, Podman) fails on one host, applying stops with that error
    and no host has been asked anything beyond its own first phase. *)
Theorem phase1_failure_aborts d current p w h e :
  build_plan sha256_hex d current = Some (Ok p) ->
  h ∈ d_hosts d -> (phase1 user port d current p h (log_of w h)).2 = Some (Err e) ->
  let '(w', r) := apply_mesh sha256_hex b64_decode user port order d current w in
  r = Some (Err Phase1Failed) /\
  forall h', log_of w' h' = if decide (h' ∈ d_hosts d) then (phase1 user port d current p h' (log_of w h')).1
                            else log_of w h'.
Proof.
  intros Hb Hh Hf. unfold apply_mesh. rewrite Hb.
  pose proof (for_each_no_panic (phase1 user port d current p) (order (d_hosts d)) w
                (phase1_no_panic d current p)) as [rs Hrs].
  destruct (for_each_server _ _ w) as [w1 r1] eqn:E. cbn in Hrs. subst r1.
  assert (NoDup (order (d_hosts d))) as Hnd.
  { rewrite order_perm. by eapply planned_hosts_distinct. }
  destruct (for_each_Some _ _ _ _ _ Hnd E) as [H2 Hlog].
  assert (exists all, gather InstallWg rs = (all, true)) as [all ->].
  { unfold gather. rewrite gather_spec. eexists. f_equal. apply existsb_exists.
    rewrite <- order_perm in Hh. apply list_elem_of_lookup in Hh as [i Hi].
    destruct (Forall2_lookup_l _ _ _ _ _ H2 Hi) as (r & Hr & x & Hx & ->). rewrite Hf in Hx.
    injection Hx as <-. exists (server_result h (Err e)). split; [|reflexivity]. apply list_elem_of_In.
    by eapply list_elem_of_lookup_2. }
  split; [done|]. intros h'. rewrite Hlog.
  assert (h' ∈ order (d_hosts d) <-> h' ∈ d_hosts d) as Hiff by by rewrite order_perm.
  destruct (decide (h' ∈ d_hosts d)); [rewrite decide_True|rewrite decide_False]; tauto.
Qed.

(** *** Where planned actions come from *)

Definition network_missing (s : ServerState) (ns : string) : bool :=
  match s_namespaces s !! ns with Some nss => negb (ns_network_exists nss) | None => true end.

(** What the plan knows when it lists an action. *)
Definition origin (d : DesiredMesh) (st : ServerState) (host : string) (a : PlannedAction) : Prop :=
  let podman := is_node d host && d_install_podman d = true in
  match a_type a with
  | InstallWg => a_namespace a = "" /\ s_installed st = false
  | GenKeyPair => a_namespace a = "" /\ s_keys_exist st = false
  | InstallPodman => a_namespace a = "" /\ podman /\ s_podman_installed st = false
  | EnablePodmanSocket => a_namespace a = "" /\ podman /\ s_podman_socket_active st = false
  | EnableIpForward => a_namespace a = "" /\ podman /\ s_ip_forward_enabled st = false
  | CreatePodmanNetwork => a_namespace a ∈ d_namespaces d /\ podman /\ network_missing st (a_namespace a) = true
  | RecreatePodmanNetwork =>
      a_namespace a ∈ d_namespaces d /\ podman /\ network_missing st (a_namespace a) = false
  | InstallFirewall => a_namespace a = "" /\ podman
  | InstallCorrosion | InstallCoold | WriteCorrosionConfig | WriteCorrosionSchema
  | InstallCorrosionService | InstallCooldService =>
      a_namespace a = "" /\ is_node d host && d_install_coold d = true
  | WriteConfig | EnableService | ReloadService | AddPeer | RemovePeer => a_namespace a = ""
  | AllocateMgmtIp | AllocateContainerSubnet => False
  end.

Lemma wireguard_origin d current ip host st acts a :
  wireguard_actions d current ip host st = Some acts -> a ∈ acts -> a_host a = host /\ origin d st host a.
Proof.
  intros (added & Hadd & Hrest)%bind_Some. apply bind_Some in Hrest as (removed & Hrem & Hacts).
  apply (inj Some) in Hacts. subst acts. rewrite !elem_of_app, !in_push_if, !negb_true_iff.
  intros [[Hc ->]|[[Hc ->]|[Ha|[Ha|[[Hc ->]|Ha]]]]]; try done.
  { by apply (peer_actions_inv _ _ _ _ _ Hadd) in Ha as (k & short & _ & ->). }
  { by apply (peer_actions_inv _ _ _ _ _ Hrem) in Ha as (k & short & _ & ->). }
  destruct (s_active st); cbn [negb] in Ha;
    [apply in_push_if in Ha as [_ ->] | apply list_elem_of_singleton in Ha as ->]; done.
Qed.

Lemma network_origin d host st ns want a :
  is_node d host && d_install_podman d = true -> ns ∈ d_namespaces d ->
  a ∈ namespace_actions host st ns want -> a_host a = host /\ origin d st host a.
Proof.
  intros Hp Hns. unfold namespace_actions, origin, network_missing.
  destruct (s_namespaces st !! ns) as [nss|] eqn:E.
  - destruct (ns_network_exists nss) eqn:Ex; cbn [negb].
    + rewrite in_push_if. intros [_ ->]. cbn. rewrite E, Ex. done.
    + intros ->%list_elem_of_singleton. cbn. rewrite E, Ex. done.
  - intros ->%list_elem_of_singleton. cbn. rewrite E. done.
Qed.

Lemma podman_origin d host st nets a :
  is_node d host && d_install_podman d = true ->
  a ∈ podman_actions sha256_hex d host st nets -> a_host a = host /\ origin d st host a.
Proof.
  intros Hp. unfold podman_actions. rewrite !elem_of_app, !in_push_if, !negb_true_iff.
  intros [[Hc ->]|[[Hc ->]|[[Hc ->]|[Hb|[_ ->]]]]]; try done.
  apply list_elem_of_bind in Hb as ([ns want] & Ha & Hz). eapply network_origin; [done| |exact Ha].
  rewrite <- sorted_namespaces_perm. apply list_elem_of_lookup in Hz as [i [Hi _]%lookup_zip_Some].
  by eapply list_elem_of_lookup_2.
Qed.

Lemma coold_origin d mgmt host ip st nets acts a :
  is_node d host && d_install_coold d = true ->
  coold_actions sha256_hex d mgmt host ip st nets = Some acts -> a ∈ acts ->
  a_host a = host /\ origin d st host a.
Proof.
  intros Hc (cfg & _ & Ha)%bind_Some. apply (inj Some) in Ha. subst acts.
  rewrite !elem_of_app, !in_push_if.
  intros [[_ ->]|[[_ ->]|[[_ ->]|[[_ ->]|[[_ ->]|[_ ->]]]]]]; done.
Qed.

Lemma host_actions_origin d current mgmt subnets host acts a :
  host_actions sha256_hex d current mgmt subnets host = Some acts -> a ∈ acts ->
  a_host a = host /\ origin d (default server_default (current !! host)) host a.
Proof.
  unfold host_actions. intros (ip & _ & Hh)%bind_Some. apply bind_Some in Hh as (wg & Hwg & Hh).
  apply bind_Some in Hh as (pod & Hpod & Hh).
  apply bind_Some in Hh as (co & Hco & Hh). apply (inj Some) in Hh. subst acts.
  rewrite !elem_of_app. intros [Ha|[Ha|Ha]].
  - by eapply wireguard_origin.
  - destruct (is_node d host && d_install_podman d) eqn:Hp.
    + apply fmap_Some in Hpod as (nets & _ & ->). by eapply podman_origin.
    + apply (inj Some) in Hpod. subst pod. by apply not_elem_of_nil in Ha.
  - destruct (is_node d host && d_install_coold d) eqn:Hp.
    + apply bind_Some in Hco as (nets & _ & Hco). by eapply coold_origin.
    + apply (inj Some) in Hco. subst co. by apply not_elem_of_nil in Ha.
Qed.

Lemma plan_origin d current p a :
  build_plan sha256_hex d current = Some (Ok p) -> a ∈ pl_actions p ->
  a_host a ∈ d_hosts d /\ origin d (default server_default (current !! a_host a)) (a_host a) a.
Proof.
  unfold build_plan. destruct (check_request d current); [|done].
  destruct (allocate_mgmt_ips _ _ _) as [[[mgmt ws]|e]|]; [|done|done].
  destruct (allocate_namespaced _ _ _ _ _) as [[[subnets ws']|e]|]; [|done|done].
  destruct (mapM _ _) as [actions|] eqn:E; [|done]. intros [= <-] [Ha _]%filter_by_intent_actions.
  cbn [pl_actions] in Ha. apply list_elem_of_join in Ha as (acts & Hin & Hacts).
  apply mapM_Some in E. apply list_elem_of_lookup in Hacts as [i Hi].
  destruct (Forall2_lookup_r _ _ _ _ _ E Hi) as (host & Hhost & Hh).
  destruct (host_actions_origin _ _ _ _ _ _ _ Hh Hin) as [-> Ho]. split; [|done].
  by eapply list_elem_of_lookup_2.
Qed.

(** *** Success means done *)

(** An action reported as carried out. *)
Definition reported (res : list ActionResult) (host : string) (t : ActionType) (ns : string) : Prop :=
  exists r, r ∈ res /\ ar_action r = mkAction host ns t "" /\ ar_status r = "ok".

(** The history of a host holds a command that carries the action out, run there
    with success. *)
Definition executed (d : DesiredMesh) (host : string) (log : list string) (t : ActionType) (ns : string) : Prop :=
  exists hist cmd o, run host user port hist cmd = Ok o /\ carries_out d host t ns cmd /\
                     hist ++ [cmd] `prefix_of` log.

Lemma reported_sub res res' host t ns : res ⊆ res' -> reported res host t ns -> reported res' host t ns.
Proof. intros Hs (r & Hr & ?). exists r. split; [by apply Hs|done]. Qed.

Lemma executed_extend d host log more t ns : executed d host log t ns -> executed d host (log ++ more) t ns.
Proof. intros (hist & cmd & o & Hr & Hc & Hp). exists hist, cmd, o. split_and!; [done|done|]. by apply prefix_app_r. Qed.

Lemma run_steps_executed d p host steps : forall hist out hist' res s,
  run_steps user port host hist steps out = (hist', Some (Ok res)) ->
  Forall (planned_step d p host) steps -> s ∈ steps -> executed d host hist' (st_type s) (st_ns s).
Proof.
  induction steps as [|[t ns [cmd|]] steps IH]; intros hist out hist' res s; cbn [run_steps]; [|case_match|done].
  - intros _ _ []%not_elem_of_nil.
  - intros Hr Hp%Forall_cons [->|Hs]%elem_of_cons; destruct Hp as [Hp Hps]; [|by eapply IH].
    destruct (run_steps_Ok _ _ _ _ _ _ Hr) as [-> _]. eexists hist, cmd, _. split_and!; [done| |].
    + by apply (Hp cmd).
    + by apply prefix_app_r.
  - done.
Qed.

(** A step of a phase that succeeded. *)
Definition settled_step (d : DesiredMesh) (host : string) (log : list string) (res : list ActionResult)
    (t : ActionType) (ns : string) : Prop :=
  executed d host log t ns /\ reported res host t ns.

Lemma run_steps_settled d p host steps hist hist' res s :
  run_steps user port host hist steps [] = (hist', Some (Ok res)) ->
  Forall (planned_step d p host) steps -> s ∈ steps -> settled_step d host hist' res (st_type s) (st_ns s).
Proof.
  intros E Hp Hs. split; [by eapply run_steps_executed|].
  destruct (run_steps_Ok _ _ _ _ _ _ E) as [_ (res' & -> & H2)]. apply list_elem_of_lookup in Hs as [i Hi].
  destruct (Forall2_lookup_l _ _ _ _ _ H2 Hi) as (r & Hr & Ha & Hst). exists r.
  split; [by eapply list_elem_of_lookup_2|done].
Qed.

(** Phases only append to the histories. *)
Definition appends {T} (f : Phase T) : Prop := forall h hist, exists more, (f h hist).1 = hist ++ more.

Lemma for_each_appends {T} (f : Phase T) hosts w h :
  appends f -> exists more, log_of (for_each_server hosts f w).1 h = log_of w h ++ more.
Proof.
  intros Hf. destruct (for_each_extends (fun _ _ => True) f hosts) with (w := w) (h := h) as (c & Hc & _); [|eauto].
  intros h' hist. destruct (Hf h' hist) as [more ->]. exists more. split; [done|]. by apply Forall_true.
Qed.

Lemma for_each_ran {T} (f : Phase T) hosts : appends f -> forall w w' rs h,
  for_each_server hosts f w = (w', Some rs) -> h ∈ hosts ->
  exists hist hist' x more, f h hist = (hist', Some x) /\ server_result h x ∈ rs /\ log_of w' h = hist' ++ more.
Proof.
  intros Hf. induction hosts as [|h0 hosts IH]; intros w w' rs h; cbn [for_each_server].
  { intros _ []%not_elem_of_nil. }
  destruct (f h0 (log_of w h0)) as [hist [x|]] eqn:Hf0; [|done].
  destruct (for_each_server hosts f _) as [w2 [rs2|]] eqn:E; [|done]. intros [= <- <-] [->|Hh]%elem_of_cons.
  - destruct (for_each_appends f hosts (<[h0 := hist]> w) h0 Hf) as [more Hm]. rewrite E in Hm. cbn [fst] in Hm.
    rewrite log_of_insert, decide_True in Hm by done. exists (log_of w h0), hist, x, more.
    split_and!; [done|left|done].
  - destruct (IH _ _ _ _ E Hh) as (hi & hi' & y & more & Hy & Hin & Hl). exists hi, hi', y, more.
    split_and!; [done|by right|done].
Qed.

(** A phase that failed nowhere did and reported its steps on every host. *)
Lemma phase_settled d (f : Phase (list ActionResult)) hosts w w' rs k all h t ns :
  appends f -> for_each_server hosts f w = (w', Some rs) -> gather k rs = (all, false) -> h ∈ hosts ->
  (forall hist hist' v, f h hist = (hist', Some (Ok v)) -> settled_step d h hist' v t ns) ->
  settled_step d h (log_of w' h) all t ns.
Proof.
  intros Hap Hf Hg Hh Hr. destruct (for_each_ran _ _ Hap _ _ _ _ Hf Hh) as (hist & hist' & x & more & Hx & Hin & ->).
  unfold gather in Hg. rewrite gather_spec in Hg. injection Hg as <- Hall. cbn [app orb] in *.
  destruct x as [v|e].
  - destruct (Hr _ _ _ Hx) as [He Hrep]. split; [by apply executed_extend|].
    eapply reported_sub; [|done]. intros r Hrv. apply list_elem_of_bind. by exists (server_result h (Ok v)).
  - apply not_true_iff_false in Hall. destruct Hall. apply existsb_exists.
    exists (server_result h (Err e)). split; [by apply list_elem_of_In|done].
Qed.

Lemma run_steps_appends host steps hist out :
  exists more, (run_steps user port host hist steps out).1 = hist ++ more.
Proof. destruct (run_steps_log host steps hist out) as [n ->]. eauto. Qed.

#[local] Hint Resolve run_steps_appends : coold.

Lemma phase2_appends d fresh mgmt subnets p : appends (phase2 user port d fresh mgmt subnets p).
Proof.
  intros h hist. unfold phase2. destruct (peer_configs _ _ _ _ _); [auto with coold|].
  exists []. by rewrite app_nil_r.
Qed.

Lemma in_step_if b t ns c : b = true -> mkStep t ns c ∈ step_if b t ns c.
Proof. intros ->. left. Qed.

(** The step of an action, where its phase has it. *)
Definition phase1_type (t : ActionType) : Prop :=
  t ∈ [InstallWg; GenKeyPair; InstallPodman; EnablePodmanSocket; EnableIpForward].
Definition phase2_type (t : ActionType) : Prop :=
  t ∈ [WriteConfig; CreatePodmanNetwork; RecreatePodmanNetwork; InstallFirewall].
Definition phase3_type (t : ActionType) : Prop :=
  t ∈ [InstallCorrosion; InstallCoold; WriteCorrosionConfig; WriteCorrosionSchema;
       InstallCorrosionService; InstallCooldService].

Lemma type_phase d st host a :
  origin d st host a -> a_type a ∉ [AddPeer; RemovePeer; EnableService; ReloadService] ->
  phase1_type (a_type a) \/ phase2_type (a_type a) \/ phase3_type (a_type a).
Proof.
  unfold phase1_type, phase2_type, phase3_type, origin. destruct (a_type a); intros Ho Ht; try done;
    first [ left; by apply (bool_decide_eq_true_1 _)
          | right; left; by apply (bool_decide_eq_true_1 _)
          | right; right; by apply (bool_decide_eq_true_1 _)
          | exfalso; apply Ht; by apply (bool_decide_eq_true_1 _) ].
Qed.

Lemma planned_should_run p a :
  a ∈ pl_actions p -> should_run p (a_host a) (a_type a) "" = true /\
                      should_run p (a_host a) (a_type a) (a_namespace a) = true.
Proof. intros Ha. split; apply should_run_spec; exists a; auto. Qed.

Lemma phase1_has_step d current p a :
  build_plan sha256_hex d current = Some (Ok p) -> a ∈ pl_actions p -> phase1_type (a_type a) ->
  exists c, mkStep (a_type a) (a_namespace a) c ∈ phase1_steps d current p (a_host a).
Proof.
  intros Hb Ha Ht. destruct (plan_origin _ _ _ _ Hb Ha) as [_ Ho].
  destruct (planned_should_run _ _ Ha) as [Hs _]. unfold phase1_steps, origin in *.
  set (st := default server_default (current !! a_host a)) in *.
  unfold phase1_type in Ht. rewrite list_elem_of_In in Ht. cbn in Ht.
  destruct Ht as [Ht|[Ht|[Ht|[Ht|[Ht|[]]]]]]; rewrite <- Ht in *;
    [destruct Ho as [-> Hc] | destruct Ho as [-> Hc] | destruct Ho as (-> & Hp & Hc) ..];
    rewrite ?Hp; eexists; rewrite !elem_of_app;
    repeat first [left; apply in_step_if; rewrite Hc; exact Hs | apply in_step_if; rewrite Hc; exact Hs | right].
Qed.

Lemma phase3_has_step d current p mgmt subnets a peers :
  build_plan sha256_hex d current = Some (Ok p) -> a ∈ pl_actions p -> phase3_type (a_type a) ->
  gossip_peers d mgmt (a_host a) = Some peers ->
  exists c, mkStep (a_type a) (a_namespace a) c ∈ phase3_steps d mgmt subnets p (a_host a).
Proof.
  intros Hb Ha Ht Hg. destruct (plan_origin _ _ _ _ Hb Ha) as [_ Ho].
  destruct (planned_should_run _ _ Ha) as [Hs _]. unfold phase3_steps, origin in *. rewrite Hg.
  unfold phase3_type in Ht. rewrite list_elem_of_In in Ht. cbn in Ht.
  destruct Ht as [Ht|[Ht|[Ht|[Ht|[Ht|[Ht|[]]]]]]]; rewrite <- Ht in *; destruct Ho as [-> _];
    eexists; rewrite !elem_of_app;
    repeat first [left; apply in_step_if; exact Hs | apply in_step_if; exact Hs | right].
Qed.

Lemma network_has_step d p fresh mgmt subnets peers host ns t :
  ns ∈ d_namespaces d -> is_node d host && d_install_podman d = true ->
  (if should_run p host RecreatePodmanNetwork ns then RecreatePodmanNetwork else CreatePodmanNetwork) = t ->
  should_run p host t ns = true ->
  exists c, mkStep t ns c ∈ phase2_steps d fresh mgmt subnets p host peers.
Proof.
  intros Hns Hp <- Hr. unfold phase2_steps. rewrite Hp. eexists. rewrite !elem_of_app. right. right. left.
  apply list_elem_of_bind. exists ns. split; [|by rewrite sorted_namespaces_perm]. apply in_step_if.
  destruct (should_run p host RecreatePodmanNetwork ns); [apply orb_true_r|]. by rewrite Hr.
Qed.

Lemma phase2_has_step d current p fresh mgmt subnets peers a :
  "" ∉ d_namespaces d ->
  build_plan sha256_hex d current = Some (Ok p) -> a ∈ pl_actions p -> phase2_type (a_type a) ->
  exists c, mkStep (a_type a) (a_namespace a) c ∈ phase2_steps d fresh mgmt subnets p (a_host a) peers.
Proof.
  intros Hne Hb Ha Ht. destruct (plan_origin _ _ _ _ Hb Ha) as [_ Ho].
  destruct (planned_should_run _ _ Ha) as [Hs Hsn]. unfold origin in Ho.
  unfold phase2_type in Ht. rewrite list_elem_of_In in Ht. cbn in Ht.
  destruct Ht as [Ht|[Ht|[Ht|[Ht|[]]]]]; rewrite <- Ht in *.
  - rewrite Ho. eexists. unfold phase2_steps. rewrite !elem_of_app. left. by apply in_step_if.
  - destruct Ho as (Hns & Hp & Hm). apply network_has_step; [done|done| |done].
    destruct (should_run p (a_host a) RecreatePodmanNetwork (a_namespace a)) eqn:E; [|done].
    apply should_run_spec in E as (a' & Ha' & Hh' & Ht' & [Hn'|Hn']); [by rewrite Hn' in Hns|].
    destruct (plan_origin _ _ _ _ Hb Ha') as [_ Ho']. unfold origin in Ho'. rewrite Ht', Hh', Hn' in Ho'.
    destruct Ho' as (_ & _ & Ho'). congruence.
  - destruct Ho as (Hns & Hp & Hm). apply network_has_step; [done|done| |done]. by rewrite Hsn.
  - destruct Ho as (-> & Hp). unfold phase2_steps. rewrite Hp. eexists. rewrite !elem_of_app. right. right. right. by apply in_step_if.
Qed.

Lemma run_steps_no_none host steps hist out res :
  (run_steps user port host hist steps out).2 = Some (Ok res) -> Forall (fun s => is_Some (st_cmd s)) steps.
Proof.
  revert hist out. induction steps as [|[t ns [c|]] steps IH]; intros hist out; cbn [run_steps]; [constructor| |done].
  destruct (run host user port hist c); [|done]. intros Hr. constructor; [by eexists|by eapply IH].
Qed.

Lemma phase3_peers d mgmt subnets p host hist hist' v :
  phase3 user port d mgmt subnets p host hist = (hist', Some (Ok v)) -> is_Some (gossip_peers d mgmt host).
Proof.
  intros E. assert (Forall (fun s => is_Some (st_cmd s)) (phase3_steps d mgmt subnets p host)) as Hn.
  { eapply run_steps_no_none. unfold phase3 in E. by rewrite E. }
  unfold phase3_steps in Hn. destruct (gossip_peers d mgmt host); [by eexists|].
  apply Forall_app in Hn as [_ Hn]. apply Forall_app in Hn as [_ Hn]. apply Forall_cons in Hn as [[? ?] _]. done.
Qed.

Lemma phase3_node d st host a :
  origin d st host a -> phase3_type (a_type a) -> is_node d host && d_install_coold d = true.
Proof.
  unfold origin, phase3_type. intros Ho Ht. apply list_elem_of_In in Ht. cbn in Ht.
  destruct Ht as [Ht|[Ht|[Ht|[Ht|[Ht|[Ht|[]]]]]]]; rewrite <- Ht in Ho; by destruct Ho.
Qed.

Lemma settled_later d host log more res res' t ns :
  res ⊆ res' -> settled_step d host log res t ns -> settled_step d host (log ++ more) res' t ns.
Proof. intros Hs [He Hr]. split; [by apply executed_extend|by eapply reported_sub]. Qed.

(** What phases 2 and 3 add, when they succeed. *)
Lemma apply_rest_done d current p fresh mgmt subnets all1 w w' res a :
  "" ∉ d_namespaces d ->
  build_plan sha256_hex d current = Some (Ok p) -> a ∈ pl_actions p ->
  apply_rest user port order d p fresh mgmt subnets all1 w = (w', Some (Ok res)) ->
  (all1 ⊆ res /\ exists more, log_of w' (a_host a) = log_of w (a_host a) ++ more) /\
  (phase2_type (a_type a) \/ phase3_type (a_type a) ->
   settled_step d (a_host a) (log_of w' (a_host a)) res (a_type a) (a_namespace a)).
Proof.
  intros Hne Hb Ha. destruct (plan_origin _ _ _ _ Hb Ha) as [Hh Ho]. unfold apply_rest.
  pose proof (for_each_appends _ (order (d_hosts d)) w (a_host a) (phase2_appends d fresh mgmt subnets p)) as [m2 Hm2].
  destruct (for_each_server _ (phase2 _ _ _ _ _ _ _) w) as [w2 [rs2|]] eqn:E2; [|done]. cbn [fst] in Hm2.
  destruct (gather WriteConfig rs2) as [all2 [|]] eqn:G2; [done|].
  assert (phase2_type (a_type a) ->
    settled_step d (a_host a) (log_of w2 (a_host a)) all2 (a_type a) (a_namespace a)) as H2.
  { intros Ht. eapply phase_settled; [apply phase2_appends|exact E2|exact G2|by rewrite order_perm|].
    intros hist hist' v. unfold phase2. destruct (peer_configs _ _ _ _ _) as [peers|]; [|done]. intros Hv.
    destruct (phase2_has_step d current p fresh mgmt subnets peers a Hne Hb Ha Ht) as [c Hc].
    exact (run_steps_settled d p _ _ _ _ _ _ Hv (phase2_planned _ _ _ _ _ _ _) Hc). }
  destruct (d_install_coold d) eqn:Hco.
  - assert (appends (phase3 user port d mgmt subnets p)) as Hap by (intros h hist; apply run_steps_appends).
    pose proof (for_each_appends _ (order (d_nodes d)) w2 (a_host a) Hap) as [m3 Hm3].
    destruct (for_each_server _ (phase3 _ _ _ _ _ _) w2) as [w3 [rs3|]] eqn:E3; [|done]. cbn [fst] in Hm3.
    destruct (gather InstallCoold rs3) as [all3 [|]] eqn:G3; [done|]. intros [= <- <-].
    split. { split; [set_solver|]. exists (m2 ++ m3). by rewrite Hm3, Hm2, app_assoc. }
    intros [Ht|Ht].
    { rewrite Hm3. eapply settled_later; [|by apply H2]. set_solver. }
    assert (a_host a ∈ d_nodes d) as Hn.
    { apply is_node_spec. by apply (phase3_node _ _ _ _ Ho), andb_true_iff in Ht as [? _]. }
    rewrite <- (app_nil_r (log_of w3 (a_host a))). eapply settled_later; [|
      eapply phase_settled; [exact Hap|exact E3|exact G3|by rewrite order_perm|]]; [set_solver|].
    intros hist hist' v Hv. destruct (phase3_peers _ _ _ _ _ _ _ _ Hv) as [peers Hp].
    destruct (phase3_has_step d current p mgmt subnets a peers Hb Ha Ht Hp) as [c Hc].
    exact (run_steps_settled d p _ _ _ _ _ _ Hv (phase3_planned _ _ _ _ _) Hc).
  - intros [= <- <-]. split; [split; [set_solver|eauto]|]. intros [Ht|Ht].
    + rewrite <- (app_nil_r (log_of w2 (a_host a))). eapply settled_later; [|by apply H2]. set_solver.
    + apply (phase3_node _ _ _ _ Ho) in Ht. by rewrite Hco, andb_false_r in Ht.
Qed.

Lemma apply_carries_out d current p w w' res a :
  "" ∉ d_namespaces d ->
  build_plan sha256_hex d current = Some (Ok p) ->
  apply_mesh sha256_hex b64_decode user port order d current w = (w', Some (Ok res)) ->
  a ∈ pl_actions p -> a_type a ∉ [AddPeer; RemovePeer; EnableService; ReloadService] ->
  (exists hist cmd o, run (a_host a) user port hist cmd = Ok o /\
     carries_out d (a_host a) (a_type a) (a_namespace a) cmd /\
     hist ++ [cmd] `prefix_of` log_of w' (a_host a)) /\
  exists r, r ∈ res /\ ar_action r = mkAction (a_host a) (a_namespace a) (a_type a) "" /\ ar_status r = "ok".
Proof.
  intros Hne Hb Hap Ha Ht. change (settled_step d (a_host a) (log_of w' (a_host a)) res (a_type a) (a_namespace a)).
  destruct (plan_origin _ _ _ _ Hb Ha) as [Hh Ho]. unfold apply_mesh in Hap. rewrite Hb in Hap.
  destruct (for_each_server _ (phase1 _ _ _ _ _) w) as [w1 [rs1|]] eqn:E1; [|done].
  destruct (gather InstallWg rs1) as [all1 [|]] eqn:G1; [done|]. unfold reconstruct in Hap.
  assert (appends (probe b64_decode user port (d_interface d) (d_namespaces d))) as Hpa by (intros h hist; eauto).
  pose proof (for_each_appends _ (order (d_hosts d)) w1 (a_host a) Hpa) as [mp Hmp].
  destruct (for_each_server _ (probe _ _ _ _ _) w1) as [w2 [rsp|]]; [|done]. cbn [fst fmap option_fmap option_map] in *.
  destruct (allocate_mgmt_ips _ _ _) as [[[mgmt ws]|e]|]; [|done|done].
  destruct (allocate_namespaced _ _ _ _ _) as [[[subnets ws']|e]|]; [|done|done].
  destruct (apply_rest_done _ _ _ _ _ _ _ _ _ _ _ Hne Hb Ha Hap) as [[Hsub [mr Hmr]] H23].
  destruct (type_phase _ _ _ _ Ho Ht) as [H1|H2]; [|by apply H23].
  rewrite Hmr, Hmp, <- app_assoc. eapply settled_later; [exact Hsub|].
  eapply phase_settled; [intros h hist; apply run_steps_appends|exact E1|exact G1|by rewrite order_perm|].
  intros hist hist' v Hv. destruct (phase1_has_step d current p a Hb Ha H1) as [c Hc].
  exact (run_steps_settled d p _ _ _ _ _ _ Hv (phase1_planned _ _ _ _) Hc).
Qed.

(** C5. Success means done: when applying returns success, every planned action
    (installations, keys, configuration files, networks, the firewall, Corrosion
    and coold) has been carried out: a command of its form was run on its host,
    at that point of the host's history, the host answered with success, and the
    action is reported as done.  Peers are not actions of their own, and the
    WireGuard service is started or reloaded by its state at the second probe. *)
Theorem apply_ok_carries_out_plan d current p w w' res a :
  "" ∉ d_namespaces d ->
  build_plan sha256_hex d current = Some (Ok p) ->
  apply_mesh sha256_hex b64_decode user port order d current w = (w', Some (Ok res)) ->
  a ∈ pl_actions p -> a_type a ∉ [AddPeer; RemovePeer; EnableService; ReloadService] ->
  (exists hist cmd o, run (a_host a) user port hist cmd = Ok o /\
     carries_out d (a_host a) (a_type a) (a_namespace a) cmd /\
     hist ++ [cmd] `prefix_of` log_of w' (a_host a)) /\
  exists r, r ∈ res /\ ar_action r = mkAction (a_host a) (a_namespace a) (a_type a) "" /\ ar_status r = "ok".
Proof. apply apply_carries_out. Qed.
End ApplyFacts.

(* ------------------------------------------------------------------ *)
(** ** Two hosts *)

Module Demo.
Import Plan.Demo.

(** Hosts that answer every command, and hosts of which [b] answers none. *)
Definition obliging : Runner := {| run := fun _ _ _ _ _ => Ok (mkOutput "" "" 0) |}.
Definition b_down : Runner := {|
  run := fun host _ _ _ _ => if decide (host = "b") then Err "unreachable" else Ok (mkOutput "" "" 0)
|}.
Definition no_b64 (s : string) : option string := None.
Definition in_order (l : list string) : list string := l.

Definition outcome := apply_mesh (rn := obliging) sha no_b64 "root" 22 in_order dm ∅ ∅.
Definition results : list ActionResult := match outcome.2 with Some (Ok res) => res | _ => [] end.

Definition wanted : PlannedAction := default (mkAction "" "" InstallWg "") (pl_actions plan !! 11%nat).

Lemma apply_ok_carries_out_plan_witness :
  exists r, r ∈ results /\ ar_action r = mkAction "b" "apps" CreatePodmanNetwork "" /\ ar_status r = "ok".
Proof.
  apply (apply_ok_carries_out_plan (rn := obliging) sha no_b64 "root" 22 in_order (fun l => reflexivity l)
           dm ∅ plan ∅ outcome.1 results wanted).
  - apply (bool_decide_eq_true_1 _). vm_refl.
  - vm_refl.
  - vm_refl.
  - apply (list_elem_of_lookup_2 _ 11). vm_refl.
  - apply (bool_decide_eq_true_1 _). vm_refl.
Defined.

Lemma phase1_failure_aborts_witness :
  (apply_mesh (rn := b_down) sha no_b64 "root" 22 in_order dm ∅ ∅).2 = Some (Err Phase1Failed).
Proof.
  pose proof (phase1_failure_aborts (rn := b_down) sha no_b64 "root" 22 in_order (fun l => reflexivity l)
                dm ∅ plan ∅ "b" "unreachable" ltac:(vm_refl) ltac:(right; left) ltac:(vm_refl)) as H.
  destruct (apply_mesh _ _ _ _ _ _ _ _) as [w' r]. exact (proj1 H).
Defined.

(** The same mesh before its second namespace. *)
Definition dm1 : DesiredMesh :=
  mkDesired ["a"; "b"] ["b"] "wg0" (net (of_octets 10 200 0 0) 24) (net (of_octets 10 210 0 0) 16) 24
    51820 ∅ ∅ true ["default"] true true "v1.0.0" "v2.0.0" 8787 8080 None None None None None
    Bootstrap [] false false.
Definition plan1 : Plan :=
  match build_plan sha dm1 ∅ with Some (Ok p) => p | _ => mkPlan [] ∅ ∅ [] [] end.
Definition mesh1 : MeshState := settled_mesh dm1 plan1.
Definition plan2 : Plan :=
  match build_plan sha dm mesh1 with Some (Ok p) => p | _ => mkPlan [] ∅ ∅ [] [] end.

Definition config_for (d : DesiredMesh) (p : Plan) (host : string) : option string :=
  peers ← peer_configs d mesh1 (pl_mgmt_assignments p) (pl_subnet_assignments p) host;
  ip ← pl_mgmt_assignments p !! host;
  Some (render_config ip (listen_port_for d host) peers).

(** A namespace added to a settled mesh is not routed: its networks are
    planned, and the WireGuard configuration a host should have (with the new
    subnet among its peers' allowed addresses) is no longer the one it has, but
    the plan rewrites no WireGuard configuration. *)
Theorem new_namespace_not_routed :
  build_plan sha dm mesh1 = Some (Ok plan2) /\
  existsb (fun a => bool_decide (a_type a = CreatePodmanNetwork /\ a_namespace a = "apps")) (pl_actions plan2)
    = true /\
  config_for dm1 plan1 "a" <> config_for dm plan2 "a" /\
  forallb (fun a => negb (bool_decide (a_type a ∈ [WriteConfig; ReloadService]))) (pl_actions plan2) = true.
Proof.
  split; [vm_refl|]. split; [vm_refl|]. split; [|vm_refl].
  apply (bool_decide_eq_false_1 _). vm_refl.
Qed.
End Demo.
