(* ===== verification/CooldConfig.v ===== *)
(** * The agent's configuration

    [coold/src/config.rs]: the lists the agent reads from its environment.  The
    namespace list is the one the command line renders into the agent's unit
    ([coolify-cli/src/services/coold.rs], [MeshText.namespaces_env_value]). *)

From S2P Require Import Prelude RustStr Net Mesh MeshText.
Local Open Scope Z_scope.

Record NamespaceConfig := mkNamespaceConfig {
  nc_name : string;
  nc_network : string;
  nc_gateway_ip : IpAddr;
}.

Inductive NamespacesError :=
  | NotATriple (chunk : string)
  | InvalidGateway (chunk : string)
  | EmptyNameOrNetwork (chunk : string)
  | ZeroEntries.

(** [s.splitn(3, c)]. *)
Definition splitn3 (c : ascii) (s : string) : list string :=
  match split_once c s with
  | None => [s]
  | Some (a, r) =>
      match split_once c r with
      | None => [a; r]
      | Some (b, r') => [a; b; r']
      end
  end.

(** One entry of the list. *)
Definition parse_chunk (chunk : string) : result NamespaceConfig NamespacesError :=
  match splitn3 ":" chunk with
  | [a; b; g] =>
      let name := trim a in
      let network := trim b in
      match parse_ipaddr (trim g) with
      | None => Err (InvalidGateway chunk)
      | Some gateway_ip =>
          if is_empty name || is_empty network then Err (EmptyNameOrNetwork chunk)
          else Ok (mkNamespaceConfig name network gateway_ip)
      end
  | _ => Err (NotATriple chunk)
  end.

(** The loop over the chunks; blank ones are skipped. *)
Fixpoint parse_chunks (chunks : list string) : result (list NamespaceConfig) NamespacesError :=
  match chunks with
  | [] => Ok []
  | c :: rest =>
      let chunk := trim c in
      if is_empty chunk then parse_chunks rest
      else (let? n := parse_chunk chunk in
            let? out := parse_chunks rest in
            Ok (n :: out))%rust
  end.

Definition default_namespace : NamespaceConfig :=
  mkNamespaceConfig "default" "coolify-default-mesh" (V4 0).

Definition parse_namespaces (raw : string) : result (list NamespaceConfig) NamespacesError :=
  let raw := trim raw in
  if is_empty raw then Ok [default_namespace]
  else (let? out := parse_chunks (split "," raw) in
        match out with
        | [] => Err ZeroEntries
        | _ => Ok out
        end)%rust.

(** [raw.split([',', ':'])]. *)
Fixpoint split_any (sep : ascii -> bool) (s : string) : list string :=
  match s with
  | "" => [""]
  | String a r =>
      if sep a then "" :: split_any sep r
      else match split_any sep r with
           | p :: ps => String a p :: ps
           | [] => [String a ""]
           end
  end.

Definition list_sep (c : ascii) : bool := bool_decide (c = ","%char) || bool_decide (c = ":"%char).

Definition parse_mount_sources (raw : string) : list string :=
  filter (fun entry => negb (is_empty entry)) (trim <$> split_any list_sep raw).

(** [Config::namespace]. *)
Definition namespace (namespaces : list NamespaceConfig) (name : string) : option NamespaceConfig :=
  List.find (fun ns => bool_decide (nc_name ns = name)) namespaces.

(* ------------------------------------------------------------------ *)
(** ** Properties *)

(** A namespace the command line can render. *)
Definition wf_namespace (n : CooldNamespace) : Prop :=
  is_label (cn_name n) = true /\ cn_network n = podman_network_for (cn_name n) /\
  is_u32 (cn_bridge_gateway n).

Lemma name_char_visible c : name_char c = true -> visible c = true.
Proof.
  unfold name_char, alnum, lower_alnum, in_range, visible. rewrite !orb_true_iff, !andb_true_iff, !N.leb_le.
  cbn. intros [[[?|?]|?]|Hc%bool_decide_eq_true]; [lia..|]. set_unfold in Hc.
  destruct Hc as [->|[->|[->|[]]]]; cbn; lia.
Qed.

(** The three parts of an entry: visible and without separators. *)
Lemma entry_parts n :
  wf_namespace n ->
  Forall (fun s => all_chars visible s = true /\ contains_char "," s = false /\
                   contains_char ":" s = false /\ s <> "")
    [cn_name n; cn_network n; show_ipv4 (cn_bridge_gateway n)].
Proof.
  intros (Hl & Hn & _). pose proof (label_chars _ Hl) as Hc.
  assert (all_chars name_char (cn_network n) = true) as Hc'.
  { rewrite Hn. unfold podman_network_for. rewrite !all_chars_app, Hc. reflexivity. }
  assert (forall s, all_chars name_char s = true -> s <> "" ->
            all_chars visible s = true /\ contains_char "," s = false /\ contains_char ":" s = false /\ s <> "")
    as Hname.
  { intros s Hs Hs0. split_and!; [by eapply all_chars_impl, Hs; apply name_char_visible| | |done];
      by eapply all_chars_no_char, Hs. }
  rewrite !Forall_cons. split; [|split; [|split; [split_and!|constructor]]].
  - apply Hname; [done|]. by destruct (cn_name n).
  - apply Hname; [done|]. by rewrite Hn.
  - eapply all_chars_impl, show_ipv4_chars. apply ip_char_visible.
  - by eapply all_chars_no_char, show_ipv4_chars.
  - by eapply all_chars_no_char, show_ipv4_chars.
  - unfold show_ipv4. auto with coold.
Qed.

Lemma entry_chars n :
  wf_namespace n ->
  all_chars visible (namespace_entry n) = true /\ contains_char "," (namespace_entry n) = false /\
  namespace_entry n <> "".
Proof.
  intros Hw. pose proof (entry_parts n Hw) as Hp. rewrite !Forall_cons in Hp.
  destruct Hp as ((V1 & C1 & _ & N1) & (V2 & C2 & _ & _) & (V3 & C3 & _ & _) & _).
  unfold namespace_entry. rewrite !all_chars_app, !contains_char_app, V1, V2, V3, C1, C2, C3.
  split_and!; [done|done|by apply app_nonempty_l].
Qed.

Lemma parse_entry n :
  wf_namespace n ->
  parse_chunk (namespace_entry n) =
  Ok (mkNamespaceConfig (cn_name n) (cn_network n) (V4 (cn_bridge_gateway n))).
Proof.
  intros Hw. pose proof (entry_parts n Hw) as Hp. rewrite !Forall_cons in Hp.
  destruct Hp as ((V1 & _ & C1 & N1) & (V2 & _ & C2 & N2) & (V3 & _ & C3 & _) & _).
  unfold parse_chunk, splitn3, namespace_entry.
  change (":" +:+ cn_network n +:+ ":" +:+ show_ipv4 (cn_bridge_gateway n))
    with (String ":" (cn_network n +:+ String ":" (show_ipv4 (cn_bridge_gateway n)))).
  rewrite split_once_app by done. rewrite split_once_app by done.
  rewrite !trim_neat by auto with coold. rewrite parse_ipaddr_show by apply Hw.
  destruct (cn_name n), (cn_network n); done.
Qed.

(** Cutting a list joined by commas. *)
Lemma split_join_comma (l : list string) :
  l <> [] -> Forall (fun s => contains_char "," s = false) l -> split "," (join "," l) = l.
Proof.
  intros Hne Hl. induction l as [|s l IH]; [done|]. apply Forall_cons in Hl as [Hs Hl].
  destruct l as [|s' l]; [by apply split_single|].
  change (join "," (s :: s' :: l)) with (s +:+ String "," (join "," (s' :: l))).
  rewrite split_app by done. f_equal. by apply IH.
Qed.

Lemma join_visible (l : list string) :
  l <> [] -> Forall (fun s => all_chars visible s = true /\ s <> "") l ->
  all_chars visible (join "," l) = true /\ join "," l <> "".
Proof.
  intros Hne Hl. induction l as [|s l IH]; [done|]. apply Forall_cons in Hl as [[Hs Hs0] Hl].
  destruct l as [|s' l]; [done|].
  change (join "," (s :: s' :: l)) with (s +:+ "," +:+ join "," (s' :: l)).
  destruct (IH ltac:(done) Hl) as [Hv _]. rewrite !all_chars_app, Hs, Hv.
  split; [done|by apply app_nonempty_l].
Qed.

Definition agent_namespace (n : CooldNamespace) : NamespaceConfig :=
  mkNamespaceConfig (cn_name n) (cn_network n) (V4 (cn_bridge_gateway n)).

(** The agent reads what the command line wrote: the namespace list rendered
    into the agent's unit is parsed back as the same namespaces, in order, each
    with its network and its gateway. *)
Theorem namespaces_roundtrip nss :
  nss <> [] -> Forall wf_namespace nss ->
  parse_namespaces (namespaces_env_value nss) = Ok (agent_namespace <$> nss).
Proof.
  intros Hne Hw. unfold parse_namespaces, namespaces_env_value.
  assert (namespace_entry <$> nss <> []) as Hne' by (by destruct nss).
  destruct (join_visible (namespace_entry <$> nss) Hne') as [Hv Hj].
  { apply Forall_fmap. eapply Forall_impl; [exact Hw|]. intros n (? & _ & ?)%entry_chars. done. }
  rewrite trim_neat by auto with coold.
  rewrite split_join_comma; [|done|].
  2: { apply Forall_fmap. eapply Forall_impl; [exact Hw|]. by intros n (_ & ? & _)%entry_chars. }
  assert (parse_chunks (namespace_entry <$> nss) = Ok (agent_namespace <$> nss)) as ->.
  { clear -Hw. induction Hw as [|n nss Hn Hw IH]; [done|]. rewrite fmap_cons. cbn [parse_chunks].
    destruct (entry_chars n Hn) as (Hv & _ & H0). rewrite trim_neat by auto with coold.
    destruct (namespace_entry n) eqn:E; [done|]. cbn [is_empty]. rewrite <- E, parse_entry by done.
    cbn [rbind]. by rewrite IH. }
  destruct (join "," (namespace_entry <$> nss)); [done|]. cbn [is_empty rbind]. by destruct nss.
Qed.

Lemma namespaces_roundtrip_witness :
  let nss := [mkCooldNamespace "default" "coolify-default-mesh" (of_octets 10 210 0 1);
              mkCooldNamespace "alpha" "coolify-alpha-mesh" (of_octets 10 220 0 1)] in
  parse_namespaces (namespaces_env_value nss) = Ok (agent_namespace <$> nss).
Proof.
  apply namespaces_roundtrip; [discriminate|].
  repeat constructor; try reflexivity; vm_compute; discriminate.
Defined.
