(* ===== verification/CooldSync.v ===== *)
(** * Synchronisation of the agent

    [coold/src/model.rs], [coold/src/sync.rs] and the client of
    [coold/src/corrosion/client.rs]: one reconciliation takes the containers of
    the host to the replicated table of endpoints and to the status updates sent
    through flux.

    A [HashMap] is a [gmap].  Where the code walks one the order is open: that of
    the networks of a container is a part of [Podman]; that of the deltas is
    [map_to_list], and what is shown of them holds for every other order
    ([changes_applied]).  Podman, the Corrosion
    HTTP interface, the JSON parser and the lower-casing of [str] are
    parameters. *)

From S2P Require Import Prelude RustStr Net Messages CooldConfig.
Local Open Scope Z_scope.

(* ------------------------------------------------------------------ *)
(** ** The model ([model.rs]) *)

Record ContainerStatus := mkStatus {
  cs_container_id : string;
  cs_container_name : string;
  cs_image : string;
  cs_state : string;
}.
#[export] Instance ContainerStatus_eq_dec : EqDecision ContainerStatus.
Proof. solve_decision. Defined.

Inductive ContainerStatusDelta :=
  | StatusUpsert (s : ContainerStatus)
  | StatusDelete (container_id : string).

Record Endpoint := mkEndpoint {
  ep_container_id : string;
  ep_container_name : string;
  ep_namespace : string;
  ep_host_mgmt_ip : string;
  ep_container_ip : string;
  ep_state : string;
  ep_health : string;
}.
#[export] Instance Endpoint_eq_dec : EqDecision Endpoint.
Proof. solve_decision. Defined.

Inductive Delta :=
  | Upsert (e : Endpoint)
  | Delete (container_id : string).

(** The loop both diffs share: what is new or changed, then what is gone. *)
Definition changes {A} `{EqDecision A} {D} (upsert : A -> D) (del : string -> D)
    (desired current : gmap string A) : list D :=
  omap (fun '(id, a) => if decide (current !! id = Some a) then None else Some (upsert a))
    (map_to_list desired) ++
  omap (fun '(id, _) => match desired !! id with Some _ => None | None => Some (del id) end)
    (map_to_list current).

Definition diff (desired current : gmap string Endpoint) : list Delta :=
  changes Upsert Delete desired current.

Definition diff_container_statuses (desired current : gmap string ContainerStatus)
    : list ContainerStatusDelta :=
  changes StatusUpsert StatusDelete desired current.

(* ------------------------------------------------------------------ *)
(** ** What Podman reports ([podman/types.rs]) *)

Record Container := mkContainer {
  c_id : string;
  c_names : list string;
  c_image : string;
  c_state : string;
}.

Record ContainerHealth := mkHealth { h_status : string }.
Record ContainerState := mkState { st_status : string; st_health : option ContainerHealth }.

Record ContainerInspect := mkInspect {
  ci_id : string;
  ci_name : string;
  ci_networks : option (gmap string string);
  ci_state : option ContainerState;
}.

(** The two calls of the Podman client a reconciliation makes, and the order,
    which [HashMap] leaves open, in which the networks of an answer are walked. *)
Record Podman := mkPodman {
  containers_list : result (list Container) string;
  inspect_container : string -> result ContainerInspect string;
  walk : gmap string string -> list (string * string);
  walk_perm m : walk m ≡ₚ map_to_list m;
}.

Fixpoint trim_start_matches (c : ascii) (s : string) : string :=
  match s with
  | String a r => if decide (a = c) then trim_start_matches c r else s
  | "" => ""
  end.

Definition non_empty (s : string) : option string := if is_empty s then None else Some s.

Section Sync.
Context (to_lowercase : string -> string).

(** *** The status of every container *)

(** The status of a listed container, with the answer to its inspection. *)
Definition status_from (c : Container) (answer : result ContainerInspect string) : ContainerStatus :=
  let inspect := match answer with Ok i => Some i | Err _ => None end in
  let name :=
    match inspect ≫= (fun i => non_empty (trim_start_matches "/" (ci_name i))) with
    | Some n => n
    | None =>
        match head (c_names c) ≫= (fun n => non_empty (trim_start_matches "/" n)) with
        | Some n => n
        | None => c_id c
        end
    end in
  let state :=
    match (inspect ≫= ci_state) ≫= (fun s => non_empty (to_lowercase (st_status s))) with
    | Some s => s
    | None => to_lowercase (c_state c)
    end in
  mkStatus (c_id c) name (c_image c) (if is_empty state then "unknown" else state).

Definition status_of (podman : Podman) (c : Container) : ContainerStatus :=
  status_from c (inspect_container podman (c_id c)).

Definition desired_container_statuses (podman : Podman) : result (gmap string ContainerStatus) string :=
  match containers_list podman with
  | Err e => Err e
  | Ok cs => Ok (foldl (fun out c => <[c_id c := status_of podman c]> out) ∅ cs)
  end.

(** *** The endpoints on the managed networks *)

(** The namespace of a network: the last entry of the configuration wins. *)
Definition network_to_ns (namespaces : list NamespaceConfig) : gmap string string :=
  foldl (fun m n => <[nc_network n := nc_name n]> m) ∅ namespaces.

Definition endpoint_name (c : Container) (i : ContainerInspect) : string :=
  if negb (is_empty (ci_name i)) then trim_start_matches "/" (ci_name i)
  else match head (c_names c) with
       | Some n => trim_start_matches "/" n
       | None => c_id c
       end.

Definition endpoint_health (i : ContainerInspect) : string :=
  match (ci_state i ≫= st_health) ≫= (fun h => non_empty (to_lowercase (h_status h))) with
  | Some s => s
  | None => "unknown"
  end.

(** One network of one container; a container that is there already is kept. *)
Definition add_network (nets : gmap string string) (host_mgmt_ip : string) (c : Container)
    (i : ContainerInspect) (out : gmap string Endpoint) (net : string * string) : gmap string Endpoint :=
  match nets !! net.1 with
  | None => out
  | Some ns =>
      match out !! c_id c with
      | Some _ => out
      | None =>
          <[c_id c := mkEndpoint (c_id c) (endpoint_name c i) ns host_mgmt_ip net.2
                        (match ci_state i with Some s => to_lowercase (st_status s) | None => "" end)
                        (endpoint_health i)]> out
      end
  end.

(** One container, with the answer to its inspection and the order in which its
    networks are walked. *)
Definition add_inspected (walk : gmap string string -> list (string * string)) (nets : gmap string string) (host_mgmt_ip : string) (out : gmap string Endpoint)
    (c : Container) (answer : result ContainerInspect string) : gmap string Endpoint :=
  match answer with
  | Err _ => out
  | Ok i =>
      match ci_networks i with
      | None => out
      | Some networks => foldl (add_network nets host_mgmt_ip c i) out (walk networks)
      end
  end.

Definition add_container (podman : Podman) (nets : gmap string string) (host_mgmt_ip : string)
    (out : gmap string Endpoint) (c : Container) : gmap string Endpoint :=
  add_inspected (walk podman) nets host_mgmt_ip out c (inspect_container podman (c_id c)).

Definition desired_endpoints (podman : Podman) (namespaces : list NamespaceConfig) (host_mgmt_ip : string)
    : result (gmap string Endpoint) string :=
  match containers_list podman with
  | Err e => Err e
  | Ok cs => Ok (foldl (add_container podman (network_to_ns namespaces) host_mgmt_ip) ∅ cs)
  end.

(* ------------------------------------------------------------------ *)
(** ** Status updates *)

Definition update_of (host_mgmt_ip : string) (d : ContainerStatusDelta) : ResourceStatusUpdate :=
  match d with
  | StatusUpsert s =>
      mkResourceStatusUpdate "container" host_mgmt_ip (cs_container_id s) (cs_container_name s) (cs_state s)
        "Container state received from coold."
  | StatusDelete id =>
      mkResourceStatusUpdate "container" host_mgmt_ip id "" "removed" "Container removed from coold host."
  end.

Definition container_resource_status_updates_from_deltas (host_mgmt_ip : string)
    (deltas : list ContainerStatusDelta) : list ResourceStatusUpdate := update_of host_mgmt_ip <$> deltas.

(** [emit i u]: whether the [i]-th update of this round was accepted.  The
    result is the new snapshot, the deltas, and the updates that were accepted. *)
Definition reconcile_container_status_snapshot (snapshot all_containers : gmap string ContainerStatus)
    (force_resync : bool) (host_mgmt_ip : string) (emit : nat -> ResourceStatusUpdate -> bool)
    : gmap string ContainerStatus * list ContainerStatusDelta * list ResourceStatusUpdate :=
  let snapshot := if force_resync then ∅ else snapshot in
  let deltas := diff_container_statuses all_containers snapshot in
  match deltas with
  | [] => (snapshot, [], [])
  | _ =>
      let updates := container_resource_status_updates_from_deltas host_mgmt_ip deltas in
      let answers := imap (fun i u => (u, emit i u)) updates in
      let all_emitted := forallb snd answers in
      (if all_emitted then all_containers else snapshot, deltas,
       fst <$> filter (fun ua => ua.2 = true) answers)
  end.

(* ------------------------------------------------------------------ *)
(** ** The replicated table *)

Record Statement := mkStatement { sql : string; params : list json }.

Definition to_json (s : Statement) : json := JArr [JStr (sql s); JArr (params s)].

Definition UPSERT_SQL : string :=
  "INSERT INTO service_endpoints (container_id, container_name, namespace, host_mgmt_ip, container_ip, state, health, updated_at) VALUES (?, ?, ?, ?, ?, ?, ?, ?) ON CONFLICT(container_id) DO UPDATE SET container_name = excluded.container_name, namespace      = excluded.namespace, host_mgmt_ip   = excluded.host_mgmt_ip, container_ip   = excluded.container_ip, state          = excluded.state, health         = excluded.health, updated_at     = excluded.updated_at".
Definition DELETE_SQL : string := "DELETE FROM service_endpoints WHERE container_id = ?".
Definition SNAPSHOT_SQL : string :=
  "SELECT container_id, container_name, namespace, host_mgmt_ip, container_ip, state, health FROM service_endpoints WHERE host_mgmt_ip = ?".

Definition build_statements (now_ms : Z) (deltas : list Delta) : list Statement :=
  (fun d => match d with
            | Upsert ep =>
                mkStatement UPSERT_SQL
                  [JStr (ep_container_id ep); JStr (ep_container_name ep); JStr (ep_namespace ep);
                   JStr (ep_host_mgmt_ip ep); JStr (ep_container_ip ep); JStr (ep_state ep);
                   JStr (ep_health ep); JNum now_ms]
            | Delete id => mkStatement DELETE_SQL [JStr id]
            end) <$> deltas.

(** Corrosion's answer to a POST, and the database it leaves. *)
Context (parse_json : string -> option json) {Db : Type}
  (post : string -> json -> Db -> option (Z * string) * Db).

Definition is_success (status : Z) : bool := (200 <=? status) && (status <=? 299).

Definition transaction (base_url : string) (statements : list Statement) (db : Db) : bool * Db :=
  match statements with
  | [] => (true, db)
  | _ =>
      match post (base_url +:+ "/v1/transactions") (JArr (to_json <$> statements)) db with
      | (Some (status, _), db') => (is_success status, db')
      | (None, db') => (false, db')
      end
  end.

(** [Frame]: the [row] of a frame, an outer [None] being a line that is not one. *)
Definition frame_row (j : json) : option (option (list json)) :=
  match j with
  | JObj fields =>
      match (filter (fun f => f.1 = "row") fields).*2 with
      | [] | [JNull] => Some None
      | [JArr l] => Some (Some l)
      | _ => None
      end
  | JArr [] | JArr [JNull] => Some None
  | JArr [JArr l] => Some (Some l)
  | _ => None
  end.

(** The values of the lines that are row frames. *)
Definition row_values (line : string) : option (list json) :=
  if is_empty line then None
  else match parse_json line ≫= frame_row with
       | Some (Some [_; JArr values]) => Some values
       | _ => None
       end.

Definition string_at (values : list json) (idx : nat) : option string :=
  match values !! idx with Some (JStr s) => Some s | _ => None end.

Definition endpoint_at (v : list json) : option Endpoint :=
  id ← string_at v 0; name ← string_at v 1; ns ← string_at v 2; host ← string_at v 3;
  ip ← string_at v 4; state ← string_at v 5; health ← string_at v 6;
  Some (mkEndpoint id name ns host ip state health).

Fixpoint parse_row_values (rows : list (list json)) (out : gmap string Endpoint)
    : result (gmap string Endpoint) string :=
  match rows with
  | [] => Ok out
  | v :: rest =>
      if (length v <? 7)%nat then parse_row_values rest out
      else match endpoint_at v with
           | Some ep => parse_row_values rest (<[ep_container_id ep := ep]> out)
           | None => Err "column missing or not a string"
           end
  end.

Definition parse_rows (bytes : string) : result (gmap string Endpoint) string :=
  parse_row_values (omap row_values (split nl bytes)) ∅.

Definition snapshot_for_host (base_url host_mgmt_ip : string) (db : Db)
    : result (gmap string Endpoint) string * Db :=
  match post (base_url +:+ "/v1/queries") (JArr [JStr SNAPSHOT_SQL; JArr [JStr host_mgmt_ip]]) db with
  | (Some (status, bytes), db') =>
      (if is_success status then parse_rows bytes else Err "corrosion query failed", db')
  | (None, db') => (Err "POST failed", db')
  end.

(* ------------------------------------------------------------------ *)
(** ** One reconciliation *)

Record SyncConfig := mkSyncConfig {
  y_host_mgmt_ip : string;
  y_namespaces : list NamespaceConfig;
  y_base_url : string;
}.

Record SyncState := mkSyncState {
  y_snapshot : gmap string ContainerStatus;
  y_resync : bool;
}.

Inductive SyncError := StatusesFailed | EndpointsFailed | SnapshotFailed | TransactionFailed.

(** The result, the new state, the updates accepted, and the database. *)
Definition reconcile_once (cfg : SyncConfig) (podman podman' : Podman)
    (emit : nat -> ResourceStatusUpdate -> bool) (now_ms : Z) (s : SyncState) (db : Db)
    : result nat SyncError * SyncState * list ResourceStatusUpdate * Db :=
  match desired_container_statuses podman with
  | Err _ => (Err StatusesFailed, s, [], db)
  | Ok all_containers =>
      let '(snapshot, status_deltas, sent) :=
        reconcile_container_status_snapshot (y_snapshot s) all_containers (y_resync s)
          (y_host_mgmt_ip cfg) emit in
      let s' := mkSyncState snapshot false in
      match desired_endpoints podman' (y_namespaces cfg) (y_host_mgmt_ip cfg) with
      | Err _ => (Err EndpointsFailed, s', sent, db)
      | Ok desired =>
          match snapshot_for_host (y_base_url cfg) (y_host_mgmt_ip cfg) db with
          | (Err _, db1) => (Err SnapshotFailed, s', sent, db1)
          | (Ok current, db1) =>
              let deltas := diff desired current in
              match transaction (y_base_url cfg) (build_statements now_ms deltas) db1 with
              | (true, db2) => (Ok (length deltas + length status_deltas)%nat, s', sent, db2)
              | (false, db2) => (Err TransactionFailed, s', sent, db2)
              end
          end
      end
  end.
End Sync.

(* ------------------------------------------------------------------ *)
(** ** Properties *)

(** *** Deltas as writes *)

(** What a delta does to one key: a new value, or removal. *)
Definition write {V} (t : gmap string V) (kv : string * option V) : gmap string V :=
  match kv.2 with Some v => <[kv.1 := v]> t | None => delete kv.1 t end.

Lemma write_lookup {V} (t : gmap string V) k o k' :
  write t (k, o) !! k' = if decide (k = k') then o else t !! k'.
Proof. destruct o; cbn; [rewrite lookup_insert|rewrite lookup_delete]; by case_decide. Qed.

(** Writes that agree on each key can come in any order. *)
Lemma writes_hit {V} (l : list (string * option V)) k o : forall t,
  (forall o', (k, o') ∈ l -> o' = o) -> (k, o) ∈ l \/ t !! k = o -> foldl write t l !! k = o.
Proof.
  induction l as [|[k1 o1] l IH]; intros t Hf Hin; cbn [foldl]; [set_solver|].
  apply IH; [intros o' Ho; apply Hf; by right|]. rewrite write_lookup.
  destruct (decide (k1 = k)) as [->|Hne]; [right; apply Hf; left|].
  destruct Hin as [[[= -> ->]|Hin]%elem_of_cons|Ht]; [done|by left|by right].
Qed.

Lemma writes_miss {V} (l : list (string * option V)) k : forall t,
  (forall o, (k, o) ∉ l) -> foldl write t l !! k = t !! k.
Proof.
  induction l as [|[k1 o1] l IH]; intros t Hn; cbn [foldl]; [done|].
  rewrite IH by (intros o Ho; apply (Hn o); by right). rewrite write_lookup.
  case_decide; [subst; destruct (Hn o1); left|done].
Qed.

Section Changes.
Context {A V D : Type} `{EqDecision A} (upsert : A -> D) (del : string -> D)
  (w : D -> string * option V) (key : A -> string) (val : A -> V).
Hypothesis w_upsert : forall a, w (upsert a) = (key a, Some (val a)).
Hypothesis w_del : forall id, w (del id) = (id, None).

Lemma changes_spec (desired current : gmap string A) id o :
  (forall id a, desired !! id = Some a -> key a = id) ->
  (id, o) ∈ w <$> changes upsert del desired current <->
  match desired !! id with
  | Some a => o = Some (val a) /\ current !! id <> Some a
  | None => o = None /\ is_Some (current !! id)
  end.
Proof.
  intros Hk. unfold changes. rewrite fmap_app, elem_of_app, !list_elem_of_fmap. split.
  - intros [(d & Hd & Hin)|(d & Hd & Hin)]; apply list_elem_of_omap in Hin as ([id' a] & Hm & Hc);
      apply elem_of_map_to_list in Hm.
    + case_decide; [done|]. injection Hc as <-. rewrite w_upsert in Hd. injection Hd as -> ->.
      rewrite (Hk _ _ Hm), Hm. done.
    + destruct (desired !! id') eqn:E; [done|]. injection Hc as <-. rewrite w_del in Hd. injection Hd as -> ->.
      rewrite E. split; [done|by eexists].
  - destruct (desired !! id) as [a|] eqn:E.
    + intros [-> Hne]. left. exists (upsert a). rewrite w_upsert, (Hk _ _ E). split; [done|].
      apply list_elem_of_omap. exists (id, a). rewrite decide_False by done. split; [|done].
      by apply elem_of_map_to_list.
    + intros [-> [a Ha]]. right. exists (del id). rewrite w_del. split; [done|].
      apply list_elem_of_omap. exists (id, a). rewrite E. split; [|done]. by apply elem_of_map_to_list.
Qed.

(** Applying the changes, in any order, to a table. *)
Lemma changes_applied (desired current : gmap string A) (l : list D) (t : gmap string V) id :
  (forall id a, desired !! id = Some a -> key a = id) -> l ≡ₚ changes upsert del desired current ->
  foldl write t (w <$> l) !! id =
  match desired !! id with
  | Some a => if decide (current !! id = Some a) then t !! id else Some (val a)
  | None => match current !! id with Some _ => None | None => t !! id end
  end.
Proof.
  intros Hk Hl. assert (forall o, (id, o) ∈ w <$> l <-> match desired !! id with
    | Some a => o = Some (val a) /\ current !! id <> Some a
    | None => o = None /\ is_Some (current !! id) end) as Hs.
  { intros o. rewrite Hl. by apply changes_spec. }
  destruct (desired !! id) as [a|].
  - case_decide as Hc; [apply writes_miss|apply writes_hit]; [intros o [_ Ho]%Hs; done|by intros o' [-> _]%Hs|].
    left. by apply Hs.
  - destruct (current !! id) as [c|] eqn:Ec; [apply writes_hit|apply writes_miss].
    + by intros o' [-> _]%Hs.
    + left. apply Hs. by split; [|eexists].
    + intros o [_ [? ?]]%Hs. done.
Qed.
End Changes.

(** *** The containers, by id *)

Lemma foldl_insert_keys {A B} (key : A -> string) (f : A -> B) (P : string -> B -> Prop) l : forall m : gmap string B,
  (forall a, P (key a) (f a)) -> (forall k b, m !! k = Some b -> P k b) ->
  forall k b, foldl (fun out a => <[key a := f a]> out) m l !! k = Some b -> P k b.
Proof.
  induction l as [|a l IH]; intros m Hf Hm k b; cbn [foldl]; [apply Hm|]. apply IH; [done|].
  intros k' b' [[<- <-]|[_ Hb]]%lookup_insert_Some; [done|by apply Hm].
Qed.

Section SyncFacts.
Context (to_lowercase : string -> string).

Lemma statuses_keyed podman all id s :
  desired_container_statuses to_lowercase podman = Ok all -> all !! id = Some s -> cs_container_id s = id.
Proof.
  unfold desired_container_statuses. destruct (containers_list podman); [|done]. intros [= <-].
  revert id s. apply (foldl_insert_keys c_id (status_of to_lowercase podman) (fun id s => cs_container_id s = id)).
  - done.
  - intros k b. by rewrite lookup_empty.
Qed.

(** An endpoint of this host. *)
Definition own_endpoint (host_mgmt_ip : string) (id : string) (e : Endpoint) : Prop :=
  ep_container_id e = id /\ ep_host_mgmt_ip e = host_mgmt_ip.

Lemma add_network_own nets host c i out n :
  (forall k b, out !! k = Some b -> own_endpoint host k b) ->
  forall k b, add_network to_lowercase nets host c i out n !! k = Some b -> own_endpoint host k b.
Proof.
  intros Hout k b. unfold add_network. destruct (nets !! n.1); [|apply Hout].
  destruct (out !! c_id c); [apply Hout|].
  intros [[<- <-]|[_ Hb]]%lookup_insert_Some; [done|by apply Hout].
Qed.

Lemma add_inspected_own walk nets host c answer out :
  (forall k b, out !! k = Some b -> own_endpoint host k b) ->
  forall k b, add_inspected to_lowercase walk nets host out c answer !! k = Some b -> own_endpoint host k b.
Proof.
  unfold add_inspected. destruct answer as [i|]; [|done]. destruct (ci_networks i) as [m|]; [|done].
  generalize (walk m) as l. intros l. revert out.
  induction l as [|n l IH]; intros out Hout; cbn [foldl]; [done|]. apply IH. by apply add_network_own.
Qed.

Lemma endpoints_own podman namespaces host desired id e :
  desired_endpoints to_lowercase podman namespaces host = Ok desired -> desired !! id = Some e ->
  own_endpoint host id e.
Proof.
  unfold desired_endpoints. destruct (containers_list podman) as [cs|]; [|done]. intros [= <-].
  assert (forall out, (forall k b, out !! k = Some b -> own_endpoint host k b) ->
    forall k b, foldl (add_container to_lowercase podman (network_to_ns namespaces) host) out cs !! k = Some b ->
    own_endpoint host k b) as H.
  { induction cs as [|c cs IH]; intros out Hout; cbn [foldl]; [done|]. apply IH. by apply add_inspected_own. }
  apply H. intros k b. by rewrite lookup_empty.
Qed.
End SyncFacts.

(* ------------------------------------------------------------------ *)
(** ** The endpoints a host has *)

(** [n] is [s] without the slashes it starts with. *)
Definition unslashed (s n : string) : Prop :=
  exists k, s = Nat.iter k (String "/") n /\ forall r, n <> String "/" r.

(** The configuration gives the network [net] to the namespace [ns]: it is that
    of the last entry for [net]. *)
Definition managed (namespaces : list NamespaceConfig) (net ns : string) : Prop :=
  exists before n after, namespaces = before ++ n :: after /\ nc_network n = net /\ nc_name n = ns /\
    Forall (fun m => nc_network m <> net) after.
Definition unmanaged (namespaces : list NamespaceConfig) (net : string) : Prop :=
  Forall (fun m => nc_network m <> net) namespaces.

(** The name of a container: that of its inspection, else the first of the
    listing, else its id. *)
Definition named (c : Container) (i : ContainerInspect) (name : string) : Prop :=
  match ci_name i, c_names c with
  | String _ _, _ => unslashed (ci_name i) name
  | "", n :: _ => unslashed n name
  | "", [] => name = c_id c
  end.

Section Reported.
Context (to_lowercase : string -> string) (namespaces : list NamespaceConfig) (host : string).

(** Podman lists the container [id], answers its inspection, and has it on a
    managed network: [e] is the endpoint there, on the first such network in the
    order they are walked. *)
Definition reported (podman : Podman) (id : string) (e : Endpoint) : Prop :=
  exists before c after i networks nets1 net ip nets2 ns name,
    containers_list podman = Ok (before ++ c :: after) /\ c_id c = id /\ Forall (fun c' => c_id c' <> id) before /\
    inspect_container podman id = Ok i /\
    ci_networks i = Some networks /\ walk podman networks = nets1 ++ (net, ip) :: nets2 /\
    Forall (fun n => unmanaged namespaces n.1) nets1 /\ managed namespaces net ns /\
    named c i name /\
    e = mkEndpoint id name ns host ip
          (match ci_state i with Some st => to_lowercase (st_status st) | None => "" end)
          (match ci_state i with
           | Some (mkState _ (Some h)) =>
               if decide (to_lowercase (h_status h) = "") then "unknown" else to_lowercase (h_status h)
           | _ => "unknown"
           end).

(** *** The code computes them *)

Lemma trim_unslashed s n : trim_start_matches "/" s = n <-> unslashed s n.
Proof.
  split.
  - intros <-. induction s as [|a s (k & Hk & Hn)]; cbn [trim_start_matches].
    + exists 0%nat. split; [done|]. by intros r.
    + case_decide as Ha; [|exists 0%nat; split; [done|]; congruence].
      subst a. exists (S k). split; [exact (f_equal (String "/") Hk)|done].
  - intros (k & -> & Hn). induction k as [|k IH]; cbn [Nat.iter].
    + destruct n as [|a n]; [done|]. cbn. case_decide as Ha; [|done]. subst a. by destruct (Hn n).
    + change (trim_start_matches "/" (Nat.iter k (String "/") n) = n). exact IH.
Qed.

Lemma network_to_ns_snoc l n :
  network_to_ns (l ++ [n]) = <[nc_network n := nc_name n]> (network_to_ns l).
Proof. unfold network_to_ns. by rewrite foldl_app. Qed.

Lemma network_to_ns_None net : network_to_ns namespaces !! net = None <-> unmanaged namespaces net.
Proof.
  unfold unmanaged. induction namespaces as [|n l IH] using rev_ind; [by split|].
  rewrite network_to_ns_snoc, lookup_insert_None, IH, Forall_app, Forall_singleton. naive_solver.
Qed.

Lemma network_to_ns_Some net ns : network_to_ns namespaces !! net = Some ns <-> managed namespaces net ns.
Proof.
  unfold managed. induction namespaces as [|n l IH] using rev_ind.
  { split; [done|]. by intros (before & n & after & E%app_cons_not_nil & _). }
  rewrite network_to_ns_snoc, lookup_insert_Some, IH. split.
  - intros [[<- <-]|[Hne (before & m & after & -> & Hn & Hm & Ha)]].
    + exists l, n, []. by split_and!.
    + exists before, m, (after ++ [n]). rewrite Forall_app, Forall_singleton. split_and!; try congruence; try done.
      by rewrite app_comm_cons, app_assoc.
  - intros (before & m & after & E & Hn & Hm & Ha). destruct after as [|m' after _] using rev_ind.
    + apply app_inj_tail in E as [-> ->]. by left.
    + rewrite app_comm_cons, app_assoc in E. apply app_inj_tail in E as [-> ->].
      apply Forall_app in Ha as [Ha Hm']. rewrite Forall_singleton in Hm'. right. split; [done|]. by exists before, m, after.
Qed.

Notation nets := (network_to_ns namespaces).

(** The managed networks of a list, with their namespaces. *)
Definition managed_networks (l : list (string * string)) : list (string * string) :=
  omap (fun n => (fun ns => (ns, n.2)) <$> nets !! n.1) l.

Definition endpoint_in (c : Container) (i : ContainerInspect) (at_ : string * string) : Endpoint :=
  mkEndpoint (c_id c) (endpoint_name c i) at_.1 host at_.2
    (match ci_state i with Some s => to_lowercase (st_status s) | None => "" end) (endpoint_health to_lowercase i).

(** What one container gives. *)
Definition endpoint_of (walk : gmap string string -> list (string * string)) (c : Container) (answer : result ContainerInspect string) : option Endpoint :=
  match answer with
  | Err _ => None
  | Ok i => endpoint_in c i <$> (m ← ci_networks i; head (managed_networks (walk m)))
  end.

Lemma add_networks c i l : forall out,
  foldl (add_network to_lowercase nets host c i) out l =
  match out !! c_id c, endpoint_in c i <$> head (managed_networks l) with
  | None, Some e => <[c_id c := e]> out
  | _, _ => out
  end.
Proof.
  induction l as [|[net ip] l IH]; intros out; cbn [foldl].
  { by destruct (out !! c_id c). }
  rewrite IH. unfold add_network. cbn [fst snd managed_networks omap list_omap].
  destruct (nets !! net) as [ns|]; cbn [fmap option_fmap option_map]; [|done].
  destruct (out !! c_id c) as [e|] eqn:E; [by rewrite E|]. by rewrite lookup_insert_eq.
Qed.

Lemma add_inspected_of walk out c answer :
  add_inspected to_lowercase walk nets host out c answer =
  match out !! c_id c, endpoint_of walk c answer with
  | None, Some e => <[c_id c := e]> out
  | _, _ => out
  end.
Proof.
  unfold add_inspected, endpoint_of. destruct answer as [i|]; [|by destruct (out !! c_id c)].
  destruct (ci_networks i) as [m|]; [apply add_networks|by destruct (out !! c_id c)].
Qed.

Lemma add_containers_lookup podman cs id : forall out,
  foldl (add_container to_lowercase podman nets host) out cs !! id =
  match out !! id with
  | Some e => Some e
  | None => c ← head (filter (fun c => c_id c = id) cs); endpoint_of (walk podman) c (inspect_container podman id)
  end.
Proof.
  induction cs as [|c cs IH]; intros out; cbn [foldl]; [by destruct (out !! id)|].
  rewrite IH. unfold add_container. rewrite add_inspected_of, filter_cons. destruct (decide (c_id c = id)) as [Hc|Hc].
  - rewrite Hc. cbn [head mbind option_bind]. destruct (out !! id) as [e|] eqn:Eo; [by rewrite Eo|].
    destruct (endpoint_of (walk podman) c (inspect_container podman id)) as [e|] eqn:E; [by rewrite lookup_insert_eq|].
    rewrite Eo. destruct (head (filter _ cs)) as [c'|]; [|done]. cbn [mbind option_bind].
    unfold endpoint_of in *. destruct (inspect_container podman id); [|done]. by destruct (ci_networks _ ≫= _).
  - f_equal. destruct (out !! c_id c); [done|]. destruct (endpoint_of (walk podman) c (inspect_container podman (c_id c))); [|done].
    by rewrite lookup_insert_ne.
Qed.

Lemma head_filter_first (P : Container -> Prop) `{!forall c, Decision (P c)} cs c :
  head (filter P cs) = Some c <-> exists before after, cs = before ++ c :: after /\ P c /\ Forall (fun c' => ~ P c') before.
Proof.
  induction cs as [|c0 cs IH]; [split; [done|]; by intros ([] & ? & ? & _)|]. rewrite filter_cons. case_decide as Hp.
  - cbn [head]. split.
    + intros [= <-]. by exists [], cs.
    + intros (before & after & E & Hc & Hb). destruct before as [|c1 before]; [by injection E as <- _|].
      injection E as <- _. by apply Forall_cons in Hb as [? _].
  - rewrite IH. split.
    + intros (before & after & -> & Hc & Hb). exists (c0 :: before), after. by rewrite Forall_cons.
    + intros (before & after & E & Hc & Hb). destruct before as [|c1 before]; [by injection E as -> _|].
      injection E as -> ->. apply Forall_cons in Hb as [_ Hb]. by exists before, after.
Qed.

Lemma managed_networks_first l ns ip :
  head (managed_networks l) = Some (ns, ip) <->
  exists nets1 net nets2, l = nets1 ++ (net, ip) :: nets2 /\ Forall (fun n => unmanaged namespaces n.1) nets1 /\
    managed namespaces net ns.
Proof.
  induction l as [|[net0 ip0] l IH]; cbn [managed_networks omap list_omap fst snd].
  { split; [done|]. by intros ([] & ? & ? & ? & _). }
  destruct (nets !! net0) as [ns0|] eqn:En; cbn [fmap option_fmap option_map head].
  - pose proof (proj1 (network_to_ns_Some net0 ns0) En) as Hm0. split.
    + intros [= <- <-]. by exists [], net0, l.
    + intros ([|n nets1] & net & nets2 & E & Hu & Hm).
      * injection E as -> -> _. apply network_to_ns_Some in Hm. congruence.
      * injection E as <- _. apply Forall_cons in Hu as [Hu%network_to_ns_None _]. cbn in Hu. congruence.
  - pose proof (proj1 (network_to_ns_None net0) En) as Hu0. rewrite IH. split.
    + intros (nets1 & net & nets2 & -> & Hu & Hm). exists ((net0, ip0) :: nets1), net, nets2. by rewrite Forall_cons.
    + intros ([|n nets1] & net & nets2 & E & Hu & Hm).
      * injection E as -> -> ->. apply network_to_ns_Some in Hm. congruence.
      * injection E as <- ->. apply Forall_cons in Hu as [_ Hu]. by exists nets1, net, nets2.
Qed.

(** Whatever the order of the walks, when only one of the networks is managed. *)
Lemma managed_head_order l l' (m : gmap string string) :
  l ≡ₚ map_to_list m -> l' ≡ₚ map_to_list m ->
  (forall net1 ip1 ns1 net2 ip2 ns2, m !! net1 = Some ip1 -> m !! net2 = Some ip2 ->
     managed namespaces net1 ns1 -> managed namespaces net2 ns2 -> net1 = net2) ->
  head (managed_networks l) = head (managed_networks l').
Proof.
  intros Hl Hl' Hone.
  assert (forall l1 l2, l1 ≡ₚ map_to_list m -> l2 ≡ₚ map_to_list m -> forall at_,
    head (managed_networks l1) = Some at_ -> head (managed_networks l2) = Some at_) as H.
  { clear l l' Hl Hl'. intros l1 l2 H1 H2 [ns ip] (n1 & net & n2 & E & _ & Hm)%managed_networks_first.
    assert (m !! net = Some ip) as Hnet.
    { apply elem_of_map_to_list. rewrite <- H1, E. set_solver. }
    destruct (head (managed_networks l2)) as [[ns2 ip2]|] eqn:E2.
    - apply managed_networks_first in E2 as (k1 & net2 & k2 & -> & _ & Hm2).
      assert (m !! net2 = Some ip2) as Hnet2 by (apply elem_of_map_to_list; rewrite <- H2; set_solver).
      pose proof (Hone _ _ _ _ _ _ Hnet Hnet2 Hm Hm2) as <-.
      apply network_to_ns_Some in Hm, Hm2. congruence.
    - exfalso. assert ((net, ip) ∈ l2) as Hin by (rewrite H2; by apply elem_of_map_to_list).
      apply list_elem_of_split in Hin as (k1 & k2 & ->). apply network_to_ns_Some in Hm.
      unfold managed_networks in E2. rewrite omap_app in E2. cbn [omap list_omap fst snd] in E2. rewrite Hm in E2.
      by destruct (omap _ k1). }
  destruct (head (managed_networks l)) as [x|] eqn:E; [symmetry; by apply (H l l')|].
  destruct (head (managed_networks l')) as [x|] eqn:E'; [|done]. apply (H l' l) in E'; [congruence|done..].
Qed.

Lemma endpoint_name_named c i name : endpoint_name c i = name <-> named c i name.
Proof.
  unfold endpoint_name, named. destruct (ci_name i); cbn [is_empty negb]; [|apply trim_unslashed].
  destruct (c_names c); cbn [head]; [naive_solver|apply trim_unslashed].
Qed.

Lemma endpoint_health_spec i :
  endpoint_health to_lowercase i =
  match ci_state i with
  | Some (mkState _ (Some h)) => if decide (to_lowercase (h_status h) = "") then "unknown" else to_lowercase (h_status h)
  | _ => "unknown"
  end.
Proof.
  unfold endpoint_health, non_empty. destruct (ci_state i) as [[st [h|]]|]; cbn; [|done|done].
  by destruct (to_lowercase (h_status h)).
Qed.

Lemma endpoints_reported podman desired id e :
  desired_endpoints to_lowercase podman namespaces host = Ok desired ->
  desired !! id = Some e <-> reported podman id e.
Proof.
  unfold desired_endpoints. destruct (containers_list podman) as [cs|] eqn:Ecs; [|done]. intros [= <-].
  rewrite add_containers_lookup, lookup_empty, bind_Some. unfold reported. split.
  - intros (c & (before & after & -> & <- & Hb)%head_filter_first & He). unfold endpoint_of in He.
    destruct (inspect_container podman (c_id c)) as [i|] eqn:Ei; [|done].
    apply fmap_Some in He as ([ns ip] & (m & Hl & (nets1 & net & nets2 & Hw & Hu & Hm)%managed_networks_first)%bind_Some & ->).
    exists before, c, after, i, m, nets1, net, ip, nets2, ns, (endpoint_name c i). split_and!; try done.
    + by apply endpoint_name_named.
    + unfold endpoint_in. by rewrite endpoint_health_spec.
  - intros (before & c & after & i & m & nets1 & net & ip & nets2 & ns & name & E & Hc & Hb & Hi & Hl & Hw & Hu & Hm & Hn & ->).
    rewrite Ecs in E. injection E as ->. exists c. split; [apply head_filter_first; by eauto 10|].
    unfold endpoint_of. rewrite Hi, Hl. cbn [mbind option_bind]. rewrite Hw.
    rewrite (proj2 (managed_networks_first _ ns ip)) by by exists nets1, net, nets2. cbn.
    apply endpoint_name_named in Hn. unfold endpoint_in. by rewrite endpoint_health_spec, Hc, Hn.
Qed.
End Reported.

(* ------------------------------------------------------------------ *)
(** ** Corrosion *)

(** The table of endpoints: by container, with the time of the last write. *)
Notation Table := (gmap string (Endpoint * Z)).

(** What the two statements the agent sends do. *)
Definition exec (t : Table) (s : Statement) : option Table :=
  if decide (sql s = UPSERT_SQL) then
    match params s with
    | [JStr id; JStr name; JStr ns; JStr host; JStr ip; JStr state; JStr health; JNum at_ms] =>
        Some (<[id := (mkEndpoint id name ns host ip state health, at_ms)]> t)
    | _ => None
    end
  else if decide (sql s = DELETE_SQL) then
    match params s with
    | [JStr id] => Some (delete id t)
    | _ => None
    end
  else None.

Fixpoint exec_all (ss : list Statement) (t : Table) : option Table :=
  match ss with
  | [] => Some t
  | s :: ss' => exec t s ≫= exec_all ss'
  end.

Definition rows_of (host : string) (t : Table) : gmap string Endpoint :=
  fst <$> filter (fun kv => ep_host_mgmt_ip kv.2.1 = host) t.

(** A row of the answer to the query, as a frame of its stream. *)
Definition row_cells (e : Endpoint) : list json :=
  [JStr (ep_container_id e); JStr (ep_container_name e); JStr (ep_namespace e); JStr (ep_host_mgmt_ip e);
   JStr (ep_container_ip e); JStr (ep_state e); JStr (ep_health e)].
Definition row_frame (n : nat) (e : Endpoint) : json :=
  JObj [("row", JArr [JNum (Z.of_nat (S n)); JArr (row_cells e)])].

(** The Corrosion HTTP interface, as its documentation has it: a transaction
    that is answered with success has executed its statements in order, one
    answered otherwise has changed nothing; the query changes nothing, and its
    answer is a line of JSON for the columns, one for each row of the host, in any
    order, and one for the end.  The table is keyed by its primary key. *)
Class CorrosionLaws (parse_json : string -> option json) {Db : Type}
    (post : string -> json -> Db -> option (Z * string) * Db) (table : Db -> Table)
    (base_url host : string) : Prop := {
  law_transaction ss db r db' :
    post (base_url +:+ "/v1/transactions") (JArr (to_json <$> ss)) db = (Some r, db') ->
    if is_success r.1 then exec_all ss (table db) = Some (table db') else table db' = table db;
  law_query db r db' :
    post (base_url +:+ "/v1/queries") (JArr [JStr SNAPSHOT_SQL; JArr [JStr host]]) db = (Some r, db') ->
    table db' = table db /\
    (is_success r.1 = true -> exists columns es eoq,
       es ≡ₚ (map_to_list (rows_of host (table db))).*2 /\
       mapM parse_json (filter (fun line => line <> "") (split nl r.2)) =
         Some (JObj [("columns", columns)] :: imap row_frame es ++ [JObj [("eoq", eoq)]]));
  law_key db id e at_ms : table db !! id = Some (e, at_ms) -> ep_container_id e = id;
}.

(** The write of a delta. *)
Definition delta_write (now_ms : Z) (d : Delta) : string * option (Endpoint * Z) :=
  match d with
  | Upsert e => (ep_container_id e, Some (e, now_ms))
  | Delete id => (id, None)
  end.

Lemma exec_statements now_ms l : forall t,
  exec_all (build_statements now_ms l) t = Some (foldl write t (delta_write now_ms <$> l)).
Proof.
  induction l as [|d l IH]; intros t; [done|]. unfold build_statements. rewrite !fmap_cons. cbn [exec_all foldl].
  fold (build_statements now_ms l). destruct d as [e|id]; unfold exec; cbn [sql params].
  - rewrite decide_True by done. cbn [mbind option_bind]. rewrite IH. by destruct e.
  - rewrite decide_False by done. rewrite decide_True by done. cbn [mbind option_bind]. by rewrite IH.
Qed.

Lemma rows_of_lookup host t id :
  rows_of host t !! id =
  match t !! id with
  | Some (e, _) => if decide (ep_host_mgmt_ip e = host) then Some e else None
  | None => None
  end.
Proof.
  unfold rows_of. rewrite lookup_fmap, map_lookup_filter. destruct (t !! id) as [[e at_ms]|]; [|done].
  by case_decide; simplify_option_eq.
Qed.

(** Reading the answer gives the rows back. *)
Definition frame_values (j : json) : option (list json) :=
  match frame_row j with Some (Some [_; JArr values]) => Some values | _ => None end.

Lemma row_values_frames parse_json lines : forall frames,
  mapM parse_json (filter (fun line => line <> "") lines) = Some frames ->
  omap (row_values parse_json) lines = omap frame_values frames.
Proof.
  induction lines as [|line lines IH]; intros frames; [by intros [= <-]|].
  rewrite filter_cons. cbn [omap list_omap]. unfold row_values at 1. destruct line as [|ch line]; cbn [is_empty].
  { rewrite decide_False by naive_solver. apply IH. }
  rewrite decide_True by done. cbn [mapM]. intros (j & Hj & (js & Hjs & [= <-])%bind_Some)%bind_Some.
  rewrite Hj. cbn [mbind option_bind omap list_omap]. unfold frame_values at 1. rewrite <- (IH js Hjs).
  destruct (frame_row j) as [[[|v [|[] []]]|]|]; done.
Qed.

Lemma frame_values_rows es : forall (g : nat -> nat),
  omap frame_values (imap (fun i e => row_frame (g i) e) es) = row_cells <$> es.
Proof.
  induction es as [|e es IH]; intros g; [done|]. rewrite imap_cons, fmap_cons. cbn [omap list_omap].
  change (frame_values (row_frame (g 0%nat) e)) with (Some (row_cells e)). f_equal. apply (IH (g ∘ S)).
Qed.

Lemma parse_row_cells es : forall out,
  parse_row_values (row_cells <$> es) out = Ok (foldl (fun m e => <[ep_container_id e := e]> m) out es).
Proof. induction es as [|[] es IH]; intros out; [done|]. rewrite fmap_cons. cbn. apply IH. Qed.

Lemma Permutation_refl' {A} (l l' : list A) : l = l' -> l ≡ₚ l'.
Proof. by intros ->. Qed.

Lemma keyed_list_map (m : gmap string Endpoint) es :
  (forall id e, m !! id = Some e -> ep_container_id e = id) -> es ≡ₚ (map_to_list m).*2 ->
  foldl (fun m e => <[ep_container_id e := e]> m) ∅ es = m.
Proof.
  intros Hkey Hes.
  assert (ep_container_id <$> es ≡ₚ (map_to_list m).*1) as Hids.
  { rewrite Hes, <- list_fmap_compose. apply Permutation_refl', list_fmap_ext. intros i [id e] Hi. cbn.
    apply Hkey, elem_of_map_to_list. by eapply list_elem_of_lookup_2. }
  assert (NoDup (ep_container_id <$> es)) as Hn by (rewrite Hids; apply NoDup_fst_map_to_list).
  assert (forall id e, foldl (fun m e => <[ep_container_id e := e]> m) (∅ : gmap string Endpoint) es !! id = Some e <-> e ∈ es /\ ep_container_id e = id) as Hl.
  { clear Hes Hids. intros id e. induction es as [|e' es IH] using rev_ind.
    { cbn. rewrite lookup_empty. split; [done|]. by intros [?%not_elem_of_nil _]. }
    rewrite fmap_app in Hn. apply NoDup_app in Hn as (Hn & Hd & _). specialize (IH Hn).
    rewrite foldl_app, elem_of_app, list_elem_of_singleton. cbn [foldl]. rewrite lookup_insert_Some, IH. split; [naive_solver|].
    intros [[Hin| ->] Hid]; [right|by left]. split; [|done]. intros Heq. apply (Hd id); [|rewrite <- Heq; left].
    rewrite <- Hid. by apply list_elem_of_fmap_2. }
  apply map_eq. intros id. apply option_eq. intros e. rewrite Hl, Hes, list_elem_of_fmap. split.
  - intros [([id' e'] & -> & H%elem_of_map_to_list) <-]. cbn. by rewrite (Hkey _ _ H).
  - intros H. split; [|by apply Hkey]. exists (id, e). split; [done|]. by apply elem_of_map_to_list.
Qed.

Lemma parse_rows_frames parse_json bytes columns es eoq (m : gmap string Endpoint) :
  (forall id e, m !! id = Some e -> ep_container_id e = id) -> es ≡ₚ (map_to_list m).*2 ->
  mapM parse_json (filter (fun line => line <> "") (split nl bytes)) =
    Some (JObj [("columns", columns)] :: imap row_frame es ++ [JObj [("eoq", eoq)]]) ->
  parse_rows parse_json bytes = Ok m.
Proof.
  intros Hkey Hes Hf. unfold parse_rows. rewrite (row_values_frames _ _ _ Hf). cbn [omap list_omap].
  change (frame_values (JObj [("columns", columns)])) with (@None (list json)). cbv iota.
  rewrite omap_app. change (imap row_frame es) with (imap (fun i e => row_frame (id i) e) es).
  rewrite frame_values_rows. cbn [omap list_omap].
  change (frame_values (JObj [("eoq", eoq)])) with (@None (list json)). cbv iota.
  rewrite app_nil_r, parse_row_cells. f_equal. by apply keyed_list_map.
Qed.

Section Reconcile.
Context (to_lowercase : string -> string) (parse_json : string -> option json) {Db : Type}
  (post : string -> json -> Db -> option (Z * string) * Db) (table : Db -> Table) (cfg : SyncConfig).
Context {laws : CorrosionLaws parse_json post table (y_base_url cfg) (y_host_mgmt_ip cfg)}.

Lemma transaction_table ss db db' :
  transaction post (y_base_url cfg) ss db = (true, db') -> exec_all ss (table db) = Some (table db').
Proof.
  unfold transaction. destruct ss as [|s ss]; [by intros [= <-]|].
  destruct (post _ _ db) as [[[status bytes]|] db1] eqn:E; [|done]. intros [= Hs <-].
  pose proof (law_transaction _ _ _ _ E) as Hl. cbn [fst] in Hl. by rewrite Hs in Hl.
Qed.

Lemma rows_keyed db id e : rows_of (y_host_mgmt_ip cfg) (table db) !! id = Some e -> ep_container_id e = id.
Proof.
  rewrite rows_of_lookup. destruct (table db !! id) as [[e' at_ms]|] eqn:E; [|done].
  case_decide; [|done]. intros [= <-]. by eapply law_key.
Qed.

Lemma snapshot_table db current db' :
  snapshot_for_host parse_json post (y_base_url cfg) (y_host_mgmt_ip cfg) db = (Ok current, db') ->
  table db' = table db /\ current = rows_of (y_host_mgmt_ip cfg) (table db).
Proof.
  unfold snapshot_for_host. destruct (post _ _ db) as [[[status bytes]|] db1] eqn:E; [|done].
  destruct (law_query _ _ _ E) as [Ht Hq]. cbn [fst snd] in Hq.
  destruct (is_success status); [|done]. destruct (Hq eq_refl) as (columns & es & eoq & Hes & Hf).
  rewrite (parse_rows_frames _ _ _ _ _ _ (rows_keyed db) Hes Hf). by intros [= <- <-].
Qed.

(** The table after a reconciliation. *)
Lemma reconcile_table podman podman' emit now_ms s db n s' sent db' desired :
  reconcile_once to_lowercase parse_json post cfg podman podman' emit now_ms s db = (Ok n, s', sent, db') ->
  desired_endpoints to_lowercase podman' (y_namespaces cfg) (y_host_mgmt_ip cfg) = Ok desired ->
  rows_of (y_host_mgmt_ip cfg) (table db') = desired /\
  forall id e at_ms, ep_host_mgmt_ip e <> y_host_mgmt_ip cfg ->
    table db' !! id = Some (e, at_ms) <-> table db !! id = Some (e, at_ms) /\ desired !! id = None.
Proof.
  intros Hr Hd. unfold reconcile_once in Hr. destruct (desired_container_statuses _ podman); [|done].
  destruct (reconcile_container_status_snapshot _ _ _ _ _) as [[snap sd] st]. rewrite Hd in Hr.
  destruct (snapshot_for_host _ _ _ _ db) as [[current|] db1] eqn:Hs; [|done].
  destruct (transaction _ _ _ db1) as [[|] db2] eqn:Ht; [|done]. injection Hr as _ _ _ <-.
  destruct (snapshot_table _ _ _ Hs) as [Ht1 ->]. apply transaction_table in Ht.
  rewrite exec_statements, Ht1 in Ht. injection Ht as Ht.
  pose proof (fun id e => endpoints_own _ _ _ _ _ id e Hd) as Hown.
  assert (forall id, table db2 !! id = match desired !! id with
    | Some e => if decide (rows_of (y_host_mgmt_ip cfg) (table db) !! id = Some e) then table db !! id
                else Some (e, now_ms)
    | None => match rows_of (y_host_mgmt_ip cfg) (table db) !! id with Some _ => None | None => table db !! id end
    end) as Hl.
  { intros id. rewrite <- Ht. apply (changes_applied Upsert Delete (delta_write now_ms) ep_container_id
      (fun e => (e, now_ms))); [done|done| |done]. intros id' e He. apply (Hown _ _ He). }
  split.
  - apply map_eq. intros id. rewrite rows_of_lookup, Hl, rows_of_lookup.
    destruct (desired !! id) as [e|] eqn:E.
    + destruct (Hown _ _ E) as [_ Hh]. destruct (table db !! id) as [[e' at']|] eqn:E'.
      * destruct (decide (ep_host_mgmt_ip e' = y_host_mgmt_ip cfg)); case_decide; simplify_eq; by rewrite decide_True.
      * case_decide; [done|]. by rewrite decide_True.
    + destruct (table db !! id) as [[e' at']|] eqn:E'; [|done]. by case_decide; [|rewrite decide_False].
  - intros id e at_ms Hh. rewrite Hl, rows_of_lookup. destruct (desired !! id) as [e'|] eqn:E.
    + destruct (Hown _ _ E) as [_ Hh']. destruct (table db !! id) as [[e1 at1]|];
        repeat case_decide; naive_solver.
    + destruct (table db !! id) as [[e1 at1]|]; repeat case_decide; naive_solver.
Qed.

(** The rows of the host, after. *)
Lemma reconcile_reported podman podman' emit now_ms s db n s' sent db' :
  reconcile_once to_lowercase parse_json post cfg podman podman' emit now_ms s db = (Ok n, s', sent, db') ->
  exists desired, desired_endpoints to_lowercase podman' (y_namespaces cfg) (y_host_mgmt_ip cfg) = Ok desired /\
    forall id e, desired !! id = Some e <-> reported to_lowercase (y_namespaces cfg) (y_host_mgmt_ip cfg) podman' id e.
Proof.
  intros Hr. destruct (desired_endpoints to_lowercase podman' (y_namespaces cfg) (y_host_mgmt_ip cfg)) as [desired|] eqn:Hd.
  - exists desired. split; [done|]. intros id e. by apply endpoints_reported.
  - unfold reconcile_once in Hr. rewrite Hd in Hr. destruct (desired_container_statuses _ podman); [|done].
    by destruct (reconcile_container_status_snapshot _ _ _ _ _) as [[] ].
Qed.

Lemma reconcile_rows podman podman' emit now_ms s db n s' sent db' :
  reconcile_once to_lowercase parse_json post cfg podman podman' emit now_ms s db = (Ok n, s', sent, db') ->
  forall id e, rows_of (y_host_mgmt_ip cfg) (table db') !! id = Some e <->
    reported to_lowercase (y_namespaces cfg) (y_host_mgmt_ip cfg) podman' id e.
Proof.
  intros Hr. destruct (reconcile_reported _ _ _ _ _ _ _ _ _ _ Hr) as (desired & Hd & Hrep).
  by destruct (reconcile_table _ _ _ _ _ _ _ _ _ _ _ Hr Hd) as [-> _].
Qed.

(** C7. A reconciliation that succeeds makes the replicated table right, whatever
    was in it before.  The rows of this host are exactly the endpoints Podman
    reports: a row for each listed container whose inspection was answered and that
    is on a managed network, with its address there, its name, state and health,
    and no row for any other container, one whose inspection failed included.  The
    rows of the other hosts are as they were, but for those with the id of a
    container of this host, which are replaced. *)
Theorem reconcile_converges podman podman' emit now_ms s db n s' sent db' :
  reconcile_once to_lowercase parse_json post cfg podman podman' emit now_ms s db = (Ok n, s', sent, db') ->
  let here := reported to_lowercase (y_namespaces cfg) (y_host_mgmt_ip cfg) podman' in
  (forall id e, rows_of (y_host_mgmt_ip cfg) (table db') !! id = Some e <-> here id e) /\
  forall id e at_ms, ep_host_mgmt_ip e <> y_host_mgmt_ip cfg ->
    table db' !! id = Some (e, at_ms) <-> table db !! id = Some (e, at_ms) /\ ~ exists e', here id e'.
Proof.
  intros Hr here. split; [by eapply reconcile_rows|].
  destruct (reconcile_reported _ _ _ _ _ _ _ _ _ _ Hr) as (desired & Hd & Hrep).
  destruct (reconcile_table _ _ _ _ _ _ _ _ _ _ _ Hr Hd) as [_ Hother].
  intros id e at_ms Hh. rewrite (Hother id e at_ms Hh). split; intros [Ht Hn]; (split; [done|]).
  - intros [e' He']. apply Hrep in He'. congruence.
  - apply eq_None_not_Some. intros [e' He']. apply Hn. exists e'. by apply Hrep.
Qed.
End Reconcile.

(* ------------------------------------------------------------------ *)
(** ** What Laravel sees *)

(** The states a receiver of the updates holds. *)
Definition apply_update (v : gmap string string) (u : ResourceStatusUpdate) : gmap string string :=
  if decide (rs_status u = "removed") then delete (rs_container_id u) v
  else <[rs_container_id u := rs_status u]> v.

Section Statuses.
Variables (host : string) (emit : nat -> ResourceStatusUpdate -> bool).
Variables (snapshot all : gmap string ContainerStatus).
Hypothesis keyed : forall id s, all !! id = Some s -> cs_container_id s = id.
Hypothesis not_removed : forall id s, all !! id = Some s -> cs_state s <> "removed".

(** The write an update stands for. *)
Definition status_write (d : ContainerStatusDelta) : string * option string :=
  match d with
  | StatusUpsert s => (cs_container_id s, Some (cs_state s))
  | StatusDelete id => (id, None)
  end.

Lemma updates_are_writes base l : forall v,
  (forall d, d ∈ l -> d ∈ diff_container_statuses all base) ->
  foldl apply_update v (update_of host <$> l) = foldl write v (status_write <$> l).
Proof.
  induction l as [|d l IH]; intros v Hl; [done|]. rewrite !fmap_cons. cbn [foldl].
  rewrite IH by (intros d' Hd'; apply Hl; by right). f_equal. specialize (Hl d ltac:(left)).
  unfold apply_update. destruct d as [s|id]; cbn; [|done].
  rewrite decide_False; [done|]. unfold diff_container_statuses, changes in Hl.
  apply elem_of_app in Hl as [Hl|Hl]; apply list_elem_of_omap in Hl as ([id' s'] & Hm & Hc);
    apply elem_of_map_to_list in Hm; case_match; simplify_eq; by eapply not_removed.
Qed.

Lemma statuses_applied base l (v : gmap string string) id :
  l ≡ₚ diff_container_statuses all base ->
  foldl apply_update v (update_of host <$> l) !! id =
  match all !! id with
  | Some s => if decide (base !! id = Some s) then v !! id else Some (cs_state s)
  | None => match base !! id with Some _ => None | None => v !! id end
  end.
Proof.
  intros Hl. rewrite (updates_are_writes base) by (intros d; by rewrite Hl).
  by apply (changes_applied StatusUpsert StatusDelete status_write cs_container_id cs_state).
Qed.

Lemma no_changes base : diff_container_statuses all base = [] -> base = all.
Proof.
  intros Hd. apply map_eq. intros id.
  pose proof (changes_applied StatusUpsert StatusDelete
    (fun d => match d with StatusUpsert s => (cs_container_id s, Some s) | StatusDelete i => (i, None) end)
    cs_container_id (fun s => s) (fun _ => eq_refl) (fun _ => eq_refl) all base [] base id keyed) as H.
  rewrite <- Hd in H. specialize (H (reflexivity _)). rewrite Hd in H. cbn in H.
  rewrite H. destruct (all !! id) as [s|] eqn:E; [|by destruct (base !! id)]. case_decide; congruence.
Qed.

Lemma status_same (m : gmap string ContainerStatus) : diff_container_statuses m m = [].
Proof.
  unfold diff_container_statuses, changes.
  assert (forall (f : string * ContainerStatus -> option ContainerStatusDelta) l,
            (forall x, x ∈ l -> f x = None) -> omap f l = []) as Hnone.
  { intros f l. induction l as [|x l IH]; intros Hf; [done|]. cbn. rewrite Hf by left. apply IH.
    intros y Hy. apply Hf. by right. }
  transitivity (@nil ContainerStatusDelta ++ []); [f_equal|done]; apply Hnone; intros [id a] Hm%elem_of_map_to_list; [by rewrite decide_True|by rewrite Hm].
Qed.

(** Updates that are all accepted are all sent. *)
Lemma all_accepted (us : list ResourceStatusUpdate) :
  forallb snd (imap (fun i u => (u, emit i u)) us) = true ->
  fst <$> filter (fun ua => ua.2 = true) (imap (fun i u => (u, emit i u)) us) = us.
Proof.
  generalize emit. induction us as [|u us IH]; intros em; [done|]. rewrite imap_cons. cbn [forallb snd].
  intros [Hu Hus]%andb_true_iff. rewrite filter_cons, decide_True by done. rewrite fmap_cons. cbn [fst]. f_equal.
  by apply (IH (fun i => em (S i))).
Qed.

Lemma all_refused (us : list ResourceStatusUpdate) :
  us <> [] -> (forall i u, emit i u = false) ->
  forallb snd (imap (fun i u => (u, emit i u)) us) = false /\
  fst <$> filter (fun ua => ua.2 = true) (imap (fun i u => (u, emit i u)) us) = [].
Proof.
  intros Hne He. split; [destruct us as [|u us]; [done|]; rewrite imap_cons; cbn; by rewrite He|].
  clear Hne. revert He. generalize emit. induction us as [|u us IH]; intros em He; [done|]. rewrite imap_cons.
  rewrite filter_cons, decide_False by (cbn; by rewrite He). by apply (IH (fun i => em (S i))).
Qed.
End Statuses.

(** C31. Status reporting converges.  Nothing is forgotten while flux is away:
    when no update is accepted nothing was sent, and the snapshot does not
    advance.  When all are, the snapshot is the host's containers, and a receiver
    that held the states of the old snapshot now holds the states of the
    containers; after a reconnection a receiver that held anything at all holds
    the right state of every container there is. *)
Theorem status_reporting_converges to_lowercase podman all snapshot force host emit v :
  desired_container_statuses to_lowercase podman = Ok all ->
  (forall id s, all !! id = Some s -> cs_state s <> "removed") ->
  let '(snapshot', _, sent) := reconcile_container_status_snapshot snapshot all force host emit in
  ((forall i u, emit i u = true) ->
     snapshot' = all /\
     (if force then forall id s, all !! id = Some s -> foldl apply_update v sent !! id = Some (cs_state s)
      else v = cs_state <$> snapshot -> foldl apply_update v sent = cs_state <$> all)) /\
  ((forall i u, emit i u = false) -> snapshot' = (if force then ∅ else snapshot) /\ sent = []).
Proof.
  intros Hall Hrem. pose proof (fun id s => statuses_keyed _ _ _ id s Hall) as Hkey.
  unfold reconcile_container_status_snapshot. set (base := if force then ∅ else snapshot).
  destruct (diff_container_statuses all base) as [|d0 ds] eqn:Hd.
  { pose proof (no_changes all Hkey base Hd) as Hb. split; [|done]. intros _. split; [done|].
    subst base. destruct force; cbn; [|intros ->; by rewrite Hb].
    intros id s. rewrite <- Hb, lookup_empty. done. }
  set (us := container_resource_status_updates_from_deltas host (d0 :: ds)). split; intros He.
  - assert (forallb snd (imap (fun i u => (u, emit i u)) us) = true) as Hf.
    { apply forallb_forall. intros [u b] Hin%list_elem_of_In.
      apply elem_of_lookup_imap in Hin as (i & u' & Heq & _). injection Heq as -> ->. apply He. }
    rewrite Hf, (all_accepted emit us Hf). split; [done|].
    assert (forall id, foldl apply_update v us !! id = match all !! id with
      | Some s => if decide (base !! id = Some s) then v !! id else Some (cs_state s)
      | None => match base !! id with Some _ => None | None => v !! id end
      end) as Hv.
    { intros id. apply (statuses_applied host all Hkey Hrem base). by rewrite Hd. }
    subst base. destruct force.
    + intros id s Hs. rewrite Hv, Hs. by rewrite decide_False by (by rewrite lookup_empty).
    + intros ->. apply map_eq. intros id. rewrite Hv, !lookup_fmap.
      destruct (all !! id) as [s|]; [case_decide as Hc; [by rewrite Hc|done]|]. by destruct (snapshot !! id).
  - destruct (all_refused emit us) as [-> ->]; [done|done|]. done.
Qed.

(** A removal is lost across a reconnection: a resync clears the snapshot
    before it is compared, so a container that disappeared while flux was away
    is not reported as removed, a receiver that knew it keeps it, and as long as
    the containers stay the same nothing more is sent. *)
Theorem resync_forgets_removals to_lowercase podman all snapshot host emit v id st :
  desired_container_statuses to_lowercase podman = Ok all ->
  (forall id s, all !! id = Some s -> cs_state s <> "removed") ->
  all !! id = None -> v !! id = Some st -> (forall i u, emit i u = true) ->
  let '(snapshot', _, sent) := reconcile_container_status_snapshot snapshot all true host emit in
  foldl apply_update v sent !! id = Some st /\ diff_container_statuses all snapshot' = [].
Proof.
  intros Hall Hrem Hid Hv He. pose proof (fun id s => statuses_keyed _ _ _ id s Hall) as Hkey.
  pose proof (status_same all) as Hsame.
  unfold reconcile_container_status_snapshot.
  destruct (diff_container_statuses all ∅) as [|d0 ds] eqn:Hd; [done|].
  set (us := container_resource_status_updates_from_deltas host (d0 :: ds)).
  assert (forallb snd (imap (fun i u => (u, emit i u)) us) = true) as Hf.
  { apply forallb_forall. intros [u b] Hin%list_elem_of_In.
    apply elem_of_lookup_imap in Hin as (i & u' & Heq & _). injection Heq as -> ->. apply He. }
  rewrite Hf, (all_accepted emit us Hf). split; [|done].
  rewrite (statuses_applied host all Hkey Hrem ∅ (d0 :: ds)) by (by rewrite Hd).
  by rewrite Hid, lookup_empty.
Qed.

(* ------------------------------------------------------------------ *)
(** ** A host with one container *)

Module Demo.
Definition host : string := "100.64.0.5".
Definition cfg : SyncConfig :=
  mkSyncConfig host [mkNamespaceConfig "default" "coolify-default-mesh" (V4 0)] "http://127.0.0.1:8080".
Definition same (s : string) : string := s.

Definition podman : Podman := mkPodman
  (Ok [mkContainer "abc" ["web"] "nginx" "running"])
  (fun _ => Ok (mkInspect "abc" "/web" (Some {["coolify-default-mesh" := "10.210.0.4"]})
                  (Some (mkState "running" None))))
  map_to_list (fun m => Permutation_refl _).
Definition always (i : nat) (u : ResourceStatusUpdate) : bool := true.

(** A Corrosion whose table starts with a row that is gone from the host and one
    of another host, and accepts the transaction that puts this right. *)
Definition gone : Endpoint := mkEndpoint "old" "db" "default" host "10.210.0.9" "exited" "unknown".
Definition foreign : Endpoint := mkEndpoint "far" "api" "default" "100.64.0.6" "10.210.1.2" "running" "healthy".
Definition web : Endpoint := mkEndpoint "abc" "web" "default" host "10.210.0.4" "running" "unknown".

Inductive Db := Before | After.
Definition table (db : Db) : Table :=
  match db with
  | Before => {["old" := (gone, 1); "far" := (foreign, 2)]}
  | After => {["abc" := (web, 7); "far" := (foreign, 2)]}
  end.

Definition parse_json (s : string) : option json :=
  if decide (s = "gone") then Some (row_frame 0 gone)
  else if decide (s = "web") then Some (row_frame 0 web)
  else if decide (s = "columns") then Some (JObj [("columns", JArr [])])
  else if decide (s = "eoq") then Some (JObj [("eoq", JNull)]) else None.

(** An answer to the query, with one row. *)
Definition answer (row : string) : string := "columns" +:+ lf +:+ row +:+ lf +:+ "eoq" +:+ lf.

Definition of_json (j : json) : option Statement :=
  match j with JArr [JStr q; JArr ps] => Some (mkStatement q ps) | _ => None end.

Definition post (url : string) (body : json) (db : Db) : option (Z * string) * Db :=
  if decide (url = y_base_url cfg +:+ "/v1/queries")
  then (Some (200, answer (match db with Before => "gone" | After => "web" end)), db)
  else match body with
       | JArr js =>
           match mapM of_json js ≫= (fun ss => exec_all ss (table db)) with
           | Some t => if decide (t = table After) then (Some (200, ""), After) else (Some (500, ""), db)
           | None => (Some (500, ""), db)
           end
       | _ => (Some (500, ""), db)
       end.

#[export] Instance demo_laws : CorrosionLaws parse_json post table (y_base_url cfg) (y_host_mgmt_ip cfg).
Proof.
  split.
  - intros ss db r db'. unfold post. rewrite decide_False by done.
    assert (mapM of_json (to_json <$> ss) = Some ss) as ->.
    { apply mapM_Some, Forall2_fmap_l, Forall_Forall2_diag, Forall_true. by intros [q ps]. }
    cbn [mbind option_bind]. destruct (exec_all ss (table db)) as [t|]; [|by intros [= <- <-]].
    case_decide as Ht; [|by intros [= <- <-]]. intros [= <- <-]. cbn. by rewrite Ht.
  - intros db r db'. unfold post. rewrite decide_True by done. intros [= <- <-]. split; [done|]. intros _.
    exists (JArr []), [match db with Before => gone | After => web end], JNull.
    destruct db; (split; [apply Permutation_refl'; vm_compute; reflexivity|]; vm_compute; reflexivity).
  - intros db id e at_ms. destruct db; cbn [table]; rewrite lookup_insert_Some, lookup_singleton_Some; naive_solver.
Qed.

Definition containers : gmap string ContainerStatus := {["abc" := mkStatus "abc" "web" "nginx" "running"]}.
Definition start : SyncState := mkSyncState ∅ false.
Definition wanted : gmap string Endpoint := {["abc" := web]}.
Definition run := reconcile_once same parse_json post cfg podman podman always 7 start Before.

Lemma web_reported : reported same (y_namespaces cfg) host podman "abc" web.
Proof. apply (endpoints_reported same (y_namespaces cfg) host podman wanted); vm_compute; reflexivity. Qed.
Lemma far_not_reported : ~ exists e, reported same (y_namespaces cfg) host podman "far" e.
Proof.
  intros [e He]. apply (endpoints_reported same (y_namespaces cfg) host podman wanted) in He; [|vm_compute; reflexivity].
  discriminate He.
Qed.

Lemma reconcile_converges_witness :
  rows_of host (table run.2) !! "abc" = Some web /\ table run.2 !! "far" = Some (foreign, 2).
Proof.
  destruct (reconcile_converges same parse_json post table cfg podman podman always 7
              start Before 3 (mkSyncState containers false) run.1.2 run.2 ltac:(vm_compute; reflexivity))
    as [Hr Hf].
  split; [apply (Hr "abc" web); exact web_reported|]. apply (Hf "far" foreign 2); [discriminate|].
  split; [vm_compute; reflexivity|exact far_not_reported].
Defined.

Lemma containers_state id s : containers !! id = Some s -> cs_state s <> "removed".
Proof. unfold containers. intros [<- <-]%lookup_singleton_Some. discriminate. Qed.

Definition no_containers : gmap string ContainerStatus := ∅.
Definition no_states : gmap string string := ∅.
Definition before_outage : gmap string ContainerStatus := {["old" := mkStatus "old" "db" "pg" "exited"]}.
Definition known : gmap string string := {["old" := "exited"]}.

Lemma status_reporting_converges_witness :
  foldl apply_update no_states (reconcile_container_status_snapshot no_containers containers false host always).2 !! "abc" =
  Some "running".
Proof.
  pose proof (status_reporting_converges same podman containers no_containers false host always no_states
                ltac:(vm_compute; reflexivity) containers_state) as H.
  destruct (reconcile_container_status_snapshot no_containers containers false host always) as [[snap ds] sent].
  destruct H as [H _]. destruct (H (fun _ _ => eq_refl)) as [_ Hv]. cbn [snd].
  rewrite Hv by (vm_compute; reflexivity). vm_compute. reflexivity.
Defined.

Lemma resync_forgets_removals_witness :
  foldl apply_update known (reconcile_container_status_snapshot before_outage containers true host always).2
    !! "old" = Some "exited".
Proof.
  pose proof (resync_forgets_removals same podman containers before_outage host
                always known "old" "exited" ltac:(vm_compute; reflexivity) containers_state
                ltac:(vm_compute; reflexivity) ltac:(vm_compute; reflexivity) (fun _ _ => eq_refl)) as H.
  destruct (reconcile_container_status_snapshot _ containers true host always) as [[snap ds] sent].
  exact (proj1 H).
Defined.
End Demo.
