(* ===== verification/PodmanClient.v ===== *)
(** * The Podman client

    [coold/src/podman/client.rs], [types.rs] and [events.rs]: the requests the
    agent sends to the Podman socket, the filter in front of container creation,
    and the event stream.

    The HTTP client, [serde_json]'s parser and its messages, [percent_encoding] and the [Display]
    of a status code are parameters; how a [Deserialize] derive reads a value is
    in [Serde]. *)

From S2P Require Import Prelude RustStr RustPath Messages Serde Net Host CooldConfig CooldSync.
Local Open Scope Z_scope.

(* ------------------------------------------------------------------ *)
(** ** What Podman answers ([types.rs]) *)

(** [NetworkEntry] and [ListNetworkSettings]: the address on each network. *)
Definition dec_network_entry (j : json) : option string :=
  match struct_fields ["IPAddress"] j with
  | Some [ip] => field_or dec_str "" ip
  | _ => None
  end.
Definition dec_network_settings (j : json) : option (gmap string string) :=
  match struct_fields ["Networks"] j with
  | Some [nets] => field_or (dec_map dec_network_entry) ∅ nets
  | _ => None
  end.

Definition dec_container (j : json) : option Container :=
  match struct_fields ["Id"; "Names"; "Image"; "State"; "NetworkSettings"] j with
  | Some [id; names; image; state; net] =>
      id ← field_req dec_str id;
      names ← field_or (dec_list dec_str) [] names;
      image ← field_or dec_str "" image;
      state ← field_or dec_str "" state;
      _ ← field_opt dec_network_settings net;
      Some (mkContainer id names image state)
  | _ => None
  end.

Definition dec_health (j : json) : option ContainerHealth :=
  match struct_fields ["Status"] j with
  | Some [status] => mkHealth <$> field_or dec_str "" status
  | _ => None
  end.
Definition dec_state (j : json) : option ContainerState :=
  match struct_fields ["Status"; "Health"] j with
  | Some [status; health] =>
      status ← field_or dec_str "" status;
      health ← field_opt dec_health health;
      Some (mkState status health)
  | _ => None
  end.

Definition dec_inspect (j : json) : option ContainerInspect :=
  match struct_fields ["Id"; "Name"; "NetworkSettings"; "State"] j with
  | Some [id; name; net; state] =>
      id ← field_req dec_str id;
      name ← field_or dec_str "" name;
      net ← field_opt dec_network_settings net;
      state ← field_opt dec_state state;
      Some (mkInspect id name net state)
  | _ => None
  end.

Definition dec_image (j : json) : option ImageSummary :=
  match struct_fields ["Id"; "RepoTags"; "RepoDigests"; "Size"; "Created"] j with
  | Some [id; tags; digests; size; created] =>
      id ← field_or dec_str "" id;
      tags ← field_or (dec_list dec_str) [] tags;
      digests ← field_or (dec_list dec_str) [] digests;
      size ← field_or dec_i64 0 size;
      created ← field_or dec_str "" created;
      Some (mkImageSummary id tags digests size created)
  | _ => None
  end.

Record ImagePullReport := mkPullReport {
  pr_id : string;
  pr_images : list string;
  pr_digest : string;
  pr_stream : string;
}.
Definition dec_pull_report (j : json) : option ImagePullReport :=
  match struct_fields ["Id"; "Images"; "Digest"; "Stream"] j with
  | Some [id; images; digest; stream] =>
      id ← field_or dec_str "" id;
      images ← field_or (dec_list dec_str) [] images;
      digest ← field_or dec_str "" digest;
      stream ← field_or dec_str "" stream;
      Some (mkPullReport id images digest stream)
  | _ => None
  end.

(** [ContainerCreateResponse] and [ExecCreateResponse]: an id. *)
Definition dec_id_response (j : json) : option string :=
  match struct_fields ["Id"] j with
  | Some [id] => field_or dec_str "" id
  | _ => None
  end.

Record ExecInspect := mkExecInspect { ei_exit_code : Z; ei_running : bool }.
Definition dec_exec_inspect (j : json) : option ExecInspect :=
  match struct_fields ["ExitCode"; "Running"] j with
  | Some [code; running] =>
      code ← field_or dec_i32 0 code;
      running ← field_or dec_bool false running;
      Some (mkExecInspect code running)
  | _ => None
  end.

(** [finished_exec_exit_code]. *)
Definition finished_exec_exit_code (i : ExecInspect) : option Z :=
  if negb (ei_running i) then Some (ei_exit_code i) else None.

(* ------------------------------------------------------------------ *)
(** ** Container creation *)

(** [CreateContainerInput] has the fields of the request. *)
Notation CreateContainerInput := ContainersCreateReq.

Record Mount := mkMount { mt_source : string; mt_destination : string }.

Record ContainerCreateSpec := mkSpec {
  sp_name : string;
  sp_image : string;
  sp_command : list string;
  sp_env : gmap string string;
  sp_networks : gmap string json;
  sp_mounts : list Mount;
  sp_port_mappings : list PortMapping;
  sp_dns_servers : list string;
  sp_dns_search : list string;
  sp_restart_policy : option string;
}.

(** Collecting pairs into a [HashMap]: the last of a key stays. *)
Definition collect_map {A} (l : list (string * A)) : gmap string A := list_to_map (reverse l).

Definition create_spec (input : CreateContainerInput) : ContainerCreateSpec :=
  let env := collect_map (omap (split_once "=") (cc_env input)) in
  let value := match cc_network_aliases input with
               | [] => JObj []
               | aliases => JObj [("aliases", jstrs aliases)]
               end in
  let networks := collect_map ((fun n => (n, value)) <$> cc_networks input) in
  let mounts := omap (fun v => (fun sd => mkMount sd.1 sd.2) <$> split_once ":" v) (cc_volumes input) in
  let port_mappings :=
    (fun p => mkPortMapping (pm_host_ip p) (pm_host_port p) (pm_container_port p)
                (if is_empty (pm_protocol p) then "tcp" else pm_protocol p)) <$> cc_ports input in
  mkSpec (cc_name input) (cc_image input) (cc_command input) env networks mounts port_mappings
    (cc_dns input) (cc_dns_search input)
    (if is_empty (cc_restart_policy input) then None else Some (cc_restart_policy input)).

(** The serialized spec; a [HashMap] is written in the order it is walked. *)
Definition mount_json (m : Mount) : json :=
  JObj [("destination", JStr (mt_destination m)); ("source", JStr (mt_source m)); ("type", JStr "bind")].
Definition port_json (p : PortMapping) : json :=
  JObj ((if is_empty (pm_host_ip p) then [] else [("host_ip", JStr (pm_host_ip p))]) ++
        [("host_port", JNum (pm_host_port p)); ("container_port", JNum (pm_container_port p));
         ("protocol", JStr (pm_protocol p))]).

Definition unless_empty {A} (k : string) (f : list A -> json) (l : list A) : list (string * json) :=
  match l with [] => [] | _ => [(k, f l)] end.

Definition spec_json (s : ContainerCreateSpec) : json :=
  JObj ([("name", JStr (sp_name s)); ("image", JStr (sp_image s))] ++
        unless_empty "command" jstrs (sp_command s) ++
        unless_empty "env" (fun l => JObj ((fun kv => (kv.1, JStr kv.2)) <$> l)) (map_to_list (sp_env s)) ++
        unless_empty "networks" JObj (map_to_list (sp_networks s)) ++
        unless_empty "mounts" (fun l => JArr (mount_json <$> l)) (sp_mounts s) ++
        unless_empty "portmappings" (fun l => JArr (port_json <$> l)) (sp_port_mappings s) ++
        unless_empty "dns_server" jstrs (sp_dns_servers s) ++
        unless_empty "dns_search" jstrs (sp_dns_search s) ++
        match sp_restart_policy s with Some p => [("restart_policy", JStr p)] | None => [] end).

(** [chars().all(|c| !c.is_control() && !c.is_whitespace())], byte by byte: the
    characters the two predicates name, besides one-byte ones, are told by their
    first bytes. *)
Definition control1 (a : ascii) : bool := byte_in 0 31 a || byte_in 127 127 a.
Definition control2 (a b : ascii) : bool := byte_in 194 194 a && byte_in 128 159 b.
Fixpoint no_control_or_space (s : string) : bool :=
  match s with
  | "" => true
  | String a r =>
      negb (control1 a || ws1 a) &&
      match r with
      | "" => true
      | String b r2 =>
          negb (control2 a b || ws2 a b) &&
          match r2 with "" => true | String c _ => negb (ws3 a b c) end
      end && no_control_or_space r
  end.

Definition is_safe_podman_ref (value : string) : bool := negb (is_empty value) && no_control_or_space value.

(** The mode is trimmed and its letters lowered before it is compared. *)
Definition is_denied_network_mode (mode : string) : bool :=
  let mode := to_ascii_lowercase (trim mode) in
  bool_decide (mode = "host") || starts_with "container:" mode || starts_with "ns:" mode.

Definition is_host_path_source (source : string) : bool :=
  starts_with "/" source || contains_char "/" source || contains_str ".." source.

(** [PODMAN_ENCODE]: what is escaped, the unreserved characters of RFC 3986 apart. *)
Definition ascii_alnum (c : ascii) : bool := byte_in 48 57 c || byte_in 65 90 c || byte_in 97 122 c.
Definition PODMAN_ENCODE (c : ascii) : bool :=
  negb (ascii_alnum c || bool_decide (c ∈ ["-"; "."; "_"; "~"]%char)).

Section Client.
Context {W : Type} `{!Host W}.
Context (debug_str : string -> string) (show_status : Z -> string) (parse_json : string -> option json)
  (serde_error : string -> string).
(** One request: the status, and the body unless reading it fails. *)
Context (request : string -> string -> option json -> Io W (Z * result string Error)).
(** [utf8_percent_encode] with the set of ASCII characters to escape. *)
Context (utf8_percent_encode : (ascii -> bool) -> string -> string).
Context (allowed_mount_sources : list string).
Local Open Scope rust_scope.

Definition url_escape (value : string) : string := utf8_percent_encode PODMAN_ENCODE value.

(** *** Sending and reading *)

Definition send (method path : string) (body : option json) : Io W (Z * result string Error) :=
  with_context ("podman " +:+ path) (request method path body).

Definition body_bytes (res : Z * result string Error) (path : string) : Io W string :=
  with_context ("podman " +:+ path +:+ " read body") (io_lift res.2).

Definition read_json {A} (dec : json -> option A) (res : Z * result string Error) (path : string) : Io W A :=
  let! bytes := body_bytes res path in
  if negb (is_success res.1) then
    io_fail (anyhow ("podman " +:+ path +:+ " returned HTTP " +:+ show_status res.1 +:+ ": " +:+ from_utf8_lossy bytes))
  else match parse_json bytes ≫= dec with
       | Some v => io_ret v
       | None => io_fail [Msg ("podman " +:+ path +:+ " decode"); Msg (serde_error bytes)]
       end.

Definition read_text (res : Z * result string Error) (path : string) : Io W string :=
  let! bytes := body_bytes res path in
  let text := trim (from_utf8_lossy bytes) in
  if negb (is_success res.1) then
    io_fail (anyhow ("podman " +:+ path +:+ " returned HTTP " +:+ show_status res.1 +:+ ": " +:+ text))
  else io_ret text.

Definition get_json {A} (dec : json -> option A) (path : string) : Io W A :=
  let! res := send "GET" path None in read_json dec res path.
Definition post_empty (path : string) : Io W string :=
  let! res := send "POST" path None in read_text res path.
Definition post_json {A} (dec : json -> option A) (path : string) (body : json) : Io W A :=
  let! res := send "POST" path (Some body) in read_json dec res path.
Definition delete_empty (path : string) : Io W string :=
  let! res := send "DELETE" path None in read_text res path.

(** *** Images *)

Definition list_images : Io W (list ImageSummary) := get_json (dec_list dec_image) "/v5.0.0/libpod/images/json".

(** What a report of a pull tells about the image. *)
Definition report_digest (r : ImagePullReport) : option string :=
  if negb (is_empty (pr_digest r)) then Some (pr_digest r)
  else if negb (is_empty (pr_id r)) then Some (pr_id r)
  else head (pr_images r).

Definition pull_digest (text : string) : string :=
  default "" (head (omap report_digest (omap (fun l => parse_json l ≫= dec_pull_report) (lines text)))).

Definition pull_image (reference : string) : Io W (string * string) :=
  if negb (is_safe_podman_ref reference) then io_fail (anyhow "images.pull denied invalid image reference")
  else
    let! text := post_empty ("/v5.0.0/libpod/images/pull?reference=" +:+ url_escape reference) in
    io_ret (pull_digest text, text).

Definition show_bool (b : bool) : string := if b then "true" else "false".

Definition delete_image (reference : string) (force : bool) : Io W string :=
  if negb (is_safe_podman_ref reference) then io_fail (anyhow "images.delete denied invalid image reference")
  else delete_empty ("/v5.0.0/libpod/images/" +:+ url_escape reference +:+ "?force=" +:+ show_bool force).

(** *** Containers *)

Definition container_path (id suffix : string) : string :=
  "/v5.0.0/libpod/containers/" +:+ url_escape id +:+ suffix.

Definition list_containers : Io W (list Container) :=
  get_json (dec_list dec_container) "/v5.0.0/libpod/containers/json?all=true".
Definition inspect (id : string) : Io W ContainerInspect := get_json dec_inspect (container_path id "/json").
Definition inspect_container_json (id : string) : Io W string :=
  let! res := send "GET" (container_path id "/json") None in read_text res "inspect container".
Definition start_container (id : string) : Io W string := post_empty (container_path id "/start").
Definition stop_container (id : string) (timeout_seconds : Z) : Io W string :=
  post_empty (container_path id ("/stop?t=" +:+ show_Z timeout_seconds)).
Definition restart_container (id : string) (timeout_seconds : Z) : Io W string :=
  post_empty (container_path id ("/restart?t=" +:+ show_Z timeout_seconds)).
Definition delete_container (id : string) (force : bool) : Io W string :=
  delete_empty (container_path id ("?force=" +:+ show_bool force)).
Definition container_logs (id : string) (tail : Z) (stdout stderr : bool) : Io W string :=
  let tail := if tail =? 0 then "all" else show_Z tail in
  let! res := send "GET" (container_path id ("/logs?stdout=" +:+ show_bool stdout +:+ "&stderr=" +:+
                show_bool stderr +:+ "&tail=" +:+ tail)) None in
  read_text res "container logs".
Definition run_healthcheck (id : string) : Io W string := post_empty (container_path id "/healthcheck").

(** *** Creating a container *)

Definition validate_mount_source (source : string) (w : W) : result unit Error :=
  if negb (is_host_path_source source) then Ok ()
  else
    let denied why := Err (anyhow ("containers.create denied host bind mount " +:+ debug_str source +:+ ": " +:+ why)) in
    match allowed_mount_sources with
    | [] => denied "host bind mounts are disabled (set COOLIFY_COOLD_ALLOWED_MOUNT_SOURCES to permit specific prefixes)"
    | _ =>
        match canonicalize source w with
        | Err e => denied ("cannot canonicalize (" +:+ show_error e +:+ ")")
        | Ok canonical =>
            if existsb (fun prefix =>
                 let prefix := match canonicalize prefix w with Ok c => c | Err _ => prefix end in
                 path_starts_with prefix canonical) allowed_mount_sources
            then Ok () else denied "not under an allowed prefix"
        end
    end.

Fixpoint validate_volumes (volumes : list string) (w : W) : result unit Error :=
  match volumes with
  | [] => Ok ()
  | v :: rest =>
      match split_once ":" v with
      | None => validate_volumes rest w
      | Some (source, _) => let? _ := validate_mount_source source w in validate_volumes rest w
      end
  end.

Definition validate_create_container (input : CreateContainerInput) (w : W) : result unit Error :=
  if cc_privileged input then Err (anyhow "containers.create denied privileged mode")
  else if is_denied_network_mode (cc_network_mode input) || existsb (fun n => bool_decide (n = "host")) (cc_networks input)
  then Err (anyhow "containers.create denied host networking")
  else match cc_capabilities input with
       | [] => validate_volumes (cc_volumes input) w
       | _ => Err (anyhow "containers.create denied custom capabilities")
       end.

Definition create_container (input : CreateContainerInput) : Io W string := fun w =>
  if negb (is_safe_podman_ref (cc_image input)) || negb (is_safe_podman_ref (cc_name input))
  then (Err (anyhow "containers.create denied invalid image or name"), w)
  else
    match validate_create_container input w with
    | Err e => (Err e, w)
    | Ok _ =>
        (let! id := post_json dec_id_response ("/v5.0.0/libpod/containers/create?name=" +:+ url_escape (sp_name (create_spec input)))
                      (spec_json (create_spec input)) in
         if is_empty id then io_fail (anyhow "podman returned empty container id") else io_ret id) w
    end.

(** *** Running a command in a container *)

Definition MAX_ATTEMPTS : nat := 1200.

Fixpoint poll_exec (attempts : nat) (path exec_id : string) : Io W Z :=
  match attempts with
  | O => io_fail (anyhow ("exec " +:+ exec_id +:+ " did not finish within timeout"))
  | S n =>
      let! inspect := get_json dec_exec_inspect path in
      match finished_exec_exit_code inspect with
      | Some code => io_ret code
      | None => poll_exec n path exec_id
      end
  end.

Definition wait_exec_exit_code (exec_id : string) : Io W Z :=
  poll_exec MAX_ATTEMPTS ("/v5.0.0/libpod/exec/" +:+ url_escape exec_id +:+ "/json") exec_id.

Definition exec_body (command : list string) : json :=
  JObj [("AttachStderr", JBool true); ("AttachStdout", JBool true); ("Cmd", jstrs command)].

Definition exec_container (id : string) (command : list string) : Io W (Z * string) :=
  match command with
  | [] => io_fail (anyhow "exec command cannot be empty")
  | _ =>
      let! create_id := post_json dec_id_response (container_path id "/exec") (exec_body command) in
      if is_empty create_id then io_fail (anyhow "podman returned empty exec id")
      else
        let! out := post_empty ("/v5.0.0/libpod/exec/" +:+ url_escape create_id +:+ "/start") in
        let! exit_code := wait_exec_exit_code create_id in
        io_ret (exit_code, out)
  end.
End Client.

(* ------------------------------------------------------------------ *)
(** ** The event stream ([events.rs]) *)

Inductive EventKind := Start | Stop.

Definition classify (action : string) : option EventKind :=
  if decide (action ∈ ["start"; "started"; "init"]) then Some Start
  else if decide (action ∈ ["die"; "died"; "stop"; "stopped"; "remove"; "removed"; "kill"; "killed"]) then Some Stop
  else None.

Record Event := mkEvent {
  ev_kind : string;
  ev_action : string;
  ev_actor_id : string;
  ev_status : string;
  ev_id : string;
}.
Definition dec_actor (j : json) : option string :=
  match struct_fields ["ID"] j with
  | Some [id] => field_or dec_str "" id
  | _ => None
  end.
Definition dec_event (j : json) : option Event :=
  match struct_fields ["Type"; "Action"; "Actor"; "status"; "id"] j with
  | Some [kind; action; actor; status; id] =>
      kind ← field_or dec_str "" kind;
      action ← field_or dec_str "" action;
      actor ← field_or dec_actor "" actor;
      status ← field_or dec_str "" status;
      id ← field_or dec_str "" id;
      Some (mkEvent kind action actor status id)
  | _ => None
  end.
Definition container_id (e : Event) : string :=
  if negb (is_empty (ev_actor_id e)) then ev_actor_id e else ev_id e.
Definition action_name (e : Event) : string :=
  if negb (is_empty (ev_action e)) then ev_action e else ev_status e.

(** A message for a line, if it is a lifecycle change of a container. *)
Definition dispatch (parse_json : string -> option json) (line : string) : option (EventKind * string) :=
  e ← parse_json line ≫= dec_event;
  if negb (bool_decide (ev_kind e = "container")) && negb (is_empty (ev_kind e)) then None
  else
    kind ← classify (action_name e);
    if is_empty (container_id e) then None else Some (kind, container_id e).

(** The frames of the body: data, something else, or a failed read. *)
Inductive BodyFrame := Data (s : string) | NoData | Failed.

(** [while let Some(pos) = ..]: the lines of the buffer, and what is left. *)
Fixpoint drain (fuel : nat) (buf : string) : list string * string :=
  match fuel with
  | O => ([], buf)
  | S n =>
      match split_once nl buf with
      | Some (line, rest) =>
          let '(ls, left_over) := drain n rest in
          ((if is_empty line then [] else [line]) ++ ls, left_over)
      | None => ([], buf)
      end
  end.

(** The lines handed to [dispatch], and whether the stream ended well. *)
Fixpoint stream_lines (frames : list BodyFrame) (buf : string) : list string * bool :=
  match frames with
  | [] => ((if is_empty buf then [] else [buf]), true)
  | Failed :: _ => ([], false)
  | NoData :: rest => stream_lines rest buf
  | Data d :: rest =>
      let buf := buf +:+ d in
      let '(ls, left_over) := drain (String.length buf) buf in
      let '(more, ok) := stream_lines rest left_over in
      (ls ++ more, ok)
  end.

Definition stream_once (parse_json : string -> option json) (frames : list BodyFrame)
    : list (EventKind * string) * bool :=
  let '(ls, ok) := stream_lines frames "" in (omap (dispatch parse_json) ls, ok).

Definition first_backoff : Z := 500000000.
Definition max_backoff : Z := from_secs 10.
(** The pause before the next connection, and the backoff after it. *)
Definition after_stream (ok : bool) (backoff : Z) : Z * Z :=
  if ok then (0, first_backoff) else (backoff, Z.min (backoff * 2) max_backoff).

(* ------------------------------------------------------------------ *)
(** ** Properties *)

(** *** Escaped values stay in their place *)

Definition hex_digit (n : N) : ascii := ascii_of_N (if (n <? 10)%N then 48 + n else 55 + n).
Definition percent_byte (c : ascii) : string :=
  String "%" (String (hex_digit (N_of_ascii c / 16)) (String (hex_digit (N_of_ascii c mod 16)) "")).

(** [percent_encoding]: the bytes of the set and those outside of ASCII are
    written as two upper-case hexadecimal digits, the others as they are. *)
Class PercentLaws (enc : (ascii -> bool) -> string -> string) : Prop := {
  percent_nil set : enc set "" = "";
  percent_cons set c s :
    enc set (String c s) = (if set c || byte_in 128 255 c then percent_byte c else String c "") +:+ enc set s;
}.

(** RFC 3986: what a text with percent escapes stands for. *)
Definition hex_value (c : ascii) : option N :=
  if byte_in 48 57 c then Some (N_of_ascii c - 48)%N
  else if byte_in 65 70 c then Some (N_of_ascii c - 55)%N
  else if byte_in 97 102 c then Some (N_of_ascii c - 87)%N
  else None.
Fixpoint pct_decode (s : string) : option string :=
  match s with
  | "" => Some ""
  | String c r =>
      if decide (c = "%"%char) then
        match r with
        | String h (String l r') =>
            x ← hex_value h; y ← hex_value l; String (ascii_of_N (16 * x + y)) <$> pct_decode r'
        | _ => None
        end
      else String c <$> pct_decode r
  end.

Lemma all_ascii (P : ascii -> bool) :
  forallb (fun n => P (ascii_of_nat n)) (seq 0 256) = true -> forall c, P c = true.
Proof.
  intros H c. rewrite forallb_forall in H. rewrite <- (ascii_nat_embedding c). apply H, in_seq.
  pose proof (nat_ascii_bounded c). lia.
Qed.

Definition url_char (c : ascii) : bool := negb (PODMAN_ENCODE c) || bool_decide (c = "%"%char).

Lemma percent_byte_chars c : all_chars url_char (percent_byte c) = true.
Proof. revert c. apply all_ascii. vm_compute. reflexivity. Qed.

Lemma percent_byte_decodes c s : pct_decode (percent_byte c +:+ s) = String c <$> pct_decode s.
Proof.
  assert (forall c, (bool_decide (hex_value (hex_digit (N_of_ascii c / 16)) = Some (N_of_ascii c / 16)%N) &&
                     bool_decide (hex_value (hex_digit (N_of_ascii c mod 16)) = Some (N_of_ascii c mod 16)%N)) = true) as H.
  { apply all_ascii. vm_compute. reflexivity. }
  specialize (H c). apply andb_true_iff in H as [H1%bool_decide_eq_true H2%bool_decide_eq_true].
  unfold percent_byte. rewrite !string_app_cons. cbn [pct_decode]. rewrite decide_True by done.
  rewrite H1, H2. cbn [mbind option_bind]. by rewrite <- N.div_mod', ascii_N_embedding.
Qed.

Section Escape.
Context (enc : (ascii -> bool) -> string -> string) `{!PercentLaws enc}.

Lemma url_escape_chars s : all_chars url_char (url_escape enc s) = true.
Proof.
  unfold url_escape. induction s as [|c s IH]; [by rewrite percent_nil|].
  rewrite percent_cons, all_chars_app, IH, andb_true_r.
  destruct (PODMAN_ENCODE c || byte_in 128 255 c) eqn:E; [apply percent_byte_chars|].
  apply orb_false_iff in E as [E _]. simpl. unfold url_char. by rewrite E.
Qed.

Lemma url_escape_decodes s : pct_decode (url_escape enc s) = Some s.
Proof.
  unfold url_escape. induction s as [|c s IH]; [by rewrite percent_nil|]. rewrite percent_cons.
  destruct (PODMAN_ENCODE c || byte_in 128 255 c) eqn:E; [by rewrite percent_byte_decodes, IH|].
  rewrite string_app_cons, string_app_nil_l. cbn [pct_decode]. rewrite decide_False; [by rewrite IH|].
  intros ->. vm_compute in E. done.
Qed.

Lemma url_escape_no c s : url_char c = false -> contains_char c (url_escape enc s) = false.
Proof. intros Hc. eapply all_chars_no_char, url_escape_chars. done. Qed.

(** A request names the container it was given, and no other: whatever the id
    holds, it is one segment of the path, without a query or fragment of its
    own, and decodes to the id. *)
Theorem container_path_isolates_id id verb :
  contains_char "/" verb = false -> contains_char "?" verb = false ->
  split "/" (container_path enc id (String "/" verb)) =
    [""; "v5.0.0"; "libpod"; "containers"; url_escape enc id; verb] /\
  contains_char "?" (container_path enc id (String "/" verb)) = false /\
  contains_char "#" (url_escape enc id) = false /\ contains_char "&" (url_escape enc id) = false /\
  pct_decode (url_escape enc id) = Some id.
Proof.
  intros Hv Hq. unfold container_path. split; [|split; [|split; [|split]]].
  - change ("/v5.0.0/libpod/containers/" +:+ url_escape enc id +:+ String "/" verb)
      with ("/v5.0.0/libpod/containers" +:+ String "/" (url_escape enc id +:+ String "/" verb)).
    rewrite split_at, split_at, (split_single _ verb) by done.
    by rewrite (split_single _ (url_escape enc id)) by (by apply url_escape_no).
  - rewrite !contains_char_app, url_escape_no by done. cbn [orb]. simpl. by rewrite Hq.
  - by apply url_escape_no.
  - by apply url_escape_no.
  - apply url_escape_decodes.
Qed.
End Escape.

(** *** The filter in front of container creation *)

(** White space and control characters, by the bytes of UTF-8: the controls of
    ASCII and its space; U+0080 to U+00A0; U+1680, U+2000 to U+200A, U+2028, U+2029,
    U+202F, U+205F and U+3000. *)
Definition codes (t : string) : list N := N_of_ascii <$> String.list_ascii_of_string t.
Definition blank (t : string) : Prop :=
  match codes t with
  | [x] => x <= 32 \/ x = 127
  | [x; y] => x = 194 /\ 128 <= y <= 160
  | [x; y; z] =>
      x = 225 /\ y = 154 /\ z = 128 \/
      x = 226 /\ y = 128 /\ (128 <= z <= 138 \/ z = 168 \/ z = 169 \/ z = 175) \/
      x = 226 /\ y = 129 /\ z = 159 \/
      x = 227 /\ y = 128 /\ z = 128
  | _ => False
  end%N.
Definition plain_reference (s : string) : Prop := s <> "" /\ forall t, blank t -> ~ occurs t s.

Lemma blank1 a : control1 a || ws1 a = true <-> blank (String a "").
Proof.
  assert (control1 a || ws1 a = (N_of_ascii a <=? 32)%N || (N_of_ascii a =? 127)%N) as ->
    by (destruct a as [[] [] [] [] [] [] [] []]; reflexivity).
  cbn. rewrite orb_true_iff, N.leb_le, N.eqb_eq. done.
Qed.
Lemma blank2 a b : control2 a b || ws2 a b = true <-> blank (String a (String b "")).
Proof.
  unfold control2, ws2, byte_in. cbn. rewrite !orb_true_iff, !andb_true_iff, !orb_true_iff, !N.leb_le, !N.eqb_eq. lia.
Qed.
Lemma blank3 a b c : ws3 a b c = true <-> blank (String a (String b (String c ""))).
Proof.
  unfold ws3. cbn. rewrite !orb_true_iff, !andb_true_iff, !orb_true_iff, !andb_true_iff, !N.leb_le, !N.eqb_eq. lia.
Qed.

(** The text starts with such a character. *)
Lemma blank_prefix s :
  (exists t b, blank t /\ s = t +:+ b) <->
  match s with
  | "" => False
  | String a r =>
      blank (String a "") \/
      match r with
      | "" => False
      | String b r2 =>
          blank (String a (String b "")) \/
          match r2 with "" => False | String c _ => blank (String a (String b (String c ""))) end
      end
  end.
Proof.
  split.
  - intros (t & b & Ht & ->). destruct t as [|x [|y [|z [|]]]]; try done; rewrite ?string_app_cons, ?string_app_nil_l.
    + by left.
    + right. by left.
    + right. by right.
  - destruct s as [|a r]; [done|]. intros [H|H]; [by exists (String a ""), r|].
    destruct r as [|b r2]; [done|]. destruct H as [H|H]; [by exists (String a (String b "")), r2|].
    destruct r2 as [|c r3]; [done|]. by exists (String a (String b (String c ""))), r3.
Qed.

Lemma no_control_or_space_spec s : no_control_or_space s = true <-> forall t, blank t -> ~ occurs t s.
Proof.
  induction s as [|a s IH].
  { split; [|done]. intros _ t Ht ([|] & b & E); [|done]. destruct t; [exact Ht|done]. }
  transitivity (~ (exists t b, blank t /\ String a s = t +:+ b) /\ no_control_or_space s = true).
  - rewrite blank_prefix, <- blank1. cbn [no_control_or_space]. rewrite !andb_true_iff, negb_true_iff.
    destruct s as [|b s]; [rewrite <- not_true_iff_false; naive_solver|]. rewrite <- blank2, andb_true_iff, negb_true_iff.
    destruct s as [|c s]; [rewrite <- !not_true_iff_false; naive_solver|]. rewrite <- blank3, negb_true_iff.
    rewrite <- !not_true_iff_false. naive_solver.
  - rewrite IH. split.
    + intros [Hp Hs] t Ht [[b E]|Ho]%occurs_cons; [apply Hp; by exists t, b|by eapply Hs].
    + intros H. split; [intros (t & b & Ht & E)|intros t Ht Ho]; apply (H t Ht), occurs_cons; [left; by exists b|by right].
Qed.

Lemma safe_ref_spec s : is_safe_podman_ref s = true <-> plain_reference s.
Proof.
  unfold is_safe_podman_ref, plain_reference. rewrite andb_true_iff, no_control_or_space_spec.
  by destruct s; split; intros [? ?].
Qed.

Section Create.
Context {W : Type} `{!Host W}.
Context (debug_str : string -> string) (show_status : Z -> string) (parse_json : string -> option json)
  (serde_error : string -> string) (request : string -> string -> option json -> Io W (Z * result string Error))
  (enc : (ascii -> bool) -> string -> string) (allowed : list string).

(** A network of its own: not the host's, not another container's, not one given
    by its namespace. *)
Definition own_network (mode : string) : Prop :=
  let mode := to_ascii_lowercase (trim mode) in
  mode <> "host" /\ (forall rest, mode <> "container:" +:+ rest) /\ (forall rest, mode <> "ns:" +:+ rest).

(** A source that may be mounted: one that cannot be a path, as it has no slash
    and no two dots in a row; or one that, links resolved, lies under an allowed
    directory. *)
Definition mount_allowed (w : W) (source : string) : Prop :=
  ~ occurs "/" source /\ ~ occurs ".." source \/
  exists canonical prefix, canonicalize source w = Ok canonical /\ prefix ∈ allowed /\
    path_starts_with (match canonicalize prefix w with Ok c => c | Err _ => prefix end) canonical = true.

Definition creation_allowed (w : W) (input : CreateContainerInput) : Prop :=
  plain_reference (cc_image input) /\ plain_reference (cc_name input) /\
  cc_privileged input = false /\ own_network (cc_network_mode input) /\
  "host" ∉ cc_networks input /\ cc_capabilities input = [] /\
  Forall (fun m => mount_allowed w (mt_source m)) (sp_mounts (create_spec input)).

(** *** The predicates of the code are these *)

Lemma host_path_spec source : is_host_path_source source = false <-> ~ occurs "/" source /\ ~ occurs ".." source.
Proof.
  unfold is_host_path_source. rewrite !orb_false_iff, <- contains_char_spec, <- contains_str_spec, !not_true_iff_false.
  split; [tauto|]. intros [H1 H2]. split; [split; [|done]|done]. apply not_true_iff_false.
  intros [r ->]%starts_with_spec. done.
Qed.

Lemma network_mode_spec mode : is_denied_network_mode mode = false <-> own_network mode.
Proof.
  unfold is_denied_network_mode, own_network. rewrite !orb_false_iff, bool_decide_eq_false, <- !not_true_iff_false, !starts_with_spec.
  naive_solver.
Qed.

Lemma validate_mount_source_spec w source :
  (validate_mount_source debug_str allowed source w = Ok () <-> mount_allowed w source).
Proof.
  unfold validate_mount_source, mount_allowed. rewrite <- host_path_spec.
  destruct (is_host_path_source source); cbn [negb]; [|naive_solver].
  destruct allowed as [|p0 ps] eqn:Ha; [set_solver|]. rewrite <- Ha. clear p0 ps Ha.
  destruct (canonicalize source w) as [c|e]; [|naive_solver].
  destruct (existsb _ allowed) eqn:E.
  - apply existsb_exists in E as (p & Hp%list_elem_of_In & Hs). split; [|done]. intros _. right. by exists c, p.
  - split; [done|]. intros [|(c' & p & [= <-] & Hp & Hs)]; [done|].
    enough (existsb (fun prefix => path_starts_with (match canonicalize prefix w with Ok c => c | Err _ => prefix end) c)
              allowed = true) by congruence.
    apply existsb_exists. exists p. by rewrite <- list_elem_of_In.
Qed.

Lemma validate_volumes_spec w volumes :
  validate_volumes debug_str allowed volumes w = Ok () <->
  Forall (fun m => mount_allowed w (mt_source m))
    (omap (fun v => (fun sd => mkMount sd.1 sd.2) <$> split_once ":" v) volumes).
Proof.
  induction volumes as [|v volumes IH]; [by split|]. cbn. destruct (split_once ":" v) as [[source target]|]; [|done].
  cbn. rewrite Forall_cons, <- IH, <- validate_mount_source_spec. cbn.
  destruct (validate_mount_source debug_str allowed source w) as [[]|]; cbn; naive_solver.
Qed.

Lemma host_network_spec networks :
  existsb (fun n => bool_decide (n = "host")) networks = false <-> "host" ∉ networks.
Proof.
  rewrite <- not_true_iff_false, existsb_exists. apply not_iff_compat. split.
  - by intros (n & Hn%list_elem_of_In & ->%bool_decide_eq_true).
  - intros Hn. exists "host". rewrite <- list_elem_of_In. by rewrite bool_decide_eq_true.
Qed.

Lemma validate_create_spec w input :
  plain_reference (cc_image input) -> plain_reference (cc_name input) ->
  (validate_create_container debug_str allowed input w = Ok () <-> creation_allowed w input).
Proof.
  intros Hi Hn. unfold validate_create_container, creation_allowed. rewrite <- host_network_spec, <- network_mode_spec.
  destruct (cc_privileged input); [naive_solver|]. destruct (is_denied_network_mode _); [naive_solver|].
  cbn [orb]. destruct (existsb _ (cc_networks input)); [naive_solver|].
  destruct (cc_capabilities input); [|naive_solver]. rewrite validate_volumes_spec. unfold create_spec. naive_solver.
Qed.

(** The keys a request to create a container can have. *)
Definition spec_keys : list string :=
  ["name"; "image"; "command"; "env"; "networks"; "mounts"; "portmappings"; "dns_server"; "dns_search"; "restart_policy"].
Definition json_keys (j : json) : list string := match j with JObj fields => fields.*1 | _ => [] end.

Lemma spec_json_keys s : json_keys (spec_json s) ⊆ spec_keys.
Proof.
  assert (forall A k (f : list A -> json) l, (unless_empty k f l).*1 ⊆ [k]) as H.
  { intros A k f [|a l]; cbn; set_solver. }
  unfold spec_json, json_keys. rewrite !fmap_app. unfold spec_keys.
  pose proof (H _ "command" jstrs (sp_command s)). pose proof (H _ "dns_server" jstrs (sp_dns_servers s)).
  pose proof (H _ "dns_search" jstrs (sp_dns_search s)). pose proof (H _ "networks" JObj (map_to_list (sp_networks s))).
  pose proof (H _ "env" (fun l => JObj ((fun kv => (kv.1, JStr kv.2)) <$> l)) (map_to_list (sp_env s))).
  pose proof (H _ "mounts" (fun l => JArr (mount_json <$> l)) (sp_mounts s)).
  pose proof (H _ "portmappings" (fun l => JArr (port_json <$> l)) (sp_port_mappings s)).
  assert ((match sp_restart_policy s with Some p => [("restart_policy", JStr p)] | None => [] end).*1 ⊆ ["restart_policy"])
    by (destruct (sp_restart_policy s); set_solver).
  set_solver.
Qed.

(** The request of an admitted creation. *)
Definition creation_request (input : CreateContainerInput) : Io W string :=
  io_bind (post_json show_status parse_json serde_error request dec_id_response
             ("/v5.0.0/libpod/containers/create?name=" +:+ url_escape enc (cc_name input)) (spec_json (create_spec input)))
    (fun id => if is_empty id then io_fail (anyhow "podman returned empty container id") else io_ret id).


(** *** Exit codes *)

Definition exec_json_path (exec_id : string) : string := "/v5.0.0/libpod/exec/" +:+ url_escape enc exec_id +:+ "/json".
Definition poll (exec_id : string) : Io W ExecInspect :=
  get_json show_status parse_json serde_error request dec_exec_inspect (exec_json_path exec_id).

(** [n] polls in a row that find the command running. *)
Inductive still_running (exec_id : string) : nat -> W -> W -> Prop :=
  | sr_none w : still_running exec_id 0 w w
  | sr_more n w w1 w2 code :
      poll exec_id w = (Ok (mkExecInspect code true), w1) -> still_running exec_id n w1 w2 ->
      still_running exec_id (S n) w w2.

Lemma poll_exec_running exec_id n : forall k w w1, still_running exec_id n w w1 ->
  poll_exec show_status parse_json serde_error request (n + k) (exec_json_path exec_id) exec_id w =
  poll_exec show_status parse_json serde_error request k (exec_json_path exec_id) exec_id w1.
Proof.
  induction n as [|n IH]; intros k w w1 H; inversion H; subst; [done|].
  cbn [Nat.add poll_exec]. unfold io_bind at 1. fold (poll exec_id).
  match goal with Hp : poll _ _ = _ |- _ => rewrite Hp end. cbn. by apply IH.
Qed.

Lemma poll_exec_sound exec_id k : forall w code w',
  poll_exec show_status parse_json serde_error request k (exec_json_path exec_id) exec_id w = (Ok code, w') ->
  exists n w1, (n < k)%nat /\ still_running exec_id n w w1 /\ poll exec_id w1 = (Ok (mkExecInspect code false), w').
Proof.
  induction k as [|k IH]; intros w code w'; [done|]. cbn [poll_exec]. intros H.
  apply io_bind_Ok in H as ([c run] & w1 & Hp & H). fold (poll exec_id) in Hp.
  unfold finished_exec_exit_code in H. destruct run; cbn in H.
  - destruct (IH _ _ _ H) as (n & w2 & Hn & Hr & Hl). exists (S n), w2. split; [lia|]. split; [by econstructor|done].
  - injection H as <- <-. exists 0%nat, w. split; [lia|]. split; [constructor|done].
Qed.
(** The exit code that is reported is the command's: polling goes on while the
    command runs and returns the code of the first answer that says it has
    stopped, with an error when it still runs after 1200 polls; and it returns no
    code that Podman did not report. *)
Theorem exec_exit_code exec_id n w w1 :
  still_running exec_id n w w1 ->
  (forall code w2, (n < MAX_ATTEMPTS)%nat -> poll exec_id w1 = (Ok (mkExecInspect code false), w2) ->
     wait_exec_exit_code show_status parse_json serde_error request enc exec_id w = (Ok code, w2)) /\
  (n = MAX_ATTEMPTS ->
     wait_exec_exit_code show_status parse_json serde_error request enc exec_id w =
     (Err (anyhow ("exec " +:+ exec_id +:+ " did not finish within timeout")), w1)) /\
  (forall code w', wait_exec_exit_code show_status parse_json serde_error request enc exec_id w = (Ok code, w') ->
     exists m w2, still_running exec_id m w w2 /\ poll exec_id w2 = (Ok (mkExecInspect code false), w')).
Proof.
  intros H. unfold wait_exec_exit_code. fold (exec_json_path exec_id). split; [|split].
  - intros code w2 Hn Hp. replace MAX_ATTEMPTS with (n + S (MAX_ATTEMPTS - n - 1))%nat by lia.
    rewrite (poll_exec_running _ _ _ _ _ H). cbn [poll_exec]. unfold io_bind. fold (poll exec_id). by rewrite Hp.
  - intros <-. pose proof (poll_exec_running _ _ 0 _ _ H) as E. rewrite Nat.add_0_r in E. rewrite E. done.
  - intros code w' Hw. destruct (poll_exec_sound _ _ _ _ _ Hw) as (m & w2 & _ & Hr & Hp). eauto.
Qed.

End Create.

(** *** The lines of the event stream *)

Definition is_line (s : string) : Prop := is_empty s = false.

Lemma drain_spec n : forall buf, (String.length buf <= n)%nat ->
  let '(ls, left_over) := drain n buf in
  contains_char nl left_over = false /\
  forall tail, filter is_line (split nl (buf +:+ tail)) = ls ++ filter is_line (split nl (left_over +:+ tail)).
Proof.
  assert (forall s, split_once nl s = None -> contains_char nl s = false) as Hnone.
  { induction s as [|a s IH]; simpl; [done|]. case_decide; [done|]. destruct (split_once nl s) as [[]|]; [done|auto]. }
  assert (forall s l r, split_once nl s = Some (l, r) -> s = l +:+ String nl r /\ contains_char nl l = false) as Hsome.
  { induction s as [|a s IH]; simpl; [done|]. intros l r. case_decide as Ha.
    - intros [= <- <-]. by subst.
    - destruct (split_once nl s) as [[l' r']|]; [|done]. intros [= <- <-].
      destruct (IH _ _ eq_refl) as [-> Hl]. rewrite string_app_cons. split; [done|]. simpl. by rewrite decide_False. }
  induction n as [|n IH]; intros buf Hl; cbn [drain].
  { destruct buf; [done|]. simpl in Hl. lia. }
  destruct (split_once nl buf) as [[line rest]|] eqn:E; [|split; [by apply Hnone|done]].
  destruct (Hsome _ _ _ E) as [-> Hline]. specialize (IH rest).
  rewrite string_length_app in Hl. simpl in Hl. specialize (IH ltac:(lia)).
  destruct (drain n rest) as [ls left_over]. destruct IH as [Hc IH]. split; [done|]. intros tail.
  rewrite <- string_app_assoc, string_app_cons, split_app, filter_cons, IH by done. unfold is_line.
  destruct (is_empty line) eqn:Ei; [by rewrite decide_False|by rewrite decide_True].
Qed.

Definition frame_data (f : BodyFrame) : string := match f with Data s => s | _ => "" end.
Definition body_text (frames : list BodyFrame) : string := foldr (fun f t => frame_data f +:+ t) "" frames.

Lemma stream_lines_spec frames : forall buf,
  Failed ∉ frames -> contains_char nl buf = false ->
  stream_lines frames buf = (filter is_line (split nl (buf +:+ body_text frames)), true).
Proof.
  induction frames as [|f frames IH]; intros buf Hf Hb.
  - cbn. rewrite string_app_nil_r, split_single by done. rewrite filter_cons, filter_nil. unfold is_line.
    by destruct (is_empty buf).
  - destruct f as [d| |]; [| |set_solver]; cbn [stream_lines].
    + pose proof (drain_spec (String.length (buf +:+ d)) (buf +:+ d) (Nat.le_refl _)) as Hd.
      destruct (drain _ (buf +:+ d)) as [ls left_over]. destruct Hd as [Hc Hd].
      rewrite IH by (done || set_solver). cbn [body_text foldr frame_data]. fold (body_text frames).
      by rewrite string_app_assoc, Hd.
    + apply IH; [set_solver|done].
Qed.

(** C23. How the body of the event stream is cut into frames does not matter: the
    events are those of the non-empty lines of the whole text, in order. *)
Theorem event_stream_chunking parse_json frames :
  Failed ∉ frames ->
  stream_once parse_json frames = (omap (dispatch parse_json) (filter is_line (split nl (body_text frames))), true).
Proof.
  intros Hf. unfold stream_once. rewrite stream_lines_spec by done. done.
Qed.

(* ------------------------------------------------------------------ *)
(** ** A Podman in memory *)

Module Demo.
Fixpoint encode (set : ascii -> bool) (s : string) : string :=
  match s with
  | "" => ""
  | String c r => (if set c || byte_in 128 255 c then percent_byte c else String c "") +:+ encode set r
  end.
#[export] Instance encode_laws : PercentLaws encode.
Proof. split; done. Qed.

(** [/var/run] is a link to [/run]. *)
Definition canon (p : string) : option string :=
  match strip_prefix "/var/run" p with Some r => Some ("/run" +:+ r) | None => Some p end.
#[export] Instance H : Host (Sim.World unit) := Sim.host Sim.quiet canon.
Definition same (s : string) : string := s.

(** The world's log counts the polls: the third one finds the command stopped. *)
Definition exec_answer (n : nat) : json :=
  JObj [("Running", JBool (n <? 2)%nat); ("ExitCode", JNum 3)].
Definition parse_json (s : string) : option json :=
  if decide (s = "0") then Some (exec_answer 0) else if decide (s = "1") then Some (exec_answer 1)
  else Some (exec_answer 2).
Definition request (method path : string) (body : option json) : Io (Sim.World unit) (Z * result string Error) := fun w =>
  (Ok (200, Ok (show_Z (Z.of_nat (length (Sim.w_log w))))), Sim.mkWorld (Sim.w_files w) (Sim.w_log w ++ [[path]]) ()).
Definition start : Sim.World unit := Sim.mkWorld ∅ [] ().
Definition polled (n : nat) : Sim.World unit := Sim.mkWorld ∅ (replicate n [exec_json_path encode "e1"]) ().

Lemma container_path_isolates_id_witness :
  split "/" (container_path encode "a/b?force=true#x" "/start") =
  [""; "v5.0.0"; "libpod"; "containers"; "a%2Fb%3Fforce%3Dtrue%23x"; "start"].
Proof. exact (proj1 (container_path_isolates_id encode "a/b?force=true#x" "start" eq_refl eq_refl)). Defined.

Lemma exec_exit_code_witness :
  (wait_exec_exit_code show_Z parse_json same request encode "e1" start).1 = Ok 3.
Proof.
  assert (still_running show_Z parse_json same request encode "e1" 2 start (polled 2)) as Hr.
  { apply (sr_more _ _ _ _ _ _ _ _ (polled 1) _ 3); [vm_refl|].
    apply (sr_more _ _ _ _ _ _ _ _ (polled 2) _ 3); [vm_refl|]. constructor. }
  destruct (exec_exit_code show_Z parse_json same request encode "e1" 2 start (polled 2) Hr) as [Hok _].
  rewrite (Hok 3 (polled 3)); [reflexivity|unfold MAX_ATTEMPTS; lia|vm_refl].
Defined.

Definition a_line : list BodyFrame := [Data "{st"; NoData; Data ("art}" +:+ lf)].
Lemma event_stream_chunking_witness :
  stream_once (fun _ => None) a_line = stream_once (fun _ => None) [Data ("{start}" +:+ lf)].
Proof.
  rewrite (event_stream_chunking (fun _ => None) a_line) by (vm_compute; set_solver). reflexivity.
Defined.

Definition input (volumes : list string) (mode : string) : CreateContainerInput :=
  mkContainersCreateReq "web" "nginx" [] [] ["coolify-default-mesh"] volumes [] [] "" [] [] false mode [].

(** What the filter admits and refuses, with [/data] and [/run/shared] allowed. *)
Example filter_decisions :
  (fun vm => is_ok (validate_create_container same ["/data"; "/run/shared"] (input [vm.1] vm.2) start)) <$>
    [("/data/app:/x", ""); ("/database:/x", ""); ("web-data:/x", ""); ("/var/run/shared/s:/x", "");
     ("/var/run/podman:/x", ""); ("web:/x", "bridge"); ("web:/x", " HOST "); ("web:/x", "Container:abc")] =
  [true; false; true; true; false; true; false; false].
Proof. vm_compute. reflexivity. Qed.

(** A named volume is sent as a bind mount. *)
Example named_volume_sent : mount_json <$> sp_mounts (create_spec (input ["web-data:/data"] "")) =
  [JObj [("destination", JStr "/data"); ("source", JStr "web-data"); ("type", JStr "bind")]].
Proof. vm_compute. reflexivity. Qed.
End Demo.
