(* ===== verification/SyncConc.v ===== *)
(** * The synchronisation tasks together

    The agent runs [reconcile_once] in two tasks, on every event of Podman and on
    a timer ([coold/src/sync.rs], [run_event_trigger] and [run_reconcile_loop]).
    They share the table of endpoints, the snapshot of the statuses (behind a
    lock) and the request for a snapshot (an atomic flag), and nothing keeps one
    from running while the other does.  Here a run of [reconcile_once] is the
    sequence of its awaited calls, and the runs of the two tasks, the changes of
    the containers, the writes of the other hosts and the requests for a snapshot
    interleave in any order. *)

From S2P Require Import Prelude RustStr Messages CooldConfig PodmanClient CooldSync.
Local Open Scope Z_scope.

(* ------------------------------------------------------------------ *)
(** ** Tasks *)

Inductive Task := EventTrigger | ReconcileLoop.
#[export] Instance Task_eq_dec : EqDecision Task.
Proof. solve_decision. Defined.
#[export] Instance Task_countable : Countable Task.
Proof.
  apply (inj_countable' (fun t => match t with EventTrigger => true | ReconcileLoop => false end)
           (fun b : bool => if b then EventTrigger else ReconcileLoop)).
  by intros [].
Defined.

(** How far a task has come; a task that is in none of these waits for an event
    or for the next tick. *)
Inductive Phase :=
  | Begun
  | Inspecting (rest : list Container) (out : gmap string ContainerStatus)
  | Taken (all : gmap string ContainerStatus) (force_resync : bool)
  | Reported
  | Listing (rest : list Container) (out : gmap string Endpoint)
  | Listed (desired : gmap string Endpoint)
  | Diffed (deltas : list Delta)
  | BackingOff.

(** How much of a report flux took. *)
Inductive Outcome := AllTaken | NoneTaken | PartTaken.
#[export] Instance Outcome_eq_dec : EqDecision Outcome.
Proof. solve_decision. Defined.
Definition outcome_of {A B} (deltas : list A) (sent : list B) : Outcome :=
  if decide (length sent = length deltas) then AllTaken
  else match sent with [] => NoneTaken | _ => PartTaken end.

(** What can happen.  [Skips] is an inspection that fails although Podman has the
    container. *)
Inductive Happening :=
  | PodmanChanges (p : Podman)
  | PodmanEvent (e : EventKind * string)
  | Replicates
  | ResyncRequested
  | Moves (t : Task)
  | Reports (t : Task) (force_resync : bool) (taken : Outcome)
  | Skips (t : Task)
  | Snapshots (t : Task)
  | Commits (t : Task)
  | Fails (t : Task).

(** [mpsc::channel::<EventMessage>(256)]. *)
Definition EVENT_CAPACITY : nat := 256.

Section Tasks.
Context (to_lowercase : string -> string) (parse_json : string -> option json) {Db : Type}
  (post : string -> json -> Db -> option (Z * string) * Db) (table : Db -> Table) (cfg : SyncConfig).

(** The world: the containers, the events of them on their way, the database,
    the shared state, the runs, and what flux has been sent. *)
Record Sys := mkSys {
  sy_podman : Podman;
  sy_events : list (EventKind * string);
  sy_db : Db;
  sy_sync : SyncState;
  sy_tasks : gmap Task Phase;
  sy_sent : list ResourceStatusUpdate;
}.

Definition set_tasks (f : gmap Task Phase -> gmap Task Phase) (s : Sys) : Sys :=
  mkSys (sy_podman s) (sy_events s) (sy_db s) (sy_sync s) (f (sy_tasks s)) (sy_sent s).
Definition set_db (db : Db) (s : Sys) : Sys :=
  mkSys (sy_podman s) (sy_events s) db (sy_sync s) (sy_tasks s) (sy_sent s).
Definition set_sync (y : SyncState) (s : Sys) : Sys :=
  mkSys (sy_podman s) (sy_events s) (sy_db s) y (sy_tasks s) (sy_sent s).

Definition at_phase (t : Task) (ph : Phase) : Sys -> Sys := set_tasks (insert t ph).
(** The trigger waits for the next event, the loop for the next tick. *)
Definition succeeded (t : Task) : Sys -> Sys := set_tasks (delete t).
(** The trigger waits for the next event, the loop sleeps first. *)
Definition failed (t : Task) : Sys -> Sys :=
  match t with
  | EventTrigger => set_tasks (delete t)
  | ReconcileLoop => at_phase t BackingOff
  end.

Inductive step : Sys -> Happening -> Sys -> Prop :=
  | step_podman s p :
      step s (PodmanChanges p) (mkSys p (sy_events s) (sy_db s) (sy_sync s) (sy_tasks s) (sy_sent s))
  | step_event s e :
      (length (sy_events s) < EVENT_CAPACITY)%nat ->
      step s (PodmanEvent e) (mkSys (sy_podman s) (sy_events s ++ [e]) (sy_db s) (sy_sync s) (sy_tasks s) (sy_sent s))
  (** the other hosts write their own rows *)
  | step_replicate s db :
      rows_of (y_host_mgmt_ip cfg) (table db) = rows_of (y_host_mgmt_ip cfg) (table (sy_db s)) ->
      step s Replicates (set_db db s)
  (** [ResyncSignal::request], from the stream to flux *)
  | step_resync s :
      step s ResyncRequested (set_sync (mkSyncState (y_snapshot (sy_sync s)) true) s)
  | step_recv s e q :
      sy_tasks s !! EventTrigger = None -> sy_events s = e :: q ->
      step s (Moves EventTrigger)
        (at_phase EventTrigger Begun (mkSys (sy_podman s) q (sy_db s) (sy_sync s) (sy_tasks s) (sy_sent s)))
  | step_tick s :
      sy_tasks s !! ReconcileLoop = None -> step s (Moves ReconcileLoop) (at_phase ReconcileLoop Begun s)
  | step_slept s t :
      sy_tasks s !! t = Some BackingOff -> step s (Moves t) (succeeded t s)
  (** the statuses, one container at a time *)
  | step_containers s t cs :
      sy_tasks s !! t = Some Begun -> containers_list (sy_podman s) = Ok cs ->
      step s (Moves t) (at_phase t (Inspecting cs ∅) s)
  (** any call of Podman may fail, at any time *)
  | step_containers_fail s t :
      sy_tasks s !! t = Some Begun -> step s (Fails t) (failed t s)
  | step_inspect s t c rest out answer :
      sy_tasks s !! t = Some (Inspecting (c :: rest) out) ->
      answer = inspect_container (sy_podman s) (c_id c) \/ is_ok answer = false ->
      step s (Moves t) (at_phase t (Inspecting rest (<[c_id c := status_from to_lowercase c answer]> out)) s)
  (** [ResyncSignal::take] *)
  | step_take s t all :
      sy_tasks s !! t = Some (Inspecting [] all) ->
      step s (Moves t)
        (at_phase t (Taken all (y_resync (sy_sync s))) (set_sync (mkSyncState (y_snapshot (sy_sync s)) false) s))
  (** the section that holds the lock *)
  | step_report s t all force emit snapshot deltas sent :
      sy_tasks s !! t = Some (Taken all force) ->
      reconcile_container_status_snapshot (y_snapshot (sy_sync s)) all force (y_host_mgmt_ip cfg) emit = (snapshot, deltas, sent) ->
      step s (Reports t force (outcome_of deltas sent))
        (at_phase t Reported
           (mkSys (sy_podman s) (sy_events s) (sy_db s) (mkSyncState snapshot (y_resync (sy_sync s)))
              (sy_tasks s) (sy_sent s ++ sent)))
  (** the endpoints, one container at a time *)
  | step_list s t cs :
      sy_tasks s !! t = Some Reported -> containers_list (sy_podman s) = Ok cs ->
      step s (Moves t) (at_phase t (Listing cs ∅) s)
  | step_list_fail s t :
      sy_tasks s !! t = Some Reported -> step s (Fails t) (failed t s)
  | step_add s t c rest out order :
      sy_tasks s !! t = Some (Listing (c :: rest) out) -> (forall m, order m ≡ₚ map_to_list m) ->
      step s (Moves t)
        (at_phase t (Listing rest
           (add_inspected to_lowercase order (network_to_ns (y_namespaces cfg)) (y_host_mgmt_ip cfg) out c
              (inspect_container (sy_podman s) (c_id c)))) s)
  | step_skip s t c rest out i :
      sy_tasks s !! t = Some (Listing (c :: rest) out) -> inspect_container (sy_podman s) (c_id c) = Ok i ->
      step s (Skips t) (at_phase t (Listing rest out) s)
  | step_listed s t out :
      sy_tasks s !! t = Some (Listing [] out) -> step s (Moves t) (at_phase t (Listed out) s)
  | step_snapshot s t desired current db :
      sy_tasks s !! t = Some (Listed desired) ->
      snapshot_for_host parse_json post (y_base_url cfg) (y_host_mgmt_ip cfg) (sy_db s) = (Ok current, db) ->
      step s (Snapshots t) (at_phase t (Diffed (diff desired current)) (set_db db s))
  | step_snapshot_fail s t desired e db :
      sy_tasks s !! t = Some (Listed desired) ->
      snapshot_for_host parse_json post (y_base_url cfg) (y_host_mgmt_ip cfg) (sy_db s) = (Err e, db) ->
      step s (Fails t) (failed t (set_db db s))
  | step_commit s t deltas now_ms db :
      sy_tasks s !! t = Some (Diffed deltas) ->
      transaction post (y_base_url cfg) (build_statements now_ms deltas) (sy_db s) = (true, db) ->
      step s (Commits t) (succeeded t (set_db db s))
  | step_commit_fail s t deltas now_ms db :
      sy_tasks s !! t = Some (Diffed deltas) ->
      transaction post (y_base_url cfg) (build_statements now_ms deltas) (sy_db s) = (false, db) ->
      step s (Fails t) (failed t (set_db db s)).

Inductive steps : Sys -> list Happening -> Sys -> Prop :=
  | steps_nil s : steps s [] s
  | steps_cons s h s1 hs s2 : step s h s1 -> steps s1 hs s2 -> steps s (h :: hs) s2.
End Tasks.
Arguments Sys Db : clear implicits.
Arguments mkSys {Db} _ _ _ _ _ _.
Arguments sy_podman {Db} _.
Arguments sy_events {Db} _.
Arguments sy_db {Db} _.
Arguments sy_sync {Db} _.
Arguments sy_tasks {Db} _.
Arguments sy_sent {Db} _.

(** A POST that is not answered has been carried out or not. *)
Class LostLaws {Db : Type} (post : string -> json -> Db -> option (Z * string) * Db) (table : Db -> Table)
    (base_url host : string) : Prop := {
  law_lost_transaction ss db db' :
    post (base_url +:+ "/v1/transactions") (JArr (to_json <$> ss)) db = (None, db') ->
    table db' = table db \/ exec_all ss (table db) = Some (table db');
  law_lost_query db db' :
    post (base_url +:+ "/v1/queries") (JArr [JStr SNAPSHOT_SQL; JArr [JStr host]]) db = (None, db') -> table db' = table db;
}.

(* ------------------------------------------------------------------ *)
(** ** What a transaction does to the rows of the host *)

Section Rows.
Context (host : string) (desired : gmap string Endpoint).
Hypothesis own : forall id e, desired !! id = Some e -> own_endpoint host id e.

Lemma rows_committed current now_ms (t : Table) id :
  rows_of host (foldl write t (delta_write now_ms <$> diff desired current)) !! id =
  match desired !! id with
  | Some e => if decide (current !! id = Some e) then rows_of host t !! id else Some e
  | None => match current !! id with Some _ => None | None => rows_of host t !! id end
  end.
Proof.
  rewrite !rows_of_lookup, (changes_applied Upsert Delete (delta_write now_ms) ep_container_id
    (fun e => (e, now_ms)) (fun _ => eq_refl) (fun _ => eq_refl) desired current);
    [|intros id' e He; apply (own _ _ He)|done].
  destruct (desired !! id) as [e|] eqn:E.
  - case_decide; [done|]. destruct (own _ _ E) as [_ ->]. by rewrite decide_True.
  - by destruct (current !! id).
Qed.

(** Every row is as it was in [current], or as it should be. *)
Definition towards (current rows : gmap string Endpoint) : Prop :=
  forall id, rows !! id = current !! id \/ rows !! id = desired !! id.

Lemma towards_refl rows : towards rows rows.
Proof. intros id. by left. Qed.

(** A transaction with the right endpoints moves every row towards them,
    whatever it was computed from. *)
Lemma commit_towards base current now_ms t :
  towards base (rows_of host t) ->
  towards base (rows_of host (foldl write t (delta_write now_ms <$> diff desired current))).
Proof.
  intros Ht id. specialize (Ht id). rewrite rows_committed.
  destruct (desired !! id); [case_decide|destruct (current !! id)]; naive_solver.
Qed.

(** One that was computed from a snapshot since which the rows only moved
    towards the right ones makes them right. *)
Lemma commit_arrives current now_ms t :
  towards current (rows_of host t) ->
  rows_of host (foldl write t (delta_write now_ms <$> diff desired current)) = desired.
Proof.
  intros Ht. apply map_eq. intros id. specialize (Ht id). rewrite rows_committed.
  destruct (desired !! id); [case_decide|destruct (current !! id)]; destruct Ht; congruence.
Qed.
End Rows.

(* ------------------------------------------------------------------ *)
(** ** Once the containers no longer change *)

(** No container is on two of the managed networks. *)
Definition single_attached (namespaces : list NamespaceConfig) (podman : Podman) : Prop :=
  forall id i m net1 ip1 ns1 net2 ip2 ns2,
    inspect_container podman id = Ok i -> ci_networks i = Some m -> m !! net1 = Some ip1 -> m !! net2 = Some ip2 ->
    managed namespaces net1 ns1 -> managed namespaces net2 ns2 -> net1 = net2.

Definition quiet (h : Happening) : bool := match h with PodmanChanges _ | Skips _ => false | _ => true end.
(** Podman has been asked for the endpoints. *)
Definition has_listed (ph : Phase) : bool :=
  match ph with Listing _ _ | Listed _ | Diffed _ => true | _ => false end.
(** The table has been read. *)
Definition has_read (ph : Phase) : bool := match ph with Diffed _ => true | _ => false end.

Section Settling.
Context (to_lowercase : string -> string) (parse_json : string -> option json) {Db : Type}
  (post : string -> json -> Db -> option (Z * string) * Db) (table : Db -> Table) (cfg : SyncConfig).
Context {laws : CorrosionLaws parse_json post table (y_base_url cfg) (y_host_mgmt_ip cfg)}.
Context {lost : LostLaws post table (y_base_url cfg) (y_host_mgmt_ip cfg)}.
Notation host := (y_host_mgmt_ip cfg).
Notation stp := (step to_lowercase parse_json post table cfg).
Notation stps := (steps to_lowercase parse_json post table cfg).
Notation rows s := (rows_of host (table (sy_db s))).

Lemma transaction_outcome now_ms ds db b db' :
  transaction post (y_base_url cfg) (build_statements now_ms ds) db = (b, db') ->
  table db' = foldl write (table db) (delta_write now_ms <$> ds) \/ b = false /\ table db' = table db.
Proof.
  intros Ht. destruct b.
  - apply (transaction_table parse_json post table cfg) in Ht. rewrite exec_statements in Ht. left. congruence.
  - unfold transaction in Ht. destruct (build_statements now_ms ds) as [|q qs] eqn:Eq; [done|]. rewrite <- Eq in *.
    destruct (post _ _ db) as [[[status bytes]|] db1] eqn:E.
    + injection Ht as Hs <-. pose proof (law_transaction _ _ _ _ E) as Hl. cbn [fst] in Hl. rewrite Hs in Hl. by right.
    + injection Ht as <-. apply law_lost_transaction in E as [E|E]; [by right|].
      rewrite exec_statements in E. left. congruence.
Qed.

Lemma snapshot_keeps db r db' :
  snapshot_for_host parse_json post (y_base_url cfg) host db = (r, db') -> table db' = table db.
Proof.
  unfold snapshot_for_host. destruct (post _ _ db) as [[[status bytes]|] db1] eqn:E; intros [= _ <-].
  - by destruct (law_query _ _ _ E).
  - by eapply law_lost_query.
Qed.

Section Desired.
Context (podman : Podman) (desired : gmap string Endpoint).
Hypothesis Hdesired : desired_endpoints to_lowercase podman (y_namespaces cfg) host = Ok desired.
Hypothesis Hsingle : single_attached (y_namespaces cfg) podman.

(** The order in which the networks are walked does not matter. *)
Lemma add_any_order order out c :
  (forall m, order m ≡ₚ map_to_list m) ->
  add_inspected to_lowercase order (network_to_ns (y_namespaces cfg)) host out c (inspect_container podman (c_id c)) =
  add_container to_lowercase podman (network_to_ns (y_namespaces cfg)) host out c.
Proof.
  intros Ho. unfold add_container. rewrite !add_inspected_of. unfold endpoint_of.
  destruct (inspect_container podman (c_id c)) as [i|] eqn:Ei; [|done].
  destruct (ci_networks i) as [m|] eqn:Em; [|done]. cbn [mbind option_bind].
  rewrite (managed_head_order to_lowercase (y_namespaces cfg) (order m) (walk podman m) m (Ho m) (walk_perm podman m)); [done|].
  intros *. by eapply Hsingle.
Qed.

Lemma desired_own id e : desired !! id = Some e -> own_endpoint host id e.
Proof. by apply (endpoints_own to_lowercase podman (y_namespaces cfg)). Qed.

(** The run works with the endpoints there are now. *)
Definition fresh (ph : Phase) : Prop :=
  match ph with
  | Listing rest out =>
      foldl (add_container to_lowercase podman (network_to_ns (y_namespaces cfg)) host) out rest = desired
  | Listed d => d = desired
  | Diffed ds => exists current, ds = diff desired current
  | _ => True
  end.
Definition fresh_task (s : Sys Db) (t : Task) : Prop := forall ph, sy_tasks s !! t = Some ph -> fresh ph.

Lemma fresh_started ph : has_listed ph = false -> fresh ph.
Proof. by destruct ph. Qed.

Lemma failed_lookup t (s : Sys Db) t' ph :
  sy_tasks (failed t s) !! t' = Some ph -> t' = t /\ ph = BackingOff \/ t' <> t /\ sy_tasks s !! t' = Some ph.
Proof.
  destruct t; cbn; [rewrite lookup_delete_Some|rewrite lookup_insert_Some]; naive_solver.
Qed.

(** A task keeps to the endpoints there are, *)
Lemma step_podman_same s h s' : stp s h s' -> quiet h = true -> sy_podman s' = sy_podman s.
Proof. intros Hs Hq. destruct Hs; try done; by destruct t. Qed.

Lemma step_fresh s h s' t :
  stp s h s' -> quiet h = true -> sy_podman s = podman -> fresh_task s t -> fresh_task s' t.
Proof.
  intros Hs Hq Hp Hf ph Hph. unfold desired_endpoints in Hdesired.
  destruct Hs; try done; try by apply Hf.
  all: try (apply failed_lookup in Hph as [[-> ->]|[? ?]]; [done|by apply Hf]).
  all: cbn in Hph; first [apply lookup_insert_Some in Hph as [[<- <-]|[? Hph]]|apply lookup_delete_Some in Hph as [? Hph]];
    try (by apply Hf); try done.
  - rewrite Hp in *. destruct (containers_list podman); [|done]. cbn. congruence.
  - specialize (Hf _ H). cbn in *. rewrite Hp. by rewrite add_any_order.
  - exact (Hf _ H).
  - specialize (Hf _ H). cbn in *. subst. by eexists.
Qed.

(** and takes them up when it has ended. *)
Lemma step_ended_fresh s h s' t :
  stp s h s' -> h = Commits t \/ h = Fails t -> fresh_task s' t.
Proof.
  intros Hs Hh ph Hph. destruct Hs, Hh; simplify_eq;
    try (apply failed_lookup in Hph as [[_ ->]|[? _]]; done); cbn in Hph;
    by apply lookup_delete_Some in Hph as [? _].
Qed.

Lemma steps_fresh s hs s' t :
  stps s hs s' -> Forall (fun h => quiet h = true) hs -> sy_podman s = podman ->
  fresh_task s t \/ Commits t ∈ hs \/ Fails t ∈ hs -> sy_podman s' = podman /\ fresh_task s' t.
Proof.
  intros Hs. induction Hs as [s|s h s1 hs s2 Hst Hss IH]; intros Hq Hp Hf.
  { split; [done|]. by destruct Hf as [Hf|[Hf%elem_of_nil|Hf%elem_of_nil]]. }
  apply Forall_cons in Hq as [Hh Hq]. apply IH; [done|by rewrite (step_podman_same _ _ _ Hst)|].
  rewrite !elem_of_cons in Hf. destruct Hf as [Hf|[[<-|Hf]|[<-|Hf]]]; [| |by auto| |by auto]; left.
  - by eapply step_fresh.
  - eapply step_ended_fresh; [done|by left].
  - eapply step_ended_fresh; [done|by right].
Qed.

(** Since the run of [t] has read the table, rows have only been put right. *)
Definition reads_true (t : Task) (s : Sys Db) : Prop :=
  forall ds, sy_tasks s !! t = Some (Diffed ds) ->
  exists current, ds = diff desired current /\ towards desired current (rows s).

(** What a happening does to the rows: nothing, or a fresh transaction. *)
Lemma step_rows s h s' :
  stp s h s' -> (forall t, fresh_task s t) ->
  rows s' = rows s \/
  exists t current now_ms, (h = Commits t \/ h = Fails t) /\ sy_tasks s !! t = Some (Diffed (diff desired current)) /\
    rows s' = rows_of host (foldl write (table (sy_db s)) (delta_write now_ms <$> diff desired current)).
Proof.
  intros Hs Hf. destruct Hs; try (by left).
  - left. by destruct t.
  - left. by destruct t.
  - left. cbn. by rewrite (snapshot_keeps _ _ _ H0).
  - left. destruct t; cbn; by rewrite (snapshot_keeps _ _ _ H0).
  - destruct (Hf t _ H) as [current ->]. destruct (transaction_outcome _ _ _ _ _ H0) as [Ht|[? _]]; [|done].
    right. exists t, current, now_ms. cbn. rewrite Ht. auto.
  - destruct (Hf t _ H) as [current ->]. destruct (transaction_outcome _ _ _ _ _ H0) as [Ht|[_ Ht]].
    + right. exists t, current, now_ms. split; [by right|]. split; [done|]. destruct t; cbn; by rewrite Ht.
    + left. destruct t; cbn; by rewrite Ht.
Qed.

Lemma step_towards s h s' base :
  stp s h s' -> (forall t, fresh_task s t) -> towards desired base (rows s) -> towards desired base (rows s').
Proof.
  intros Hs Hf Hb. destruct (step_rows _ _ _ Hs Hf) as [->|(t & current & now_ms & _ & _ & ->)]; [done|].
  apply commit_towards; [apply desired_own|done].
Qed.

Lemma step_reads_true s h s' t :
  stp s h s' -> (forall t, fresh_task s t) -> reads_true t s -> reads_true t s'.
Proof.
  intros Hs Hf Hr ds Hds. pose proof (fun base => step_towards _ _ _ base Hs Hf) as Ht.
  assert (sy_tasks s !! t = Some (Diffed ds) \/ exists current, ds = diff desired current /\ towards desired current (rows s))
    as [H|(current & -> & H)]; [|destruct (Hr _ H) as (current & -> & H')|]; [|by eauto|by eauto].
  clear Ht Hr. destruct Hs; try (by left).
  all: try (apply failed_lookup in Hds as [[_ ?]|[_ ?]]; [done|by left]).
  all: cbn in Hds; first [apply lookup_insert_Some in Hds as [[<- ?]|[_ ?]]|apply lookup_delete_Some in Hds as [_ ?]];
    try done; try by left.
  right. simplify_eq. destruct (snapshot_table parse_json post table cfg _ _ _ H0) as [_ ->].
  pose proof (Hf _ _ H) as Hd. cbn in Hd. subst. eexists. split; [done|]. apply towards_refl.
Qed.

(** A transaction of such a run puts the rows right, and they stay so. *)
Lemma step_arrives s t s' :
  stp s (Commits t) s' -> reads_true t s -> rows s' = desired.
Proof.
  intros Hs Hr. inversion Hs as [| | | | | | | | | | | | | | | | | | |? ? ? ? ? Hph Htx|]; subst. destruct (Hr _ Hph) as (current & -> & Ht).
  destruct (transaction_outcome _ _ _ _ _ Htx) as [Hdb|[? _]]; [|done]. cbn. rewrite Hdb.
  apply commit_arrives; [apply desired_own|done].
Qed.

Lemma step_stays s h s' :
  stp s h s' -> (forall t, fresh_task s t) -> rows s = desired -> rows s' = desired.
Proof.
  intros Hs Hf Hr. apply map_eq. intros id.
  destruct (step_towards _ _ _ desired Hs Hf) with (id := id) as [H|H]; [|done..].
  rewrite Hr. apply towards_refl.
Qed.

Lemma steps_settle s hs s' t :
  stps s hs s' -> Forall (fun h => quiet h = true) hs -> sy_podman s = podman -> (forall t, fresh_task s t) ->
  rows s = desired \/ reads_true t s /\ Commits t ∈ hs -> rows s' = desired.
Proof.
  intros Hs. induction Hs as [s|s h s1 hs s2 Hst Hss IH]; intros Hq Hp Hf Hr.
  { by destruct Hr as [Hr|[_ Hr%elem_of_nil]]. }
  apply Forall_cons in Hq as [Hh Hq]. apply IH; [done|by rewrite (step_podman_same _ _ _ Hst)| |].
  { intros t'. by eapply step_fresh. }
  destruct Hr as [Hr|[Hr [<-|Hc]%elem_of_cons]]; [left; by eapply step_stays|left; by eapply step_arrives|].
  right. split; [|done]. by eapply step_reads_true.
Qed.

End Desired.

(** C8. The two tasks together make the table right.  From a moment on the
    containers do not change, no container is on two managed networks, and no
    inspection of a container that is there fails while the endpoints are listed;
    once every run that had asked for the endpoints before has ended, the next run
    of either task that reads the table and commits leaves exactly the rows Podman
    reports, and from then on every state has them, whatever the other task does,
    in whatever order, with listings and requests that fail and answers that are
    lost. *)
Theorem tasks_settle podman cs s hs1 s1 t hs2 s2 :
  containers_list podman = Ok cs -> single_attached (y_namespaces cfg) podman ->
  sy_podman s = podman -> stps s hs1 s1 -> stps s1 hs2 s2 -> Forall (fun h => quiet h = true) (hs1 ++ hs2) ->
  (forall t' ph, sy_tasks s !! t' = Some ph -> has_listed ph = true -> Commits t' ∈ hs1 \/ Fails t' ∈ hs1) ->
  (forall ph, sy_tasks s1 !! t = Some ph -> has_read ph = false) -> Commits t ∈ hs2 ->
  forall id e, rows s2 !! id = Some e <-> reported to_lowercase (y_namespaces cfg) host podman id e.
Proof.
  intros Hcs Hsingle Hp Hs1 Hs2 [Hq1 Hq2]%Forall_app Hend Hread Hc id e.
  destruct (desired_endpoints to_lowercase podman (y_namespaces cfg) host) as [desired|] eqn:Hd;
    [|unfold desired_endpoints in Hd; by rewrite Hcs in Hd].
  rewrite <- (endpoints_reported to_lowercase _ _ _ _ id e Hd).
  assert (forall t', sy_podman s1 = podman /\ fresh_task podman desired s1 t') as Hf.
  { intros t'. eapply steps_fresh; [done..|]. destruct (sy_tasks s !! t') as [ph|] eqn:E.
    - destruct (has_listed ph) eqn:El; [right; by eapply Hend|left].
      intros ph' Hph'. apply fresh_started. congruence.
    - left. intros ph' Hph'. congruence. }
  enough (rows s2 = desired) as -> by done.
  eapply (steps_settle podman desired Hd Hsingle s1 hs2 s2 t); [done|done|apply (Hf t)|intros t'; apply Hf|].
  right. split; [|done]. intros ds Hds. by specialize (Hread _ Hds).
Qed.
End Settling.

(* ------------------------------------------------------------------ *)
(** ** A run that is left alone *)

Section Alone.
Context (to_lowercase : string -> string) (parse_json : string -> option json) {Db : Type}
  (post : string -> json -> Db -> option (Z * string) * Db) (table : Db -> Table) (cfg : SyncConfig).
Notation stp := (step to_lowercase parse_json post table cfg).
Notation stps := (steps to_lowercase parse_json post table cfg).

Lemma steps_app s hs s1 hs' s2 : stps s hs s1 -> stps s1 hs' s2 -> stps s (hs ++ hs') s2.
Proof. induction 1; cbn; [done|]. intros ?. econstructor; eauto. Qed.

Lemma steps_one s h s1 s2 : stp s h s1 -> s1 = s2 -> stps s [h] s2.
Proof. intros ? <-. econstructor; [done|constructor]. Qed.

Lemma at_phase_twice t ph ph' (s : Sys Db) : at_phase t ph (at_phase t ph' s) = at_phase t ph s.
Proof. unfold at_phase, set_tasks. cbn. by rewrite insert_insert_eq. Qed.

Lemma succeeded_at t ph (s : Sys Db) : succeeded t (at_phase t ph s) = succeeded t s.
Proof. unfold succeeded, at_phase, set_tasks. cbn. by rewrite delete_insert_eq. Qed.

Lemma failed_at t ph (s : Sys Db) : failed t (at_phase t ph s) = failed t s.
Proof. destruct t; [exact (succeeded_at _ _ _)|exact (at_phase_twice _ _ _ _)]. Qed.

Lemma at_phase_lookup t ph (s : Sys Db) : sy_tasks (at_phase t ph s) !! t = Some ph.
Proof. apply lookup_insert_eq. Qed.

(** Asking Podman about one container after the other. *)
Lemma inspect_all t cs out (s : Sys Db) :
  stps (at_phase t (Inspecting cs out) s) (repeat (Moves t) (length cs))
    (at_phase t (Inspecting [] (foldl (fun out c => <[c_id c := status_of to_lowercase (sy_podman s) c]> out) out cs)) s).
Proof.
  revert out. induction cs as [|c cs IH]; intros out; cbn [length repeat foldl]; [constructor|].
  econstructor; [eapply step_inspect; [apply at_phase_lookup|by left]|]. rewrite at_phase_twice. apply IH.
Qed.

Lemma list_all t cs out (s : Sys Db) :
  stps (at_phase t (Listing cs out) s) (repeat (Moves t) (length cs))
    (at_phase t (Listing []
       (foldl (add_container to_lowercase (sy_podman s) (network_to_ns (y_namespaces cfg)) (y_host_mgmt_ip cfg)) out cs)) s).
Proof.
  revert out. induction cs as [|c cs IH]; intros out; cbn [length repeat foldl]; [constructor|].
  econstructor; [eapply step_add; [apply at_phase_lookup|apply (walk_perm (sy_podman s))]|]. rewrite at_phase_twice. apply IH.
Qed.

(** The end of a run with a result. *)
Definition ends {A E} (r : result A E) : Task -> Sys Db -> Sys Db :=
  match r with Ok _ => succeeded | Err _ => failed end.

(** From the listing of the endpoints on. *)
Lemma endpoints_alone t now_ms (s : Sys Db) :
  let '(r, db') :=
    match desired_endpoints to_lowercase (sy_podman s) (y_namespaces cfg) (y_host_mgmt_ip cfg) with
    | Err _ => (Err EndpointsFailed, sy_db s)
    | Ok desired =>
        match snapshot_for_host parse_json post (y_base_url cfg) (y_host_mgmt_ip cfg) (sy_db s) with
        | (Err _, db1) => (Err SnapshotFailed, db1)
        | (Ok current, db1) =>
            match transaction post (y_base_url cfg) (build_statements now_ms (diff desired current)) db1 with
            | (true, db2) => (Ok tt, db2)
            | (false, db2) => (Err TransactionFailed, db2)
            end
        end
    end in
  exists hs, stps (at_phase t Reported s) hs (ends r t (set_db db' s)).
Proof.
  unfold desired_endpoints. destruct (containers_list (sy_podman s)) as [cs|e] eqn:Ecs.
  2: { exists [Fails t]. eapply steps_one; [eapply step_list_fail, at_phase_lookup|].
       rewrite failed_at. by destruct s. }
  set (desired := foldl _ ∅ cs).
  assert (stps (at_phase t Reported s) (Moves t :: repeat (Moves t) (length cs) ++ [Moves t]) (at_phase t (Listed desired) s)) as Hl.
  { econstructor; [eapply step_list; [apply at_phase_lookup|done]|]. rewrite at_phase_twice.
    eapply steps_app; [apply list_all|]. 
    eapply steps_one; [apply step_listed, at_phase_lookup|apply at_phase_twice]. }
  destruct (snapshot_for_host _ _ _ _ (sy_db s)) as [[current|e] db1] eqn:Eq.
  2: { eexists. eapply steps_app; [exact Hl|]. 
       eapply steps_one; [eapply step_snapshot_fail; [apply at_phase_lookup|done]|exact (failed_at t (Listed desired) (set_db db1 s))]. }
  assert (stps (at_phase t Reported s) ((Moves t :: repeat (Moves t) (length cs) ++ [Moves t]) ++ [Snapshots t])
            (at_phase t (Diffed (diff desired current)) (set_db db1 s))) as Hd.
  { eapply steps_app; [exact Hl|]. 
    eapply steps_one; [eapply step_snapshot; [apply at_phase_lookup|done]|exact (at_phase_twice t _ (Listed desired) (set_db db1 s))]. }
  destruct (transaction _ _ _ db1) as [[] db2] eqn:Etx; eexists; (eapply steps_app; [exact Hd|]).
  - eapply steps_one; [eapply step_commit; [apply at_phase_lookup|done]|exact (succeeded_at t (Diffed _) (set_db db2 s))].
  - eapply steps_one; [eapply step_commit_fail; [apply at_phase_lookup|done]|exact (failed_at t (Diffed _) (set_db db2 s))].
Qed.

(** The steps of a run that is left alone are those of [reconcile_once]: they
    end as it ends, with the state, the updates and the table it leaves. *)
Theorem run_alone t emit now_ms (s : Sys Db) :
  let '(r, y, sent, db') :=
    reconcile_once to_lowercase parse_json post cfg (sy_podman s) (sy_podman s) emit now_ms (sy_sync s) (sy_db s) in
  exists hs, stps (at_phase t Begun s) hs
    (ends r t (mkSys (sy_podman s) (sy_events s) db' y (sy_tasks s) (sy_sent s ++ sent))).
Proof.
  unfold reconcile_once, desired_container_statuses.
  destruct (containers_list (sy_podman s)) as [cs|e] eqn:Ecs.
  2: { exists [Fails t]. rewrite app_nil_r. eapply steps_one; [eapply step_containers_fail, at_phase_lookup|].
       rewrite failed_at. by destruct s. }
  set (all := foldl _ ∅ cs).
  destruct (reconcile_container_status_snapshot _ all _ _ emit) as [[snapshot deltas] sent] eqn:Er.
  set (s1 := mkSys (sy_podman s) (sy_events s) (sy_db s) (mkSyncState snapshot false) (sy_tasks s) (sy_sent s ++ sent)).
  assert (exists hs, stps (at_phase t Begun s) hs (at_phase t Reported s1)) as [hs1 Hs1].
  { eexists. econstructor; [eapply step_containers; [apply at_phase_lookup|done]|]. rewrite at_phase_twice.
    eapply steps_app; [apply inspect_all|]. econstructor; [apply step_take, at_phase_lookup|].
    eapply steps_one; [eapply step_report; [apply at_phase_lookup|exact Er]|].
    transitivity (at_phase t Reported (at_phase t (Taken all (y_resync (sy_sync s))) (at_phase t (Inspecting [] all) s1)));
      [done|by rewrite !at_phase_twice]. }
  pose proof (endpoints_alone t now_ms s1) as H2. cbn [sy_podman sy_db s1] in H2.
  destruct (desired_endpoints _ _ _ _) as [desired|]; [destruct (snapshot_for_host _ _ _ _ _) as [[current|] db1];
    [destruct (transaction _ _ _ db1) as [[] db2]|]|];
    destruct H2 as [hs2 H2]; exists (hs1 ++ hs2); (eapply steps_app; [exact Hs1|exact H2]).
Qed.
End Alone.

(* ------------------------------------------------------------------ *)
(** ** What the receiver of the updates knows *)

(** It holds the state of every container in the snapshot. *)
Definition knows (snapshot : gmap string ContainerStatus) (v : gmap string string) : Prop :=
  forall id st, snapshot !! id = Some st -> v !! id = Some (cs_state st).

(** Statuses by id, none of which reads as the end of a container. *)
Definition reportable (m : gmap string ContainerStatus) : Prop :=
  forall id st, m !! id = Some st -> cs_container_id st = id /\ cs_state st <> "removed".

Lemma filter_all {A} (f : A -> bool) (l : list A) :
  length (filter (fun a => f a = true) l) = length l -> forallb f l = true.
Proof.
  induction l as [|a l IH]; [done|]. rewrite filter_cons. cbn [forallb length].
  pose proof (length_filter (fun a => f a = true) l) as Hle. case_decide as Ha; cbn [length]; intros Hl; [|lia].
  rewrite Ha. apply IH. lia.
Qed.

(** A report that was taken whole has been sent whole. *)
Lemma whole_report host emit deltas :
  let us := container_resource_status_updates_from_deltas host deltas in
  length (fst <$> filter (fun ua => ua.2 = true) (imap (fun i u => (u, emit i u)) us)) = length deltas ->
  forallb snd (imap (fun i u => (u, emit i u)) us) = true.
Proof.
  intros us Hlen. rewrite length_fmap in Hlen. apply filter_all.
  rewrite Hlen, length_imap. unfold us, container_resource_status_updates_from_deltas. by rewrite length_fmap.
Qed.

(** A report keeps it so, unless it was only taken in part; a forced one makes it
    so. *)
Lemma report_known snapshot all force host emit snapshot' deltas sent v :
  reconcile_container_status_snapshot snapshot all force host emit = (snapshot', deltas, sent) -> reportable all ->
  force = true \/ knows snapshot v /\ outcome_of deltas sent <> PartTaken -> knows snapshot' (foldl apply_update v sent).
Proof.
  unfold reconcile_container_status_snapshot. set (base := if force then ∅ else snapshot). intros Hr Hall Hk.
  assert (knows base v) as Hb.
  { subst base. destruct force; [intros id st; by rewrite lookup_empty|]. by destruct Hk as [|[? _]]. }
  destruct (diff_container_statuses all base) as [|d0 ds] eqn:Hd; [by injection Hr as <- <- <-|].
  set (us := container_resource_status_updates_from_deltas host (d0 :: ds)) in Hr.
  apply pair_equal_spec in Hr as [[<- <-]%pair_equal_spec <-].
  destruct (forallb snd (imap (fun i u => (u, emit i u)) us)) eqn:Hf.
  - rewrite (all_accepted emit us Hf). intros id st Hid. unfold us, container_resource_status_updates_from_deltas.
    rewrite (statuses_applied host all (fun id s H => proj1 (Hall id s H)) (fun id s H => proj2 (Hall id s H)) base)
      by (by rewrite Hd).
    rewrite Hid. case_decide; [by apply Hb|done].
  - destruct Hk as [->|[_ Hp]]; [intros id st; subst base; by rewrite lookup_empty|].
    unfold outcome_of in Hp. case_decide as Hl; [apply (whole_report host emit (d0 :: ds)) in Hl; subst us; congruence|].
    by destruct (fst <$> _).
Qed.

(** The snapshot a report that was taken whole leaves. *)
Lemma report_advances snapshot all force host emit snapshot' deltas sent :
  reconcile_container_status_snapshot snapshot all force host emit = (snapshot', deltas, sent) -> reportable all ->
  outcome_of deltas sent = AllTaken -> snapshot' = all.
Proof.
  unfold reconcile_container_status_snapshot. intros Hr Hall Ho.
  destruct (diff_container_statuses all _) as [|d0 ds] eqn:Hd.
  { injection Hr as <- <- <-. by apply no_changes; [intros id st [? _]%Hall|]. }
  apply pair_equal_spec in Hr as [[<- <-]%pair_equal_spec <-].
  unfold outcome_of in Ho. case_decide as Hl; [by rewrite (whole_report host emit (d0 :: ds) Hl)|by destruct (fst <$> _)].
Qed.

Section Reporting.
Context (to_lowercase : string -> string) (parse_json : string -> option json) {Db : Type}
  (post : string -> json -> Db -> option (Z * string) * Db) (table : Db -> Table) (cfg : SyncConfig).
Notation stp := (step to_lowercase parse_json post table cfg).
Notation stps := (steps to_lowercase parse_json post table cfg).

(** Podman has no state called [removed]. *)
Definition states_ok (p : Podman) : Prop :=
  (forall cs c, containers_list p = Ok cs -> c ∈ cs -> to_lowercase (c_state c) <> "removed") /\
  (forall id i st, inspect_container p id = Ok i -> ci_state i = Some st -> to_lowercase (st_status st) <> "removed").
Definition podman_ok (h : Happening) : Prop := match h with PodmanChanges p => states_ok p | _ => True end.

Definition phase_reportable (ph : Phase) : Prop :=
  match ph with
  | Inspecting rest out => Forall (fun c => to_lowercase (c_state c) <> "removed") rest /\ reportable out
  | Taken all _ => reportable all
  | _ => True
  end.

Definition reporting (s : Sys Db) : Prop :=
  states_ok (sy_podman s) /\ forall t ph, sy_tasks s !! t = Some ph -> phase_reportable ph.

Lemma status_from_ok p c answer :
  states_ok p -> to_lowercase (c_state c) <> "removed" ->
  answer = inspect_container p (c_id c) \/ is_ok answer = false ->
  cs_state (status_from to_lowercase c answer) <> "removed".
Proof.
  intros [_ Hi] Hc Ha. unfold status_from. cbn [cs_state].
  assert (forall st, ((match answer with Ok i => Some i | Err _ => None end ≫= ci_state) ≫=
            (fun s => non_empty (to_lowercase (st_status s)))) = Some st -> st <> "removed") as Hst.
  { intros st (s & (i & Hai & His)%bind_Some & Hs)%bind_Some. destruct answer as [i'|]; [|done]. injection Hai as ->.
    destruct Ha as [Ha|]; [|done]. unfold non_empty in Hs. destruct (is_empty _); [done|]. injection Hs as <-.
    by eapply Hi. }
  destruct (_ ≫= _) as [st|]; [specialize (Hst st eq_refl); by destruct st|].
  by destruct (to_lowercase (c_state c)).
Qed.

Lemma reportable_insert p out c answer :
  states_ok p -> to_lowercase (c_state c) <> "removed" ->
  answer = inspect_container p (c_id c) \/ is_ok answer = false ->
  reportable out -> reportable (<[c_id c := status_from to_lowercase c answer]> out).
Proof. intros Hp Hc Ha Ho id st [[<- <-]|[_ H]]%lookup_insert_Some; [split; [done|by eapply status_from_ok]|by apply Ho]. Qed.

Lemma at_phase_reporting t ph s : reporting s -> phase_reportable ph -> reporting (at_phase t ph s).
Proof.
  intros (Hp & Ht) Hph. split; [done|]. cbn.
  intros t' ph' [[<- <-]|[_ H]]%lookup_insert_Some; [done|by eapply Ht].
Qed.

Lemma succeeded_reporting t s : reporting s -> reporting (succeeded t s).
Proof. intros (Hp & Ht). split; [done|]. cbn. intros t' ph' [_ H]%lookup_delete_Some. by eapply Ht. Qed.

Lemma failed_reporting t s : reporting s -> reporting (failed t s).
Proof. intros H. destruct t; [by apply succeeded_reporting|by apply at_phase_reporting]. Qed.

Lemma step_reporting s h s' : stp s h s' -> podman_ok h -> reporting s -> reporting s'.
Proof.
  intros Hs Ha Hr. pose proof Hr as (Hp & Ht). destruct Hs.
  all: try (apply failed_reporting; exact Hr); try (apply succeeded_reporting; exact Hr).
  all: try (apply at_phase_reporting; [exact Hr|done]); try exact Hr.
  - by split.
  - apply at_phase_reporting; [exact Hr|]. split; [|intros id st; by rewrite lookup_empty].
    apply Forall_forall. intros c Hc. by eapply (proj1 Hp).
  - apply at_phase_reporting; [exact Hr|]. destruct (Ht _ _ H) as [[Hc Hrest]%Forall_cons Ho].
    split; [done|]. by eapply reportable_insert.
  - apply at_phase_reporting; [exact Hr|]. apply (Ht _ _ H).
Qed.

Lemma steps_reporting s hs s' : stps s hs s' -> Forall podman_ok hs -> reporting s -> reporting s'.
Proof.
  induction 1 as [s|s h s1 hs s2 Hst Hss IH]; [done|]. intros [Hh Hhs]%Forall_cons Hr.
  apply IH; [done|]. by eapply step_reporting.
Qed.

Notation known v s := (knows (y_snapshot (sy_sync s)) (foldl apply_update v (sy_sent s))).

Lemma step_known v s h s' :
  stp s h s' -> reporting s ->
  (exists t o, h = Reports t true o) \/ known v s /\ (forall t, h <> Reports t false PartTaken) -> known v s'.
Proof.
  intros Hs [_ Ht] Hk. destruct Hs; try (by destruct Hk as [(t' & o & ?)|[? _]]);
    try (by destruct t; destruct Hk as [(t' & o & ?)|[? _]]).
  cbn. rewrite foldl_app. eapply report_known; [done|exact (Ht _ _ H)|]. destruct Hk as [(t' & o & E)|[Hk Hp]].
  - injection E as _ -> _. by left.
  - destruct force; [by left|]. right. split; [done|]. intros Ho. apply (Hp t). by rewrite Ho.
Qed.

Lemma steps_known v s hs s' :
  stps s hs s' -> Forall podman_ok hs -> reporting s -> known v s ->
  (forall t, Reports t false PartTaken ∉ hs) -> known v s'.
Proof.
  induction 1 as [s|s h s1 hs s2 Hst Hss IH]; [done|]. intros [Hh Hhs]%Forall_cons Hr Hk Hp.
  apply IH; [done|by eapply step_reporting| |intros t Hin; apply (Hp t); by right].
  eapply step_known; [done|done|]. right. split; [done|]. intros t ->. apply (Hp t). left.
Qed.

Lemma steps_last v s hs s' t o :
  stps s hs s' -> Forall podman_ok hs -> reporting s -> last hs = Some (Reports t true o) -> known v s'.
Proof.
  induction 1 as [s|s h s1 hs s2 Hst Hss IH]; [done|]. intros [Hh Hhs]%Forall_cons Hr Hl.
  destruct hs as [|h' hs].
  - inversion Hss; subst. injection Hl as ->. eapply step_known; [done|done|]. left. eauto.
  - apply IH; [done|by eapply step_reporting|exact Hl].
Qed.

(** C34. The reports of the two tasks do not contradict each other: since the
    snapshot is only advanced under the lock under which the updates are sent, and
    only when flux has taken all of them, a receiver that applies the updates in
    the order they were sent holds, after any interleaving, the state the snapshot
    has for every container in it.  It needs to have held them at the start, or
    there was a forced report since; and since then no other report was taken only
    in part.  A report that was taken whole leaves the statuses its run has
    gathered as the snapshot. *)
Theorem reports_agree v s hs1 s1 hs2 s2 :
  sy_tasks s = ∅ -> states_ok (sy_podman s) -> stps s hs1 s1 -> stps s1 hs2 s2 -> Forall podman_ok (hs1 ++ hs2) ->
  known v s1 \/ (exists t o, last hs1 = Some (Reports t true o)) ->
  (forall t, Reports t false PartTaken ∉ hs2) ->
  known v s2 /\
  forall t force s3, stp s2 (Reports t force AllTaken) s3 ->
    sy_tasks s2 !! t = Some (Taken (y_snapshot (sy_sync s3)) force).
Proof.
  intros Ht Hp Hs1 Hs2 [Ha1 Ha2]%Forall_app Hk Hpart.
  assert (reporting s) as Hr by (split; [done|]; intros t ph; by rewrite Ht, lookup_empty).
  assert (known v s1) as Hk1 by (destruct Hk as [|(t & o & Hl)]; [done|by eapply steps_last]).
  pose proof (steps_reporting _ _ _ Hs1 Ha1 Hr) as Hr1. split; [by eapply steps_known|].
  pose proof (steps_reporting _ _ _ Hs2 Ha2 Hr1) as [_ Hph].
  intros t force s3 Hst. inversion Hst as [| | | | | | | | | | |? ? all ? ? snapshot deltas sent Htk Hrec| | | | | | | | |]; subst.
  cbn. rewrite Htk. do 2 f_equal. symmetry. eapply report_advances; [done|exact (Hph _ _ Htk)|done].
Qed.
End Reporting.

(* ------------------------------------------------------------------ *)
(** ** Running a schedule *)

Section Schedule.
Context (to_lowercase : string -> string) (parse_json : string -> option json) {Db : Type}
  (post : string -> json -> Db -> option (Z * string) * Db) (table : Db -> Table) (cfg : SyncConfig).
Context (emit : nat -> ResourceStatusUpdate -> bool) (now_ms : Z).

(** The state after [h], if it can happen, with the answers flux and the clock give. *)
Definition next (s : Sys Db) (h : Happening) : option (Sys Db) :=
  match h with
  | PodmanChanges p => Some (mkSys p (sy_events s) (sy_db s) (sy_sync s) (sy_tasks s) (sy_sent s))
  | PodmanEvent e =>
      if (length (sy_events s) <? EVENT_CAPACITY)%nat
      then Some (mkSys (sy_podman s) (sy_events s ++ [e]) (sy_db s) (sy_sync s) (sy_tasks s) (sy_sent s)) else None
  | Replicates => None
  | ResyncRequested => Some (set_sync (mkSyncState (y_snapshot (sy_sync s)) true) s)
  | Moves t =>
      match sy_tasks s !! t with
      | None =>
          match t, sy_events s with
          | ReconcileLoop, _ => Some (at_phase ReconcileLoop Begun s)
          | EventTrigger, _ :: q =>
              Some (at_phase EventTrigger Begun (mkSys (sy_podman s) q (sy_db s) (sy_sync s) (sy_tasks s) (sy_sent s)))
          | EventTrigger, [] => None
          end
      | Some BackingOff => Some (succeeded t s)
      | Some Begun =>
          match containers_list (sy_podman s) with Ok cs => Some (at_phase t (Inspecting cs ∅) s) | Err _ => None end
      | Some (Inspecting (c :: rest) out) =>
          Some (at_phase t (Inspecting rest (<[c_id c := status_of to_lowercase (sy_podman s) c]> out)) s)
      | Some (Inspecting [] all) =>
          Some (at_phase t (Taken all (y_resync (sy_sync s))) (set_sync (mkSyncState (y_snapshot (sy_sync s)) false) s))
      | Some Reported =>
          match containers_list (sy_podman s) with Ok cs => Some (at_phase t (Listing cs ∅) s) | Err _ => None end
      | Some (Listing (c :: rest) out) =>
          Some (at_phase t (Listing rest
            (add_container to_lowercase (sy_podman s) (network_to_ns (y_namespaces cfg)) (y_host_mgmt_ip cfg) out c)) s)
      | Some (Listing [] out) => Some (at_phase t (Listed out) s)
      | Some (Taken _ _ | Listed _ | Diffed _) => None
      end
  | Reports t b o =>
      match sy_tasks s !! t with
      | Some (Taken all force) =>
          let '(snapshot, deltas, sent) :=
            reconcile_container_status_snapshot (y_snapshot (sy_sync s)) all force (y_host_mgmt_ip cfg) emit in
          if decide (force = b /\ outcome_of deltas sent = o)
          then Some (at_phase t Reported
                 (mkSys (sy_podman s) (sy_events s) (sy_db s) (mkSyncState snapshot (y_resync (sy_sync s)))
                    (sy_tasks s) (sy_sent s ++ sent)))
          else None
      | _ => None
      end
  | Skips t =>
      match sy_tasks s !! t with
      | Some (Listing (c :: rest) out) =>
          match inspect_container (sy_podman s) (c_id c) with
          | Ok _ => Some (at_phase t (Listing rest out) s)
          | Err _ => None
          end
      | _ => None
      end
  | Snapshots t =>
      match sy_tasks s !! t with
      | Some (Listed desired) =>
          match snapshot_for_host parse_json post (y_base_url cfg) (y_host_mgmt_ip cfg) (sy_db s) with
          | (Ok current, db) => Some (at_phase t (Diffed (diff desired current)) (set_db db s))
          | _ => None
          end
      | _ => None
      end
  | Commits t =>
      match sy_tasks s !! t with
      | Some (Diffed deltas) =>
          match transaction post (y_base_url cfg) (build_statements now_ms deltas) (sy_db s) with
          | (true, db) => Some (succeeded t (set_db db s))
          | _ => None
          end
      | _ => None
      end
  | Fails t =>
      match sy_tasks s !! t with
      | Some (Begun | Reported) => Some (failed t s)
      | Some (Listed _) =>
          match snapshot_for_host parse_json post (y_base_url cfg) (y_host_mgmt_ip cfg) (sy_db s) with
          | (Err _, db) => Some (failed t (set_db db s))
          | _ => None
          end
      | Some (Diffed deltas) =>
          match transaction post (y_base_url cfg) (build_statements now_ms deltas) (sy_db s) with
          | (false, db) => Some (failed t (set_db db s))
          | _ => None
          end
      | _ => None
      end
  end.

Fixpoint schedule (s : Sys Db) (hs : list Happening) : option (Sys Db) :=
  match hs with
  | [] => Some s
  | h :: hs' => next s h ≫= (fun s1 => schedule s1 hs')
  end.

Lemma next_step s h s' : next s h = Some s' -> step to_lowercase parse_json post table cfg s h s'.
Proof.
  intros Hn. destruct h; cbn [next] in Hn; try done;
    repeat (case_match; try done); simplify_eq; try (by econstructor; eauto).
  - apply step_event. by apply Nat.ltb_lt.
  - eapply step_add; [done|apply walk_perm].
  - match goal with H : _ /\ _ |- _ => destruct H as [<- <-] end. by eapply step_report.
Qed.

Lemma schedule_steps hs : forall s s', schedule s hs = Some s' -> steps to_lowercase parse_json post table cfg s hs s'.
Proof.
  induction hs as [|h hs IH]; intros s s'; cbn [schedule]; [intros [= <-]; constructor|].
  intros (s1 & H1 & H2)%bind_Some. econstructor; [by apply next_step|by apply IH].
Qed.
End Schedule.

(* ------------------------------------------------------------------ *)
(** ** A host whose container exits *)

Module Demo.
Import CooldSync.Demo.

(** The one container, running and then exited. *)
Definition inspected (status : string) : Podman := mkPodman
  (Ok [mkContainer "abc" ["web"] "nginx" status])
  (fun _ => Ok (mkInspect "abc" "/web" (Some {["coolify-default-mesh" := "10.210.0.4"]})
                  (Some (mkState status None))))
  map_to_list (fun m => Permutation_refl _).
Definition running : Podman := inspected "running".
Definition exited : Podman := inspected "exited".
Definition row (status : string) : Endpoint :=
  mkEndpoint "abc" "web" "default" host "10.210.0.4" status "unknown".

(** A Corrosion that holds one or the other row, or none. *)
Inductive Db := IsRunning | IsExited | IsGone.
Definition table (db : Db) : Table :=
  match db with
  | IsRunning => {["abc" := (row "running", 7)]}
  | IsExited => {["abc" := (row "exited", 7)]}
  | IsGone => ∅
  end.
Definition parse_json (s : string) : option json :=
  if decide (s = "running") then Some (row_frame 0 (row "running"))
  else if decide (s = "exited") then Some (row_frame 0 (row "exited"))
  else if decide (s = "columns") then Some (JObj [("columns", JArr [])])
  else if decide (s = "eoq") then Some (JObj [("eoq", JNull)]) else None.
Definition rows_in (db : Db) : list Endpoint :=
  match db with IsRunning => [row "running"] | IsExited => [row "exited"] | IsGone => [] end.
Definition post (url : string) (body : json) (db : Db) : option (Z * string) * Db :=
  if decide (url = y_base_url cfg +:+ "/v1/queries")
  then (Some (200, CooldSync.Demo.answer (match db with IsRunning => "running" | IsExited => "exited" | IsGone => "" end)), db)
  else match body with
       | JArr js =>
           match mapM of_json js ≫= (fun ss => exec_all ss (table db)) with
           | Some t =>
               if decide (t = table IsRunning) then (Some (200, ""), IsRunning)
               else if decide (t = table IsExited) then (Some (200, ""), IsExited)
               else if decide (t = table IsGone) then (Some (200, ""), IsGone) else (Some (500, ""), db)
           | None => (Some (500, ""), db)
           end
       | _ => (Some (500, ""), db)
       end.

#[export] Instance exit_laws : CorrosionLaws parse_json post table (y_base_url cfg) (y_host_mgmt_ip cfg).
Proof.
  split.
  - intros ss db r db'. unfold post. rewrite decide_False by done.
    assert (mapM of_json (to_json <$> ss) = Some ss) as ->.
    { apply mapM_Some, Forall2_fmap_l, Forall_Forall2_diag, Forall_true. by intros [q ps]. }
    cbn [mbind option_bind]. destruct (exec_all ss (table db)) as [t|]; [|by intros [= <- <-]].
    repeat case_decide; intros [= <- <-]; cbn -[table]; congruence.
  - intros db r db'. unfold post. rewrite decide_True by done. intros [= <- <-]. split; [done|]. intros _.
    exists (JArr []), (rows_in db), JNull.
    destruct db; (split; [apply Permutation_refl'; vm_compute; reflexivity|vm_compute; reflexivity]).
  - intros db id e at_ms. destruct db; cbn [table]; [rewrite lookup_singleton_Some; naive_solver..|].
    by rewrite lookup_empty.
Qed.

#[export] Instance exit_lost : LostLaws post table (y_base_url cfg) (y_host_mgmt_ip cfg).
Proof.
  split; intros *; unfold post.
  - rewrite decide_False by done. destruct (_ ≫= _); repeat case_decide; done.
  - by rewrite decide_True.
Qed.

Notation stps := (steps same parse_json post table cfg).
Notation stp := (step same parse_json post table cfg).

Definition settled (p : Podman) (db : Db) (sent : list ResourceStatusUpdate) : Sys Db :=
  mkSys p [] db (mkSyncState ∅ false) ∅ sent.

(** The run of one task, from its first step on. *)
Definition whole (t : Task) : list Happening :=
  [Moves t; Moves t; Moves t; Moves t; Reports t false AllTaken; Moves t; Moves t; Moves t; Snapshots t; Commits t].
Definition nobody : gmap string string := ∅.

(** The loop lists the endpoints; then the container exits, the event arrives
    and the trigger runs; then the loop goes on. *)
Definition listing : list Happening := take 8 (whole ReconcileLoop).
Definition overtaken : list Happening :=
  PodmanEvent (Stop, "abc") :: whole EventTrigger ++ [Snapshots ReconcileLoop; Commits ReconcileLoop].
Definition after (s : Sys Db) (hs : list Happening) : Sys Db :=
  default s (schedule same parse_json post cfg always 7 s hs).
Definition changed : Sys Db := after (settled running IsRunning []) (listing ++ [PodmanChanges exited]).
Definition undone : Sys Db := after changed overtaken.

Lemma after_steps s hs : is_Some (schedule same parse_json post cfg always 7 s hs) -> stps s hs (after s hs).
Proof. intros [s' Hs]. unfold after. rewrite Hs. by eapply schedule_steps. Qed.

Ltac scheduled := apply after_steps; vm_compute; by eexists.

Lemma exited_rows : desired_endpoints same exited (y_namespaces cfg) host = Ok {["abc" := row "exited"]}.
Proof. vm_compute. reflexivity. Qed.

Lemma overtaken_commits t : Commits t ∈ overtaken.
Proof. unfold overtaken, whole. destruct t; set_solver. Qed.

(** A run that listed the containers before a change and commits after the run
    the change caused takes the change back: both runs succeed, nothing is under
    way, no event is waiting, and the table has the container running that has
    exited. *)
Theorem overtaken_run_undoes :
  exists hs s', stps (settled running IsRunning []) hs s' /\
    Commits EventTrigger ∈ hs /\ Commits ReconcileLoop ∈ hs /\ (forall t, Fails t ∉ hs) /\
    sy_podman s' = exited /\ sy_tasks s' = ∅ /\ sy_events s' = [] /\
    rows_of host (table (sy_db s')) = {["abc" := row "running"]}.
Proof.
  exists ((listing ++ [PodmanChanges exited]) ++ overtaken), undone. split.
  { eapply steps_app; scheduled. }
  split; [|split; [|split]].
  - apply elem_of_app. right. apply overtaken_commits.
  - apply elem_of_app. right. apply overtaken_commits.
  - intros t. unfold overtaken, listing, whole. cbn. set_solver.
  - repeat split; vm_compute; reflexivity.
Qed.

Lemma exited_reported : reported same (y_namespaces cfg) host exited "abc" (row "exited").
Proof. apply (endpoints_reported same (y_namespaces cfg) host exited _ "abc" (row "exited") exited_rows). vm_compute. reflexivity. Qed.

Lemma inspected_single status : single_attached (y_namespaces cfg) (inspected status).
Proof.
  intros id i m net1 ip1 ns1 net2 ip2 ns2 [= <-]. cbn. intros [= <-].
  intros [<- _]%lookup_singleton_Some [<- _]%lookup_singleton_Some. done.
Qed.

Lemma tasks_settle_witness :
  rows_of host (table (sy_db undone)) !! "abc" = Some (row "running") /\
  rows_of host (table (sy_db (after undone (whole ReconcileLoop)))) !! "abc" = Some (row "exited").
Proof.
  split; [vm_compute; reflexivity|].
  apply (tasks_settle same parse_json post table cfg exited [mkContainer "abc" ["web"] "nginx" "exited"]
           changed overtaken undone ReconcileLoop (whole ReconcileLoop)).
  - reflexivity.
  - apply inspected_single.
  - vm_compute. reflexivity.
  - scheduled.
  - scheduled.
  - repeat constructor.
  - intros [] ph Hph _; [|left; apply overtaken_commits].
    assert (sy_tasks changed !! EventTrigger = None) as Hn by (vm_compute; reflexivity). congruence.
  - intros ph. assert (sy_tasks undone !! ReconcileLoop = None) as -> by (vm_compute; reflexivity). done.
  - unfold whole. set_solver.
  - exact exited_reported.
Defined.

(** One inspection that fails while the endpoints are listed takes the row of a
    running container out of the table, in a run that succeeds. *)
Definition missed (t : Task) : list Happening := take 6 (whole t) ++ [Skips t; Moves t; Snapshots t; Commits t].
Theorem failed_inspection_drops_row :
  exists hs s', stps (settled running IsRunning []) hs s' /\ (forall t, Fails t ∉ hs) /\
    sy_podman s' = running /\ sy_tasks s' = ∅ /\
    reported same (y_namespaces cfg) host running "abc" (row "running") /\ rows_of host (table (sy_db s')) = ∅.
Proof.
  exists (missed ReconcileLoop), (after (settled running IsRunning []) (missed ReconcileLoop)).
  split; [scheduled|]. split; [intros t; unfold missed, whole; cbn; set_solver|].
  split; [vm_compute; reflexivity|]. split; [vm_compute; reflexivity|]. split; [|vm_compute; reflexivity].
  apply (endpoints_reported same (y_namespaces cfg) host running {["abc" := row "running"]}); vm_compute; reflexivity.
Qed.

(** A container on two managed networks has the row of either, as the hash map
    happens to be walked. *)
Definition twice : gmap string string := {["coolify-default-mesh" := "10.210.0.4"; "coolify-apps-mesh" := "10.211.0.4"]}.
Definition attached_twice (order : gmap string string -> list (string * string)) (H : forall m, order m ≡ₚ map_to_list m) : Podman :=
  mkPodman (Ok [mkContainer "abc" ["web"] "nginx" "running"])
    (fun _ => Ok (mkInspect "abc" "/web" (Some twice) (Some (mkState "running" None)))) order H.
Definition two_namespaces : list NamespaceConfig :=
  [mkNamespaceConfig "default" "coolify-default-mesh" (Net.V4 0); mkNamespaceConfig "apps" "coolify-apps-mesh" (Net.V4 0)].
Theorem dual_attachment_is_random :
  exists order order' H H' e e',
    desired_endpoints same (attached_twice order H) two_namespaces host = Ok {["abc" := e]} /\
    desired_endpoints same (attached_twice order' H') two_namespaces host = Ok {["abc" := e']} /\
    ep_namespace e <> ep_namespace e'.
Proof.
  exists map_to_list, (fun m => reverse (map_to_list m)), (fun m => Permutation_refl _), (fun m => reverse_Permutation _).
  do 2 eexists. split; [vm_compute; reflexivity|]. split; [vm_compute; reflexivity|]. vm_compute. discriminate.
Qed.

Lemma inspected_ok status : status <> "removed" -> states_ok same (inspected status).
Proof.
  intros H. split.
  - intros cs c [= <-] ->%list_elem_of_singleton. exact H.
  - intros id i st [= <-] [= <-]. exact H.
Qed.

Lemma reports_agree_witness :
  foldl apply_update nobody (sy_sent changed) !! "abc" = Some "running".
Proof.
  refine (proj1 (reports_agree same parse_json post table cfg nobody (settled running IsRunning []) []
            (settled running IsRunning []) (listing ++ [PodmanChanges exited]) changed eq_refl (inspected_ok "running" ltac:(done))
            (steps_nil _ _ _ _ _ _) ltac:(scheduled) _ _ _) "abc" (mkStatus "abc" "web" "nginx" "running") _).
  - repeat constructor; by apply inspected_ok.
  - left. intros id st H. cbn in H. by rewrite lookup_empty in H.
  - intros t. unfold listing, whole. cbn. set_solver.
  - vm_compute. reflexivity.
Defined.

(** The receiver of a report that was taken in part can be left with a state the
    host no longer has: what it took is not in the snapshot, so the change back is
    not sent. *)
Definition one_of_two (i : nat) (u : ResourceStatusUpdate) : bool := (i =? 0)%nat.
Definition status (id st : string) : ContainerStatus := mkStatus id id "nginx" st.
Definition two (st1 st2 : string) : gmap string ContainerStatus := {["a" := status "a" st1; "b" := status "b" st2]}.
Theorem partial_report_lingers :
  let first := reconcile_container_status_snapshot (two "running" "running") (two "exited" "exited") false host one_of_two in
  let second := reconcile_container_status_snapshot first.1.1 (two "running" "running") false host always in
  let v := cs_state <$> two "running" "running" in
  outcome_of first.1.2 first.2 = PartTaken /\ second.2 = [] /\ second.1.1 = two "running" "running" /\
  foldl apply_update v (first.2 ++ second.2) <> cs_state <$> two "running" "running".
Proof. vm_compute. split_and!; [reflexivity|reflexivity|reflexivity|discriminate]. Qed.
End Demo.
