(* ===== verification/CorrosionQuery.v ===== *)
(** * Lookups in the replicated table

    The rest of [coold/src/corrosion/client.rs]: the endpoints of a service,
    which of them are trusted, and the dump of the tables.  The HTTP client,
    [serde_json] and the [Display] of a status code are parameters; the frames of
    an answer are read as in [CooldSync]. *)

From S2P Require Import Prelude RustStr Messages Host CooldSync.
Local Open Scope Z_scope.

Record ServiceEndpoint := mkService { se_container_ip : string; se_host_mgmt_ip : string }.
#[export] Instance ServiceEndpoint_eq_dec : EqDecision ServiceEndpoint.
Proof. solve_decision. Defined.

Definition LOOKUP_SQL : string :=
  "SELECT container_ip, host_mgmt_ip FROM service_endpoints WHERE container_name = ? AND namespace = ? AND state = 'running' AND health IN ('healthy', 'unknown')".
Definition TABLES_SQL : string :=
  "SELECT name FROM sqlite_schema WHERE type = 'table' AND name NOT LIKE 'sqlite_%' ORDER BY name".

(** [CorrosionClient::new]: the address without slashes at its end. *)
Definition base_url_of (url : string) : string := trim_end_char "/" url.

(** The rows a lookup trusts; the warnings it logs are left out. *)
Definition select_endpoint_ips (rows : list ServiceEndpoint) (expected_owner : option string) : list string :=
  match expected_owner with
  | Some owner => se_container_ip <$> filter (fun r => se_host_mgmt_ip r = owner) rows
  | None => se_container_ip <$> rows
  end.

Definition quote_identifier (value : string) : string := dq +:+ replace_char "034" (dq +:+ dq) value +:+ dq.

Section Query.
Context {W : Type} (parse_json : string -> option json) (show_status : Z -> string).
Context (to_string_pretty : json -> string).
(** One POST: the status, and the body unless reading it fails. *)
Context (http_post : string -> json -> Io W (Z * result string Error)).
Context (base_url : string).
Local Open Scope rust_scope.

Definition endpoint_of (values : list json) : option ServiceEndpoint :=
  ip ← string_at values 0; owner ← string_at values 1; Some (mkService ip owner).

Definition parse_endpoint_rows (bytes : string) : list ServiceEndpoint :=
  omap (fun line => row_values parse_json line ≫= endpoint_of) (split nl bytes).

Definition parse_value_rows (bytes : string) : list (list json) := omap (row_values parse_json) (split nl bytes).

(** The text of a successful query. *)
Definition post_query (sql : string) (params : list json) : Io W string :=
  let url := base_url +:+ "/v1/queries" in
  let! res := with_context ("POST " +:+ url) (http_post url (JArr [JStr sql; JArr params])) in
  let! bytes := with_context "read queries response" (io_lift res.2) in
  if negb (is_success res.1) then
    io_fail (anyhow ("corrosion query failed: HTTP " +:+ show_status res.1 +:+ ": " +:+ from_utf8_lossy bytes))
  else io_ret bytes.

Definition query_values (sql : string) (params : list json) : Io W (list (list json)) :=
  let! bytes := post_query sql params in io_ret (parse_value_rows bytes).

Definition query_endpoints_by_name (container_name namespace : string) : Io W (list ServiceEndpoint) :=
  let! bytes := post_query LOOKUP_SQL [JStr container_name; JStr namespace] in io_ret (parse_endpoint_rows bytes).

Definition query_ips_by_name_owned (container_name namespace : string) (expected_owner : option string)
    : Io W (list string) :=
  let! rows := query_endpoints_by_name container_name namespace in
  io_ret (select_endpoint_ips rows expected_owner).

Definition query_ips_by_name (container_name namespace : string) : Io W (list string) :=
  query_ips_by_name_owned container_name namespace None.

(** *** The dump of the tables *)

Record CorrosionTable := mkTable { tb_name : string; tb_columns : list string; tb_rows : list (list json) }.

Definition table_json (t : CorrosionTable) : json :=
  JObj [("name", JStr (tb_name t)); ("columns", jstrs (tb_columns t)); ("rows", JArr (JArr <$> tb_rows t))].

Definition dump_table (limit : Z) (name : string) : Io W CorrosionTable :=
  let! columns := query_values ("PRAGMA table_info(" +:+ quote_identifier name +:+ ")") [] in
  let! rows := query_values ("SELECT * FROM " +:+ quote_identifier name +:+ " LIMIT " +:+ show_Z limit) [] in
  io_ret (mkTable name (omap (fun row => string_at row 1) columns) rows).

Fixpoint dump_tables (limit : Z) (names : list string) : Io W (list CorrosionTable) :=
  match names with
  | [] => io_ret []
  | name :: rest =>
      let! t := dump_table limit name in
      let! ts := dump_tables limit rest in
      io_ret (t :: ts)
  end.

(** [limit.clamp(1, 1000)]. *)
Definition clamp (lo hi z : Z) : Z := Z.max lo (Z.min hi z).

Definition tables_json (limit : Z) : Io W string :=
  let limit := clamp 1 1000 limit in
  let! names := query_values TABLES_SQL [] in
  let! tables := dump_tables limit (omap (fun row => string_at row 0) names) in
  io_ret (to_string_pretty (JObj [("limit", JNum limit); ("tables", JArr (table_json <$> tables))])).
End Query.

(* ------------------------------------------------------------------ *)
(** ** Properties *)

(** The rows a lookup selects. *)
Definition resolvable (name namespace : string) (e : Endpoint) : bool :=
  bool_decide (ep_container_name e = name) && bool_decide (ep_namespace e = namespace) &&
  bool_decide (ep_state e = "running") && bool_decide (ep_health e ∈ ["healthy"; "unknown"]).

Lemma resolvable_spec name namespace e :
  resolvable name namespace e = true <->
  ep_container_name e = name /\ ep_namespace e = namespace /\ ep_state e = "running" /\
  (ep_health e = "healthy" \/ ep_health e = "unknown").
Proof. unfold resolvable. rewrite !andb_true_iff, !bool_decide_eq_true. set_solver. Qed.

Definition service_rows (name namespace : string) (t : Table) : list ServiceEndpoint :=
  (fun kv => mkService (ep_container_ip kv.2.1) (ep_host_mgmt_ip kv.2.1)) <$>
    filter (fun kv => resolvable name namespace kv.2.1 = true) (map_to_list t).

(** What Corrosion answers to a lookup: the rows its text selects, in any order,
    and nothing changes. *)
Class LookupLaws {W : Type} (parse_json : string -> option json)
    (http_post : string -> json -> Io W (Z * result string Error)) (base_url : string) (table : W -> Table) : Prop :=
  law_lookup name namespace w status bytes w' :
    http_post (base_url +:+ "/v1/queries") (JArr [JStr LOOKUP_SQL; JArr [JStr name; JStr namespace]]) w =
      (Ok (status, Ok bytes), w') ->
    table w' = table w /\
    (is_success status = true -> parse_endpoint_rows parse_json bytes ≡ₚ service_rows name namespace (table w)).

Section Lookup.
Context {W : Type} (parse_json : string -> option json) (show_status : Z -> string)
  (http_post : string -> json -> Io W (Z * result string Error)) (base_url : string) (table : W -> Table)
  `{!LookupLaws parse_json http_post base_url table}.

Lemma query_ips_spec name namespace owner w ips w' :
  query_ips_by_name_owned parse_json show_status http_post base_url name namespace owner w = (Ok ips, w') ->
  table w' = table w /\
  forall ip, ip ∈ ips <->
    exists id e at_ms, table w !! id = Some (e, at_ms) /\ resolvable name namespace e = true /\
      ep_container_ip e = ip /\ match owner with Some o => ep_host_mgmt_ip e = o | None => True end.
Proof.
  unfold query_ips_by_name_owned, query_endpoints_by_name, post_query. intros H.
  apply io_bind_Ok in H as (rows & w1 & H & [= <- <-]).
  apply io_bind_Ok in H as (bytes & w2 & H & [= <- <-]).
  apply io_bind_Ok in H as ([status body] & w3 & H1%with_context_Ok & H).
  apply io_bind_Ok in H as (bytes' & w4 & H2%with_context_Ok & H). cbn [snd fst] in *.
  unfold io_lift in H2. injection H2 as -> <-.
  destruct (is_success status) eqn:Hs; cbn [negb] in H; [|done]. injection H as <- <-.
  destruct (law_lookup _ _ _ _ _ _ H1) as [Ht Hp]. specialize (Hp Hs). split; [done|]. intros ip.
  assert (forall r, r ∈ parse_endpoint_rows parse_json bytes' <-> exists id e at_ms, table w !! id = Some (e, at_ms) /\
            resolvable name namespace e = true /\ r = mkService (ep_container_ip e) (ep_host_mgmt_ip e)) as Hr.
  { intros r. rewrite Hp. unfold service_rows. rewrite list_elem_of_fmap. split.
    - intros ([id [e at_ms]] & -> & [Hres Hm%elem_of_map_to_list]%list_elem_of_filter). by exists id, e, at_ms.
    - intros (id & e & at_ms & Hm & Hres & ->). exists (id, (e, at_ms)). split; [done|].
      apply list_elem_of_filter. split; [done|]. by apply elem_of_map_to_list. }
  unfold select_endpoint_ips. destruct owner as [o|]; rewrite list_elem_of_fmap.
  - setoid_rewrite list_elem_of_filter. setoid_rewrite Hr. split.
    + intros (r & -> & <- & id & e & at_ms & Hm & Hres & ->). by exists id, e, at_ms.
    + intros (id & e & at_ms & Hm & Hres & <- & <-). eexists. split; [|split; [|by exists id, e, at_ms]]; done.
  - setoid_rewrite Hr. split.
    + intros (r & -> & id & e & at_ms & Hm & Hres & ->). by exists id, e, at_ms.
    + intros (id & e & at_ms & Hm & Hres & <- & _). eexists. split; [|by exists id, e, at_ms]. done.
Qed.
End Lookup.

(** *** Quoted identifiers *)

(** How SQLite reads a quoted identifier: a doubled quote stands for one, a
    single one ends it. *)
Fixpoint read_quoted (s : string) : option (string * string) :=
  match s with
  | "" => None
  | String a r =>
      if decide (a = "034"%char) then
        match r with
        | String b r' =>
            if decide (b = "034"%char) then (fun xy => (String a xy.1, xy.2)) <$> read_quoted r' else Some ("", r)
        | "" => Some ("", "")
        end
      else (fun xy => (String a xy.1, xy.2)) <$> read_quoted r
  end.

(** An identifier that is quoted is read back as it was, whatever characters it
    holds, and what follows it is left alone: the name of a table cannot add to a
    statement. *)
Theorem quote_identifier_reads_back value rest :
  first_char rest <> Some "034"%char ->
  exists body, quote_identifier value +:+ rest = dq +:+ body /\ read_quoted body = Some (value, rest).
Proof.
  intros Hr. unfold quote_identifier. exists (replace_char "034" (dq +:+ dq) value +:+ dq +:+ rest).
  split; [by rewrite !string_app_assoc|]. unfold dq. rewrite (string_app_cons "034" "" rest), string_app_nil_l.
  induction value as [|a value IH].
  - cbn [replace_char]. rewrite string_app_nil_l. cbn [read_quoted]. rewrite decide_True by done.
    destruct rest as [|b rest]; [done|]. rewrite decide_False; [done|]. intros ->. done.
  - cbn [replace_char]. case_decide as Ha.
    + subst a. set (escaped := replace_char "034" _ value) in *. change (((String "034" "" +:+ String "034" "") +:+ escaped) +:+ ?x) with (String "034" (String "034" (escaped +:+ x))).
      cbn [read_quoted]. rewrite !decide_True by done. by rewrite IH.
    + rewrite string_app_cons. cbn [read_quoted]. rewrite decide_False by done. by rewrite IH.
Qed.

(* ------------------------------------------------------------------ *)
(** ** A replica that answers lookups *)

(** The rows of [CooldSync.Demo], after its reconciliation, on any machine. *)
Module Demo.
Import CooldSync.Demo.

Definition replica : Table := CooldSync.Demo.table After.
Definition lookup_row (e : Endpoint) : json :=
  JObj [("row", JArr [JNum 1; JArr [JStr (ep_container_ip e); JStr (ep_host_mgmt_ip e)]])].
Definition parse_lookup (s : string) : option json :=
  if decide (s = "web") then Some (lookup_row web) else if decide (s = "far") then Some (lookup_row foreign) else None.

Definition lookup_text (name namespace : string) : string :=
  (if resolvable name namespace web then "web" +:+ lf else "") +:+
  (if resolvable name namespace foreign then "far" +:+ lf else "").
Definition lookup_post {W} (url : string) (body : json) : Io W (Z * result string Error) := fun w =>
  match body with
  | JArr [JStr q; JArr [JStr name; JStr namespace]] =>
      (Ok (200, Ok (if decide (q = LOOKUP_SQL) then lookup_text name namespace else "")), w)
  | _ => (Ok (400, Ok ""), w)
  end.

Lemma replica_rows : map_to_list replica ≡ₚ [("abc", (web, 7)); ("far", (foreign, 2))].
Proof.
  unfold replica, CooldSync.Demo.table. rewrite map_to_list_insert by done. by rewrite map_to_list_singleton.
Qed.

#[export] Instance lookup_laws W : LookupLaws (W := W) parse_lookup lookup_post (y_base_url cfg) (fun _ => replica).
Proof.
  intros name namespace w status bytes w' H. split; [done|]. intros _. unfold lookup_post in H.
  rewrite decide_True in H by done. injection H as <- <- <-. unfold service_rows. rewrite replica_rows.
  unfold lookup_text. rewrite !filter_cons, filter_nil. cbn [fst snd].
  destruct (resolvable name namespace web), (resolvable name namespace foreign); vm_compute; reflexivity.
Qed.

Lemma quote_identifier_reads_back_witness :
  exists body, quote_identifier ("a" +:+ dq +:+ "b") +:+ " LIMIT 1" = dq +:+ body /\
    read_quoted body = Some ("a" +:+ dq +:+ "b", " LIMIT 1").
Proof. apply quote_identifier_reads_back. discriminate. Defined.
End Demo.
