(* ===== verification/Firewall.v ===== *)
(** * The firewall rules of the agent

    The firewall part of [coold/src/grpc/handlers.rs]: which containers may reach
    which, kept in a file of tab-separated lines, in a snapshot for [iptables] and
    one for [nft], and in the two kernel chains.  The lookup of endpoints is that
    of [CorrosionQuery]; the commands and files are the host's. *)

From S2P Require Import Prelude RustStr RustPath Messages Net Host CooldSync CorrosionQuery.
Local Open Scope Z_scope.

Definition FIREWALL_STATE_PATH : string := "/etc/coolify/firewall-rules.tsv".
Definition FIREWALL_ALLOW_RULES_PATH : string := "/etc/coolify/allow.rules".
Definition FIREWALL_BRIDGE_ALLOW_RULES_PATH : string := "/etc/coolify/allow.nft".

#[export] Instance FirewallRule_eq_dec : EqDecision FirewallRule.
Proof. solve_decision. Defined.

(** [EndpointOwnerCheck]. *)
Record EndpointOwnerCheck := mkOwnerCheck { oc_host_mgmt_ip : string; oc_strict : bool }.
Definition dst_owner (c : EndpointOwnerCheck) : option string :=
  if oc_strict c then Some (oc_host_mgmt_ip c) else None.

(** [FirewallRule::from(ProtoFirewallRule)]; the other direction changes nothing. *)
Definition rule_from_proto (r : FirewallRule) : FirewallRule :=
  mkFirewallRule (fr_namespace r) (fr_src r) (fr_dst r) (if is_empty (fr_proto r) then "tcp" else fr_proto r)
    (fr_port r) (fr_id r).

(* ------------------------------------------------------------------ *)
(** ** Rendering and parsing *)

Definition tab : ascii := "009"%char.

Definition cidr (value : string) : string := if contains_char "/" value then value else value +:+ "/32".

(** The match and the target of a rule, as [iptables] takes them. *)
Definition rule_spec (r : FirewallRule) : list string :=
  ["-s"; cidr (fr_src r); "-d"; cidr (fr_dst r); "-p"; fr_proto r; "--dport"; show_Z (fr_port r);
   "-m"; "comment"; "--comment"; "coolify-fw:" +:+ fr_id r; "-j"; "ACCEPT"].

Definition firewall_iptables_insert_args (r : FirewallRule) : list string :=
  ["-I"; "COOLIFY-ALLOW"; "1"] ++ rule_spec r.

(** The words of a rule, as [nft] takes them. *)
Definition nft_words (r : FirewallRule) : list string :=
  ["meta"; "protocol"; "ip"; "ip"; "saddr"; fr_src r; "ip"; "daddr"; fr_dst r; fr_proto r; "dport";
   show_Z (fr_port r); "accept"].

Definition firewall_nft_add_args (r : FirewallRule) : list string :=
  ["add"; "rule"; "bridge"; "coolify_bridge"; "coolify_allow"] ++ nft_words r.

Definition state_fields (r : FirewallRule) : list string :=
  [fr_id r; fr_namespace r; fr_src r; fr_dst r; fr_proto r; show_Z (fr_port r)].

Definition render_firewall_state (rules : list FirewallRule) : string :=
  join lf ((fun r => join (String tab "") (state_fields r)) <$> rules) +:+ lf.

Definition iptables_line (r : FirewallRule) : string := "-A COOLIFY-ALLOW " +:+ join " " (rule_spec r).
Definition render_iptables_snapshot (rules : list FirewallRule) : string :=
  join lf (["*filter"] ++ (iptables_line <$> rules) ++ ["COMMIT"]) +:+ lf.

Definition nft_line (r : FirewallRule) : string :=
  "add rule bridge coolify_bridge coolify_allow " +:+ join " " (nft_words r).
Definition render_nft_snapshot (rules : list FirewallRule) : string := join lf (nft_line <$> rules) +:+ lf.

(** Lines of six fields; those of five are from before rules had an id. *)
Definition parse_firewall_rule_line (line : string) : option FirewallRule :=
  match split tab line with
  | [id; namespace; src; dst; proto; port] =>
      p ← parse_uint u32_max port; Some (mkFirewallRule namespace src dst proto p id)
  | [namespace; src; dst; proto; port] =>
      p ← parse_uint u32_max port; Some (mkFirewallRule namespace src dst proto p "")
  | _ => None
  end.

Definition validate_firewall_rule (r : FirewallRule) : result unit Error :=
  if is_empty (fr_id r) then Err (anyhow "firewall rule id is required")
  else if is_empty (fr_namespace r) || is_empty (fr_src r) || is_empty (fr_dst r)
  then Err (anyhow "firewall rule namespace, src, and dst are required")
  else if negb (bool_decide (fr_proto r = "tcp") || bool_decide (fr_proto r = "udp"))
  then Err (anyhow ("unsupported firewall protocol: " +:+ fr_proto r))
  else if (fr_port r =? 0) || (65535 <? fr_port r) then Err (anyhow "firewall port must be between 1 and 65535")
  else Ok ().

Definition is_ip_or_cidr (value : string) : bool :=
  match split "/" value with
  | address :: _ => match parse_ipv4 address with Some _ => true | None => false end
  | [] => false
  end.

Definition firewall_endpoint_ip (value namespace : string) (ips : list string) : result (option string) Error :=
  match ips with
  | [] => Ok None
  | [ip] => Ok (Some ip)
  | _ => Err (anyhow ("firewall endpoint " +:+ value +:+ " in namespace " +:+ namespace +:+ " resolved to multiple IPs"))
  end.

(* ------------------------------------------------------------------ *)
(** ** Operations *)

Section Operations.
Context {W : Type} `{!Host W}.
(** [CorrosionClient::query_ips_by_name_owned]. *)
Context (query_ips : string -> string -> option string -> Io W (list string)).
Local Open Scope rust_scope.

Definition container_ip (container network : string) : Io W string :=
  let! value := with_context "inspect Caddy ingress container IP"
    (run_logged_command "inspect Caddy ingress container IP"
      ["podman"; "inspect"; container; "--format";
       "{{(index .NetworkSettings.Networks " +:+ dq +:+ network +:+ dq +:+ ").IPAddress}}"]) in
  if is_empty (trim value) then io_fail (anyhow "Caddy ingress container IP is empty") else io_ret (trim value).

Definition resolve_firewall_endpoint (value namespace network : string) (expected_owner : option string) : Io W string :=
  if is_ip_or_cidr value then io_ret (trim_end_matches "/32" value)
  else
    let! ips := with_context ("query Corrosion endpoint " +:+ value +:+ " in namespace " +:+ namespace)
                  (query_ips value namespace expected_owner) in
    let! ip := io_lift (firewall_endpoint_ip value namespace ips) in
    match ip with
    | Some ip => io_ret ip
    | None => with_context ("resolve firewall endpoint " +:+ value +:+ " on " +:+ network) (container_ip value network)
    end.

Definition resolve_firewall_rule (rule : FirewallRule) (check : EndpointOwnerCheck) : Io W FirewallRule :=
  let network := "coolify-" +:+ fr_namespace rule +:+ "-mesh" in
  let! src := resolve_firewall_endpoint (fr_src rule) (fr_namespace rule) network None in
  let! dst := resolve_firewall_endpoint (fr_dst rule) (fr_namespace rule) network (dst_owner check) in
  io_ret (mkFirewallRule (fr_namespace rule) src dst (fr_proto rule) (fr_port rule) (fr_id rule)).

Definition load_firewall_rules : Io W (list FirewallRule) := fun w =>
  if negb (path_exists FIREWALL_STATE_PATH w) then (Ok [], w)
  else (let! content := with_context "read Coolify firewall rules" (read_to_string FIREWALL_STATE_PATH) in
        io_ret (omap parse_firewall_rule_line (lines content))) w.

Definition save_firewall_rules (rules : list FirewallRule) : Io W unit :=
  with_context "create Coolify config directory" (create_dir_all "/etc/coolify");;
  with_context "write Coolify firewall state" (write_file FIREWALL_STATE_PATH (render_firewall_state rules));;
  with_context "write Coolify iptables allow snapshot"
    (write_file FIREWALL_ALLOW_RULES_PATH (render_iptables_snapshot rules));;
  with_context "write Coolify bridge allow snapshot"
    (write_file FIREWALL_BRIDGE_ALLOW_RULES_PATH (render_nft_snapshot rules)).

Definition apply_firewall_rule (rule : FirewallRule) : Io W unit :=
  with_context "apply Coolify iptables allow rule"
    (run_logged_command "apply Coolify iptables allow rule" ("iptables" :: firewall_iptables_insert_args rule));;
  with_context "apply Coolify bridge allow rule"
    (run_logged_command "apply Coolify bridge allow rule" ("nft" :: firewall_nft_add_args rule));;
  io_ret ().

(** [firewall_allow] from the loaded rules on. *)
Definition allow_commit (normalized : FirewallRule) (rules : list FirewallRule) : Io W (string * string) :=
  save_firewall_rules (filter (fun r => fr_id r <> fr_id normalized) rules ++ [normalized]);;
  apply_firewall_rule normalized;;
  io_ret (fr_id normalized, "Firewall rule applied.").

Definition firewall_allow (rule : FirewallRule) (check : EndpointOwnerCheck) : Io W (string * string) :=
  let! _ := io_lift (validate_firewall_rule rule) in
  let! normalized := resolve_firewall_rule rule check in
  let! rules := load_firewall_rules in
  allow_commit normalized rules.

Definition flush_iptables : list string := ["iptables"; "-F"; "COOLIFY-ALLOW"].
Definition restore_iptables : list string :=
  ["sh"; "-c"; "iptables-restore --noflush < " +:+ FIREWALL_ALLOW_RULES_PATH].
Definition flush_nft : list string := ["nft"; "flush"; "chain"; "bridge"; "coolify_bridge"; "coolify_allow"].
Definition restore_nft : list string := ["nft"; "-f"; FIREWALL_BRIDGE_ALLOW_RULES_PATH].

Definition firewall_reconcile : Io W string :=
  let! rules := load_firewall_rules in
  save_firewall_rules rules;;
  with_context "flush Coolify allow iptables chain"
    (run_logged_command "flush Coolify allow iptables chain" flush_iptables);;
  with_context "restore Coolify allow iptables snapshot"
    (run_logged_command "restore Coolify allow iptables snapshot" restore_iptables);;
  with_context "flush Coolify bridge allow chain" (run_logged_command "flush Coolify bridge allow chain" flush_nft);;
  with_context "restore Coolify bridge allow snapshot"
    (run_logged_command "restore Coolify bridge allow snapshot" restore_nft);;
  io_ret "Firewall rules reconciled.".

Definition firewall_revoke (id : string) : Io W string :=
  let! rules := load_firewall_rules in
  let kept := filter (fun r => fr_id r <> id) rules in
  if (length kept =? length rules)%nat then io_fail (anyhow ("firewall rule not found: " +:+ id))
  else
    save_firewall_rules kept;;
    firewall_reconcile;;
    io_ret "Firewall rule removed.".

Definition firewall_list (namespace : string) : Io W (list FirewallRule) :=
  let! rules := load_firewall_rules in
  io_ret (if negb (is_empty namespace) then filter (fun r => fr_namespace r = namespace) rules else rules).
End Operations.

(* ------------------------------------------------------------------ *)
(** ** The state file *)

(** Fields that a line holds: no tab, no line feed. *)
Definition field_ok (s : string) : bool := negb (contains_char tab s) && negb (contains_char nl s).
Definition storable (r : FirewallRule) : Prop :=
  forallb field_ok [fr_id r; fr_namespace r; fr_src r; fr_dst r; fr_proto r] = true /\ is_u32 (fr_port r).

(** Lines joined by line feeds, and one at the end, unless there are none. *)
Lemma strip_cr_digits a z : strip_cr (a +:+ show_Z z) = a +:+ show_Z z.
Proof.
  unfold strip_cr. assert (forall s, last_char s <> Some cr -> strip_suffix (String cr "") s = None) as H.
  { induction s as [|c s IH]; [done|]. intros Hl. cbn [strip_suffix].
    rewrite decide_False by (intros [= -> ->]; done). rewrite IH; [done|]. destruct s; [done|exact Hl]. }
  rewrite H; [done|]. rewrite last_char_app by apply show_Z_nonempty.
  pose proof (show_Z_chars z) as Hc. intros Hl.
  assert (forall s c, all_chars is_digit s = true -> last_char s = Some c -> is_digit c = true) as Hd.
  { induction s as [|a' s IH]; [done|]. simpl. intros c [Ha Hs]%andb_true_iff. destruct s; [by intros [= <-]|auto]. }
  by specialize (Hd _ _ Hc Hl).
Qed.

Lemma no_nl_digits z : contains_char nl (show_Z z) = false /\ contains_char tab (show_Z z) = false.
Proof. split; (eapply all_chars_no_char; [|apply show_Z_chars]; done). Qed.

Lemma field_ok_spec s : field_ok s = true -> contains_char tab s = false /\ contains_char nl s = false.
Proof. unfold field_ok. destruct (contains_char tab s), (contains_char nl s); done. Qed.

Lemma state_line_no_nl r : storable r -> contains_char nl (join (String tab "") (state_fields r)) = false.
Proof.
  intros [Hf _]. cbn [forallb] in Hf. rewrite !andb_true_iff in Hf. destruct Hf as (H1 & H2 & H3 & H4 & H5 & _).
  apply field_ok_spec in H1 as [_ H1], H2 as [_ H2], H3 as [_ H3], H4 as [_ H4], H5 as [_ H5].
  pose proof (no_nl_digits (fr_port r)) as [Hp _]. cbn [join state_fields].
  by rewrite !contains_char_app, H1, H2, H3, H4, H5, Hp.
Qed.

Lemma parse_state_line r : storable r ->
  parse_firewall_rule_line (join (String tab "") (state_fields r)) = Some r.
Proof.
  intros [Hf Hp]. cbn [forallb] in Hf. rewrite !andb_true_iff in Hf. destruct Hf as (H1 & H2 & H3 & H4 & H5 & _).
  apply field_ok_spec in H1 as [H1 _], H2 as [H2 _], H3 as [H3 _], H4 as [H4 _], H5 as [H5 _].
  unfold parse_firewall_rule_line. rewrite split_join_char; [|done|].
  - cbn [state_fields]. rewrite parse_uint_show by exact Hp. by destruct r.
  - pose proof (no_nl_digits (fr_port r)) as [_ Hd]. unfold state_fields. by repeat constructor.
Qed.

Definition parse_state (content : string) : list FirewallRule := omap parse_firewall_rule_line (lines content).

(** Reading the rules that were written gives them back, as long as their fields
    hold no tab and no line feed. *)
Theorem firewall_state_roundtrip rules :
  Forall storable rules -> parse_state (render_firewall_state rules) = rules.
Proof.
  intros H. unfold parse_state, render_firewall_state. destruct rules as [|r0 rs]; [reflexivity|].
  rewrite lines_join; [| |apply Forall_fmap; eapply Forall_impl; [exact H|] ..]; [|done| |].
  - induction H as [|r rules Hr Hrs IH]; [done|]. rewrite fmap_cons. cbn -[parse_firewall_rule_line join state_fields]. rewrite parse_state_line by done.
    by rewrite IH.
  - intros r Hr. by apply state_line_no_nl.
  - intros r Hr. cbn [join state_fields compose]. rewrite !string_app_assoc. apply strip_cr_digits.
Qed.

(** *** Every rule that was read can be written *)

Lemma parsed_storable content : Forall storable (parse_state content).
Proof.
  apply Forall_forall. intros r (line & Hl & Hr)%list_elem_of_omap.
  pose proof (line_no_nl _ _ Hl) as Hn. unfold parse_firewall_rule_line in Hr.
  assert (forall p, p ∈ split tab line -> field_ok p = true) as Hf.
  { intros p Hp. unfold field_ok. by rewrite (split_piece _ _ _ Hp), (split_sub nl _ _ _ Hp Hn). }
  remember (split tab line) as ps eqn:E. clear E Hl Hn.
  repeat match type of Hr with context [match ?x with _ => _ end] => destruct x end; try done;
    apply bind_Some in Hr as (port & Hport & [= <-]); unfold storable; cbn [fr_id fr_namespace fr_src fr_dst fr_proto fr_port forallb];
    (split; [rewrite !andb_true_iff; repeat split; first [reflexivity|apply Hf; set_solver]|by eapply parse_uint_range]).
Qed.

(* ------------------------------------------------------------------ *)
(** ** Files *)

Section Files.
Context {W : Type} `{!Host W} (files : W -> gmap string File) `{!HostLaws W files}.

(** The rules on disk. *)
Definition rules_of (w : W) : list FirewallRule :=
  match files w !! FIREWALL_STATE_PATH with Some f => parse_state (f_data f) | None => [] end.

Definition firewall_files : list string :=
  [FIREWALL_STATE_PATH; FIREWALL_ALLOW_RULES_PATH; FIREWALL_BRIDGE_ALLOW_RULES_PATH].

Lemma load_spec w rules w' :
  load_firewall_rules w = (Ok rules, w') -> rules = rules_of w /\ forall q, files w' !! q = files w !! q.
Proof.
  unfold load_firewall_rules, rules_of. destruct (path_exists FIREWALL_STATE_PATH w) eqn:E; cbn [negb].
  - intros H. io_inv H. pose proof (law_read FIREWALL_STATE_PATH w) as Hr. rewrite Hs in Hr. cbn in Hr.
    destruct (law_read_Ok _ _ _ _ Hs) as [m ->]. split; [done|]. intros q. apply Hr. set_solver.
  - intros [= <- <-]. by rewrite (law_exists _ _ E).
Qed.

Lemma save_spec rules w w' :
  save_firewall_rules rules w = (Ok (), w') ->
  f_data <$> files w' !! FIREWALL_STATE_PATH = Some (render_firewall_state rules) /\
  f_data <$> files w' !! FIREWALL_ALLOW_RULES_PATH = Some (render_iptables_snapshot rules) /\
  f_data <$> files w' !! FIREWALL_BRIDGE_ALLOW_RULES_PATH = Some (render_nft_snapshot rules) /\
  same_but files firewall_files w w'.
Proof.
  unfold save_firewall_rules. intros H. io_inv H.
  pose proof (law_mkdir "/etc/coolify" w) as H0. rewrite Hs in H0. cbn in H0.
  destruct (law_write_Ok _ _ _ _ Hs0) as [m1 E1]. pose proof (law_write FIREWALL_STATE_PATH (render_firewall_state rules) w0) as S1.
  destruct (law_write_Ok _ _ _ _ Hs1) as [m2 E2]. pose proof (law_write FIREWALL_ALLOW_RULES_PATH (render_iptables_snapshot rules) w1) as S2.
  destruct (law_write_Ok _ _ _ _ H) as [m3 E3]. pose proof (law_write FIREWALL_BRIDGE_ALLOW_RULES_PATH (render_nft_snapshot rules) w2) as S3.
  rewrite Hs0 in S1. rewrite Hs1 in S2. rewrite H in S3. cbn in *. unfold firewall_files. split; [|split; [|split]].
  - rewrite S3, S2, E1 by set_solver. done.
  - rewrite S3, E2 by set_solver. done.
  - by rewrite E3.
  - intros q Hq. rewrite S3, S2, S1, H0 by set_solver. done.
Qed.

Lemma saved_rules rules w w' :
  save_firewall_rules rules w = (Ok (), w') -> Forall storable rules -> rules_of w' = rules.
Proof.
  intros H Hr. destruct (save_spec _ _ _ H) as (Hs & _). unfold rules_of.
  destruct (files w' !! FIREWALL_STATE_PATH) as [f|]; [|done]. injection Hs as ->. by apply firewall_state_roundtrip.
Qed.

Lemma rules_of_storable w : Forall storable (rules_of w).
Proof. unfold rules_of. destruct (files w !! _); [apply parsed_storable|constructor]. Qed.

Lemma rules_of_same w w' :
  (forall q, q ∈ firewall_files -> files w' !! q = files w !! q) -> rules_of w' = rules_of w.
Proof. intros H. unfold rules_of. by rewrite H by set_solver. Qed.
End Files.

(* ------------------------------------------------------------------ *)
(** ** The kernel's chains *)

(** Text [iptables-restore] and [nft] split at spaces only. *)
Definition word_char (c : ascii) : bool := visible c && negb (bool_decide (c ∈ ["034"; "'"; "092"]%char)).
Definition plain_char (c : ascii) : bool := word_char c || bool_decide (c = " "%char) || bool_decide (c = nl).

Definition restored (content : string) : list (list string) :=
  omap (fun l => split " " <$> strip_prefix "-A COOLIFY-ALLOW " l) (lines content).
Definition nft_restored (content : string) : list (list string) :=
  omap (fun l => split " " <$> strip_prefix "add rule bridge coolify_bridge coolify_allow " l) (lines content).

(** The commands of this file. *)
Definition firewall_command (argv : list string) : Prop :=
  argv ∈ [flush_iptables; restore_iptables; flush_nft; restore_nft] \/
  (exists spec, argv = ["iptables"; "-I"; "COOLIFY-ALLOW"; "1"] ++ spec) \/
  (exists words, argv = ["nft"; "add"; "rule"; "bridge"; "coolify_bridge"; "coolify_allow"] ++ words) \/
  (exists args, argv = "podman" :: "inspect" :: args).

(** [iptables] and [nft], as their manuals describe them: a command that
    succeeds changes the chain as it says and nothing else; [podman inspect] and
    file operations leave the two chains alone, and none of these commands writes
    the agent's files.  [ipt] and [nft] are the rules of the chains
    [COOLIFY-ALLOW] and [coolify_allow], in order. *)
Class KernelLaws {W : Type} `{Host W} (files : W -> gmap string File) (ipt nft : W -> list (list string)) : Prop := {
  kernel_files argv w q : firewall_command argv -> q ∈ firewall_files -> files (output argv w).2 !! q = files w !! q;
  kernel_write p s w : ipt (write_file p s w).2 = ipt w /\ nft (write_file p s w).2 = nft w;
  kernel_mkdir p w : ipt (create_dir_all p w).2 = ipt w /\ nft (create_dir_all p w).2 = nft w;
  kernel_read p w : ipt (read_to_string p w).2 = ipt w /\ nft (read_to_string p w).2 = nft w;
  kernel_podman args w : ipt (output ("podman" :: "inspect" :: args) w).2 = ipt w /\
    nft (output ("podman" :: "inspect" :: args) w).2 = nft w;
  kernel_ipt_insert spec w o w' : output (["iptables"; "-I"; "COOLIFY-ALLOW"; "1"] ++ spec) w = (Ok o, w') ->
    o_success o = true -> ipt w' = spec :: ipt w /\ nft w' = nft w;
  kernel_ipt_flush w o w' : output flush_iptables w = (Ok o, w') -> o_success o = true ->
    ipt w' = [] /\ nft w' = nft w;
  kernel_ipt_restore w o w' f : output restore_iptables w = (Ok o, w') -> o_success o = true ->
    files w !! FIREWALL_ALLOW_RULES_PATH = Some f -> all_chars plain_char (f_data f) = true ->
    ipt w' = ipt w ++ restored (f_data f) /\ nft w' = nft w;
  kernel_nft_add words w o w' :
    output (["nft"; "add"; "rule"; "bridge"; "coolify_bridge"; "coolify_allow"] ++ words) w = (Ok o, w') ->
    o_success o = true -> nft w' = nft w ++ [words] /\ ipt w' = ipt w;
  kernel_nft_flush w o w' : output flush_nft w = (Ok o, w') -> o_success o = true ->
    nft w' = [] /\ ipt w' = ipt w;
  kernel_nft_restore w o w' f : output restore_nft w = (Ok o, w') -> o_success o = true ->
    files w !! FIREWALL_BRIDGE_ALLOW_RULES_PATH = Some f -> all_chars plain_char (f_data f) = true ->
    nft w' = nft w ++ nft_restored (f_data f) /\ ipt w' = ipt w;
}.

(** A rule all of whose fields are words. *)
Definition wordy (r : FirewallRule) : Prop :=
  Forall (fun s => all_chars word_char s = true) [fr_src r; fr_dst r; fr_proto r; fr_id r].

Lemma word_no_space s : all_chars word_char s = true -> contains_char " " s = false.
Proof. by apply all_chars_no_char. Qed.
Lemma word_plain s : all_chars word_char s = true -> all_chars plain_char s = true.
Proof. apply all_chars_impl. intros c Hc. unfold plain_char. by rewrite Hc. Qed.
Lemma digits_word z : all_chars word_char (show_Z z) = true.
Proof.
  eapply all_chars_impl; [|apply show_Z_chars]. intros c Hc. unfold is_digit in Hc.
  apply andb_true_iff in Hc as [H1%N.leb_le H2%N.leb_le]. unfold word_char, visible. rewrite !andb_true_iff, !N.leb_le.
  split; [lia|]. apply negb_true_iff, bool_decide_eq_false.
  intros Hin. repeat (apply elem_of_cons in Hin as [->|Hin]; [cbn in *; lia|]). by apply elem_of_nil in Hin.
Qed.
Lemma cidr_word s : all_chars word_char s = true -> all_chars word_char (cidr s) = true.
Proof. intros H. unfold cidr. destruct (contains_char "/" s); [done|]. by rewrite all_chars_app, H. Qed.

Lemma wordy_spec r : wordy r ->
  Forall (fun s => all_chars word_char s = true) (rule_spec r) /\ Forall (fun s => all_chars word_char s = true) (nft_words r).
Proof.
  unfold wordy. rewrite !Forall_cons. intros (Hs & Hd & Hp & Hi & _). pose proof (digits_word (fr_port r)) as Hport.
  pose proof (cidr_word _ Hs). pose proof (cidr_word _ Hd).
  split; unfold rule_spec, nft_words; repeat (constructor; try done).
Qed.

Lemma join_words_plain ws :
  Forall (fun s => all_chars word_char s = true) ws -> all_chars plain_char (join " " ws) = true.
Proof.
  induction 1 as [|s ws Hs Hws IH]; [done|]. destruct ws as [|s' ws]; [by apply word_plain|].
  change (join " " (s :: s' :: ws)) with (s +:+ " " +:+ join " " (s' :: ws)).
  by rewrite !all_chars_app, (word_plain _ Hs), IH.
Qed.

Lemma plain_strip_cr s : all_chars plain_char s = true -> strip_cr s = s.
Proof.
  intros H. unfold strip_cr. destruct (strip_suffix (String cr "") s) as [q|] eqn:E; [|done].
  apply strip_suffix_Some in E as ->. rewrite all_chars_app in H. apply andb_true_iff in H as [_ H]. done.
Qed.

(** The lines of a snapshot: each one after a prefix, the words of a rule. *)
Lemma words_no_nl ws : Forall (fun s => all_chars word_char s = true) ws -> contains_char nl (join " " ws) = false.
Proof.
  induction 1 as [|s ws Hs Hws IH]; [done|]. assert (contains_char nl s = false) as Hn by (by apply (all_chars_no_char word_char)).
  destruct ws as [|s' ws]; [done|]. change (join " " (s :: s' :: ws)) with (s +:+ " " +:+ join " " (s' :: ws)).
  by rewrite !contains_char_app, Hn, IH.
Qed.

Lemma join_plain ls : Forall (fun s => all_chars plain_char s = true) ls -> all_chars plain_char (join lf ls) = true.
Proof.
  induction 1 as [|s ls Hs Hls IH]; [done|]. destruct ls as [|s' ls]; [done|].
  change (join lf (s :: s' :: ls)) with (s +:+ lf +:+ join lf (s' :: ls)). by rewrite !all_chars_app, Hs, IH.
Qed.

(** The words of the lines that start with [pre], in a text of such lines. *)
Lemma restore_words (pre : string) (words : FirewallRule -> list string) rules :
  (forall r, words r <> []) ->
  Forall (fun r => Forall (fun s => all_chars word_char s = true) (words r)) rules ->
  omap (fun l => split " " <$> strip_prefix pre l) ((fun r => pre +:+ join " " (words r)) <$> rules) = words <$> rules.
Proof.
  intros Hne. induction 1 as [|r rules Hr Hrs IH]; [done|]. rewrite !fmap_cons.
  cbn -[strip_prefix join fmap]. rewrite (proj2 (strip_prefix_Some pre _ (join " " (words r))) eq_refl). cbn -[join].
  rewrite split_join_char; [by f_equal|done|]. eapply Forall_impl; [exact Hr|]. apply word_no_space.
Qed.

Lemma snapshot_restored rules : Forall wordy rules ->
  restored (render_iptables_snapshot rules) = rule_spec <$> rules /\
  all_chars plain_char (render_iptables_snapshot rules) = true.
Proof.
  intros Hw. assert (Forall (fun r => Forall (fun s => all_chars word_char s = true) (rule_spec r)) rules) as Hs
    by (eapply Forall_impl; [exact Hw|]; intros r Hr; by apply wordy_spec).
  assert (Forall (fun s => all_chars plain_char s = true) (["*filter"] ++ (iptables_line <$> rules) ++ ["COMMIT"])) as Hp.
  { apply Forall_app. split; [by repeat constructor|]. apply Forall_app. split; [|by repeat constructor].
    apply Forall_fmap. eapply Forall_impl; [exact Hs|]. intros r Hr. cbn. unfold iptables_line.
    by rewrite all_chars_app, join_words_plain. }
  unfold restored, render_iptables_snapshot. split; [|by rewrite all_chars_app, join_plain].
  rewrite lines_join; [|done| |].
  - rewrite !omap_app. change (omap _ ["*filter"]) with (@nil (list string)).
    change (omap _ ["COMMIT"]) with (@nil (list string)). rewrite app_nil_r. cbn [app].
    by apply (restore_words "-A COOLIFY-ALLOW " rule_spec).
  - apply Forall_app. split; [by repeat constructor|]. apply Forall_app. split; [|by repeat constructor].
    apply Forall_fmap. eapply Forall_impl; [exact Hs|]. intros r Hr. cbn. unfold iptables_line.
    by rewrite contains_char_app, words_no_nl.
  - eapply Forall_impl; [exact Hp|]. apply plain_strip_cr.
Qed.

Lemma nft_snapshot_restored rules : Forall wordy rules ->
  nft_restored (render_nft_snapshot rules) = nft_words <$> rules /\
  all_chars plain_char (render_nft_snapshot rules) = true.
Proof.
  intros Hw. assert (Forall (fun r => Forall (fun s => all_chars word_char s = true) (nft_words r)) rules) as Hs
    by (eapply Forall_impl; [exact Hw|]; intros r Hr; by apply wordy_spec).
  assert (Forall (fun s => all_chars plain_char s = true) (nft_line <$> rules)) as Hp.
  { apply Forall_fmap. eapply Forall_impl; [exact Hs|]. intros r Hr. cbn. unfold nft_line.
    by rewrite all_chars_app, join_words_plain. }
  unfold nft_restored, render_nft_snapshot. split; [|by rewrite all_chars_app, join_plain].
  destruct rules as [|r0 rs]; [reflexivity|]. rewrite lines_join; [|done| |].
  - by apply (restore_words "add rule bridge coolify_bridge coolify_allow " nft_words).
  - apply Forall_fmap. eapply Forall_impl; [exact Hs|]. intros r Hr. cbn. unfold nft_line.
    by rewrite contains_char_app, words_no_nl.
  - eapply Forall_impl; [exact Hp|]. apply plain_strip_cr.
Qed.

Lemma Forall_filter_keep {A} (P Q : A -> Prop) `{!forall x, Decision (Q x)} l : Forall P l -> Forall P (filter Q l).
Proof. rewrite !Forall_forall. intros Hl x [_ Hx]%list_elem_of_filter. by apply Hl. Qed.

(* ------------------------------------------------------------------ *)
(** ** What is enforced *)

Local Ltac firewall_cmd :=
  first [left; set_solver | right; left; by eexists | right; right; left; by eexists | right; right; right; by eexists].

Section Enforced.
Context {W : Type} `{!Host W} (files : W -> gmap string File) `{!HostLaws W files}.
Context (ipt nft : W -> list (list string)) `{!KernelLaws files ipt nft}.

(** The chains and the files of the firewall are as they were. *)
Definition untouched (w w' : W) : Prop :=
  ipt w' = ipt w /\ nft w' = nft w /\ forall q, q ∈ firewall_files -> files w' !! q = files w !! q.

#[local] Instance untouched_preorder : PreOrder untouched.
Proof.
  split; [by intros w|]. intros w1 w2 w3 (H1 & H2 & H3) (H4 & H5 & H6).
  split; [congruence|]. split; [congruence|]. intros q Hq. by rewrite H6, H3.
Qed.

Lemma step_files label argv w s w' q :
  run_logged_command label argv w = (Ok s, w') -> firewall_command argv -> q ∈ firewall_files -> files w' !! q = files w !! q.
Proof.
  intros H Hc Hq. pose proof (run_command_world label argv w) as Hw. rewrite H in Hw. cbn in Hw. subst w'.
  by apply kernel_files.
Qed.

Lemma load_untouched_files w rules w' q : load_firewall_rules w = (Ok rules, w') -> files w' !! q = files w !! q.
Proof. intros H. by apply (load_spec files) in H as [_ ->]. Qed.

(** The kernel's chains after a reconciliation. *)
Lemma reconcile_spec w msg w' :
  firewall_reconcile w = (Ok msg, w') -> Forall wordy (rules_of files w) ->
  rules_of files w' = rules_of files w /\
  ipt w' = rule_spec <$> rules_of files w /\ nft w' = nft_words <$> rules_of files w.
Proof.
  unfold firewall_reconcile. intros H Hw. io_inv H.
  destruct (load_spec files _ _ _ Hs) as [-> Hf0]. set (rules := rules_of files w) in *.
  destruct (save_spec files _ _ _ Hs0) as (_ & Ha & Hn & _).
  destruct (run_command_Ok _ _ _ _ _ Hs1) as (o1 & E1 & S1). destruct (kernel_ipt_flush _ _ _ E1 S1) as [I1 N1].
  destruct (run_command_Ok _ _ _ _ _ Hs2) as (o2 & E2 & S2).
  destruct (files w1 !! FIREWALL_ALLOW_RULES_PATH) as [fa|] eqn:Ea; [|done]. injection Ha as Ha.
  destruct (snapshot_restored rules Hw) as [Hrs Hpl]. rewrite <- Ha in Hrs, Hpl.
  rewrite <- (step_files _ _ _ _ _ FIREWALL_ALLOW_RULES_PATH Hs1) in Ea by first [firewall_cmd | set_solver].
  destruct (kernel_ipt_restore _ _ _ _ E2 S2 Ea Hpl) as [I2 N2].
  destruct (run_command_Ok _ _ _ _ _ Hs3) as (o3 & E3 & S3). destruct (kernel_nft_flush _ _ _ E3 S3) as [N3 I3].
  destruct (run_command_Ok _ _ _ _ _ Hs4) as (o4 & E4 & S4).
  destruct (files w1 !! FIREWALL_BRIDGE_ALLOW_RULES_PATH) as [fn|] eqn:En; [|done]. injection Hn as Hn.
  destruct (nft_snapshot_restored rules Hw) as [Hrs' Hpl']. rewrite <- Hn in Hrs', Hpl'.
  rewrite <- (step_files _ _ _ _ _ _ Hs1), <- (step_files _ _ _ _ _ _ Hs2), <- (step_files _ _ _ _ _ _ Hs3) in En
    by first [firewall_cmd | set_solver].
  destruct (kernel_nft_restore _ _ _ _ E4 S4 En Hpl') as [N4 I4].
  split; [|split].
  - etransitivity; [|apply (saved_rules files _ _ _ Hs0), rules_of_storable]. apply (rules_of_same files w1). intros q Hq.
    by rewrite (step_files _ _ _ _ _ q Hs4), (step_files _ _ _ _ _ q Hs3), (step_files _ _ _ _ _ q Hs2), (step_files _ _ _ _ _ q Hs1)
      by first [done | firewall_cmd].
  - by rewrite I4, I3, I2, I1, Hrs.
  - by rewrite N4, N3, Hrs'.
Qed.

Lemma revoke_spec id w msg w' : firewall_revoke id w = (Ok msg, w') -> Forall wordy (rules_of files w) ->
  rules_of files w' = filter (fun r => fr_id r <> id) (rules_of files w) /\
  ipt w' = rule_spec <$> rules_of files w' /\ nft w' = nft_words <$> rules_of files w'.
Proof.
  unfold firewall_revoke. intros H Hw.
  apply io_bind_Ok in H as (rules & w1 & Hl & H). destruct (load_spec files _ _ _ Hl) as [-> _].
  case_match; [done|]. io_inv H.
  assert (Forall storable (filter (fun r => fr_id r <> id) (rules_of files w))) as Hst
    by (apply Forall_filter_keep, rules_of_storable).
  pose proof (saved_rules files _ _ _ Hs Hst) as Hr.
  destruct (reconcile_spec _ _ _ Hs0) as (R & I & N); [rewrite Hr; by apply Forall_filter_keep|].
  rewrite R, I, N, Hr. done.
Qed.

(** C13. A revocation that succeeds is in force, when the fields of the rules in the
    file are words, without blanks, quotes or backslashes: the rule is gone from the
    file and from both kernel chains, which now hold exactly the rules of the file.
    One of a rule that is not there is an error after which nothing has been
    written. *)
Theorem firewall_revoke_enforced id w :
  (forall msg w', firewall_revoke id w = (Ok msg, w') -> Forall wordy (rules_of files w) ->
     rules_of files w' = filter (fun r => fr_id r <> id) (rules_of files w) /\
     ipt w' = rule_spec <$> rules_of files w' /\ nft w' = nft_words <$> rules_of files w') /\
  (forall rules w1, load_firewall_rules w = (Ok rules, w1) -> (forall r, r ∈ rules -> fr_id r <> id) ->
     firewall_revoke id w = (Err (anyhow ("firewall rule not found: " +:+ id)), w1)).
Proof.
  split.
  - intros msg w'. apply revoke_spec.
  - intros rules w1 Hl Hnone. unfold firewall_revoke, io_bind. rewrite Hl.
    assert (filter (fun r => fr_id r <> id) rules = rules) as ->.
    { clear Hl. induction rules as [|r rules IH]; [done|]. rewrite filter_cons, decide_True by (apply Hnone; left).
      f_equal. apply IH. intros r' Hr'. apply Hnone. by right. }
    by rewrite Nat.eqb_refl.
Qed.

Lemma podman_untouched label args : preserves untouched (run_logged_command label ("podman" :: "inspect" :: args)).
Proof.
  intros w. rewrite run_command_world. destruct (kernel_podman args w). split; [done|]. split; [done|].
  intros q Hq. apply kernel_files; [firewall_cmd|done].
Qed.

Context (query_ips : string -> string -> option string -> Io W (list string)).
(** A lookup in Corrosion does not change the firewall. *)
Hypothesis query_untouched : forall name ns owner, preserves untouched (query_ips name ns owner).

Lemma resolve_endpoint_untouched value ns network owner :
  preserves untouched (resolve_firewall_endpoint query_ips value ns network owner).
Proof.
  unfold resolve_firewall_endpoint. destruct (is_ip_or_cidr value); [apply preserves_ret, _|].
  apply (preserves_bind _); [apply (preserves_with_context _), query_untouched|]. intros ips.
  apply (preserves_bind _); [apply (preserves_lift _)|]. intros [ip|]; [apply (preserves_ret _)|].
  apply preserves_with_context. unfold container_ip.
  apply (preserves_bind _); [apply preserves_with_context, podman_untouched|]. intros v.
  destruct (is_empty (trim v)); [apply (preserves_fail _)|apply (preserves_ret _)].
Qed.

Lemma apply_rule_spec r w w' : apply_firewall_rule r w = (Ok (), w') ->
  ipt w' = rule_spec r :: ipt w /\ nft w' = nft w ++ [nft_words r] /\
  forall q, q ∈ firewall_files -> files w' !! q = files w !! q.
Proof.
  unfold apply_firewall_rule. intros H. io_inv H.
  destruct (run_command_Ok _ _ _ _ _ Hs) as (o1 & E1 & S1). destruct (kernel_ipt_insert _ _ _ _ E1 S1) as [I1 N1].
  destruct (run_command_Ok _ _ _ _ _ Hs0) as (o2 & E2 & S2). destruct (kernel_nft_add _ _ _ _ E2 S2) as [N2 I2].
  split; [by rewrite I2, I1|]. split; [by rewrite N2, N1|]. intros q Hq.
  by rewrite (step_files _ _ _ _ _ q Hs0), (step_files _ _ _ _ _ q Hs) by first [done | firewall_cmd].
Qed.

Lemma save_chains rules w w' : save_firewall_rules rules w = (Ok (), w') -> ipt w' = ipt w /\ nft w' = nft w.
Proof.
  unfold save_firewall_rules. intros H. io_inv H.
  pose proof (kernel_mkdir "/etc/coolify" w) as [I0 N0]. rewrite Hs in I0, N0.
  pose proof (kernel_write FIREWALL_STATE_PATH (render_firewall_state rules) w0) as [I1 N1]. rewrite Hs0 in I1, N1.
  pose proof (kernel_write FIREWALL_ALLOW_RULES_PATH (render_iptables_snapshot rules) w1) as [I2 N2]. rewrite Hs1 in I2, N2.
  pose proof (kernel_write FIREWALL_BRIDGE_ALLOW_RULES_PATH (render_nft_snapshot rules) w2) as [I3 N3]. rewrite H in I3, N3.
  cbn in *. split; congruence.
Qed.

Lemma load_chains w rules w' : load_firewall_rules w = (Ok rules, w') -> ipt w' = ipt w /\ nft w' = nft w.
Proof.
  unfold load_firewall_rules. destruct (path_exists _ w); cbn [negb]; [|by intros [= <- <-]].
  intros H. io_inv H. pose proof (kernel_read FIREWALL_STATE_PATH w) as Hr. by rewrite Hs in Hr.
Qed.

Lemma commit_spec normalized rules w r w' :
  allow_commit normalized rules w = (Ok r, w') -> Forall storable rules -> storable normalized ->
  r = (fr_id normalized, "Firewall rule applied.") /\
  rules_of files w' = filter (fun x => fr_id x <> fr_id normalized) rules ++ [normalized] /\
  ipt w' = rule_spec normalized :: ipt w /\ nft w' = nft w ++ [nft_words normalized].
Proof.
  unfold allow_commit. intros H Hst Hn. io_inv H.
  destruct (save_chains _ _ _ Hs) as [I0 N0]. destruct (apply_rule_spec _ _ _ Hs0) as (I1 & N1 & F1).
  split; [done|]. split; [|by rewrite I1, N1, I0, N0].
  rewrite (rules_of_same files _ _ F1). apply (saved_rules files _ _ _ Hs).
  apply Forall_app. split; [by apply Forall_filter_keep|by constructor].
Qed.

(** What [firewall_allow] asks for: the rule with its two ends resolved. *)
Definition resolves_to (rule normalized : FirewallRule) (check : EndpointOwnerCheck) (w w1 : W) : Prop :=
  resolve_firewall_rule query_ips rule check w = (Ok normalized, w1).

Lemma allow_spec rule check w r w' :
  firewall_allow query_ips rule check w = (Ok r, w') ->
  exists normalized w1, validate_firewall_rule rule = Ok () /\ resolves_to rule normalized check w w1 /\
    r = (fr_id rule, "Firewall rule applied.") /\
    (storable normalized ->
       rules_of files w' = filter (fun x => fr_id x <> fr_id rule) (rules_of files w) ++ [normalized] /\
       ipt w' = rule_spec normalized :: ipt w /\ nft w' = nft w ++ [nft_words normalized]).
Proof.
  unfold firewall_allow. intros H. apply io_bind_Ok in H as ([] & w0 & Hv & H).
  unfold io_lift in Hv. injection Hv as Hv <-. apply io_bind_Ok in H as (norm & w1 & Hr & H).
  apply io_bind_Ok in H as (rules & w2 & Hl & H). exists norm, w1. split; [done|]. split; [done|].
  assert (fr_id norm = fr_id rule) as Hid.
  { unfold resolve_firewall_rule in Hr. io_inv Hr. done. }
  assert (untouched w w1) as (I1 & N1 & F1).
  { unfold resolve_firewall_rule in Hr.
    pose proof (resolve_endpoint_untouched (fr_src rule) (fr_namespace rule)
                  ("coolify-" +:+ fr_namespace rule +:+ "-mesh") None w) as Ha.
    apply io_bind_Ok in Hr as (src & w3 & Hs & Hr). rewrite Hs in Ha. cbn in Ha.
    pose proof (resolve_endpoint_untouched (fr_dst rule) (fr_namespace rule)
                  ("coolify-" +:+ fr_namespace rule +:+ "-mesh") (dst_owner check) w3) as Hb.
    apply io_bind_Ok in Hr as (dst & w4 & Hd & Hr). rewrite Hd in Hb. cbn in Hb.
    unfold io_ret in Hr. injection Hr as _ <-. by etransitivity. }
  destruct (load_spec files _ _ _ Hl) as [Hrules F2]. destruct (load_chains _ _ _ Hl) as [I2 N2].
  rewrite (rules_of_same files w w1 F1) in Hrules. split.
  - unfold allow_commit in H. io_inv H. by rewrite Hid.
  - intros Hst. destruct (commit_spec _ _ _ _ _ H) as (_ & R & I & N); [subst; apply rules_of_storable|done|].
    rewrite R, I, N, I2, N2, I1, N1, Hrules, Hid. done.
Qed.

(** C14. An allowed rule is in force: it passed the checks and its ends were
    resolved; and, when no field of the resolved rule has a tab or a line feed, it
    is in the file, in place of any rule of that id, the others as they were, and
    it heads the [iptables] chain and ends the [nft] chain. *)
Theorem firewall_allow_enforced rule check w r w' :
  firewall_allow query_ips rule check w = (Ok r, w') ->
  exists normalized w1, validate_firewall_rule rule = Ok () /\ resolves_to rule normalized check w w1 /\
    r = (fr_id rule, "Firewall rule applied.") /\
    (storable normalized ->
       rules_of files w' = filter (fun x => fr_id x <> fr_id rule) (rules_of files w) ++ [normalized] /\
       ipt w' = rule_spec normalized :: ipt w /\ nft w' = nft w ++ [nft_words normalized]).
Proof. apply allow_spec. Qed.

(** Allowing an id again replaces the rule in the file but not in the kernel:
    the connection the old rule allowed stays open, though no rule of the file
    allows it. *)
Theorem reallow_keeps_old_rule rule1 rule2 check w r1 w1 r2 w2 :
  firewall_allow query_ips rule1 check w = (Ok r1, w1) -> firewall_allow query_ips rule2 check w1 = (Ok r2, w2) ->
  fr_id rule1 = fr_id rule2 ->
  exists n1 n2 wa wb, resolves_to rule1 n1 check w wa /\ resolves_to rule2 n2 check w1 wb /\
    (storable n1 -> storable n2 -> n1 <> n2 ->
       rule_spec n1 ∈ ipt w2 /\ nft_words n1 ∈ nft w2 /\ n1 ∉ rules_of files w2).
Proof.
  intros H1 H2 Hid. destruct (allow_spec _ _ _ _ _ H1) as (n1 & wa & _ & Hr1 & _ & E1).
  destruct (allow_spec _ _ _ _ _ H2) as (n2 & wb & _ & Hr2 & _ & E2).
  exists n1, n2, wa, wb. split; [done|]. split; [done|]. intros S1 S2 Hne.
  destruct (E1 S1) as (_ & I1 & N1), (E2 S2) as (R2 & I2 & N2). rewrite I2, I1, N2, N1, R2.
  assert (fr_id n1 = fr_id rule1) as Hn1.
  { unfold resolves_to, resolve_firewall_rule in Hr1. io_inv Hr1. done. }
  split; [set_solver|]. split; [set_solver|]. rewrite elem_of_app, list_elem_of_filter, list_elem_of_singleton. intros [[? _]|?]; congruence.
Qed.

(** Two [firewall.allow] commands that run at the same time lose a rule: when
    both read the file before either writes it, both succeed, and the first one's
    rule is not in the file. *)
Theorem concurrent_allows_lose_a_rule n1 n2 rules w0 wa wb r1 w1 r2 w2 :
  load_firewall_rules w0 = (Ok rules, wa) -> load_firewall_rules wa = (Ok rules, wb) ->
  allow_commit n1 rules wb = (Ok r1, w1) -> allow_commit n2 rules w1 = (Ok r2, w2) ->
  storable n2 -> n1 ∉ rules -> n1 <> n2 ->
  r1 = (fr_id n1, "Firewall rule applied.") /\ n1 ∉ rules_of files w2.
Proof.
  intros L1 L2 C1 C2 S2 Hn1 Hne. destruct (load_spec files _ _ _ L1) as [-> _]. split.
  - unfold allow_commit in C1. io_inv C1. done.
  - destruct (commit_spec _ _ _ _ _ C2 (rules_of_storable files w0) S2) as (_ & -> & _).
    rewrite elem_of_app, list_elem_of_filter, list_elem_of_singleton. naive_solver.
Qed.
End Enforced.

(* ------------------------------------------------------------------ *)
(** ** Whose container a rule opens *)

Section Owner.
Context {W : Type} `{!Host W} (parse_json : string -> option json) (show_status : Z -> string)
  (http_post : string -> json -> Io W (Z * result string Error)) (base_url : string) (table : W -> Table)
  `{!LookupLaws parse_json http_post base_url table}.
Notation query := (query_ips_by_name_owned parse_json show_status http_post base_url).

(** A row of this host for a running, healthy container of that name. *)
Definition own_row (host name namespace ip : string) (t : Table) : Prop :=
  exists id e at_ms, t !! id = Some (e, at_ms) /\ resolvable name namespace e = true /\
    ep_container_ip e = ip /\ ep_host_mgmt_ip e = host.

(** With the owner check on, a name given as the destination of a rule resolves
    to the address of a row this host wrote, or, when it wrote none, to what
    Podman itself reports; rows other hosts wrote for the name are never used,
    and several of its own rows are an error. *)
Theorem strict_dst_is_own rule check w normalized w' :
  oc_strict check = true -> is_ip_or_cidr (fr_dst rule) = false ->
  resolve_firewall_rule query rule check w = (Ok normalized, w') ->
  exists w1, let own ip := own_row (oc_host_mgmt_ip check) (fr_dst rule) (fr_namespace rule) ip (table w1) in
    own (fr_dst normalized) \/
    ((forall ip, ~ own ip) /\
     exists w2 w3, container_ip (fr_dst rule) ("coolify-" +:+ fr_namespace rule +:+ "-mesh") w2 = (Ok (fr_dst normalized), w3)).
Proof.
  intros Hstrict Hname H. unfold resolve_firewall_rule in H. apply io_bind_Ok in H as (src & w1 & _ & H).
  apply io_bind_Ok in H as (dst & w2 & Hd & H). io_inv H. cbn [fr_dst]. exists w1.
  unfold resolve_firewall_endpoint, dst_owner in Hd. rewrite Hname, Hstrict in Hd.
  apply io_bind_Ok in Hd as (ips & w3 & Hq%with_context_Ok & Hd).
  destruct (query_ips_spec _ _ _ _ table _ _ _ _ _ _ Hq) as [_ Hips].
  apply io_bind_Ok in Hd as (ip & w4 & Hip & Hd). unfold io_lift in Hip. injection Hip as Hip <-.
  unfold firewall_endpoint_ip in Hip. destruct ips as [|ip0 [|ip1 ips]]; [| |done]; injection Hip as <-.
  - right. split; [|eexists; eexists; by apply with_context_Ok in Hd].
    intros ip (id & e & at_ms & Ht & Hr & Hi & Ho). enough (ip ∈ []) by set_solver. apply Hips. by exists id, e, at_ms.
  - left. unfold io_ret in Hd. injection Hd as <- _. destruct (proj1 (Hips ip0) ltac:(set_solver)) as (id & e & at_ms & ?).
    by exists id, e, at_ms.
Qed.
End Owner.

(* ------------------------------------------------------------------ *)
(** ** What the checks let through *)

Definition crafted (evil : string) : FirewallRule :=
  mkFirewallRule "default" "10.0.0.1" "10.0.0.2" "tcp" 80 ("x" +:+ lf +:+ evil +:+ lf +:+ "y").

(** The id of a rule is not looked at beyond being there: any line at all can be
    put into the snapshot that [iptables-restore] reads. *)
Theorem crafted_id_injects_line evil :
  all_chars printable evil = true ->
  validate_firewall_rule (crafted evil) = Ok () /\ evil ∈ lines (render_iptables_snapshot [crafted evil]).
Proof.
  intros He. split; [reflexivity|].
  set (pre := "-A COOLIFY-ALLOW -s 10.0.0.1/32 -d 10.0.0.2/32 -p tcp --dport 80 -m comment --comment coolify-fw:x").
  assert (render_iptables_snapshot [crafted evil] =
            "*filter" +:+ lf +:+ pre +:+ lf +:+ evil +:+ lf +:+ "y -j ACCEPT" +:+ lf +:+ "COMMIT" +:+ lf) as ->.
  { unfold render_iptables_snapshot, iptables_line, crafted, rule_spec, pre.
    cbn -[String.append]. unfold lf. cbn. rewrite <- !string_app_assoc. reflexivity. }
  rewrite lines_cons, lines_cons, lines_cons by done. set_solver.
Qed.

(* ------------------------------------------------------------------ *)
(** ** A host with two chains *)

Module Demo.
Definition Chains : Type := list (list string) * list (list string).
Definition done_ : Output := mkOut true "exit status: 0" "" "".
Definition data_at (p : string) (f : gmap string File) : string := default "" (f_data <$> f !! p).

Definition ipt_prefix : list string := ["iptables"; "-I"; "COOLIFY-ALLOW"; "1"].
Definition nft_prefix : list string := ["nft"; "add"; "rule"; "bridge"; "coolify_bridge"; "coolify_allow"].
(** What the other commands say: whether a rule is there, addresses. *)
Definition answer (argv : list string) (x : Chains) : Output :=
  if decide (take 3 argv = ["iptables"; "-C"; "COOLIFY-ALLOW"])
  then mkOut (bool_decide (drop 3 argv ∈ x.1)) "exit status: 1" "" ""
  else if decide (take 2 argv = ["podman"; "inspect"]) then mkOut true "exit status: 0" ("10.210.0.7" +:+ lf) ""
  else if decide (take 3 argv = ["podman"; "network"; "inspect"]) then mkOut true "exit status: 0" ("10.210.0.0/24" +:+ lf) ""
  else done_.
Definition step (argv : list string) (f : gmap string File) (x : Chains) : Output * Chains :=
  if decide (take 4 argv = ipt_prefix) then (done_, (drop 4 argv :: x.1, x.2))
  else if decide (argv = flush_iptables) then (done_, ([], x.2))
  else if decide (argv = restore_iptables) then (done_, (x.1 ++ restored (data_at FIREWALL_ALLOW_RULES_PATH f), x.2))
  else if decide (take 6 argv = nft_prefix) then (done_, (x.1, x.2 ++ [drop 6 argv]))
  else if decide (argv = flush_nft) then (done_, (x.1, []))
  else if decide (argv = restore_nft) then (done_, (x.1, x.2 ++ nft_restored (data_at FIREWALL_BRIDGE_ALLOW_RULES_PATH f)))
  else (answer argv x, x).
Definition no_links (p : string) : option string := Some p.
Notation World := (Sim.World Chains).
#[export] Instance H : Host World := Sim.host step no_links.
#[export] Instance L : HostLaws World Sim.w_files := Sim.laws step no_links.
Definition ipt (w : World) : list (list string) := (Sim.w_ext w).1.
Definition nft (w : World) : list (list string) := (Sim.w_ext w).2.

Lemma output_step argv w o w' : output argv w = (Ok o, w') ->
  w' = Sim.mkWorld (Sim.w_files w) (Sim.w_log w ++ [argv]) (step argv (Sim.w_files w) (Sim.w_ext w)).2.
Proof. cbn. unfold Sim.run_process. destruct (step argv (Sim.w_files w) (Sim.w_ext w)). by intros [= <- <-]. Qed.

#[export] Instance K : KernelLaws Sim.w_files ipt nft.
Proof.
  split.
  - intros argv w q _ _. cbn. unfold Sim.run_process. by destruct (step argv _ _).
  - done.
  - done.
  - intros p w. done.
  - intros args w. cbn. unfold Sim.run_process, step. by rewrite !decide_False by done.
  - intros spec w o w' ->%output_step _. unfold step, ipt, nft. rewrite decide_True; [done|]. by destruct spec.
  - intros w o w' ->%output_step _. done.
  - intros w o w' f ->%output_step _ Hf _. unfold ipt, nft, step. rewrite decide_False, decide_False, decide_True by done.
    cbn. unfold data_at. by rewrite Hf.
  - intros words w o w' ->%output_step _. unfold step, ipt, nft.
    rewrite !decide_False by done. rewrite decide_True; [done|]. by destruct words.
  - intros w o w' ->%output_step _. done.
  - intros w o w' f ->%output_step _ Hf _. unfold ipt, nft, step. rewrite !decide_False, decide_True by done.
    cbn. unfold data_at. by rewrite Hf.
Qed.

Definition no_rows (name ns : string) (owner : option string) : Io World (list string) := io_ret [].
Definition check : EndpointOwnerCheck := mkOwnerCheck "100.64.0.5" true.
Definition web : FirewallRule := mkFirewallRule "default" "10.210.0.2" "10.210.0.3" "tcp" 5432 "r1".
Definition web2 : FirewallRule := mkFirewallRule "default" "10.210.0.9" "10.210.0.3" "tcp" 5432 "r1".
Definition other : FirewallRule := mkFirewallRule "default" "10.210.0.4" "10.210.0.3" "udp" 53 "r2".
Definition start : World := Sim.mkWorld ∅ [] ([], []).
Definition allowed : World := (firewall_allow no_rows web check start).2.
Definition reallowed : World := (firewall_allow no_rows web2 check allowed).2.
Definition both : World := (firewall_allow no_rows other check allowed).2.
Definition revoked : World := (firewall_revoke "r1" both).2.

Lemma start_allow : firewall_allow no_rows web check start = (Ok ("r1", "Firewall rule applied."), allowed).
Proof. unfold allowed. apply run_eta. vm_refl. Qed.
Lemma again_allow : firewall_allow no_rows web2 check allowed = (Ok ("r1", "Firewall rule applied."), reallowed).
Proof. unfold reallowed. apply run_eta. vm_refl. Qed.
Lemma both_revoke : firewall_revoke "r1" both = (Ok "Firewall rule removed.", revoked).
Proof. unfold revoked. apply run_eta. vm_refl. Qed.

Lemma no_rows_untouched name ns owner : preserves (untouched Sim.w_files ipt nft) (no_rows name ns owner).
Proof. intros w. repeat split. Qed.
Lemma storable_web : storable web.
Proof. by vm_compute. Qed.
Lemma storable_web2 : storable web2.
Proof. by vm_compute. Qed.
Lemma both_rules : rules_of Sim.w_files both = [web; other].
Proof. vm_refl. Qed.

Lemma firewall_state_roundtrip_witness : parse_state (render_firewall_state [web; web2]) = [web; web2].
Proof. apply firewall_state_roundtrip. constructor; [apply storable_web|]. constructor; [apply storable_web2|constructor]. Defined.

Lemma firewall_revoke_enforced_witness :
  rules_of Sim.w_files revoked = [other] /\ ipt revoked = rule_spec <$> rules_of Sim.w_files revoked.
Proof.
  destruct (firewall_revoke_enforced Sim.w_files ipt nft "r1" both) as [Hr _].
  destruct (Hr _ _ both_revoke) as (R & I & _).
  - rewrite both_rules. repeat constructor.
  - split; [|exact I]. rewrite R, both_rules. reflexivity.
Defined.

Lemma firewall_allow_enforced_witness : exists n, ipt allowed = [rule_spec n].
Proof.
  destruct (firewall_allow_enforced Sim.w_files ipt nft no_rows no_rows_untouched web check start _ _ start_allow)
    as (n & w1 & _ & Hn & _ & Hall).
  exists n. destruct Hall as (_ & I & _); [|exact I].
  unfold resolves_to in Hn. assert (n = web) as ->; [|apply storable_web].
  assert ((resolve_firewall_rule no_rows web check start).1 = Ok web) as E by vm_refl.
  rewrite Hn in E. by injection E.
Defined.

Lemma reallow_keeps_old_rule_witness :
  exists n, rule_spec n ∈ ipt reallowed /\ n ∉ rules_of Sim.w_files reallowed.
Proof.
  destruct (reallow_keeps_old_rule Sim.w_files ipt nft no_rows no_rows_untouched web web2 check start _ _ _ _
              start_allow again_allow eq_refl) as (n1 & n2 & wa & wb & H1 & H2 & Hall).
  unfold resolves_to in H1, H2.
  assert ((resolve_firewall_rule no_rows web check start).1 = Ok web) as E1 by vm_refl.
  assert ((resolve_firewall_rule no_rows web2 check allowed).1 = Ok web2) as E2 by vm_refl.
  rewrite H1 in E1. rewrite H2 in E2. injection E1 as ->. injection E2 as ->.
  exists web. destruct (Hall storable_web storable_web2 ltac:(discriminate)) as (Hi & _ & Hr). split; assumption.
Defined.

Definition first_done : World := (allow_commit web [] start).2.
Definition second_done : World := (allow_commit other [] first_done).2.
Lemma concurrent_allows_lose_a_rule_witness : web ∉ rules_of Sim.w_files second_done.
Proof.
  refine (proj2 (concurrent_allows_lose_a_rule Sim.w_files ipt nft web other [] start start start
            ("r1", "Firewall rule applied.") first_done ("r2", "Firewall rule applied.") second_done _ _ _ _ _ _ _)).
  - vm_refl.
  - vm_refl.
  - vm_refl.
  - vm_refl.
  - by vm_compute.
  - apply not_elem_of_nil.
  - discriminate.
Defined.

Lemma crafted_id_injects_line_witness :
  "-A COOLIFY-ALLOW -j ACCEPT" ∈ lines (render_iptables_snapshot [crafted "-A COOLIFY-ALLOW -j ACCEPT"]).
Proof. exact (proj2 (crafted_id_injects_line "-A COOLIFY-ALLOW -j ACCEPT" eq_refl)). Defined.

(** The destination by its name, in the replica of [CorrosionQuery.Demo]. *)
Definition by_name : FirewallRule := mkFirewallRule "default" "10.210.0.2" "web" "tcp" 5432 "r3".
Definition replica_query : string -> string -> option string -> Io World (list string) :=
  query_ips_by_name_owned CorrosionQuery.Demo.parse_lookup show_Z CorrosionQuery.Demo.lookup_post "http://127.0.0.1:8080".
Definition resolved : FirewallRule := mkFirewallRule "default" "10.210.0.2" "10.210.0.4" "tcp" 5432 "r3".

#[local] Instance replica_laws : LookupLaws (W := World) CorrosionQuery.Demo.parse_lookup CorrosionQuery.Demo.lookup_post
  "http://127.0.0.1:8080" (fun _ => CorrosionQuery.Demo.replica) := CorrosionQuery.Demo.lookup_laws World.

Lemma strict_dst_is_own_witness :
  own_row "100.64.0.5" "web" "default" "10.210.0.4" CorrosionQuery.Demo.replica.
Proof.
  destruct (strict_dst_is_own CorrosionQuery.Demo.parse_lookup show_Z CorrosionQuery.Demo.lookup_post "http://127.0.0.1:8080"
    (fun _ => CorrosionQuery.Demo.replica) by_name check start resolved
    (resolve_firewall_rule replica_query by_name check start).2 eq_refl ltac:(vm_refl) ltac:(vm_refl)) as (w1 & [H|[H _]]).
  - exact H.
  - exfalso. apply (H "10.210.0.4"). exists "abc", CooldSync.Demo.web, 7. split_and!; reflexivity.
Defined.
End Demo.
