(* ===== verification/Ingress.v ===== *)
(** * The ingress

    The Caddy part of [coold/src/grpc/handlers.rs]: the configuration files of
    the ingress, the container that runs it, and the holes it needs in the
    firewall chains; and the mesh defaults of a new container. *)

From S2P Require Import Prelude RustStr RustPath Messages Net Host CooldSync CorrosionQuery PodmanClient Firewall.
Local Open Scope Z_scope.

Definition caddy_base : string := "/data/coolify/v5/ingress/caddy".
Definition apps_dir : string := path_join caddy_base "apps".
Definition caddyfile_path : string := path_join caddy_base "Caddyfile".
Definition temp_caddyfile_path : string := path_join caddy_base "Caddyfile.tmp".
Definition CADDY_IMAGE : string := "docker.io/library/caddy:2-alpine".
Definition CADDY : string := "coolify-v5-caddy".

(** [is_valid_podman_network_name] and the name of an app's file. *)
Definition is_valid_podman_network_name (value : string) : bool :=
  negb (is_empty value) && (String.length value <=? 128)%nat &&
  all_chars (fun c => ascii_alnum c || bool_decide (c ∈ ["."; "_"; "-"]%char)) value.

Definition app_char (c : ascii) : bool := ascii_alnum c || bool_decide (c ∈ ["_"; "-"]%char).
Definition caddy_app_file_name (value : string) : result string Error :=
  if is_empty value || (128 <? String.length value)%nat || negb (all_chars app_char value)
  then Err (anyhow "invalid Caddy app file name")
  else Ok (value +:+ ".caddy").

Definition start_caddy_args (base_path mesh_network mesh_dns : string) : list string :=
  ["run"; "-d"; "--replace"; "--name"; CADDY; "--network"; mesh_network; "--restart"; "unless-stopped";
   "-p"; "80:80"; "--dns"; mesh_dns;
   "-v"; path_join base_path "Caddyfile" +:+ ":/etc/caddy/Caddyfile:ro";
   "-v"; path_join base_path "apps" +:+ ":/etc/caddy/apps:ro";
   "-v"; path_join base_path "data" +:+ ":/data";
   "-v"; path_join base_path "config" +:+ ":/config";
   CADDY_IMAGE].

Definition caddy_spec (source mesh_subnet : string) : list string :=
  ["-s"; source; "-d"; mesh_subnet; "-j"; "ACCEPT"].
Definition caddy_iptables_allow_args (source mesh_subnet : string) : list string :=
  ["-C"; "COOLIFY-ALLOW"] ++ caddy_spec source mesh_subnet.
Definition caddy_iptables_insert_args (source mesh_subnet : string) : list string :=
  ["-I"; "COOLIFY-ALLOW"; "1"] ++ caddy_spec source mesh_subnet.
Definition caddy_nft_allow_rule (caddy_ip mesh_subnet : string) : string :=
  "ip saddr " +:+ caddy_ip +:+ " ip daddr " +:+ mesh_subnet +:+ " accept".
Definition caddy_nft_words (caddy_ip mesh_subnet : string) : list string :=
  ["meta"; "protocol"; "ip"; "ip"; "saddr"; caddy_ip; "ip"; "daddr"; mesh_subnet; "accept"].
Definition caddy_nft_add_args (caddy_ip mesh_subnet : string) : list string :=
  ["add"; "rule"; "bridge"; "coolify_bridge"; "coolify_allow"] ++ caddy_nft_words caddy_ip mesh_subnet.

Definition mesh_dns_search_domain (mesh_network : string) : result string Error :=
  match strip_prefix "coolify-" mesh_network ≫= strip_suffix "-mesh" with
  | Some namespace =>
      if is_empty namespace then Err (anyhow "invalid mesh network name") else Ok (namespace +:+ ".coolify.internal")
  | None => Err (anyhow "invalid mesh network name")
  end.

Section Operations.
Context {W : Type} `{!Host W}.
Local Open Scope rust_scope.

(** *** The mesh network *)

Definition inspect_mesh_network_value (mesh_network format value_name : string) : Io W string :=
  let! value := with_context ("inspect Caddy " +:+ value_name)
    (run_logged_command value_name ["podman"; "network"; "inspect"; mesh_network; "--format"; format]) in
  if is_empty (trim value) then io_fail (anyhow (value_name +:+ " is empty")) else io_ret (trim value).
Definition mesh_network_gateway (mesh_network : string) : Io W string :=
  inspect_mesh_network_value mesh_network "{{(index .Subnets 0).Gateway}}" "mesh network gateway".
Definition mesh_network_subnet (mesh_network : string) : Io W string :=
  inspect_mesh_network_value mesh_network "{{(index .Subnets 0).Subnet}}" "mesh network subnet".

Definition is_mesh_network (network : string) : bool := starts_with "coolify-" network && ends_with "-mesh" network.

Definition apply_mesh_dns_defaults (input : CreateContainerInput) : Io W CreateContainerInput :=
  match find is_mesh_network (cc_networks input) with
  | None => io_ret input
  | Some network =>
      let! dns := match cc_dns input with
                  | [] => let! g := mesh_network_gateway network in io_ret [g]
                  | dns => io_ret dns
                  end in
      let! dns_search := match cc_dns_search input with
                         | [] => let! d := io_lift (mesh_dns_search_domain network) in io_ret [d]
                         | search => io_ret search
                         end in
      io_ret (mkContainersCreateReq (cc_name input) (cc_image input) (cc_command input) (cc_env input)
                (cc_networks input) (cc_volumes input) (cc_ports input) dns (cc_restart_policy input) dns_search
                (cc_network_aliases input) (cc_privileged input) (cc_network_mode input) (cc_capabilities input))
  end.

(** *** The firewall of the ingress *)

Definition ensure_caddy_mesh_firewall (mesh_network : string) : Io W unit :=
  let! caddy_ip := container_ip CADDY mesh_network in
  let! mesh_subnet := mesh_network_subnet mesh_network in
  let source := caddy_ip +:+ "/32" in
  let! present := attempt (run_logged_command "check Caddy ingress iptables allow"
                    ("iptables" :: caddy_iptables_allow_args source mesh_subnet)) in
  (if is_ok present then io_ret ()
   else
     with_context "allow Caddy ingress through iptables"
       (run_logged_command "allow Caddy ingress through iptables"
          ("iptables" :: caddy_iptables_insert_args source mesh_subnet));; io_ret ());;
  let! existing := attempt (run_logged_command "list Caddy ingress bridge firewall rules"
                     ["nft"; "list"; "chain"; "bridge"; "coolify_bridge"; "coolify_allow"]) in
  let existing_rules := match existing with Ok s => s | Err _ => "" end in
  if contains_str (caddy_nft_allow_rule caddy_ip mesh_subnet) existing_rules then io_ret ()
  else
    with_context "allow Caddy ingress through bridge firewall"
      (run_logged_command "allow Caddy ingress through bridge firewall"
         ("nft" :: caddy_nft_add_args caddy_ip mesh_subnet));; io_ret ().

(** *** The container *)

Definition start_or_reload_caddy (base_path mesh_network : string) : Io W string :=
  let! mesh_dns := with_context "get mesh network DNS" (mesh_network_gateway mesh_network) in
  let! exists_ := attempt (run_logged_command "check existing Caddy ingress container"
                    ["podman"; "container"; "exists"; CADDY]) in
  (if is_ok exists_ then
     with_context "recreate Caddy ingress" (run_logged_command "recreate Caddy ingress" ["podman"; "rm"; "-f"; CADDY]);;
     io_ret ()
   else io_ret ());;
  let! out := with_context "start Caddy ingress"
    (run_logged_command "start Caddy ingress" ("podman" :: start_caddy_args base_path mesh_network mesh_dns)) in
  with_context "allow Caddy ingress to reach mesh containers" (ensure_caddy_mesh_firewall mesh_network);;
  io_ret (if is_empty (trim out) then "Caddy ingress applied." else out).

Definition stop_caddy_ingress : Io W string :=
  let! out := with_context "stop Caddy ingress" (run_logged_command "stop Caddy ingress" ["podman"; "rm"; "-f"; CADDY]) in
  io_ret (if is_empty (trim out) then "Caddy ingress stopped." else out).

(** *** The configuration *)

(** The files of the apps, and the names that were written. *)
Fixpoint write_apps (apps : list IngressAppConfig) : Io W (list string) :=
  match apps with
  | [] => io_ret []
  | app :: rest =>
      let! file_name := io_lift (caddy_app_file_name (ia_name app)) in
      with_context "write Caddy app config" (write_file (path_join apps_dir file_name) (ia_config app));;
      let! names := write_apps rest in
      io_ret (file_name :: names)
  end.

Definition remove_stale (expected : list string) (file_name : string) : Io W unit :=
  if ends_with ".caddy" file_name && negb (bool_decide (file_name ∈ expected))
  then with_context "remove stale Caddy app config" (remove_file (path_join apps_dir file_name))
  else io_ret ().

(** What is checked before anything is touched. *)
Definition check_ingress (caddyfile : string) (apps : list IngressAppConfig) (mesh_network : string) : result unit Error :=
  if is_empty (trim caddyfile) then Err (anyhow "caddyfile is empty")
  else if (256 * 1024 <? Z.of_nat (String.length caddyfile)) ||
          existsb (fun a => 256 * 1024 <? Z.of_nat (String.length (ia_config a))) apps
  then Err (anyhow "caddyfile is too large")
  else if negb (is_valid_podman_network_name mesh_network) then Err (anyhow "invalid mesh network name")
  else Ok ().

Definition validate_argv : list string :=
  ["podman"; "run"; "--rm"; "-v"; caddy_base +:+ ":/etc/caddy:ro"; CADDY_IMAGE; "caddy"; "validate"; "--config";
   "/etc/caddy/Caddyfile.tmp"].

Definition write_ingress (caddyfile : string) (apps : list IngressAppConfig) : Io W unit :=
  with_context "create Caddy app config directory" (create_dir_all apps_dir);;
  with_context "create Caddy data directory" (create_dir_all (path_join caddy_base "data"));;
  with_context "create Caddy config directory" (create_dir_all (path_join caddy_base "config"));;
  let! expected := write_apps apps in
  let! entries := with_context "read Caddy app config directory" (read_dir apps_dir) in
  io_each (remove_stale expected) entries;;
  with_context "write temporary Caddyfile" (write_file temp_caddyfile_path caddyfile).

Definition apply_caddy_ingress (caddyfile : string) (apps : list IngressAppConfig) (mesh_network : string) : Io W string :=
  let! _ := io_lift (check_ingress caddyfile apps mesh_network) in
  write_ingress caddyfile apps;;
  with_context "pull Caddy image" (run_logged_command "pull Caddy image" ["podman"; "pull"; CADDY_IMAGE]);;
  with_context "validate Caddyfile" (run_logged_command "validate Caddyfile" validate_argv);;
  with_context "install Caddyfile" (rename temp_caddyfile_path caddyfile_path);;
  start_or_reload_caddy caddy_base mesh_network.

Definition apply_ingress (kind config : string) (apps : list IngressAppConfig) (mesh_network : string) : Io W string :=
  if decide (kind = "caddy") then apply_caddy_ingress config apps mesh_network
  else io_fail (anyhow ("unsupported ingress kind: " +:+ kind)).
Definition stop_ingress (kind : string) : Io W string :=
  if decide (kind = "caddy") then stop_caddy_ingress else io_fail (anyhow ("unsupported ingress kind: " +:+ kind)).
End Operations.

(* ------------------------------------------------------------------ *)
(** ** Properties *)

(** *** What is on disk *)

(** A directory lists the files in it; a listing is a snapshot. *)
Class DirLaws (W : Type) `{Host W} (files : W -> gmap string File) : Prop :=
  law_read_dir_Ok w names w' : read_dir apps_dir w = (Ok names, w') ->
    (forall name, name ∈ names -> contains_char "/" name = false) /\
    (forall name, contains_char "/" name = false -> (name ∈ names <-> is_Some (files w !! path_join apps_dir name))).

Lemma app_file_spec name fn : caddy_app_file_name name = Ok fn ->
  fn = name +:+ ".caddy" /\ contains_char "/" fn = false.
Proof.
  unfold caddy_app_file_name. destruct (is_empty name || _ || _) eqn:E; [done|]. intros [= <-].
  apply orb_false_iff in E as [_ E%negb_false_iff]. split; [done|]. rewrite contains_char_app.
  by rewrite (all_chars_no_char app_char "/" name).
Qed.

Definition app_path (file_name : string) : string := path_join apps_dir file_name.

Lemma app_path_eq fn : contains_char "/" fn = false -> app_path fn = apps_dir +:+ "/" +:+ fn.
Proof.
  intros H. unfold app_path, path_join. replace (is_absolute fn) with false; [done|].
  unfold is_absolute, starts_with. destruct fn as [|c fn]; [done|]. simpl in *. by case_decide; case_decide.
Qed.

Lemma app_path_inj a b : contains_char "/" a = false -> contains_char "/" b = false -> app_path a = app_path b -> a = b.
Proof. intros Ha Hb. rewrite !app_path_eq by done. intros H. by apply string_app_inv_head, string_app_inv_head in H. Qed.

(** The last configuration given for a file. *)
Definition config_for (apps : list IngressAppConfig) (fn : string) : option string :=
  ia_config <$> last (filter (fun a => ia_name a +:+ ".caddy" = fn) apps).

Section Disk.
Context {W : Type} `{!Host W} (files : W -> gmap string File) `{!HostLaws W files, !DirLaws W files}.

Lemma write_apps_spec apps : forall w names w',
  write_apps apps w = (Ok names, w') ->
  names = (fun a => ia_name a +:+ ".caddy") <$> apps /\
  Forall (fun n => contains_char "/" n = false) names /\
  (forall fn, contains_char "/" fn = false -> f_data <$> files w' !! app_path fn =
     match config_for apps fn with Some c => Some c | None => f_data <$> files w !! app_path fn end) /\
  (forall q, (forall fn, contains_char "/" fn = false -> q <> app_path fn) -> files w' !! q = files w !! q).
Proof.
  induction apps as [|app apps IH]; intros w names w' H; cbn [write_apps] in H.
  { unfold io_ret in H. injection H as <- <-. split_and!; [done|constructor|done|done]. }
  apply io_bind_Ok in H as (fn & w0 & Hfn & H). unfold io_lift in Hfn. injection Hfn as Hfn <-.
  destruct (app_file_spec _ _ Hfn) as [Heq Hns]. apply io_bind_Ok in H as ([] & w1 & Hw%with_context_Ok & H).
  apply io_bind_Ok in H as (rest & w2 & Hr & H). unfold io_ret in H. injection H as <- <-.
  destruct (IH _ _ _ Hr) as (Hn & Hf & Hc & Hq). pose proof (law_write (app_path fn) (ia_config app) w) as Hs.
  change (path_join apps_dir fn) with (app_path fn) in Hw. rewrite Hw in Hs. cbn in Hs.
  destruct (law_write_Ok _ _ _ _ Hw) as [m Hm]. split; [by rewrite Hn, fmap_cons, Heq|]. split; [by constructor|]. split.
  - intros g Hg. rewrite (Hc g Hg). unfold config_for. rewrite filter_cons, <- Heq. case_decide as Hd.
    + subst g. destruct (last (filter _ apps)) eqn:El; cbn.
      * rewrite last_cons, El. done.
      * rewrite last_cons, El. by rewrite Hm.
    + rewrite (Hs (app_path g)); [done|]. rewrite list_elem_of_singleton. intros Heq'.
      apply app_path_inj in Heq'; [|done|done]. congruence.
  - intros q Hq'. rewrite (Hq q Hq'). apply Hs. rewrite list_elem_of_singleton. by apply Hq'.
Qed.

Lemma remove_stale_each expected entries : forall w w',
  io_each (remove_stale expected) entries w = (Ok (), w') ->
  (forall fn, fn ∈ entries -> ends_with ".caddy" fn = true -> fn ∉ expected -> files w' !! app_path fn = None) /\
  (forall q, (forall fn, fn ∈ entries -> ends_with ".caddy" fn = true -> fn ∉ expected -> q <> app_path fn) ->
     files w' !! q = files w !! q) /\
  (forall q, files w !! q = None -> files w' !! q = None).
Proof.
  induction entries as [|e entries IH]; intros w w' H; cbn [io_each] in H.
  { unfold io_ret in H. injection H as <-. split; [set_solver|done]. }
  apply io_bind_Ok in H as ([] & w1 & He & H). destruct (IH _ _ H) as (Hgone & Hkeep & Hnone).
  unfold remove_stale in He. destruct (ends_with ".caddy" e) eqn:Ee; cbn [andb] in He.
  - case_bool_decide as Hin; cbn [negb] in He.
    + unfold io_ret in He. injection He as <-. split; [|split; [|done]].
      * intros fn [->|Hfn]%elem_of_cons; [done|]. by apply Hgone.
      * intros q Hq. apply Hkeep. intros fn Hfn. apply Hq. by right.
    + apply with_context_Ok in He. change (path_join apps_dir e) with (app_path e) in He.
      pose proof (law_remove (app_path e) w) as Hs. rewrite He in Hs. cbn in Hs.
      pose proof (law_remove_Ok _ _ _ He) as Hrm. split; [|split].
      * intros fn [->|Hfn]%elem_of_cons; [intros _ _; by apply Hnone|]. by apply Hgone.
      * intros q Hq. rewrite Hkeep by (intros fn Hfn; apply Hq; by right). apply Hs.
        rewrite list_elem_of_singleton. by apply Hq; [left| |].
      * intros q Hq. apply Hnone. destruct (decide (q = app_path e)) as [->|Hne]; [done|].
        rewrite Hs by (by rewrite list_elem_of_singleton). done.
  - unfold io_ret in He. injection He as <-. split; [|split; [|done]].
    + intros fn [->|Hfn]%elem_of_cons; [congruence|]. by apply Hgone.
    + intros q Hq. apply Hkeep. intros fn Hfn. apply Hq. by right.
Qed.

Lemma not_an_app q fn : q ∈ [caddyfile_path; temp_caddyfile_path] -> contains_char "/" fn = false -> q <> app_path fn.
Proof.
  intros Hq Hfn. rewrite app_path_eq by done. unfold apps_dir, caddyfile_path, temp_caddyfile_path, caddy_base, path_join in *. cbn in *.
  apply elem_of_cons in Hq as [->|Hq%list_elem_of_singleton]; [|subst q]; discriminate.
Qed.

(** What writing the configuration leaves: for every app the last configuration
    given for it, no other [.caddy] file, and the new text beside the installed
    Caddyfile, which is untouched. *)
Lemma write_ingress_spec caddyfile apps w w' :
  write_ingress caddyfile apps w = (Ok (), w') ->
  (forall fn, contains_char "/" fn = false -> ends_with ".caddy" fn = true ->
     f_data <$> files w' !! app_path fn = config_for apps fn) /\
  f_data <$> files w' !! temp_caddyfile_path = Some caddyfile /\
  files w' !! caddyfile_path = files w !! caddyfile_path.
Proof.
  unfold write_ingress. intros H. io_inv H.
  pose proof (law_mkdir apps_dir w) as D1. rewrite Hs in D1.
  pose proof (law_mkdir (path_join caddy_base "data") w0) as D2. rewrite Hs0 in D2.
  pose proof (law_mkdir (path_join caddy_base "config") w1) as D3. rewrite Hs1 in D3. cbn in D1, D2, D3.
  destruct (write_apps_spec _ _ _ _ Hs2) as (Hn & Hns & Hc & Hq).
  pose proof (law_read_dir apps_dir w3) as D4. rewrite Hs3 in D4. cbn in D4.
  destruct (law_read_dir_Ok _ _ _ Hs3) as [Hslash Hdir]. destruct (remove_stale_each _ _ _ _ Hs4) as (Hgone & Hkeep & Hnone).
  pose proof (law_write temp_caddyfile_path caddyfile w5) as Hsame. rewrite H in Hsame. cbn in Hsame.
  destruct (law_write_Ok _ _ _ _ H) as [m Hm]. split; [|split; [by rewrite Hm|]].
  - intros fn Hfn Hend. rewrite (Hsame (app_path fn)).
    2:{ rewrite list_elem_of_singleton. intros E. symmetry in E. revert E. apply not_an_app; [set_solver|done]. }
    assert (fn ∈ r <-> is_Some (config_for apps fn)) as Hexp.
    { rewrite Hn. unfold config_for. rewrite fmap_is_Some, list_elem_of_fmap. split.
      - intros (a & -> & Ha). apply last_is_Some. intros Hnil.
        assert (a ∈ filter (fun x => ia_name x +:+ ".caddy" = ia_name a +:+ ".caddy") apps) as Hin
          by (by apply list_elem_of_filter). rewrite Hnil in Hin. set_solver.
      - intros [a Ha]. apply last_Some_elem_of in Ha. apply list_elem_of_filter in Ha as [<- Ha]. by exists a. }
    destruct (decide (fn ∈ r)) as [Hin|Hout].
    + rewrite Hkeep.
      2:{ intros fn' Hf' He' Hx Heq. apply Hx. apply app_path_inj in Heq; [by subst|done|by apply Hslash]. }
      rewrite (D4 (app_path fn)) by set_solver. rewrite (Hc fn Hfn).
      apply Hexp in Hin as [c ->]. done.
    + assert (config_for apps fn = None) as ->.
      { apply eq_None_not_Some. by rewrite <- Hexp. }
      destruct (decide (fn ∈ r0)) as [Hl|Hl]; [by rewrite Hgone|].
      rewrite Hdir in Hl by done. change (path_join apps_dir fn) with (app_path fn) in Hl. apply eq_None_not_Some in Hl. rewrite <- (D4 (app_path fn)) in Hl by set_solver.
      by rewrite (Hnone _ Hl).
  - rewrite (Hsame caddyfile_path) by (rewrite list_elem_of_singleton; vm_compute; discriminate).
    rewrite Hkeep by (intros fn' Hf' _ _; apply not_an_app; [set_solver|by apply Hslash]).
    rewrite (D4 caddyfile_path) by set_solver. rewrite Hq by (intros fn' Hf'; apply not_an_app; [set_solver|done]).
    by rewrite (D3 caddyfile_path), (D2 caddyfile_path), (D1 caddyfile_path) by set_solver.
Qed.

(** *** The whole application *)

(** The files of the ingress that only the agent writes: the containers mount
    them read-only. *)
Definition ingress_file (q : string) : Prop :=
  q ∈ [caddyfile_path; temp_caddyfile_path] \/ exists fn, contains_char "/" fn = false /\ q = app_path fn.
Hypothesis process_files : forall argv w q, ingress_file q -> files (output argv w).2 !! q = files w !! q.

Definition same_ingress (w w' : W) : Prop := forall q, ingress_file q -> files w' !! q = files w !! q.
#[local] Instance same_ingress_preorder : PreOrder same_ingress.
Proof. split; [by intros w q|]. intros w1 w2 w3 H12 H23 q Hq. by rewrite H23, H12. Qed.

Lemma run_same label argv : preserves same_ingress (run_logged_command label argv).
Proof. intros w q Hq. rewrite run_command_world. by apply process_files. Qed.
#[local] Hint Resolve run_same same_ingress_preorder : io.

Lemma start_same base net : preserves same_ingress (start_or_reload_caddy base net).
Proof.
  unfold start_or_reload_caddy, ensure_caddy_mesh_firewall, container_ip, mesh_network_subnet, mesh_network_gateway,
    inspect_mesh_network_value. io_preserves.
Qed.

Definition same_caddyfile (w w' : W) : Prop := files w' !! caddyfile_path = files w !! caddyfile_path.
#[local] Instance same_caddyfile_preorder : PreOrder same_caddyfile.
Proof. split; [by intros w|]. intros w1 w2 w3 H12 H23. unfold same_caddyfile in *. congruence. Qed.

Lemma touch_other {A} ps (m : Io W A) :
  (forall w, same_but files ps w (m w).2) -> caddyfile_path ∉ ps -> preserves same_caddyfile m.
Proof. intros Hm Hp w. by apply Hm. Qed.

Lemma app_not_caddyfile fn : contains_char "/" fn = false -> caddyfile_path ∉ [path_join apps_dir fn].
Proof. intros Hfn. rewrite list_elem_of_singleton. by apply not_an_app; [left|]. Qed.

Lemma write_apps_keeps apps : preserves same_caddyfile (write_apps apps).
Proof.
  induction apps as [|a apps IH]; cbn [write_apps]; [apply (preserves_ret _)|].
  apply (preserves_bind_post _); [apply (preserves_lift _)|]. intros fn w w' [= Hfn <-].
  apply (preserves_bind _); [|intros; io_preserves]. apply preserves_with_context.
  apply (touch_other [path_join apps_dir fn]); [intros; apply law_write|]. by apply app_not_caddyfile, (app_file_spec (ia_name a)).
Qed.

Lemma write_ingress_keeps caddyfile apps : preserves same_caddyfile (write_ingress caddyfile apps).
Proof.
  unfold write_ingress.
  do 3 (apply (preserves_bind _); [apply preserves_with_context, (touch_other []); [intros; apply law_mkdir|set_solver]|intros _]).
  apply (preserves_bind _); [apply write_apps_keeps|]. intros expected.
  apply (preserves_bind_post _); [apply preserves_with_context, (touch_other []); [intros; apply law_read_dir|set_solver]|].
  intros entries w w' Hd%with_context_Ok. destruct (law_read_dir_Ok _ _ _ Hd) as [Hslash _]. apply (preserves_bind _).
  - apply (preserves_each_in _). intros fn Hfn. unfold remove_stale. case_match; [|apply (preserves_ret _)].
    apply preserves_with_context, (touch_other [path_join apps_dir fn]); [intros; apply law_remove|].
    by apply app_not_caddyfile, Hslash.
  - intros _. apply preserves_with_context, (touch_other [temp_caddyfile_path]); [intros; apply law_write|].
    rewrite list_elem_of_singleton. vm_compute. discriminate.
Qed.

(** The last steps: the new text is moved over the old one, and the container
    is started with it. *)
Lemma install_spec caddyfile net w :
  f_data <$> files w !! temp_caddyfile_path = Some caddyfile ->
  let '(r, w') := (with_context "install Caddyfile" (rename temp_caddyfile_path caddyfile_path);;
                   start_or_reload_caddy caddy_base net)%rust w in
  match r with
  | Ok _ =>
      f_data <$> files w' !! caddyfile_path = Some caddyfile /\ files w' !! temp_caddyfile_path = None /\
      forall fn, contains_char "/" fn = false -> files w' !! app_path fn = files w !! app_path fn
  | Err _ =>
      files w' !! caddyfile_path = files w !! caddyfile_path \/ f_data <$> files w' !! caddyfile_path = Some caddyfile
  end.
Proof.
  intros Ht. unfold io_bind at 1, with_context. destruct (rename _ _ w) as [[[]|e] w1] eqn:Hr.
  2:{ left. apply (law_rename_Err _ _ _ _ _ Hr). set_solver. }
  destruct (law_rename_Ok _ _ _ _ Hr) as (f & Hf & Hfiles). rewrite Hf in Ht.
  pose proof (start_same caddy_base net w1) as Hs. destruct (start_or_reload_caddy caddy_base net w1) as [r w2]. cbn in Hs.
  assert (f_data <$> files w2 !! caddyfile_path = Some caddyfile) as Hnew.
  { rewrite Hs by (do 2 left). by rewrite Hfiles, lookup_insert_eq. }
  destruct r; [|by right]. split; [done|]. split.
  - rewrite Hs by (left; set_solver). rewrite Hfiles, lookup_insert_ne by (vm_compute; discriminate).
    apply lookup_delete_eq.
  - intros fn Hfn. rewrite Hs by (right; by exists fn).
    rewrite Hfiles, lookup_insert_ne, lookup_delete_ne by (apply not_an_app; [set_solver|done]). done.
Qed.

Lemma run_then {A} c label argv (k : Io W A) w (P : result A Error * W -> Prop) :
  (forall w1, same_ingress w w1 -> P (k w1)) -> (forall e w1, same_ingress w w1 -> P (Err e, w1)) ->
  P ((with_context c (run_logged_command label argv);; k)%rust w).
Proof.
  intros Hk He. unfold io_bind. pose proof (preserves_with_context _ c _ (run_same label argv) w) as Hs.
  destruct (with_context _ _ w) as [[s|e] w1]; [by apply Hk|by apply He].
Qed.

(** C28. Applying a configuration replaces the Caddyfile at once or not at all: it
    is the old one or the new text whatever the outcome. After a success it is
    the new text, the apps' files are exactly those of the configuration, and
    nothing temporary is left. *)
Theorem ingress_installed caddyfile apps net w :
  match apply_caddy_ingress caddyfile apps net w with
  | (Ok _, w') =>
      f_data <$> files w' !! caddyfile_path = Some caddyfile /\ files w' !! temp_caddyfile_path = None /\
      forall fn, contains_char "/" fn = false -> ends_with ".caddy" fn = true ->
        f_data <$> files w' !! app_path fn = config_for apps fn
  | (Err _, w') =>
      files w' !! caddyfile_path = files w !! caddyfile_path \/ f_data <$> files w' !! caddyfile_path = Some caddyfile
  end.
Proof.
  unfold apply_caddy_ingress, io_bind at 1, io_lift. destruct (check_ingress caddyfile apps net) as [[]|e]; [|by left].
  unfold io_bind at 1. pose proof (write_ingress_keeps caddyfile apps w) as Hk.
  destruct (write_ingress caddyfile apps w) as [[[]|e] w1] eqn:Hw; cbn in Hk; [|by left].
  destruct (write_ingress_spec _ _ _ _ Hw) as (Happ & Htmp & _). rewrite <- Hk. clear Hw Hk.
  apply (run_then _ _ _ _ w1); [|intros e w2 H2; left; apply H2; by do 2 left]. intros w2 H2.
  apply (run_then _ _ _ _ w2); [|intros e w3 H3; left; by rewrite H3, H2 by (by do 2 left)]. intros w3 H3.
  assert (same_ingress w1 w3) as H13 by (by etransitivity). rewrite <- (H13 caddyfile_path) by (by do 2 left).
  pose proof (install_spec caddyfile net w3) as Hi. rewrite H13 in Hi by (left; set_solver). specialize (Hi Htmp).
  destruct (io_bind (with_context "install Caddyfile" _) _ w3) as [[msg|e] w4]; [|done]. destruct Hi as (? & ? & Ha). split; [done|]. split; [done|].
  intros fn Hfn Hend. rewrite Ha, H13 by (done || (right; by exists fn)). by apply Happ.
Qed.

(** A configuration that Caddy rejects is not put back: the command reports the
    error and the Caddyfile stays the old one, but the files of the apps are
    already those of the rejected configuration. *)
Theorem rejected_apps_stay caddyfile apps net w w1 pulled w2 e w3 :
  check_ingress caddyfile apps net = Ok () -> write_ingress caddyfile apps w = (Ok (), w1) ->
  run_logged_command "pull Caddy image" ["podman"; "pull"; CADDY_IMAGE] w1 = (Ok pulled, w2) ->
  run_logged_command "validate Caddyfile" validate_argv w2 = (Err e, w3) ->
  apply_caddy_ingress caddyfile apps net w = (Err (Msg "validate Caddyfile" :: e), w3) /\
  files w3 !! caddyfile_path = files w !! caddyfile_path /\
  forall fn, contains_char "/" fn = false -> ends_with ".caddy" fn = true ->
    f_data <$> files w3 !! app_path fn = config_for apps fn.
Proof.
  intros Hc Hw Hp Hv. destruct (write_ingress_spec _ _ _ _ Hw) as (Happ & _ & Hold).
  pose proof (run_same "pull Caddy image" ["podman"; "pull"; CADDY_IMAGE] w1) as H2. rewrite Hp in H2. cbn in H2.
  pose proof (run_same "validate Caddyfile" validate_argv w2) as H3. rewrite Hv in H3. cbn in H3. split.
  - unfold apply_caddy_ingress, io_bind at 1, io_lift. rewrite Hc. unfold io_bind at 1. rewrite Hw.
    unfold io_bind at 1, with_context at 1. rewrite Hp. unfold io_bind at 1, with_context at 1. by rewrite Hv.
  - split; [by rewrite H3, H2 by (by do 2 left)|]. intros fn Hfn Hend.
    rewrite H3, H2 by (right; by exists fn). by apply Happ.
Qed.
End Disk.

(** *** The firewall of the ingress and the one of the rules *)

Section Holes.
Context {W : Type} `{!Host W} (files : W -> gmap string File) `{!HostLaws W files}.
Context (ipt nft : W -> list (list string)) `{!KernelLaws files ipt nft}.
(** [iptables -C] succeeds for a rule of the chain and changes nothing, as
    [nft list] does. *)
Hypothesis ipt_check : forall spec w o w', output (["iptables"; "-C"; "COOLIFY-ALLOW"] ++ spec) w = (Ok o, w') ->
  o_success o = true -> spec ∈ ipt w /\ ipt w' = ipt w.
Hypothesis nft_list_ipt : forall w,
  ipt (output ["nft"; "list"; "chain"; "bridge"; "coolify_bridge"; "coolify_allow"] w).2 = ipt w.

(** The hole for the ingress: from Caddy's address to the subnet of the mesh. *)
Lemma ensure_opens net w w' : ensure_caddy_mesh_firewall net w = (Ok (), w') ->
  exists caddy_ip subnet, caddy_spec (caddy_ip +:+ "/32") subnet ∈ ipt w'.
Proof.
  unfold ensure_caddy_mesh_firewall. intros H. io_inv H. exists r, r0.
  rewrite attempt_Ok in Hs1. rewrite attempt_Ok in Hs3.
  assert (caddy_spec (r +:+ "/32") r0 ∈ ipt w3) as Hin.
  { destruct r1 as [s|e]; cbn [is_ok] in Hs2.
    - unfold io_ret in Hs2. injection Hs2 as <-. apply run_command_Ok in Hs1 as (o & Ho & Hok).
      by destruct (ipt_check _ _ _ _ Ho Hok) as [? ->].
    - io_inv Hs2. apply run_command_Ok in Hs4 as (o & Ho & Hok).
      destruct (kernel_ipt_insert (caddy_spec (r +:+ "/32") r0) _ _ _ Ho Hok) as [-> _]. left. }
  assert (ipt w4 = ipt w3) as H4.
  { pose proof (run_command_world "list Caddy ingress bridge firewall rules"
      ["nft"; "list"; "chain"; "bridge"; "coolify_bridge"; "coolify_allow"] w3) as E. rewrite Hs3 in E. cbn in E.
    rewrite E. apply nft_list_ipt. }
  case_match; [unfold io_ret in H; injection H as <-; by rewrite H4|]. io_inv H.
  apply run_command_Ok in Hs4 as (o & Ho & Hok).
  destruct (kernel_nft_add (caddy_nft_words r r0) _ _ _ Ho Hok) as [_ ->]. by rewrite H4.
Qed.

(** Revoking any rule closes the hole of the ingress: the chains are rebuilt
    from the stored rules, among which the ingress is not. *)
Theorem revoke_cuts_ingress net w w1 id msg w2 :
  ensure_caddy_mesh_firewall net w = (Ok (), w1) -> firewall_revoke id w1 = (Ok msg, w2) ->
  Forall wordy (rules_of files w1) ->
  exists caddy_ip subnet, caddy_spec (caddy_ip +:+ "/32") subnet ∈ ipt w1 /\
    caddy_spec (caddy_ip +:+ "/32") subnet ∉ ipt w2.
Proof.
  intros He Hr Hw. destruct (ensure_opens _ _ _ He) as (ip & sub & Hin). exists ip, sub. split; [done|].
  destruct (revoke_spec files ipt nft _ _ _ _ Hr Hw) as (_ & -> & _). by intros (r & Heq & _)%list_elem_of_fmap.
Qed.
End Holes.

(* ------------------------------------------------------------------ *)
(** ** On concrete hosts *)

Module Demo.
Import Firewall.Demo.

Section OnSim.
Context {X : Type} (st : list string -> gmap string File -> X -> Output * X) (canon : string -> option string).

Lemma listing_spec pre (f : gmap string File) name : contains_char "/" name = false ->
  name ∈ filter (fun n => contains_char "/" n = false) (omap (fun kv => strip_prefix pre kv.1) (map_to_list f)) <->
  is_Some (f !! (pre +:+ name)).
Proof.
  intros Hname. rewrite list_elem_of_filter, list_elem_of_omap. split.
  - intros (_ & [p g] & Hp & Hs). cbn [fst] in Hs. apply strip_prefix_Some in Hs as ->.
    apply elem_of_map_to_list in Hp. eauto.
  - intros [g Hg]. split; [done|]. exists (pre +:+ name, g). split; [by apply elem_of_map_to_list|].
    by apply strip_prefix_Some.
Qed.

Lemma sim_dir : @DirLaws (Sim.World X) (Sim.host st canon) Sim.w_files.
Proof.
  intros w names w' E.
  assert (names = filter (fun n => contains_char "/" n = false)
            (omap (fun kv => strip_prefix (apps_dir +:+ "/") kv.1) (map_to_list (Sim.w_files w)))) as ->
    by (unfold read_dir, Sim.host in E; congruence).
  split; [by intros name [? _]%list_elem_of_filter|]. intros name Hname. rewrite listing_spec by done.
  change (path_join apps_dir name) with (app_path name). by rewrite app_path_eq by done.
Qed.

Lemma sim_processes argv (w : Sim.World X) q : Sim.w_files (@output _ (Sim.host st canon) argv w).2 !! q = Sim.w_files w !! q.
Proof. cbn. unfold Sim.run_process. by destruct (st argv _ _). Qed.
End OnSim.

Definition old_world : Sim.World Chains :=
  Sim.mkWorld {[ caddyfile_path := mkFile "old" 420; app_path "gone.caddy" := mkFile "old app" 420 ]} [] ([], []).
Definition config : list IngressAppConfig := [mkIngressAppConfig "web" "web.example { }"].
#[local] Instance D : DirLaws (Sim.World Chains) Sim.w_files := sim_dir step no_links.
Definition ingress_world : Sim.World Chains := (apply_caddy_ingress "import apps/*" config "coolify-default-mesh" old_world).2.

Lemma old_applied : is_ok (apply_caddy_ingress "import apps/*" config "coolify-default-mesh" old_world).1 = true.
Proof. vm_compute. reflexivity. Qed.

Lemma ingress_installed_witness : f_data <$> Sim.w_files ingress_world !! app_path "gone.caddy" = None.
Proof.
  pose proof (ingress_installed Sim.w_files (fun argv w q _ => sim_processes step no_links argv w q)
    "import apps/*" config "coolify-default-mesh" old_world) as H.
  unfold ingress_world. pose proof old_applied as Hok.
  destruct (apply_caddy_ingress _ _ _ _) as [[msg|e] w']; [|discriminate Hok]. cbn [snd].
  destruct H as (_ & _ & H). rewrite (H "gone.caddy"); reflexivity.
Defined.

(** A Caddy that does not accept the configuration. *)
Definition rejecting (argv : list string) (f : gmap string File) (x : unit) : Output * unit :=
  if decide (argv = validate_argv) then (mkOut false "exit status: 1" "" "unknown directive", x)
  else Sim.quiet argv f x.
#[local] Instance HR : Host (Sim.World unit) := Sim.host rejecting no_links.
#[local] Instance LR : HostLaws (Sim.World unit) Sim.w_files := Sim.laws rejecting no_links.
#[local] Instance DR : DirLaws (Sim.World unit) Sim.w_files := sim_dir rejecting no_links.
Definition before : Sim.World unit := Sim.mkWorld (Sim.w_files old_world) [] ().
Definition written : Sim.World unit := (write_ingress "bad" config before).2.
Definition pulled : Sim.World unit :=
  (run_logged_command "pull Caddy image" ["podman"; "pull"; CADDY_IMAGE] written).2.
Definition rejected : Sim.World unit := (run_logged_command "validate Caddyfile" validate_argv pulled).2.

Lemma rejected_apps_stay_witness :
  f_data <$> Sim.w_files rejected !! app_path "web.caddy" = Some "web.example { }" /\
  f_data <$> Sim.w_files rejected !! app_path "gone.caddy" = None /\
  Sim.w_files rejected !! caddyfile_path = Some (mkFile "old" 420).
Proof.
  destruct (rejected_apps_stay Sim.w_files (fun argv w q _ => sim_processes rejecting no_links argv w q)
    "bad" config "coolify-default-mesh" before written "" pulled (anyhow "unknown directive") rejected) as (_ & Hold & Happ);
    try reflexivity.
  split; [|split]; [by rewrite Happ|by rewrite Happ|by rewrite Hold].
Defined.

(** The ingress is let through, and then an unrelated rule is revoked. *)
Definition opened : Sim.World Chains := (ensure_caddy_mesh_firewall "coolify-default-mesh" both).2.
Definition closed : Sim.World Chains := (firewall_revoke "r2" opened).2.

Lemma check_law spec w o w' : output (["iptables"; "-C"; "COOLIFY-ALLOW"] ++ spec) w = (Ok o, w') ->
  o_success o = true -> spec ∈ ipt w /\ ipt w' = ipt w.
Proof.
  assert (step (["iptables"; "-C"; "COOLIFY-ALLOW"] ++ spec) (Sim.w_files w) (Sim.w_ext w) =
          (mkOut (bool_decide (spec ∈ ipt w)) "exit status: 1" "" "", Sim.w_ext w)) as E.
  { unfold step, answer. rewrite !decide_False by done. rewrite decide_True by (by destruct spec). done. }
  unfold output, H, Sim.host, Sim.run_process. rewrite E. intros [= <- <-] Hok%bool_decide_eq_true. done.
Qed.

Lemma revoke_cuts_ingress_witness : exists caddy_ip subnet,
  caddy_spec (caddy_ip +:+ "/32") subnet ∈ ipt opened /\ caddy_spec (caddy_ip +:+ "/32") subnet ∉ ipt closed.
Proof.
  apply (revoke_cuts_ingress Sim.w_files ipt nft) with (net := "coolify-default-mesh") (w := both) (id := "r2")
    (msg := "Firewall rule removed.").
  - apply check_law.
  - intros w. cbn. by unfold Sim.run_process, step; rewrite !decide_False by done.
  - unfold opened. apply run_eta. vm_refl.
  - unfold closed. apply run_eta. vm_refl.
  - apply (bool_decide_unpack _). vm_compute. exact I.
Defined.
End Demo.
