(* ===== verification/Handlers.v ===== *)
(** * The commands of the agent

    [handle] of [coold/src/grpc/handlers.rs], which runs one command of flux and
    queues its answer, and the commands that are not in a file of their own.
    The clients of Podman and of Corrosion are those of [PodmanClient] and
    [CorrosionQuery]; what they are built on is a parameter here too. *)

From S2P Require Import Prelude RustStr RustPath Messages FluxState FluxRouting Net Host HostJwt CooldSync CorrosionQuery PodmanClient Firewall Ingress.
Local Open Scope Z_scope.

(* ------------------------------------------------------------------ *)
(** ** Names of commands and answers *)

Definition command_type (command : Cmd.t) : string :=
  match command with
  | Cmd.Ping => "ping"
  | Cmd.ImagesPull _ => "images.pull"
  | Cmd.ImagesList => "images.list"
  | Cmd.ImagesDelete _ _ => "images.delete"
  | Cmd.ContainersCreate _ => "containers.create"
  | Cmd.ContainersStart _ => "containers.start"
  | Cmd.ContainersStop _ _ => "containers.stop"
  | Cmd.ContainersRestart _ _ => "containers.restart"
  | Cmd.ContainersDelete _ _ => "containers.delete"
  | Cmd.ContainersInspect _ => "containers.inspect"
  | Cmd.ContainersList => "containers.list"
  | Cmd.ContainersLogs _ _ _ _ => "containers.logs"
  | Cmd.ContainersExec _ _ => "containers.exec"
  | Cmd.ContainersHealthcheckRun _ => "containers.healthcheck.run"
  | Cmd.IngressApply _ _ _ _ => "ingress.apply"
  | Cmd.IngressStop _ => "ingress.stop"
  | Cmd.FirewallAllow _ => "firewall.allow"
  | Cmd.FirewallRevoke _ => "firewall.revoke"
  | Cmd.FirewallList _ => "firewall.list"
  | Cmd.FirewallReconcile => "firewall.reconcile"
  | Cmd.CooldLogs _ => "coold.logs"
  | Cmd.CorrosionTables _ => "corrosion.tables"
  | Cmd.HostJwtSet _ => "host.jwt.set"
  end.

Definition response_body_type (body : option Body.t) : string :=
  match body with
  | Some (Body.ImagesPull _ _) => "images.pull"
  | Some (Body.ImagesList _) => "images.list"
  | Some (Body.ImagesDelete _) => "images.delete"
  | Some (Body.ContainersCreate _) => "containers.create"
  | Some (Body.ContainersStart _) => "containers.start"
  | Some (Body.ContainersStop _) => "containers.stop"
  | Some (Body.ContainersRestart _) => "containers.restart"
  | Some (Body.ContainersDelete _) => "containers.delete"
  | Some (Body.ContainersInspect _) => "containers.inspect"
  | Some (Body.ContainersList _) => "containers.list"
  | Some (Body.ContainersLogs _) => "containers.logs"
  | Some (Body.ContainersExec _ _) => "containers.exec"
  | Some (Body.ContainersHealthcheckRun _) => "containers.healthcheck.run"
  | Some (Body.IngressApply _) => "ingress.apply"
  | Some (Body.IngressStop _) => "ingress.stop"
  | Some (Body.FirewallAllow _ _) => "firewall.allow"
  | Some (Body.FirewallRevoke _) => "firewall.revoke"
  | Some (Body.FirewallList _) => "firewall.list"
  | Some (Body.FirewallReconcile _) => "firewall.reconcile"
  | Some (Body.CooldLogs _) => "coold.logs"
  | Some (Body.CorrosionTables _) => "corrosion.tables"
  | Some (Body.HostJwtSet _) => "host.jwt.set"
  | Some (Body.Error _ _) => "error"
  | None => "none"
  end.

Definition error_body (error : Error) : Body.t := Body.Error 500 (show_error error).

(** [send_response]: what is put in the channel to the stream; a channel that is
    closed drops it, with a warning. *)
Definition send_response (response : Response) : list ClientMsg.t := [ClientMsg.Response response].

(** A conversion field by field, as the arms that list one write it. *)
Definition image_summary (image : ImageSummary) : ImageSummary :=
  mkImageSummary (is_id image) (is_repo_tags image) (is_repo_digests image) (is_size image) (is_created image).
Definition create_input (req : ContainersCreateReq) : CreateContainerInput :=
  mkContainersCreateReq (cc_name req) (cc_image req) (cc_command req) (cc_env req) (cc_networks req) (cc_volumes req)
    ((fun p => mkPortMapping (pm_host_ip p) (pm_host_port p) (pm_container_port p) (pm_protocol p)) <$> cc_ports req)
    (cc_dns req) (cc_restart_policy req) (cc_dns_search req) (cc_network_aliases req) (cc_privileged req)
    (cc_network_mode req) (cc_capabilities req).

Section Handlers.
Context {W : Type} `{!Host W}.
(** [{:?}] of a string, [Display] of a status code, [serde_json] from a string
    and to one, and its errors. *)
Context (debug_str : string -> string) (show_status : Z -> string) (parse_json : string -> option json)
  (serde_error : string -> string) (to_string_pretty : json -> string).
(** The HTTP clients of Podman's socket and of Corrosion. *)
Context (request : string -> string -> option json -> Io W (Z * result string Error)).
Context (utf8_percent_encode : (ascii -> bool) -> string -> string) (allowed_mount_sources : list string).
Context (http_post : string -> json -> Io W (Z * result string Error)) (base_url : string).
(** [host_jwt_path], [owner_check] and [std::process::id()]. *)
Context (host_jwt_path : string) (owner_check : EndpointOwnerCheck) (pid : Z).
Local Open Scope rust_scope.

(** *** Logs and lists *)

Definition coold_logs (tail : Z) : Io W string :=
  let tail := show_Z (clamp 1 1000 tail) in
  let! o := with_context "read coold journal logs"
    (output ["journalctl"; "--unit"; "coold"; "--no-pager"; "--output"; "short-iso"; "--lines"; tail]) in
  let combined := join lf (filter (fun line => is_empty line = false)
                             (lines (from_utf8_lossy (o_out o)) ++ lines (from_utf8_lossy (o_err o)))) in
  if negb (o_success o) then
    io_fail (anyhow (if is_empty combined then "journalctl exited with " +:+ o_show o else combined))
  else io_ret combined.

(** The containers are inspected at the same time; here one after the other. *)
Fixpoint inspect_all (ids : list string) : Io W (list (result ContainerInspect Error)) :=
  match ids with
  | [] => io_ret []
  | id :: rest =>
      let! r := attempt (inspect show_status parse_json serde_error request utf8_percent_encode id) in
      let! rs := inspect_all rest in
      io_ret (r :: rs)
  end.

Definition summary (ci : Container * result ContainerInspect Error) : ContainerSummary :=
  let '(c, inspect_result) := ci in
  let name := trim_start_matches "/" (default "" (head (c_names c))) in
  let networks := match inspect_result with
                  | Ok i => default [] ((fun nets => (map_to_list nets).*1) <$> ci_networks i)
                  | Err _ => []
                  end in
  mkContainerSummary (c_id c) name (c_image c) (c_state c) networks.

Definition containers_list : Io W (list ContainerSummary) :=
  let! containers := list_containers show_status parse_json serde_error request in
  let! inspects := inspect_all (c_id <$> containers) in
  io_ret (summary <$> zip containers inspects).

(** *** The arms of [handle] *)

Definition on_images_pull (reference : string) : Io W Body.t :=
  let! r := pull_image show_status parse_json request utf8_percent_encode reference in
  io_ret (Body.ImagesPull r.1 r.2).
Definition on_images_list : Io W Body.t :=
  let! images := list_images show_status parse_json serde_error request in
  io_ret (Body.ImagesList (image_summary <$> images)).
Definition on_images_delete (reference : string) (force : bool) : Io W Body.t :=
  let! out := delete_image show_status request utf8_percent_encode reference force in io_ret (Body.ImagesDelete out).

Definition on_containers_create (req : ContainersCreateReq) : Io W Body.t :=
  let! input := apply_mesh_dns_defaults (create_input req) in
  let! id := create_container debug_str show_status parse_json serde_error request utf8_percent_encode
               allowed_mount_sources input in
  io_ret (Body.ContainersCreate id).
Definition on_containers_start (id : string) : Io W Body.t :=
  let! out := start_container show_status request utf8_percent_encode id in io_ret (Body.ContainersStart out).
Definition on_containers_stop (id : string) (timeout_seconds : Z) : Io W Body.t :=
  let! out := stop_container show_status request utf8_percent_encode id timeout_seconds in
  io_ret (Body.ContainersStop out).
Definition on_containers_restart (id : string) (timeout_seconds : Z) : Io W Body.t :=
  let! out := restart_container show_status request utf8_percent_encode id timeout_seconds in
  io_ret (Body.ContainersRestart out).
Definition on_containers_delete (id : string) (force : bool) : Io W Body.t :=
  let! out := delete_container show_status request utf8_percent_encode id force in io_ret (Body.ContainersDelete out).
Definition on_containers_inspect (id : string) : Io W Body.t :=
  let! text := inspect_container_json show_status request utf8_percent_encode id in io_ret (Body.ContainersInspect text).
Definition on_containers_list : Io W Body.t :=
  let! containers := containers_list in io_ret (Body.ContainersList containers).
Definition on_containers_logs (id : string) (tail : Z) (stdout stderr : bool) : Io W Body.t :=
  let! out := container_logs show_status request utf8_percent_encode id tail stdout stderr in
  io_ret (Body.ContainersLogs out).
Definition on_coold_logs (tail : Z) : Io W Body.t := let! out := coold_logs tail in io_ret (Body.CooldLogs out).
Definition on_corrosion_tables (limit : Z) : Io W Body.t :=
  let! out := tables_json parse_json show_status to_string_pretty http_post base_url limit in
  io_ret (Body.CorrosionTables out).
Definition on_containers_exec (id : string) (command : list string) : Io W Body.t :=
  let! r := exec_container show_status parse_json serde_error request utf8_percent_encode id command in
  io_ret (Body.ContainersExec r.1 r.2).
Definition on_healthcheck_run (id : string) : Io W Body.t :=
  let! out := run_healthcheck show_status request utf8_percent_encode id in io_ret (Body.ContainersHealthcheckRun out).

Definition on_ingress_apply (kind config : string) (apps : list IngressAppConfig) (mesh_network : string) : Io W Body.t :=
  let! out := apply_ingress kind config apps mesh_network in io_ret (Body.IngressApply out).
Definition on_ingress_stop (kind : string) : Io W Body.t :=
  let! out := stop_ingress kind in io_ret (Body.IngressStop out).

Definition on_firewall_allow (rule : option FirewallRule) : Io W Body.t :=
  match rule with
  | Some rule =>
      let! r := firewall_allow (query_ips_by_name_owned parse_json show_status http_post base_url)
                  (rule_from_proto rule) owner_check in
      io_ret (Body.FirewallAllow r.1 r.2)
  | None => io_fail (anyhow "missing firewall rule")
  end.
Definition on_firewall_revoke (id : string) : Io W Body.t :=
  let! out := firewall_revoke id in io_ret (Body.FirewallRevoke out).
Definition on_firewall_list (namespace : string) : Io W Body.t :=
  let! rules := firewall_list namespace in io_ret (Body.FirewallList rules).
Definition on_firewall_reconcile : Io W Body.t :=
  let! out := firewall_reconcile in io_ret (Body.FirewallReconcile out).
Definition on_host_jwt_set (jwt : string) : Io W Body.t :=
  apply_host_jwt parse_json debug_str pid jwt host_jwt_path;; io_ret (Body.HostJwtSet true).

(** The body of a command's answer; [None] for the ping, which the stream
    answers itself. *)
Definition body_of (command : Cmd.t) : option (Io W Body.t) :=
  match command with
  | Cmd.Ping => None
  | Cmd.ImagesPull reference => Some (on_images_pull reference)
  | Cmd.ImagesList => Some on_images_list
  | Cmd.ImagesDelete reference force => Some (on_images_delete reference force)
  | Cmd.ContainersCreate req => Some (on_containers_create req)
  | Cmd.ContainersStart id => Some (on_containers_start id)
  | Cmd.ContainersStop id timeout => Some (on_containers_stop id timeout)
  | Cmd.ContainersRestart id timeout => Some (on_containers_restart id timeout)
  | Cmd.ContainersDelete id force => Some (on_containers_delete id force)
  | Cmd.ContainersInspect id => Some (on_containers_inspect id)
  | Cmd.ContainersList => Some on_containers_list
  | Cmd.ContainersLogs id tail stdout stderr => Some (on_containers_logs id tail stdout stderr)
  | Cmd.CooldLogs tail => Some (on_coold_logs tail)
  | Cmd.CorrosionTables limit => Some (on_corrosion_tables limit)
  | Cmd.ContainersExec id command => Some (on_containers_exec id command)
  | Cmd.ContainersHealthcheckRun id => Some (on_healthcheck_run id)
  | Cmd.IngressApply kind config net apps => Some (on_ingress_apply kind config apps net)
  | Cmd.IngressStop kind => Some (on_ingress_stop kind)
  | Cmd.FirewallAllow rule => Some (on_firewall_allow rule)
  | Cmd.FirewallRevoke id => Some (on_firewall_revoke id)
  | Cmd.FirewallList namespace => Some (on_firewall_list namespace)
  | Cmd.FirewallReconcile => Some on_firewall_reconcile
  | Cmd.HostJwtSet jwt => Some (on_host_jwt_set jwt)
  end.

(** What one command queues, and the world it leaves. *)
Definition handle (request_id : string) (command : Cmd.t) (w : W) : list ClientMsg.t * W :=
  match body_of command with
  | None => ([], w)
  | Some m =>
      let '(r, w') := m w in
      let body := match r with Ok body => body | Err e => error_body e end in
      (send_response (mkResponse request_id (Some body)), w')
  end.

(* ------------------------------------------------------------------ *)
(** ** Every command is answered once *)

(** A run ends in a body of the given type, or fails. *)
Definition yields (type : string) (m : Io W Body.t) : Prop :=
  forall w b w', m w = (Ok b, w') -> response_body_type (Some b) = type.

Lemma yields_ret type b : response_body_type (Some b) = type -> yields type (io_ret b).
Proof. intros Hb w b' w' [= <- <-]. done. Qed.
Lemma yields_fail type e : yields type (io_fail e).
Proof. intros w b w'. done. Qed.
Lemma yields_bind {A} type (m : Io W A) k : (forall a, yields type (k a)) -> yields type (io_bind m k).
Proof. intros Hk w b w' (a & w1 & _ & H)%io_bind_Ok. by eapply Hk. Qed.

Lemma body_of_yields command m : body_of command = Some m -> yields (command_type command) m.
Proof.
  destruct command; intros [= <-]; cbn [command_type]; try (unfold on_firewall_allow; case_match);
    first [apply yields_fail | repeat (apply yields_bind; intros); by apply yields_ret].
Qed.

(** What [handle] promises the stream. *)
Lemma handle_spec request_id command w m :
  body_of command = Some m ->
  exists body, handle request_id command w = ([ClientMsg.Response (mkResponse request_id (Some body))], (m w).2) /\
    (response_body_type (Some body) = command_type command /\ (exists b, (m w).1 = Ok b) \/
     exists e, (m w).1 = Err e /\ body = Body.Error 500 (show_error e)).
Proof.
  unfold handle. intros E. rewrite E. pose proof (body_of_yields _ _ E w) as Hy. destruct (m w) as [[b|e] w']; cbn.
  - exists b. split; [done|]. left. eauto.
  - exists (error_body e). eauto.
Qed.

(** C29. Every command but the ping is answered by exactly one response, which
    carries the id of the request and is of the type of the command, or an error
    500; the ping is answered by nothing here. *)
Theorem handle_answers_once request_id command w :
  match body_of command with
  | None => command = Cmd.Ping /\ handle request_id command w = ([], w)
  | Some m =>
      command <> Cmd.Ping /\
      exists body, handle request_id command w = ([ClientMsg.Response (mkResponse request_id (Some body))], (m w).2) /\
        (response_body_type (Some body) = command_type command /\ (exists b, (m w).1 = Ok b) \/
         exists e, (m w).1 = Err e /\ body = Body.Error 500 (show_error e))
  end.
Proof.
  destruct (body_of command) as [m|] eqn:E.
  - split; [by intros ->|]. by apply handle_spec.
  - unfold handle. rewrite E. by destruct command.
Qed.
End Handlers.

(** The promise as an interface: the stream is verified against any handler
    that keeps it. *)
Class CommandHandler {W : Type} (handle : string -> Cmd.t -> W -> list ClientMsg.t * W) : Prop :=
  handler_answers request_id command w : command <> Cmd.Ping ->
    exists body, (handle request_id command w).1 = [ClientMsg.Response (mkResponse request_id (Some body))] /\
      (response_body_type (Some body) = command_type command \/ exists message, body = Body.Error 500 message).

#[export] Instance handle_is_handler {W} `{!Host W} debug_str show_status parse_json serde_error to_string_pretty request
    utf8_percent_encode allowed_mount_sources http_post base_url host_jwt_path owner_check pid :
  CommandHandler (handle (W := W) debug_str show_status parse_json serde_error to_string_pretty request
    utf8_percent_encode allowed_mount_sources http_post base_url host_jwt_path owner_check pid).
Proof.
  intros request_id command w Hp. destruct (body_of debug_str show_status parse_json serde_error to_string_pretty request
    utf8_percent_encode allowed_mount_sources http_post base_url host_jwt_path owner_check pid command) as [m|] eqn:E;
    [|by destruct command].
  destruct (handle_spec _ _ _ _ _ _ _ _ _ _ _ _ _ request_id command w m E) as (body & Hh & Hb).
  exists body. rewrite Hh. split; [done|]. destruct Hb as [[Hb _]|(e & _ & ->)]; eauto.
Qed.

(* ------------------------------------------------------------------ *)
(** ** What the agent advertises *)

(** [primitive_capabilities] of [client.rs]. *)
Definition primitive_capabilities : list string :=
  ["images.pull"; "images.list"; "images.delete"; "containers.create"; "containers.start"; "containers.stop";
   "containers.restart"; "containers.delete"; "containers.inspect"; "containers.list"; "containers.logs";
   "containers.exec"; "containers.healthcheck.run"; "ingress.apply"; "ingress.stop"; "firewall.allow";
   "firewall.revoke"; "firewall.list"; "firewall.reconcile"; "coold.logs"; "corrosion.tables"; "host.jwt.set"].

Lemma command_type_advertised command : command <> Cmd.Ping -> command_type command ∈ primitive_capabilities.
Proof. destruct command; intros Hp; try done; apply (bool_decide_unpack _); vm_compute; exact I. Qed.

Lemma to_command_type payload : command_type (to_command payload) = required_capability payload.
Proof. by destruct payload. Qed.
Lemma advertised_payload payload : required_capability payload ∈ primitive_capabilities.
Proof. rewrite <- to_command_type. apply command_type_advertised. by destruct payload. Qed.

(** The primitives the agent advertises are the types of the commands it
    answers, each once; and the capability flux asks of a stream before it sends
    a command is the type the agent knows it under, so no command flux can send
    is unknown to the agent. *)
Theorem capabilities_are_commands :
  NoDup primitive_capabilities /\
  (forall name, name ∈ primitive_capabilities <-> exists command, command <> Cmd.Ping /\ command_type command = name) /\
  (forall payload, command_type (to_command payload) = required_capability payload /\
     required_capability payload ∈ primitive_capabilities).
Proof.
  split; [apply (bool_decide_unpack _); vm_compute; exact I|]. split.
  - intros name. split; [|by intros (c & Hp & <-); apply command_type_advertised].
    intros Hin. repeat (apply elem_of_cons in Hin as [->|Hin]); [..|by apply elem_of_nil in Hin].
    all: first
      [ by exists (Cmd.ImagesPull "") | by exists Cmd.ImagesList | by exists (Cmd.ImagesDelete "" false)
      | by exists (Cmd.ContainersCreate (mkContainersCreateReq "" "" [] [] [] [] [] [] "" [] [] false "" []))
      | by exists (Cmd.ContainersStart "") | by exists (Cmd.ContainersStop "" 0) | by exists (Cmd.ContainersRestart "" 0)
      | by exists (Cmd.ContainersDelete "" false) | by exists (Cmd.ContainersInspect "") | by exists Cmd.ContainersList
      | by exists (Cmd.ContainersLogs "" 0 false false) | by exists (Cmd.ContainersExec "" [])
      | by exists (Cmd.ContainersHealthcheckRun "") | by exists (Cmd.IngressApply "" "" "" [])
      | by exists (Cmd.IngressStop "") | by exists (Cmd.FirewallAllow None) | by exists (Cmd.FirewallRevoke "")
      | by exists (Cmd.FirewallList "") | by exists Cmd.FirewallReconcile | by exists (Cmd.CooldLogs 0)
      | by exists (Cmd.CorrosionTables 0) | by exists (Cmd.HostJwtSet "") ].
  - intros payload. split; [apply to_command_type|apply advertised_payload].
Qed.
