(* ===== verification/StreamClient.v ===== *)
(** * The agent's end of the stream

    [coold/src/grpc/client.rs]: finding flux, the pinned TLS of the connection,
    the stream's messages, and the loop that reconnects.  ([load_host_jwt] is in
    [HostJwt].)  The HTTP client of the assignment, and [tonic]'s endpoint,
    metadata and channel are parameters.  A stream is a transition system: the
    loop that receives commands, the tasks it spawns and the forwarder of status
    updates are interleaved in any order, each taking a whole step at a time. *)

From S2P Require Import Prelude RustStr RustPath Messages Serde FluxState FluxRouting Net FluxAuth FluxConfig FluxServer CooldSync PodmanClient Host HostJwt Handlers.
From Stdlib Require Import ZifyBool.
Local Open Scope Z_scope.

Record AssignmentRequest := mkAssignment {
  as_host_id : string;
  as_coold_version : string;
  as_capabilities : list string;
}.

(** The fields of [Config] the stream uses. *)
Record StreamConfig := mkStreamConfig {
  sc_host_mgmt_ip : string;
  sc_grpc_disabled : bool;
  sc_flux_url : option string;
  sc_assignment_url : option string;
  sc_host_jwt_path : string;
  sc_flux_tls_pin_path : string;
}.

Definition assignment_request (version : string) (config : StreamConfig) : AssignmentRequest :=
  mkAssignment (sc_host_mgmt_ip config) version primitive_capabilities.

Definition assignment_json (r : AssignmentRequest) : json :=
  JObj [("host_id", JStr (as_host_id r)); ("coold_version", JStr (as_coold_version r));
        ("capabilities", jstrs (as_capabilities r))].

(* ------------------------------------------------------------------ *)
(** ** Delays *)

Definition INITIAL_RECONNECT_BACKOFF : Z := from_secs 1.
Definition MAX_RECONNECT_BACKOFF : Z := from_secs 60.
Definition STABLE_STREAM_RESET_AFTER : Z := from_secs 30.
Definition PERMANENT_REJECTION_RETRY_DELAY : Z := from_secs (15 * 60).

Definition next_backoff_after_delay (delay : Z) : Z := Z.min (delay * 2) MAX_RECONNECT_BACKOFF.

(** The delay and the next backoff. *)
Definition backoff_after_clean_stream_close (connected_for current_backoff : Z) : Z * Z :=
  if STABLE_STREAM_RESET_AFTER <=? connected_for then (INITIAL_RECONNECT_BACKOFF, INITIAL_RECONNECT_BACKOFF)
  else (current_backoff, next_backoff_after_delay current_backoff).

Definition permanent_rejection (error : Error) : bool :=
  existsb (fun cause =>
    match cause with
    | Status (Host.Unauthenticated | PermissionDenied | Host.InvalidArgument | Host.FailedPrecondition) _ => true
    | _ => false
    end) error.

Definition retry_delay_for_error (error : Error) (current_backoff : Z) : Z :=
  if permanent_rejection error then PERMANENT_REJECTION_RETRY_DELAY else current_backoff.

(* ------------------------------------------------------------------ *)
(** ** TLS *)

Definition require_flux_tls (url : string) (pin_present : bool) : result bool Error :=
  if pin_present then Ok true
  else if starts_with "https://" (to_ascii_lowercase (trim_start url)) then
    Err (anyhow ("flux URL " +:+ url +:+ " is https but no TLS pin file is present; refusing to connect without a pinned certificate"))
  else Ok false.

Definition flux_tls_domain (url : string) : option string :=
  let without_scheme := match split_once_str "://" url with
                        | Some (_, rest) => until_str "://" rest
                        | None => url
                        end in
  let authority := until_any ["/"; "?"; "#"]%char without_scheme in
  let host := default authority (last (split "@" authority)) in
  let host := default host (head (split ":" host)) in
  let host := trim host in
  if is_empty host then None else Some host.

(** [ClientTlsConfig]: the certificate that is trusted, and the name asked for. *)
Record ClientTlsConfig := mkTls { tls_ca : string; tls_domain : option string }.

Definition pong_for (request_id : string) : ClientMsg.t := ClientMsg.Pong request_id.

Section Stream.
Context {W : Type} `{!Host W}.
Local Open Scope rust_scope.

Section Connect.
Context (parse_json : string -> option json) (show_status : Z -> string) (serde_error : string -> string).
(** A POST of a JSON body with a bearer token: the status, and the body unless
    reading it fails. *)
Context (post_bearer : string -> string -> json -> Io W (Z * result string Error)).
(** [tokio::fs::read]. *)
Context (fs_read : string -> Io W string).
(** [Channel::from_shared], [Endpoint::tls_config], [connect]; the parser of a
    metadata value; opening the stream with a first message queued. *)
Context (from_shared : string -> result unit Error) (tls_config : ClientTlsConfig -> result unit Error)
  (connect : string -> option ClientTlsConfig -> Io W unit) (metadata : string -> result string Error)
  (open_stream : string -> list ClientMsg.t -> Io W unit).
(** [VERSION]. *)
Context (version : string).

(** [AssignmentResponse]. *)
Definition flux_url_of (j : json) : option string :=
  match struct_fields ["flux_url"] j with Some [url] => field_req dec_str url | _ => None end.

Definition resolve_flux_url (assignment_url flux_url : option string) (jwt : string) (req : AssignmentRequest) : Io W string :=
  match assignment_url with
  | Some url =>
      let! resp := with_context ("POST flux assignment " +:+ url) (post_bearer url jwt (assignment_json req)) in
      if negb (is_success resp.1) then
        let body := match resp.2 with Ok text => text | Err _ => "" end in
        io_fail (anyhow ("flux assignment " +:+ url +:+ " returned " +:+ show_status resp.1 +:+ ": " +:+ body))
      else
        let ctx := "decode flux assignment response from " +:+ url in
        let! bytes := with_context ctx (io_lift resp.2) in
        match parse_json bytes ≫= flux_url_of with
        | None => io_fail [Msg ctx; Msg (serde_error bytes)]
        | Some flux_url =>
            if is_empty (trim flux_url) then io_fail (anyhow ("flux assignment " +:+ url +:+ " returned empty flux_url"))
            else io_ret flux_url
        end
  | None =>
      match flux_url with
      | Some url => io_ret url
      | None => io_fail (anyhow "COOLIFY_COOLD_ASSIGNMENT_URL or COOLIFY_COOLD_FLUX_URL must be set")
      end
  end.

Definition flux_tls_config (url pin_path : string) : Io W (option ClientTlsConfig) :=
  let! read := attempt (fs_read pin_path) in
  let! pem := match read with
              | Ok bytes => io_ret (Some bytes)
              | Err (IoError NotFound _ :: _) => io_ret None
              | Err e => io_fail (anyhow ("read flux TLS pin " +:+ pin_path +:+ ": " +:+ show_error e))
              end in
  let! required := io_lift (require_flux_tls url (bool_decide (is_Some pem))) in
  match required, pem with
  | true, Some pem => io_ret (Some (mkTls pem (flux_tls_domain url)))
  | _, _ => io_ret None
  end.

Definition hello (config : StreamConfig) : Hello :=
  mkHello (sc_host_mgmt_ip config) version 1 1 primitive_capabilities.

(** [connect_and_serve] up to the established stream: the messages queued. *)
Definition establish (url jwt : string) (config : StreamConfig) : Io W (list ClientMsg.t) :=
  with_context "invalid flux URL" (io_lift (from_shared url));;
  let! tls := flux_tls_config url (sc_flux_tls_pin_path config) in
  match tls with
  | Some tls => with_context "configure flux TLS pin" (io_lift (tls_config tls))
  | None => io_ret ()
  end;;
  with_context "connect to flux" (connect url tls);;
  let! bearer := with_context "build bearer metadata" (io_lift (metadata ("Bearer " +:+ jwt))) in
  let queued := [ClientMsg.Hello (hello config)] in
  with_context "open stream" (open_stream bearer queued);;
  io_ret queued.

(** *** The loop of [run] *)

(** [connect_and_serve] as the loop sees it, with the time it took. *)
Context (connect_and_serve : string -> string -> W -> (result unit Error * Z) * W).

Inductive Attempt :=
  | LoadFailed (e : Error)
  | ResolveFailed (e : Error)
  | Served (r : result unit Error) (connected_for : Z).

(** The delay after an attempt, and the next backoff. *)
Definition after_attempt (a : Attempt) (backoff : Z) : Z * Z :=
  match a with
  | LoadFailed _ | ResolveFailed _ => (backoff, next_backoff_after_delay backoff)
  | Served (Ok _) connected_for => backoff_after_clean_stream_close connected_for backoff
  | Served (Err e) _ =>
      let delay := retry_delay_for_error e backoff in (delay, next_backoff_after_delay delay)
  end.

Definition attempt_connection (config : StreamConfig) (w : W) : Attempt * W :=
  match load_host_jwt (sc_host_jwt_path config) w with
  | (Err e, w1) => (LoadFailed e, w1)
  | (Ok jwt, w1) =>
      match resolve_flux_url (sc_assignment_url config) (sc_flux_url config) jwt
              (assignment_request version config) w1 with
      | (Err e, w2) => (ResolveFailed e, w2)
      | (Ok url, w2) => let '((r, elapsed), w3) := connect_and_serve url jwt w2 in (Served r elapsed, w3)
      end
  end.

(** [n] turns of the loop: what was attempted and how long was slept. *)
Fixpoint turns (n : nat) (config : StreamConfig) (backoff : Z) (w : W) : list (Attempt * Z) * W :=
  match n with
  | O => ([], w)
  | S n =>
      let '(a, w1) := attempt_connection config w in
      let '(delay, next) := after_attempt a backoff in
      let '(rest, w2) := turns n config next w1 in
      ((a, delay) :: rest, w2)
  end.

Inductive Started := Disabled | RunFailed (e : Error) | Looping.

(** What precedes the loop; without a flux it waits forever. *)
Definition start_run (config : StreamConfig) (w : W) : Started * W :=
  if sc_grpc_disabled config || bool_decide (sc_flux_url config = None /\ sc_assignment_url config = None)
  then (Disabled, w)
  else match with_context "initial host JWT load" (load_host_jwt (sc_host_jwt_path config)) w with
       | (Err e, w1) => (RunFailed e, w1)
       | (Ok _, w1) => (Looping, w1)
       end.
End Connect.

(* ------------------------------------------------------------------ *)
(** ** An open stream *)

Context (handle : string -> Cmd.t -> W -> list ClientMsg.t * W).

(** What is queued for flux, the commands whose tasks have not finished, the
    request for a full status snapshot, and the machine. *)
Record Session := mkSession {
  ss_outbox : list ClientMsg.t;
  ss_tasks : list (string * Cmd.t);
  ss_resync : bool;
  ss_world : W;
}.

(** The queue holds the greeting, and a resync is requested. *)
Definition opened (queued : list ClientMsg.t) (w : W) : Session := mkSession queued [] true w.

(** The body of the receive loop. *)
Definition on_message (msg : ServerMsg) (s : Session) : Session :=
  match sm_command msg with
  | None => s
  | Some Cmd.Ping => mkSession (ss_outbox s ++ [pong_for (sm_request_id msg)]) (ss_tasks s) (ss_resync s) (ss_world s)
  | Some command => mkSession (ss_outbox s) (ss_tasks s ++ [(sm_request_id msg, command)]) (ss_resync s) (ss_world s)
  end.

(** The body of the forwarder's loop. *)
Inductive StatusRecv := Update (u : ResourceStatusUpdate) | Lagged.
Definition on_status (ev : StatusRecv) (s : Session) : Session :=
  match ev with
  | Update u => mkSession (ss_outbox s ++ [ClientMsg.ResourceStatusUpdate u]) (ss_tasks s) (ss_resync s) (ss_world s)
  | Lagged => mkSession (ss_outbox s) (ss_tasks s) true (ss_world s)
  end.

Inductive Event :=
  | Received (msg : ServerMsg)
  | StatusEvent (ev : StatusRecv)
  | Finished (request_id : string)
  | Resynced.

Inductive step : Session -> Event -> Session -> Prop :=
  | step_received s msg : step s (Received msg) (on_message msg s)
  | step_status s ev : step s (StatusEvent ev) (on_status ev s)
  | step_task s before request_id command after msgs w :
      ss_tasks s = before ++ (request_id, command) :: after ->
      handle request_id command (ss_world s) = (msgs, w) ->
      step s (Finished request_id) (mkSession (ss_outbox s ++ msgs) (before ++ after) (ss_resync s) w)
  (** the reconciliation takes the request for a snapshot *)
  | step_resync s : step s Resynced (mkSession (ss_outbox s) (ss_tasks s) false (ss_world s)).

Inductive steps : Session -> list Event -> Session -> Prop :=
  | steps_none s : steps s [] s
  | steps_more s evs s1 ev s2 : steps s evs s1 -> step s1 ev s2 -> steps s (evs ++ [ev]) s2.
End Stream.

(* ------------------------------------------------------------------ *)
(** ** Every command is answered once *)

Definition command_id (msg : ServerMsg) : option string :=
  match sm_command msg with None | Some Cmd.Ping => None | Some _ => Some (sm_request_id msg) end.
Definition ping_id (msg : ServerMsg) : option string :=
  match sm_command msg with Some Cmd.Ping => Some (sm_request_id msg) | _ => None end.
Definition received (evs : list Event) : list ServerMsg :=
  omap (fun ev => match ev with Received msg => Some msg | _ => None end) evs.
Definition updates (evs : list Event) : list ResourceStatusUpdate :=
  omap (fun ev => match ev with StatusEvent (Update u) => Some u | _ => None end) evs.

Definition response_of (m : ClientMsg.t) : option Response := match m with ClientMsg.Response r => Some r | _ => None end.
Definition pong_of (m : ClientMsg.t) : option string := match m with ClientMsg.Pong id => Some id | _ => None end.
Definition update_of (m : ClientMsg.t) : option ResourceStatusUpdate :=
  match m with ClientMsg.ResourceStatusUpdate u => Some u | _ => None end.

(** An answer to a command that was received. *)
Definition answers (msgs : list ServerMsg) (r : Response) : Prop :=
  exists msg command body, msg ∈ msgs /\ sm_command msg = Some command /\ command <> Cmd.Ping /\
    r = mkResponse (sm_request_id msg) (Some body) /\
    (response_body_type (Some body) = command_type command \/ exists message, body = Body.Error 500 message).

Section Answers.
Context {W : Type} (handle : string -> Cmd.t -> W -> list ClientMsg.t * W) `{!CommandHandler handle}.
Notation steps := (steps handle).

(** The invariant of an open stream. *)
Record consistent (hello : Hello) (evs : list Event) (s : Session (W := W)) : Prop := {
  inv_hello : exists rest, ss_outbox s = ClientMsg.Hello hello :: rest /\ forall h, ClientMsg.Hello h ∉ rest;
  inv_pongs : omap pong_of (ss_outbox s) = omap ping_id (received evs);
  inv_updates : omap update_of (ss_outbox s) = updates evs;
  inv_ids : (r_request_id <$> omap response_of (ss_outbox s)) ++ (ss_tasks s).*1 ≡ₚ omap command_id (received evs);
  inv_tasks : Forall (fun t => exists msg, msg ∈ received evs /\ sm_command msg = Some t.2 /\ t.2 <> Cmd.Ping /\
                                           sm_request_id msg = t.1) (ss_tasks s);
  inv_answers : Forall (answers (received evs)) (omap response_of (ss_outbox s));
}.

Lemma answers_mono msgs msgs' r : answers msgs r -> answers (msgs ++ msgs') r.
Proof. intros (msg & c & b & Hin & H). exists msg, c, b. split; [|done]. apply elem_of_app. by left. Qed.
Lemma answers_all_mono msgs msgs' rs : Forall (answers msgs) rs -> Forall (answers (msgs ++ msgs')) rs.
Proof. intros H. eapply Forall_impl; [done|]. intros r. apply answers_mono. Qed.

Lemma hello_app hello (out more : list ClientMsg.t) :
  (exists rest, out = ClientMsg.Hello hello :: rest /\ forall h, ClientMsg.Hello h ∉ rest) ->
  (forall h, ClientMsg.Hello h ∉ more) ->
  exists rest, out ++ more = ClientMsg.Hello hello :: rest /\ forall h, ClientMsg.Hello h ∉ rest.
Proof.
  intros (rest & -> & Hr) Hm. exists (rest ++ more). split; [done|]. intros h. rewrite elem_of_app. intros [?|?]; [by eapply Hr|by eapply Hm].
Qed.

Lemma received_app evs ev : received (evs ++ [ev]) = received evs ++ received [ev].
Proof. unfold received. by rewrite omap_app. Qed.
Lemma updates_app evs ev : updates (evs ++ [ev]) = updates evs ++ updates [ev].
Proof. unfold updates. by rewrite omap_app. Qed.

Lemma message_cases msg (s : Session (W := W)) :
  (sm_command msg = None /\ on_message msg s = s) \/
  (sm_command msg = Some Cmd.Ping) \/
  (exists command, sm_command msg = Some command /\ command <> Cmd.Ping /\
    command_id msg = Some (sm_request_id msg) /\ ping_id msg = None /\
    on_message msg s =
      mkSession (ss_outbox s) (ss_tasks s ++ [(sm_request_id msg, command)]) (ss_resync s) (ss_world s)).
Proof.
  unfold on_message, command_id, ping_id. destruct (sm_command msg) as [c|]; [|by left]. right.
  destruct c; [by left|right; eexists; split_and!; [reflexivity|done|done|done|done]..].
Qed.

Lemma tasks_mono msgs msgs' (ts : list (string * Cmd.t)) :
  Forall (fun t => exists msg, msg ∈ msgs /\ sm_command msg = Some t.2 /\ t.2 <> Cmd.Ping /\ sm_request_id msg = t.1) ts ->
  Forall (fun t => exists msg, msg ∈ msgs ++ msgs' /\ sm_command msg = Some t.2 /\ t.2 <> Cmd.Ping /\ sm_request_id msg = t.1) ts.
Proof.
  intros Hts. eapply Forall_impl; [done|]. intros t (msg & Hin & H). exists msg. split; [|done]. apply elem_of_app. by left.
Qed.

Lemma received_consistent hello evs s msg :
  consistent hello evs s -> consistent hello (evs ++ [Received msg]) (on_message msg s).
Proof.
  intros [H1 H2 H3 H4 H5 H6]. destruct (message_cases msg s) as [(Hc & ->)|[Hc|(c & Hc & Hp & Hid & Hping & ->)]].
  - split; rewrite ?received_app, ?updates_app, ?omap_app; cbn [received updates omap list_omap]; rewrite ?app_nil_r;
      unfold ping_id, command_id; rewrite ?Hc, ?app_nil_r; auto using tasks_mono, answers_all_mono.
  - unfold on_message. rewrite Hc.
    split; cbn [ss_outbox ss_tasks]; rewrite ?received_app, ?updates_app, ?omap_app; cbn [received updates omap list_omap pong_of update_of response_of pong_for];
      unfold ping_id, command_id; rewrite ?Hc, ?app_nil_r; auto using tasks_mono, answers_all_mono.
    + apply hello_app; [done|]. intros h. by rewrite list_elem_of_singleton.
    + by rewrite H2.
  - split; cbn [ss_outbox ss_tasks]; rewrite ?received_app, ?updates_app, ?omap_app; cbn [received updates omap list_omap];
      rewrite ?Hid, ?Hping, ?app_nil_r; auto using answers_all_mono.
    + by rewrite fmap_app, app_assoc, H4.
    + apply Forall_app. split; [by apply tasks_mono|]. constructor; [|done]. exists msg. cbn. split_and!; [|done..].
      apply elem_of_app. right. by apply list_elem_of_singleton.
Qed.

Lemma status_consistent hello evs s ev :
  consistent hello evs s -> consistent hello (evs ++ [StatusEvent ev]) (on_status ev s).
Proof.
  intros [H1 H2 H3 H4 H5 H6].
  destruct ev as [u|]; split; cbn [ss_outbox ss_tasks on_status]; rewrite ?received_app, ?updates_app, ?omap_app;
    cbn [received updates omap list_omap pong_of update_of response_of]; rewrite ?app_nil_r; auto.
  - apply hello_app; [done|]. intros h. by rewrite list_elem_of_singleton.
  - by rewrite H3.
Qed.

Lemma task_consistent hello evs s before id c after msgs w :
  ss_tasks s = before ++ (id, c) :: after -> handle id c (ss_world s) = (msgs, w) -> consistent hello evs s ->
  consistent hello (evs ++ [Finished id]) (mkSession (ss_outbox s ++ msgs) (before ++ after) (ss_resync s) w).
Proof.
  intros Ht Hh [H1 H2 H3 H4 H5 H6]. rewrite Ht in H4, H5. apply Forall_app in H5 as [Hb [Htc Ha]%Forall_cons].
  destruct Htc as (msg & Hin & Hc & Hp & Hid). cbn [fst snd] in *.
  destruct (handler_answers id c (ss_world s) Hp) as (body & Hm & Hty). rewrite Hh in Hm. cbn in Hm. subst msgs.
  split; cbn [ss_outbox ss_tasks]; rewrite ?received_app, ?updates_app, ?omap_app;
    cbn [received updates omap list_omap pong_of update_of response_of]; rewrite ?app_nil_r; auto.
  - apply hello_app; [done|]. intros h. by rewrite list_elem_of_singleton.
  - rewrite <- H4. rewrite !fmap_app. cbn. solve_Permutation.
  - by apply Forall_app.
  - apply Forall_app. split; [done|]. constructor; [|done]. exists msg, c, body. by rewrite Hid.
Qed.

Lemma steps_consistent hello evs w s :
  steps (opened [ClientMsg.Hello hello] w) evs s -> consistent hello evs s.
Proof.
  intros H. remember (opened _ _) as s0 eqn:E0. induction H as [s|s evs s1 ev s2 H IH Hst]; subst.
  - split; cbn; try done. exists []. split; [done|]. intros h. apply not_elem_of_nil.
  - specialize (IH eq_refl). destruct Hst.
    + by apply received_consistent.
    + by apply status_consistent.
    + by eapply task_consistent.
    + destruct IH. split; cbn [ss_outbox ss_tasks]; rewrite ?received_app, ?updates_app; cbn [received updates omap list_omap]; by rewrite ?app_nil_r.
Qed.

(** C4. Whatever the order in which commands arrive, tasks finish and updates are
    broadcast: the stream opens with the greeting and greets once; the pings are
    answered in their order and the updates forwarded in theirs; every answer is
    to a command that was received, with its id and its type or an error; and
    the answers together with the tasks still running are exactly the commands
    received, so a command is never answered twice nor dropped. *)
Theorem stream_answers_once hello w evs s :
  steps (opened [ClientMsg.Hello hello] w) evs s ->
  (exists rest, ss_outbox s = ClientMsg.Hello hello :: rest /\ forall h, ClientMsg.Hello h ∉ rest) /\
  omap pong_of (ss_outbox s) = omap ping_id (received evs) /\
  omap update_of (ss_outbox s) = updates evs /\
  (r_request_id <$> omap response_of (ss_outbox s)) ++ (ss_tasks s).*1 ≡ₚ omap command_id (received evs) /\
  Forall (answers (received evs)) (omap response_of (ss_outbox s)).
Proof. intros H. by destruct (steps_consistent _ _ _ _ H). Qed.
End Answers.

(* ------------------------------------------------------------------ *)
(** ** The delays of the loop *)

(** Flux has answered, somewhere in the chain of causes, with a status that does
    not go away by trying again. *)
Definition rejected (a : Attempt) : Prop :=
  exists e t code message, a = Served (Err e) t /\ Status code message ∈ e /\
    code ∈ [Host.Unauthenticated; PermissionDenied; Host.InvalidArgument; Host.FailedPrecondition].
(** Attempts after which the backoff keeps growing: what fails otherwise, and a
    stream that closes within half a minute. *)
Definition transient (a : Attempt) : Prop :=
  match a with Served (Ok _) connected_for => connected_for < from_secs 30 | _ => ~ rejected a end.

Lemma rejected_spec e t : rejected (Served (Err e) t) <-> permanent_rejection e = true.
Proof.
  unfold rejected, permanent_rejection. rewrite existsb_exists. split.
  - intros (e' & t' & code & message & [= <- <-] & Hin & Hc). exists (Status code message).
    split; [by apply list_elem_of_In|]. by repeat (apply elem_of_cons in Hc as [->|Hc]; [done|]); apply elem_of_nil in Hc.
  - intros (cause & Hin%list_elem_of_In & Hc). destruct cause as [|?|code message]; [done|done|].
    exists e, t, code, message. split; [done|]. split; [done|]. destruct code; try done; set_solver.
Qed.
Lemma not_rejected a : (forall e t, a <> Served (Err e) t) -> ~ rejected a.
Proof. intros Ha (e & t & code & message & E & _). by eapply Ha. Qed.

Ltac consts := unfold next_backoff_after_delay, INITIAL_RECONNECT_BACKOFF, MAX_RECONNECT_BACKOFF,
  PERMANENT_REJECTION_RETRY_DELAY, from_secs in *.

Definition backoff_ok (backoff : Z) : Prop := INITIAL_RECONNECT_BACKOFF <= backoff <= MAX_RECONNECT_BACKOFF.

Lemma after_attempt_bounds a backoff : backoff_ok backoff ->
  let '(delay, next) := after_attempt a backoff in
  backoff_ok next /\
  (rejected a -> delay = PERMANENT_REJECTION_RETRY_DELAY) /\ (~ rejected a -> backoff_ok delay) /\
  (transient a -> delay = backoff /\ next = next_backoff_after_delay backoff) /\
  (forall t, a = Served (Ok ()) t -> from_secs 30 <= t -> delay = INITIAL_RECONNECT_BACKOFF).
Proof.
  intros Hb. unfold backoff_ok, transient in *.
  destruct a as [e|e|[[]|e] t]; cbn -[rejected]; unfold backoff_after_clean_stream_close, retry_delay_for_error, STABLE_STREAM_RESET_AFTER.
  - assert (~ rejected (LoadFailed e)) as Hr by (by apply not_rejected). split_and!; intros; try done; consts; lia.
  - assert (~ rejected (ResolveFailed e)) as Hr by (by apply not_rejected). split_and!; intros; try done; consts; lia.
  - assert (~ rejected (Served (Ok ()) t)) as Hr by (by apply not_rejected).
    destruct (Z.leb_spec (from_secs 30) t); split_and!; intros; try done; simplify_eq; consts; try split; lia.
  - rewrite rejected_spec. destruct (permanent_rejection e); split_and!; intros; try done; consts; try split; lia.
Qed.

Section Loop.
Context {W : Type} `{!Host W} (parse_json : string -> option json) (show_status : Z -> string) (serde_error : string -> string)
  (post_bearer : string -> string -> json -> Io W (Z * result string Error)) (version : string)
  (connect_and_serve : string -> string -> W -> (result unit Error * Z) * W) (config : StreamConfig).
Notation turns := (turns parse_json show_status serde_error post_bearer version connect_and_serve).

Lemma turns_S n backoff w :
  exists a w1, (turns (S n) config backoff w).1 =
    (a, (after_attempt a backoff).1) :: (turns n config (after_attempt a backoff).2 w1).1.
Proof.
  cbn [StreamClient.turns]. destruct (attempt_connection _ _ _ _ _ _ _ w) as [a w1]. exists a, w1.
  destruct (after_attempt a backoff) as [d next]. cbn. by destruct (turns n config next w1).
Qed.

Lemma turns_bounds n : forall backoff w, backoff_ok backoff ->
  Forall (fun ad : Attempt * Z =>
      (rejected ad.1 -> ad.2 = PERMANENT_REJECTION_RETRY_DELAY) /\ (~ rejected ad.1 -> backoff_ok ad.2) /\
      (forall t, ad.1 = Served (Ok ()) t -> from_secs 30 <= t -> ad.2 = INITIAL_RECONNECT_BACKOFF))
    (turns n config backoff w).1.
Proof.
  induction n as [|n IH]; intros backoff w Hb; [constructor|]. destruct (turns_S n backoff w) as (a & w1 & ->).
  pose proof (after_attempt_bounds a backoff Hb) as Ha. destruct (after_attempt a backoff) as [d next]. cbn [fst snd].
  destruct Ha as (Hn & Hd & Hd' & _ & Hs). constructor; [done|]. by apply IH.
Qed.

Lemma turns_grow n : forall k backoff w,
  backoff = from_secs (Z.min 60 (2 ^ Z.of_nat k)) ->
  Forall (fun ad : Attempt * Z => transient ad.1) (turns n config backoff w).1 ->
  ((turns n config backoff w).1).*2 = (fun i => from_secs (Z.min 60 (2 ^ Z.of_nat i))) <$> seq k n.
Proof.
  induction n as [|n IH]; intros k backoff w Hb Hall; [done|]. destruct (turns_S n backoff w) as (a & w1 & E).
  rewrite E in Hall |- *. apply Forall_cons in Hall as [Ht Hall]. cbn [fst] in Ht.
  assert (0 < 2 ^ Z.of_nat k) by (apply Z.pow_pos_nonneg; lia).
  assert (backoff_ok backoff) as Hok by (unfold backoff_ok; consts; lia).
  pose proof (after_attempt_bounds a backoff Hok) as Ha. destruct (after_attempt a backoff) as [d next] eqn:Ea.
  destruct Ha as (_ & _ & _ & Ha & _). destruct (Ha Ht) as [-> ->]. cbn [fst snd] in *. cbn [seq]. rewrite !fmap_cons. f_equal; [done|].
  apply IH; [|done]. rewrite Nat2Z.inj_succ, Z.pow_succ_r by lia. subst backoff. consts. lia.
Qed.

End Loop.

(* ------------------------------------------------------------------ *)
(** ** The connection is pinned *)

Section Pinned.
Context {W : Type} `{!Host W} (fs_read : string -> Io W string)
  (from_shared : string -> result unit Error) (tls_config : ClientTlsConfig -> result unit Error)
  (connect : string -> option ClientTlsConfig -> Io W unit) (metadata : string -> result string Error)
  (open_stream : string -> list ClientMsg.t -> Io W unit) (version : string).

Lemma tls_config_spec url pin w tls w' : flux_tls_config fs_read url pin w = (Ok tls, w') ->
  (exists pem, fs_read pin w = (Ok pem, w') /\ tls = Some (mkTls pem (flux_tls_domain url))) \/
  (exists s e, fs_read pin w = (Err (IoError NotFound s :: e), w') /\ tls = None /\
     starts_with "https://" (to_ascii_lowercase (trim_start url)) = false).
Proof.
  unfold flux_tls_config. intros H. apply io_bind_Ok in H as (read & w1 & Hr & H). rewrite attempt_Ok in Hr.
  apply io_bind_Ok in H as (pem & w2 & Hp & H). apply io_bind_Ok in H as (req & w3 & Hq & H).
  unfold io_lift in Hq. injection Hq as Hq <-. destruct read as [bytes|[|[s|[] s|c s] e]]; try discriminate Hp.
  - unfold io_ret in Hp. injection Hp as <- <-. cbn in Hq. injection Hq as <-. injection H as <- <-. left. eauto.
  - unfold io_ret in Hp. injection Hp as <- <-. cbn in Hq. unfold require_flux_tls in Hq.
    destruct (starts_with _ _) eqn:Es; [done|]. injection Hq as <-. injection H as <- <-. right. eauto 6.
Qed.

(** C26. A stream is established only over a connection that matches the pin: with a
    pin file, over TLS that trusts exactly its certificate; without one, over no
    TLS at all, and then the address is not [https], in whatever case it is
    written.  The greeting is all that is queued. *)
Theorem connection_is_pinned url jwt config w queued w' :
  establish fs_read from_shared tls_config connect metadata open_stream version url jwt config w = (Ok queued, w') ->
  queued = [ClientMsg.Hello (hello version config)] /\
  exists tls w1 w2, connect url tls w1 = (Ok (), w2) /\
    match fs_read (sc_flux_tls_pin_path config) w with
    | (Ok pem, _) => tls = Some (mkTls pem (flux_tls_domain url))
    | (Err _, _) => tls = None /\ starts_with "https://" (to_ascii_lowercase (trim_start url)) = false
    end.
Proof.
  unfold establish. intros H. io_inv H. split; [done|]. unfold io_lift in Hs. injection Hs as _ <-.
  exists r, w2, w3. split; [done|].
  destruct (tls_config_spec _ _ _ _ _ Hs0) as [(pem & -> & ->)|(s & e & -> & -> & Hn)]; done.
Qed.
End Pinned.

(** An IPv6 address in brackets is cut at its first colon: the name asked of the
    server is not the address. *)
Theorem ipv6_domain_is_cut : flux_tls_domain "https://[fd00::1]:6443" = Some "[fd00".
Proof. reflexivity. Qed.

(* ------------------------------------------------------------------ *)
(** ** The agent and flux together *)

Section WithFlux.
Context `{lib : JwtLib} {R : Type} `{!RevocationCheck R} (cfg : Config) (version : string) (config : StreamConfig).

(** The request flux sees when the agent connects from a peer. *)
Definition agent_request (jwt : string) (peer : option SocketAddr) : StreamRequest :=
  mkRequest (Some ("Bearer " +:+ jwt)) peer (Some (Ok (ClientMsg.Hello (hello version config)))).

(** The token allows the capability: it lists it, or it has a profile that stands
    for all and the operator lets those count. *)
Definition token_allows (v : VerifiedJwt) (capability : string) : Prop :=
  capability ∈ vj_caps v \/
  allow_wildcard_capabilities cfg = true /\
  exists profile, profile ∈ vj_caps v /\ profile ∈ ["*"; "host-agent:dev"; "host-agent:default"].

Lemma token_allows_spec v capability :
  has_cap capability (effective_capabilities primitive_capabilities (vj_caps v) (allow_wildcard_capabilities cfg)) = true <->
  capability ∈ primitive_capabilities /\ token_allows v capability.
Proof.
  rewrite has_cap_spec. split; [apply effective_capabilities_elem|].
  intros [Ha Ht]. unfold effective_capabilities. destruct (_ && _) eqn:E; [done|].
  rewrite list_elem_of_filter, Is_true_true, has_cap_spec. split; [|done].
  destruct Ht as [|(Hw & p & Hp & Hall)]; [done|]. rewrite Hw in E. cbn in E.
  enough (contains_wildcard_profile (vj_caps v) = true) by congruence.
  apply existsb_exists. exists p. split; [by apply list_elem_of_In|]. by apply bool_decide_eq_true.
Qed.

(** C18. The agent and flux agree.  Flux turns an agent away only for its credentials,
    never for the version or the form of its greeting: the token does not verify,
    it has no tenant though one is required, or, with the binding enforced, it is
    not for the address the agent connects from, nor, where the two cannot be
    compared, for the management address the agent greets with.  On a stream that
    was accepted every command is sent whose capability the token allows, and every
    other is refused as not authorized; none is refused as unsupported. *)
Theorem flux_and_agent_agree clock now (rev : R) jwt peer :
  match verify_jwt clock jwt (jwt_keys cfg) rev now (max_token_lifetime_secs cfg),
        accept cfg clock now rev (agent_request jwt peer) with
  | Err _, r => r = Err (FluxServer.Unauthenticated "invalid credentials")
  | Ok v, Err e =>
      e = FluxServer.Unauthenticated "invalid credentials" /\
      (require_team_id cfg = true /\ (forall team, vj_team_id v = Some team -> trim team = "") \/
       require_host_binding cfg = true /\
       match sa_ip <$> peer, parse_ipaddr (vj_host_id v) with
       | Some from, Some ip => from <> ip
       | _, _ => vj_host_id v = "" \/ sc_host_mgmt_ip config <> vj_host_id v
       end)
  | Ok v, Ok a =>
      ac_host a = vj_host_id v /\
      forall streams tx env,
        Streams.get (de_host_id env) streams = Some (Streams.mkStreamHandle tx (ac_caps a) (ac_advertised a)) ->
        let capability := required_capability (de_command env) in
        (token_allows v capability ->
         route_coold streams env =
           SendCoold (de_host_id env) (mkServerMsg (de_request_id env) (Some (to_command (de_command env))))) /\
        (~ token_allows v capability ->
         route_coold streams env =
           PushError 403 ("capability " +:+ capability +:+ " is not authorized for this host token"))
  end.
Proof.
  unfold accept, agent_request. cbn [rq_authorization mbind option_bind].
  assert (strip_prefix "Bearer " ("Bearer " +:+ jwt) = Some jwt) as -> by by apply strip_prefix_Some.
  destruct (verify_jwt _ _ _ _ _ _) as [v|]; [|done].
  destruct (team_id_satisfied (vj_team_id v) (require_team_id cfg)) eqn:Et; cbn -[decide_host_binding].
  - destruct (decide_host_binding _ _ _ _) as [b|d] eqn:Eb.
    + split; [done|]. intros streams tx env Hg.
      assert (required_capability (de_command env) ∈ primitive_capabilities) as Hp by apply advertised_payload.
      assert (has_cap (required_capability (de_command env)) primitive_capabilities = true) as Hpc by by apply has_cap_spec.
      pose proof (token_allows_spec v (required_capability (de_command env))) as Ht.
      unfold route_coold. rewrite Hg. cbn -[required_capability primitive_capabilities effective_capabilities has_cap to_command] in *. rewrite Hpc.
      destruct (has_cap _ (effective_capabilities _ _ _)); cbn [negb]; split; intros Ha; try done; exfalso; naive_solver.
    + apply host_binding_refused in Eb. split; [done|by right].
  - split; [done|]. left. unfold team_id_satisfied in Et. destruct (require_team_id cfg); [|done]. split; [done|].
    intros team Hteam. rewrite Hteam in Et. cbn in Et. by destruct (trim team).
Qed.
End WithFlux.

(* ------------------------------------------------------------------ *)
(** ** A stream in memory *)

Module Demo.
Definition no_links (p : string) : option string := Some p.
#[local] Instance H : Host (Sim.World unit) := Sim.host Sim.quiet no_links.
Definition same (s : string) : string := s.
Definition unreachable {A} : Io (Sim.World unit) A := io_fail (anyhow "connection refused").
Definition handler : string -> Cmd.t -> Sim.World unit -> list ClientMsg.t * Sim.World unit :=
  Handlers.handle same show_Z (fun _ => None) same (fun _ => "") (fun _ _ _ => unreachable) (fun _ s => s) []
    (fun _ _ => unreachable) "http://127.0.0.1:8080" "/etc/coolify/host-jwt"
    (Firewall.mkOwnerCheck "100.64.0.5" true) 7.
Definition w0 : Sim.World unit := Sim.mkWorld ∅ [] ().
Definition config : StreamConfig :=
  mkStreamConfig "100.64.0.5" false (Some "https://flux:6443") None "/etc/coolify/host-jwt" "/etc/coolify/flux.pem".
Definition logs : ServerMsg := mkServerMsg "r1" (Some (Cmd.CooldLogs 5)).
Definition starts : ServerMsg := mkServerMsg "r2" (Some (Cmd.ContainersStart "web")).
Definition ping : ServerMsg := mkServerMsg "p1" (Some Cmd.Ping).

(** Two commands arrive, and then a ping; the second command is done first. *)
Definition events : list Event :=
  [Received logs; Received starts; Received ping; Finished "r2"; Finished "r1"].
Definition s0 : Session := opened [ClientMsg.Hello (hello "1.0" config)] w0.
Definition s3 : Session := on_message ping (on_message starts (on_message logs s0)).
Definition after1 := handler "r2" (Cmd.ContainersStart "web") w0.
Definition after2 := handler "r1" (Cmd.CooldLogs 5) after1.2.
Definition s5 : Session := mkSession ((ss_outbox s3 ++ after1.1) ++ after2.1) [] true after2.2.

Lemma demo_steps : steps handler s0 events s5.
Proof.
  apply (steps_more _ _ [_; _; _; _] (mkSession (ss_outbox s3 ++ after1.1) [("r1", Cmd.CooldLogs 5)] true after1.2)).
  - apply (steps_more _ _ [_; _; _] s3).
    + apply (steps_more _ _ [_; _] (on_message starts (on_message logs s0))); [|apply step_received].
      apply (steps_more _ _ [_] (on_message logs s0)); [|apply step_received].
      apply (steps_more _ _ [] s0); [constructor|apply step_received].
    + apply (step_task handler s3 [("r1", Cmd.CooldLogs 5)] "r2" (Cmd.ContainersStart "web") [] after1.1 after1.2);
        [reflexivity|apply surjective_pairing].
  - apply (step_task handler (mkSession (ss_outbox s3 ++ after1.1) [("r1", Cmd.CooldLogs 5)] true after1.2) []
      "r1" (Cmd.CooldLogs 5) [] after2.1 after2.2); [reflexivity|apply surjective_pairing].
Qed.

Lemma stream_answers_once_witness :
  (r_request_id <$> omap response_of (ss_outbox s5)) ≡ₚ ["r1"; "r2"] /\ omap pong_of (ss_outbox s5) = ["p1"].
Proof.
  destruct (stream_answers_once handler (hello "1.0" config) w0 events s5 demo_steps) as (_ & Hp & _ & Hids & _).
  split; [|exact Hp]. rewrite app_nil_r in Hids. exact Hids.
Defined.

Definition fs_read (p : string) : Io (Sim.World unit) string := io_ret "PEM".
Lemma connection_is_pinned_witness :
  exists tls w1 w2, (fun _ _ => io_ret () : Io (Sim.World unit) unit) "https://flux:6443" tls w1 = (Ok (), w2) /\
    tls = Some (mkTls "PEM" (Some "flux")).
Proof.
  exact (proj2 (connection_is_pinned fs_read (fun _ => Ok ()) (fun _ => Ok ()) (fun _ _ => io_ret ()) (fun s => Ok s)
    (fun _ _ => io_ret ()) "1.0" "https://flux:6443" "t" config w0 _ _ eq_refl)).
Defined.
End Demo.
