(* ===== verification/Dns.v ===== *)
(** * Names of the mesh

    The DNS server of the agent ([coold/src/dns/]: the resolver and the loops
    that keep it bound), the two reconcilers that keep the host ready for it
    ([mesh_dns_anchor.rs], [mesh_dns_resolver.rs], [host_infra.rs]), and how the
    end of a task ends the agent ([propagate] of [sync.rs]).

    [hickory] is the class [DnsName], with what the code relies on as laws; its
    messages are the fields the code reads and sets, its upstream resolver and
    its server are parameters, as are [str::to_lowercase] and the [Display] of an
    address. *)

From S2P Require Import Prelude RustStr Messages Net Host CooldConfig CooldSync CorrosionQuery.
Local Open Scope Z_scope.

(* ------------------------------------------------------------------ *)
(** ** Names *)

(** [LowerName]: its labels from the left, their number, and whether a name is
    in the zone of another. *)
Class DnsName (N : Type) := {
  labels : N -> list string;
  num_labels : N -> Z;
  zone_of : N -> N -> bool;
}.

(** Labels have at least one byte; the number of labels leaves out a leading
    wildcard; a zone holds the names that end with its labels. *)
Class DnsNameLaws (N : Type) `{DnsName N} : Prop := {
  law_label n l : l ∈ labels n -> l <> "";
  law_num_labels n : num_labels n = Z.of_nat (length (labels n)) - (if decide (head (labels n) = Some "*") then 1 else 0);
  law_zone_of z n : zone_of z n = true <-> exists pre, labels n = pre ++ labels z;
}.

Inductive RecordType := TypeA | OtherType.
Inductive ResponseCode := NoError | ServFail | NXDomain | Refused.

(** [Request]: what the handler looks at. *)
Record Request (N : Type) := mkRequest {
  rq_op_query : bool;
  rq_type_query : bool;
  rq_name : N;
  rq_type : RecordType;
}.
Arguments mkRequest {N} _ _ _ _.
Arguments rq_op_query {N} _.
Arguments rq_type_query {N} _.
Arguments rq_name {N} _.
Arguments rq_type {N} _.

(** A record of an answer: one the zone makes up, or one from upstream. *)
Inductive Rec (N U : Type) :=
  | RecA (name : N) (ttl : Z) (v4 : Z)
  | RecUpstream (r : U).
Arguments RecA {N U} _ _ _.
Arguments RecUpstream {N U} _.

Record Reply (N U : Type) := mkReply {
  rp_code : ResponseCode;
  rp_authoritative : bool;
  rp_answers : list (Rec N U);
}.
Arguments mkReply {N U} _ _ _.
Arguments rp_code {N U} _.
Arguments rp_authoritative {N U} _.
Arguments rp_answers {N U} _.

Definition POSITIVE_TTL : Z := 5.

(** [send_code] and [send_empty]; the header of [error_msg] claims no
    authority. *)
Definition send_code {N U} (code : ResponseCode) : Reply N U := mkReply code false [].
Definition send_empty {N U} : Reply N U := mkReply NoError true [].

Section Resolver.
Context {W N U : Type} `{!DnsName N} (to_lowercase : string -> string).
(** [EndpointLookup]. *)
Context (lookup : string -> string -> Io W (list IpAddr)).
(** [upstream.lookup]. *)
Context (upstream : N -> RecordType -> Io W (list U)).
Context (zone : N).

(** [Name::num_labels] is a [u8]: the difference stops at zero. *)
Definition container_and_namespace (query_name : N) : option (string * string) :=
  if negb (zone_of zone query_name) then None
  else
    let extra := Z.max 0 (num_labels query_name - num_labels zone) in
    if extra <? 2 then None
    else
      match labels query_name with
      | c :: n :: _ =>
          let container := to_lowercase (from_utf8_lossy c) in
          let namespace := to_lowercase (from_utf8_lossy n) in
          if is_empty container || is_empty namespace then None else Some (container, namespace)
      | _ => None
      end.

Definition a_record (name : N) (ip : IpAddr) : option (Rec N U) :=
  match ip with V4 v4 => Some (RecA name POSITIVE_TTL v4) | V6 _ => None end.

Definition answer_internal (request : Request N) (container namespace : string) (w : W) : Reply N U * W :=
  match lookup container namespace w with
  | (Err _, w') => (send_code ServFail, w')
  | (Ok ips, w') =>
      (match rq_type request with
       | OtherType => send_empty
       | TypeA =>
           match ips with
           | [] => send_code NXDomain
           | _ =>
               match omap (a_record (rq_name request)) ips with
               | [] => send_empty
               | records => mkReply NoError true records
               end
           end
       end, w')
  end.

Definition answer_in_zone_nxdomain : Reply N U := send_code NXDomain.

Definition answer_forwarded (request : Request N) (w : W) : Reply N U * W :=
  match upstream (rq_name request) (rq_type request) w with
  | (Err _, w') => (send_code ServFail, w')
  | (Ok records, w') => (mkReply NoError false (RecUpstream <$> records), w')
  end.

Definition handle_request (request : Request N) (w : W) : Reply N U * W :=
  if negb (rq_op_query request) || negb (rq_type_query request) then (send_code Refused, w)
  else if zone_of zone (rq_name request) then
    match container_and_namespace (rq_name request) with
    | Some (container, namespace) => answer_internal request container namespace w
    | None => (answer_in_zone_nxdomain, w)
    end
  else answer_forwarded request w.
End Resolver.

(** [CorrosionBackend::lookup]: the addresses that are addresses. *)
Section Backend.
Context {W : Type} (parse_json : string -> option json) (show_status : Z -> string)
  (http_post : string -> json -> Io W (Z * result string Error)) (base_url : string).
Local Open Scope rust_scope.

Definition corrosion_lookup (container_name namespace : string) : Io W (list IpAddr) :=
  let! ips := query_ips_by_name parse_json show_status http_post base_url container_name namespace in
  io_ret (omap parse_ipaddr ips).
End Backend.

(* ------------------------------------------------------------------ *)
(** ** Keeping the server bound *)

Definition BACKOFF_START : Z := from_secs 1.
Definition BACKOFF_MAX : Z := from_secs 30.

Definition is_retryable_io (e : Error) : bool :=
  existsb (fun cause =>
    match cause with
    | IoError (AddrNotAvailable | AddrInUse | NetworkUnreachable | Other) _ => true
    | _ => false
    end) e.

Section Serve.
Context {W : Type} (show_ip : IpAddr -> string).
(** [UdpSocket::bind], [TcpListener::bind] and [block_until_done]. *)
Context (bind_udp bind_tcp : string -> Io W unit) (block_until_done : Io W unit).
Local Open Scope rust_scope.

Definition show_addr (gateway : IpAddr) : string :=
  match gateway with
  | V4 _ => show_ip gateway +:+ ":53"
  | V6 _ => "[" +:+ show_ip gateway +:+ "]:53"
  end.

Definition try_serve (addr : string) : Io W unit :=
  with_context ("bind udp " +:+ addr) (bind_udp addr);;
  with_context ("bind tcp " +:+ addr) (bind_tcp addr);;
  with_context "dns server loop" block_until_done;;
  io_ret ().

(** What the loop has done after some turns: still trying with a backoff, or
    returned. *)
Inductive GatewayState := Trying (backoff : Z) | Done (r : result unit Error).

(** One turn, with the delay it slept; [new_resolver] is [CoolifyResolver::new],
    which depends on the zone alone. *)
Definition gateway_turn (new_resolver : result unit Error) (namespace : string) (gateway : IpAddr) (backoff : Z) (w : W)
    : GatewayState * option Z * W :=
  match new_resolver with
  | Err e => (Done (Err (Msg "build CoolifyResolver" :: e)), None, w)
  | Ok _ =>
      match try_serve (show_addr gateway) w with
      | (Ok _, w') => (Done (Ok ()), None, w')
      | (Err e, w') =>
          if is_retryable_io e then (Trying (Z.min (backoff * 2) BACKOFF_MAX), Some backoff, w')
          else (Done (Err (Msg ("dns bind/serve on " +:+ show_addr gateway +:+ " (namespace " +:+ namespace +:+ ")") :: e)),
                None, w')
      end
  end.

Fixpoint run_for_gateway (n : nat) (new_resolver : result unit Error) (namespace : string) (gateway : IpAddr)
    (backoff : Z) (w : W) : GatewayState * list Z * W :=
  match n with
  | O => (Trying backoff, [], w)
  | S n =>
      match gateway_turn new_resolver namespace gateway backoff w with
      | (Trying next, slept, w1) =>
          let '(s, delays, w2) := run_for_gateway n new_resolver namespace gateway next w1 in
          (s, option_list slept ++ delays, w2)
      | (Done r, slept, w1) => (Done r, option_list slept, w1)
      end
  end.
End Serve.

Definition gateways (namespaces : list NamespaceConfig) : list (string * IpAddr) :=
  (fun n => (nc_name n, nc_gateway_ip n)) <$> filter (fun n => is_unspecified (nc_gateway_ip n) = false) namespaces.

(** The end of a spawned task, as its handle shows it. *)
Inductive TaskEnd := Running | Returned (r : result unit Error) | Panicked (message : string).

(** The handles are awaited in their order; [None] while the one it waits for
    runs. *)
Fixpoint await_gateways (handles : list TaskEnd) : option (result unit Error) :=
  match handles with
  | [] => Some (Ok ())
  | Running :: _ => None
  | Returned (Ok _) :: rest => await_gateways rest
  | Returned (Err e) :: _ => Some (Err e)
  | Panicked message :: _ => Some (Err (anyhow ("dns bind task panicked: " +:+ message)))
  end.

(** [run]: without a gateway it waits forever. *)
Definition run (namespaces : list NamespaceConfig) (ends : string * IpAddr -> TaskEnd) : option (result unit Error) :=
  match gateways namespaces with
  | [] => None
  | gs => await_gateways (ends <$> gs)
  end.

(** [propagate]: the agent ends when one of its tasks does, always with an
    error. *)
Definition propagate (task : string) (res : TaskEnd) : option Error :=
  match res with
  | Running => None
  | Returned (Ok _) => Some (anyhow (task +:+ " task exited unexpectedly"))
  | Returned (Err e) => Some (Msg (task +:+ " task failed") :: e)
  | Panicked message => Some (anyhow (task +:+ " task panicked: " +:+ message))
  end.

(* ------------------------------------------------------------------ *)
(** ** The host *)

Section HostInfra.
Context {W : Type} `{!Host W} (show_ip : IpAddr -> string).
Local Open Scope rust_scope.

Definition reconcilable_namespaces (namespaces : list NamespaceConfig) : list NamespaceConfig :=
  filter (fun n => is_unspecified (nc_gateway_ip n) = false) namespaces.

(** *** The anchor, which keeps the bridge of a network up *)

Definition MESH_DNS_ANCHOR_IMAGE : string := "docker.io/library/alpine:3.20".
Definition anchor_container_name (namespace : string) : string := "coolify-mesh-dns-anchor-" +:+ namespace.

Definition podman_run_args (n : NamespaceConfig) : list string :=
  ["run"; "-d"; "--replace"; "--name"; anchor_container_name (nc_name n); "--network"; nc_network n;
   "--label"; "io.coolify.managed=true"; "--label"; "io.coolify.role=mesh-dns-anchor";
   "--label"; "io.coolify.namespace=" +:+ nc_name n; MESH_DNS_ANCHOR_IMAGE; "sleep"; "infinity"].

Definition anchor_is_running (n : NamespaceConfig) : Io W bool :=
  let name := anchor_container_name (nc_name n) in
  let! o := with_context ("inspect mesh DNS anchor container " +:+ name)
    (output ["podman"; "inspect"; "-f"; "{{.State.Running}}"; name]) in
  if negb (o_success o) then io_ret false else io_ret (bool_decide (trim (from_utf8_lossy (o_out o)) = "true")).

Definition start_anchor (n : NamespaceConfig) : Io W unit :=
  let name := anchor_container_name (nc_name n) in
  let! o := with_context ("start mesh DNS anchor container " +:+ name) (output ("podman" :: podman_run_args n)) in
  if negb (o_success o)
  then io_fail (anyhow ("podman run failed for " +:+ name +:+ ": " +:+ trim (from_utf8_lossy (o_err o))))
  else io_ret ().

(** Failures are logged, and the next namespace is tried. *)
Definition anchor_reconcile_one (n : NamespaceConfig) : Io W unit :=
  let! running := attempt (anchor_is_running n) in
  match running with
  | Ok true => io_ret ()
  | Ok false => let! _ := attempt (start_anchor n) in io_ret ()
  | Err _ => io_ret ()
  end.
Definition anchor_reconcile (namespaces : list NamespaceConfig) : Io W unit :=
  io_each anchor_reconcile_one (reconcilable_namespaces namespaces).

(** *** The route of the host's own resolver *)

Definition podman_network_interface_args (n : NamespaceConfig) : list string :=
  ["network"; "inspect"; nc_network n; "--format"; "{{.NetworkInterface}}"].
Definition resolvectl_reconcile_args (iface gateway_ip dns_zone : string) : list (list string) :=
  [["dns"; iface; gateway_ip]; ["domain"; iface; "~" +:+ dns_zone]; ["default-route"; iface; "false"]].

Definition podman_network_interface (n : NamespaceConfig) : Io W string :=
  let! o := with_context ("inspect podman network " +:+ nc_network n) (output ("podman" :: podman_network_interface_args n)) in
  if negb (o_success o)
  then io_fail (anyhow ("podman network inspect failed for " +:+ nc_network n +:+ ": " +:+ trim (from_utf8_lossy (o_err o))))
  else io_ret (trim (from_utf8_lossy (o_out o))).

Definition resolvectl (args : list string) : Io W unit :=
  let! o := with_context ("run resolvectl " +:+ join " " args) (output ("resolvectl" :: args)) in
  if negb (o_success o)
  then io_fail (anyhow ("resolvectl " +:+ join " " args +:+ " failed: " +:+ trim (from_utf8_lossy (o_err o))))
  else io_ret ().

Definition reconcile_namespace (dns_zone : string) (n : NamespaceConfig) : Io W unit :=
  let! iface := podman_network_interface n in
  if is_empty iface then io_fail (anyhow ("podman network " +:+ nc_network n +:+ " has no network interface"))
  else io_each resolvectl (resolvectl_reconcile_args iface (show_ip (nc_gateway_ip n)) dns_zone).

Definition resolver_reconcile (namespaces : list NamespaceConfig) (dns_zone : string) : Io W unit :=
  io_each (fun n => let! _ := attempt (reconcile_namespace dns_zone n) in io_ret ()) (reconcilable_namespaces namespaces).

(** [host_infra::reconcile_once]. *)
Definition host_infra_reconcile_once (namespaces : list NamespaceConfig) (dns_zone : string) : Io W unit :=
  anchor_reconcile namespaces;; resolver_reconcile namespaces dns_zone.
End HostInfra.

(* ------------------------------------------------------------------ *)
(** ** Answers *)

(** A running, healthy container of that name has this address. *)
Definition has_address (t : Table) (name namespace : string) (ip : IpAddr) : Prop :=
  exists id e at_ms, t !! id = Some (e, at_ms) /\ resolvable name namespace e = true /\
    parse_ipaddr (ep_container_ip e) = Some ip.

Section Answers.
Context {W N U : Type} `{!DnsName N, !DnsNameLaws N} (to_lowercase : string -> string).
Context (parse_json : string -> option json) (show_status : Z -> string)
  (http_post : string -> json -> Io W (Z * result string Error)) (base_url : string) (table : W -> Table)
  `{!LookupLaws parse_json http_post base_url table}.
Context (upstream : N -> RecordType -> Io W (list U)) (zone : N).
Notation lookup := (corrosion_lookup parse_json show_status http_post base_url).
Notation handle := (handle_request to_lowercase lookup upstream zone).

Lemma lookup_spec name namespace w ips w' : lookup name namespace w = (Ok ips, w') ->
  table w' = table w /\ forall ip, ip ∈ ips <-> has_address (table w) name namespace ip.
Proof.
  unfold corrosion_lookup, query_ips_by_name. intros H. apply io_bind_Ok in H as (texts & w1 & Hq & [= <- <-]).
  destruct (query_ips_spec _ _ _ _ table _ _ _ _ _ _ Hq) as [Ht Hips]. split; [done|]. intros ip.
  rewrite list_elem_of_omap. unfold has_address. split.
  - intros (s & (id & e & at_ms & He & Hr & <- & _)%Hips & Hp). eauto 7.
  - intros (id & e & at_ms & He & Hr & Hp). exists (ep_container_ip e). split; [|done]. apply Hips. eauto 8.
Qed.

(** The two labels in front of the zone. *)
Lemma name_in_zone q c n : labels q = c :: n :: labels zone -> c <> "*" ->
  to_lowercase (from_utf8_lossy c) <> "" -> to_lowercase (from_utf8_lossy n) <> "" ->
  zone_of zone q = true /\
  container_and_namespace to_lowercase zone q =
    Some (to_lowercase (from_utf8_lossy c), to_lowercase (from_utf8_lossy n)).
Proof.
  intros Hl Hc Hlc Hln. assert (zone_of zone q = true) as Hz by (apply law_zone_of; by exists [c; n]).
  split; [done|]. unfold container_and_namespace. rewrite Hz, Hl. cbn [negb].
  assert (2 <= num_labels q - num_labels zone) as Hn.
  { rewrite !law_num_labels, Hl. cbn [head length]. rewrite decide_False by congruence. case_decide; lia. }
  replace (Z.max 0 (num_labels q - num_labels zone) <? 2) with false by lia.
  destruct (to_lowercase (from_utf8_lossy c)); [done|]. by destruct (to_lowercase (from_utf8_lossy n)).
Qed.

Lemma records_spec (name : N) (ips : list IpAddr) (r : Rec N U) :
  r ∈ omap (a_record name) ips <-> exists v4, r = RecA name POSITIVE_TTL v4 /\ V4 v4 ∈ ips.
Proof.
  rewrite list_elem_of_omap. split.
  - intros ([v4|v6] & Hin & [= <-]). eauto.
  - intros (v4 & -> & Hin). by exists (V4 v4).
Qed.

Lemma answers_spec q c n w :
  labels q = c :: n :: labels zone -> c <> "*" ->
  to_lowercase (from_utf8_lossy c) <> "" -> to_lowercase (from_utf8_lossy n) <> "" ->
  let name := to_lowercase (from_utf8_lossy c) in
  let namespace := to_lowercase (from_utf8_lossy n) in
  let '(reply, w') := handle (mkRequest true true q TypeA) w in
  match lookup name namespace w with
  | (Err _, _) => reply = send_code ServFail
  | (Ok _, _) =>
      table w' = table w /\
      (forall r, r ∈ rp_answers reply <-> exists v4, r = RecA q 5 v4 /\ has_address (table w) name namespace (V4 v4)) /\
      (rp_code reply = NXDomain <-> forall ip, ~ has_address (table w) name namespace ip)
  end.
Proof.
  intros Hl Hc Hlc Hln name namespace. destruct (name_in_zone _ _ _ Hl Hc Hlc Hln) as [Hz Hcn].
  unfold handle_request. cbn [rq_op_query rq_type_query rq_name negb orb]. rewrite Hz, Hcn.
  unfold answer_internal. fold name namespace. destruct (lookup name namespace w) as [[ips|e] w'] eqn:Hq; [|done].
  destruct (lookup_spec _ _ _ _ _ Hq) as [Ht Hips]. split; [done|]. cbn [rq_type rq_name].
  pose proof (records_spec q ips) as Hr. setoid_rewrite Hips in Hr. destruct ips as [|ip ips].
  - split; cbn.
    + intros r. rewrite <- Hr. done.
    + split; [|done]. intros _ ip Hip. apply Hips in Hip. by apply elem_of_nil in Hip.
  - assert (~ forall ip, ~ has_address (table w) name namespace ip) as Hex.
    { intros Hno. apply (Hno ip), Hips. left. }
    destruct (omap _ (ip :: ips)) as [|r0 rs] eqn:Eo; cbn [rp_answers rp_code send_empty].
    + split; [exact Hr|]. split; [done|]. intros Hno. by destruct Hex.
    + split; [exact Hr|]. split; [done|]. intros Hno. by destruct Hex.
Qed.

(** The address queries of a service, [<container>.<namespace>.<zone>]: the
    answer is a failure exactly when the lookup fails; otherwise it holds the
    IPv4 addresses of the running, healthy containers of that name in that
    namespace on any host of the mesh, all of them and nothing else, for five
    seconds; and the name does not exist exactly when there is none of any kind. *)
Theorem dns_answers_exactly q c n w :
  labels q = c :: n :: labels zone -> c <> "*" ->
  to_lowercase (from_utf8_lossy c) <> "" -> to_lowercase (from_utf8_lossy n) <> "" ->
  let name := to_lowercase (from_utf8_lossy c) in
  let namespace := to_lowercase (from_utf8_lossy n) in
  let '(reply, w') := handle (mkRequest true true q TypeA) w in
  match lookup name namespace w with
  | (Err _, _) => reply = send_code ServFail
  | (Ok _, _) =>
      table w' = table w /\
      (forall r, r ∈ rp_answers reply <-> exists v4, r = RecA q 5 v4 /\ has_address (table w) name namespace (V4 v4)) /\
      (rp_code reply = NXDomain <-> forall ip, ~ has_address (table w) name namespace ip)
  end.
Proof. apply answers_spec. Qed.

(** *** With the synchronisation *)

Section Converged.
Context (sync_parse : string -> option json) {Db : Type} (post : string -> json -> Db -> option (Z * string) * Db)
  (db_table : Db -> Table) (cfg : SyncConfig)
  {sync_laws : CorrosionLaws sync_parse post db_table (y_base_url cfg) (y_host_mgmt_ip cfg)}.

(** C15. Once a host has reconciled, its agent answers an address query for a name
    that only its own containers carry, unless its lookup fails, with the IPv4
    addresses of the containers Podman reports under that name in that namespace
    that are running and healthy, or of unknown health, no more and no fewer,
    whatever was in the table before.  The name is compared in lower case, which
    is how it is taken from the query. *)
Theorem dns_after_reconcile podman podman' emit now_ms s db count s' sent db' q c n w reply w' :
  reconcile_once to_lowercase sync_parse post cfg podman podman' emit now_ms s db = (Ok count, s', sent, db') ->
  table w = db_table db' ->
  labels q = c :: n :: labels zone -> c <> "*" ->
  to_lowercase (from_utf8_lossy c) <> "" -> to_lowercase (from_utf8_lossy n) <> "" ->
  let name := to_lowercase (from_utf8_lossy c) in
  let namespace := to_lowercase (from_utf8_lossy n) in
  (forall id e at_ms, db_table db' !! id = Some (e, at_ms) -> resolvable name namespace e = true ->
     ep_host_mgmt_ip e = y_host_mgmt_ip cfg) ->
  handle (mkRequest true true q TypeA) w = (reply, w') -> reply <> send_code ServFail ->
  forall r, r ∈ rp_answers reply <->
    exists id e v4, reported to_lowercase (y_namespaces cfg) (y_host_mgmt_ip cfg) podman' id e /\
      ep_container_name e = name /\ ep_namespace e = namespace /\
      ep_state e = "running" /\ (ep_health e = "healthy" \/ ep_health e = "unknown") /\
      parse_ipaddr (ep_container_ip e) = Some (V4 v4) /\ r = RecA q 5 v4.
Proof.
  intros Hrec Ht Hl Hc Hlc Hln name namespace Hown Hh Hok r.
  pose proof (reconcile_rows to_lowercase sync_parse post db_table cfg _ _ _ _ _ _ _ _ _ _ Hrec) as Hrows.
  pose proof (answers_spec q c n w Hl Hc Hlc Hln) as Ha. cbv zeta in Ha. fold name namespace in Ha. rewrite Hh in Ha.
  destruct (lookup name namespace w) as [[ips|e] w1]; [|by destruct (Hok Ha)]. destruct Ha as (_ & Ha & _). rewrite Ha, Ht. clear Ha.
  unfold has_address. split.
  - intros (v4 & -> & id & e & at_ms & He & Hr & Hp). exists id, e, v4. split.
    + rewrite <- Hrows, rows_of_lookup, He. by rewrite decide_True by eauto.
    + apply resolvable_spec in Hr. tauto.
  - intros (id & e & v4 & He & Hn & Hns & Hst & Hhe & Hp & ->). exists v4. split; [done|].
    assert (resolvable name namespace e = true) as Hr by (apply resolvable_spec; tauto).
    rewrite <- Hrows, rows_of_lookup in He. destruct (db_table db' !! id) as [[e' at_ms]|] eqn:E; [|done].
    case_decide; [|done]. injection He as <-. eauto 7.
Qed.
End Converged.
End Answers.

(** *** Names with capital letters *)

Definition is_upper (c : ascii) : bool := (65 <=? N_of_ascii c)%N && (N_of_ascii c <=? 90)%N.

(** [str::to_lowercase] leaves no capital letter of ASCII. *)
Class LowercaseLaws (to_lowercase : string -> string) : Prop :=
  law_lowercase s : all_chars (fun c => negb (is_upper c)) (to_lowercase s) = true.

(** The query is lowered but the table is not: the row of a container whose name
    has a capital letter answers no query at all. *)
Theorem capital_name_unresolvable {N} `{!DnsName N} to_lowercase `{!LowercaseLaws to_lowercase} (zone q : N) name namespace e :
  all_chars (fun c => negb (is_upper c)) (ep_container_name e) = false ->
  container_and_namespace to_lowercase zone q = Some (name, namespace) ->
  resolvable name namespace e = false.
Proof.
  intros Hup Hq. assert (exists s, name = to_lowercase s) as [s Hs].
  { unfold container_and_namespace in Hq. repeat case_match; simplify_eq; eauto. }
  unfold resolvable. rewrite (bool_decide_eq_false_2 (ep_container_name e = name)); [done|]. intros Heq. rewrite Heq, Hs, law_lowercase in Hup. done.
Qed.

(* ------------------------------------------------------------------ *)
(** ** The tasks of the gateways *)

(** A gateway whose server has failed for good goes unnoticed while an earlier
    one is served: the tasks are awaited in turn, so the failure does not end
    the agent. *)
Theorem later_failure_unnoticed namespaces ends g rest e :
  gateways namespaces = g :: rest -> ends g = Running ->
  (exists g', g' ∈ rest /\ ends g' = Returned (Err e)) -> run namespaces ends = None.
Proof. intros Hg Hr _. unfold run. rewrite Hg, fmap_cons, Hr. done. Qed.

Section Retries.
Context {W : Type} (show_ip : IpAddr -> string) (bind_udp bind_tcp : string -> Io W unit) (block_until_done : Io W unit).
Notation run_for_gateway := (run_for_gateway show_ip bind_udp bind_tcp block_until_done).

Lemma gateway_delays n : forall new_resolver ns g k w s delays w',
  run_for_gateway n new_resolver ns g (from_secs (Z.min 30 (2 ^ Z.of_nat k))) w = (s, delays, w') ->
  delays = (fun i => from_secs (Z.min 30 (2 ^ Z.of_nat i))) <$> seq k (length delays) /\
  (forall b, s = Trying b -> length delays = n).
Proof.
  induction n as [|n IH]; intros nr ns g k w s delays w' H; cbn [Dns.run_for_gateway] in H.
  { injection H as <- <- <-. done. }
  destruct (gateway_turn _ _ _ _ nr ns g _ w) as [[[next|r] slept] w1] eqn:Et.
  - unfold gateway_turn in Et. destruct nr; [|done]. destruct (try_serve _ _ _ _ w) as [[|e] w2]; [done|].
    destruct (is_retryable_io e); [|done]. injection Et as <- <- <-.
    assert (Z.min (from_secs (Z.min 30 (2 ^ Z.of_nat k)) * 2) BACKOFF_MAX = from_secs (Z.min 30 (2 ^ Z.of_nat (S k)))) as Hn.
    { rewrite Nat2Z.inj_succ, Z.pow_succ_r by lia. unfold BACKOFF_MAX, from_secs. lia. }
    rewrite Hn in H. destruct (run_for_gateway n _ _ _ _ w2) as [[s' ds] w3] eqn:Er. injection H as <- <- <-.
    destruct (IH _ _ _ _ _ _ _ _ Er) as [Hd Hl]. cbn. split; [by f_equal|]. intros b Hb. by rewrite (Hl b Hb).
  - injection H as <- <- <-. unfold gateway_turn in Et. destruct nr; [destruct (try_serve _ _ _ _ w) as [[|e] w2];
      [|destruct (is_retryable_io e)]|]; by simplify_eq.
Qed.

(** A gateway is tried again after 1, 2, 4, ... seconds, up to half a minute,
    for as long as the failures are of the kind that passes; the first other
    failure is what the loop returns, and only a served gateway ends well. *)
Theorem gateway_retries n ns g w s delays w' :
  run_for_gateway n (Ok ()) ns g BACKOFF_START w = (s, delays, w') ->
  delays = (fun i => from_secs (Z.min 30 (2 ^ Z.of_nat i))) <$> seq 0 (length delays) /\
  match s with
  | Trying _ => length delays = n
  | Done (Ok _) => exists w1, try_serve bind_udp bind_tcp block_until_done (show_addr show_ip g) w1 = (Ok (), w')
  | Done (Err e) => is_retryable_io e = false
  end.
Proof.
  intros H. destruct (gateway_delays n _ _ _ 0 _ _ _ _ H) as [Hd Hl]. split; [done|]. destruct s as [b|r]; [by eapply Hl|].
  clear Hd Hl. revert H. generalize BACKOFF_START. revert w delays.
  induction n as [|n IH]; intros w delays b H; cbn [Dns.run_for_gateway] in H; [done|]. unfold gateway_turn in H.
  destruct (try_serve _ _ _ _ w) as [[[]|e] w2] eqn:Es; [by injection H as <- _ <-; eauto|].
  destruct (is_retryable_io e) eqn:Er.
  - destruct (run_for_gateway n _ _ _ _ w2) as [[s' ds] w3] eqn:E. injection H as -> _ ->. by eapply IH.
  - injection H as <- _ <-. done.
Qed.
End Retries.

(* ------------------------------------------------------------------ *)
(** ** A zone in memory *)

Module Demo.
Import CooldSync.Demo CorrosionQuery.Demo.

(** Names are lists of lower-case labels that are not empty. *)
Fixpoint strip_suffix_of (z n : list string) : bool :=
  bool_decide (n = z) || match n with [] => false | _ :: n' => strip_suffix_of z n' end.

Lemma strip_suffix_of_spec z n : strip_suffix_of z n = true <-> exists pre, n = pre ++ z.
Proof.
  induction n as [|l n IH]; cbn [strip_suffix_of].
  - rewrite orb_false_r, bool_decide_eq_true. split; [by intros <-; exists []|].
    intros (pre & H). symmetry in H. apply app_eq_nil in H as [_ ->]. done.
  - rewrite orb_true_iff, bool_decide_eq_true, IH. split.
    + intros [<-|(pre & ->)]; [by exists []|by exists (l :: pre)].
    + intros ([|l' pre] & H); [by left|]. injection H as <- ->. right. by exists pre.
Qed.

Record NameT := mkName { n_labels : list string; n_ok : forallb (fun l => negb (is_empty l)) n_labels = true }.
#[export] Instance name_dns : DnsName NameT := {|
  labels n := n_labels n;
  num_labels n := Z.of_nat (length (n_labels n)) - (if decide (head (n_labels n) = Some "*") then 1 else 0);
  zone_of z n := strip_suffix_of (n_labels z) (n_labels n);
|}.
#[export] Instance name_laws : DnsNameLaws NameT.
Proof.
  split.
  - intros n l Hl ->. pose proof (n_ok n) as Hok. rewrite forallb_forall in Hok.
    apply list_elem_of_In in Hl. by apply Hok in Hl.
  - done.
  - intros z n. apply strip_suffix_of_spec.
Qed.

Definition zone : NameT := mkName ["coolify"; "internal"] eq_refl.
Definition web_query : NameT := mkName ["web"; "default"; "coolify"; "internal"] eq_refl.
Definition offline (n : NameT) (t : RecordType) : Io unit (list unit) := io_fail (anyhow "unreachable").
Definition lookup : string -> string -> Io unit (list IpAddr) :=
  corrosion_lookup parse_lookup show_Z lookup_post (y_base_url cfg).

Lemma dns_answers_exactly_witness :
  RecA web_query 5 (of_octets 10 210 0 4) ∈ rp_answers (handle_request same lookup offline zone (mkRequest true true web_query TypeA) ()).1.
Proof.
  pose proof (dns_answers_exactly same parse_lookup show_Z lookup_post (y_base_url cfg) (fun _ => replica) offline zone
    web_query "web" "default" () eq_refl ltac:(discriminate) ltac:(discriminate) ltac:(discriminate)) as H.
  cbv zeta in H. change (corrosion_lookup parse_lookup show_Z lookup_post (y_base_url cfg)) with lookup in H.
  destruct (handle_request _ _ _ _ _ _) as [reply w'].
  assert (is_ok (lookup (same (from_utf8_lossy "web")) (same (from_utf8_lossy "default")) ()).1 = true) as Hok by reflexivity.
  destruct (lookup (same _) (same _) ()) as [[ips|e] w1]; [|discriminate Hok]. destruct H as (_ & H & _). apply H.
  exists (of_octets 10 210 0 4). split; [done|]. exists "abc", web, 7. split; [reflexivity|]. split; reflexivity.
Defined.

Lemma only_own id e at_ms : CooldSync.Demo.table After !! id = Some (e, at_ms) ->
  resolvable "web" "default" e = true -> ep_host_mgmt_ip e = host.
Proof.
  unfold CooldSync.Demo.table. intros [[<- [= <- <-]]|[_ [<- [= <- <-]]%lookup_singleton_Some]]%lookup_insert_Some; done.
Qed.

Definition answered := handle_request same lookup offline zone (mkRequest true true web_query TypeA) ().

Lemma dns_after_reconcile_witness :
  RecA web_query 5 (of_octets 10 210 0 4) ∈ rp_answers answered.1.
Proof.
  apply (dns_after_reconcile same parse_lookup show_Z lookup_post (y_base_url cfg) (fun _ => replica) offline zone
    CooldSync.Demo.parse_json post CooldSync.Demo.table cfg podman podman always 7 start Before 3 (mkSyncState containers false)
    run.1.2 After web_query "web" "default" () answered.1 answered.2); try (vm_compute; reflexivity); try discriminate.
  - exact only_own.
  - exists "abc", web, (of_octets 10 210 0 4). split; [exact web_reported|].
    split_and!; try reflexivity. right. reflexivity.
Defined.

Lemma lower_laws : LowercaseLaws to_ascii_lowercase.
Proof.
  intros s. induction s as [|a s IH]; [done|]. cbn [to_ascii_lowercase all_chars]. rewrite IH, andb_true_r.
  destruct a as [[] [] [] [] [] [] [] []]; reflexivity.
Qed.

Definition capital : Endpoint := mkEndpoint "id" "Web" "default" host "10.210.0.4" "running" "unknown".
Lemma capital_name_unresolvable_witness : resolvable "web" "default" capital = false.
Proof.
  apply (capital_name_unresolvable (N := NameT) to_ascii_lowercase (LowercaseLaws0 := lower_laws) zone web_query);
    vm_compute; reflexivity.
Defined.

Definition two : list NamespaceConfig :=
  [mkNamespaceConfig "default" "coolify-default-mesh" (V4 1); mkNamespaceConfig "alpha" "coolify-alpha-mesh" (V4 2)].
Definition ends (g : string * IpAddr) : TaskEnd :=
  if decide (g.1 = "default") then Running else Returned (Err (anyhow "dns server loop")).
Lemma later_failure_unnoticed_witness : Dns.run two ends = None.
Proof.
  apply (later_failure_unnoticed two ends ("default", V4 1) [("alpha", V4 2)] (anyhow "dns server loop"));
    [reflexivity|reflexivity|]. exists ("alpha", V4 2). split; [left|reflexivity].
Defined.

(** A bridge that is missing for two attempts. *)
Definition bind (addr : string) : Io nat unit := fun k =>
  match k with O => (Ok (), O) | S k => (Err [IoError AddrNotAvailable "no address"], k) end.
Lemma gateway_retries_witness : exists w1,
  try_serve bind (fun _ => io_ret ()) (io_ret ()) (show_addr (fun _ => "10.210.0.1") (V4 1)) w1 = (Ok (), O).
Proof.
  exact (proj2 (gateway_retries (fun _ => "10.210.0.1") bind (fun _ => io_ret ()) (io_ret ()) 5 "default" (V4 1) 2%nat
    (Done (Ok ())) [from_secs 1; from_secs 2] O eq_refl)).
Defined.
End Demo.
