(* ===== verification/Builder.v ===== *)
(** * The builder

    The build engine ([builder-core/]), the process around it
    ([builder/src/main.rs]) and the side of the agent that starts one and reads
    its outcome ([coold/src/builder/mod.rs]; the agent does not compile that
    module in today).  [serde_json] is a parameter with its round trip as a law;
    the types derive their formats. *)

From S2P Require Import Prelude RustStr RustPath Messages Serde Host PodmanClient.
Local Open Scope Z_scope.

(* ------------------------------------------------------------------ *)
(** ** Data ([types.rs]) *)

Inductive BuildStack := Unspecified | Dockerfile | Buildpacks | Railpack | Static.
#[export] Instance BuildStack_eq_dec : EqDecision BuildStack.
Proof. solve_decision. Defined.

Record StaticConfig := mkStaticConfig { st_output_dir : string; st_base_image : string }.
Definition default_static : StaticConfig := mkStaticConfig "" "".

Record BuildRequest := mkBuildRequest {
  br_repo_url : string;
  br_git_ref : string;
  br_stack : BuildStack;
  br_target_image : string;
  br_cache_key : string;
  br_static_cfg : option StaticConfig;
}.

Record BuildResult := mkBuildResult {
  bd_digest : string;
  bd_registry_ref : string;
  bd_duration_ms : Z;
  bd_stack_used : BuildStack;
}.

Record BuildError := mkBuildError { be_code : Z; be_message : string; be_stage : string }.
Definition err (code : Z) (stage message : string) : BuildError := mkBuildError code message stage.

Record ProgressEvent := mkProgress { pg_stage : string; pg_log : string; pg_percent : Z }.

(** The formats the types derive. *)
Definition stack_name (s : BuildStack) : string :=
  match s with
  | Unspecified => "unspecified" | Dockerfile => "dockerfile" | Buildpacks => "buildpacks"
  | Railpack => "railpack" | Static => "static"
  end.
Definition dec_stack (j : json) : option BuildStack :=
  match j with
  | JStr s => find (fun k => bool_decide (stack_name k = s)) [Unspecified; Dockerfile; Buildpacks; Railpack; Static]
  | JObj [(s, JNull)] => find (fun k => bool_decide (stack_name k = s)) [Unspecified; Dockerfile; Buildpacks; Railpack; Static]
  | _ => None
  end.

Definition result_json (r : BuildResult) : json :=
  JObj [("digest", JStr (bd_digest r)); ("registry_ref", JStr (bd_registry_ref r));
        ("duration_ms", JNum (bd_duration_ms r)); ("stack_used", JStr (stack_name (bd_stack_used r)))].
Definition error_json (e : BuildError) : json :=
  JObj [("code", JNum (be_code e)); ("message", JStr (be_message e)); ("stage", JStr (be_stage e))].

Definition dec_static (j : json) : option StaticConfig :=
  match struct_fields ["output_dir"; "base_image"] j with
  | Some [o; b] => o ← field_or dec_str "" o; b ← field_or dec_str "" b; Some (mkStaticConfig o b)
  | _ => None
  end.
Definition dec_build_request (j : json) : option BuildRequest :=
  match struct_fields ["repo_url"; "git_ref"; "stack"; "target_image"; "cache_key"; "static_cfg"] j with
  | Some [url; ref; stack; image; key; cfg] =>
      url ← field_req dec_str url; ref ← field_req dec_str ref; stack ← field_req dec_stack stack;
      image ← field_req dec_str image; key ← field_or dec_str "" key; cfg ← field_opt dec_static cfg;
      Some (mkBuildRequest url ref stack image key cfg)
  | _ => None
  end.

(* ------------------------------------------------------------------ *)
(** ** What a static build accepts *)

Definition base_image_char (c : ascii) : bool :=
  ascii_alnum c || bool_decide (c ∈ ["."; ":"; "/"; "_"; "-"; "@"; "+"]%char).
Definition is_safe_base_image (s : string) : bool :=
  negb (is_empty s) && (String.length s <=? 256)%nat && all_chars base_image_char s.

Definition plain_component (c : Component) : bool := match c with Normal _ | CurDir => true | _ => false end.
Definition is_safe_output_dir (s : string) : bool :=
  if is_empty s || (256 <? String.length s)%nat then false
  else if contains_char nl s || contains_char "013" s || contains_char "000" s then false
  else if is_absolute s then false
  else forallb plain_component (components s).

Definition containerfile (base_image output_dir : string) : string :=
  "FROM " +:+ base_image +:+ lf +:+ "COPY ./" +:+ output_dir +:+ " /usr/share/nginx/html" +:+ lf.

(* ------------------------------------------------------------------ *)
(** ** The build *)

(** How a process ends. *)
Inductive ProcEnd := SpawnFailed (e : string) | WaitFailed (e : string) | Exited (success : bool).

Section Build.
Context {W : Type} `{!Host W}.
(** A process of a program, with its arguments, in a directory. *)
Context (process : string -> list string -> string -> W -> ProcEnd * W).
(** [{:?}] of a string, [Display] of an error of the system. *)
Context (debug_str : string -> string).

(** The world, and what the sink has been given. *)
Definition B (A : Type) : Type := W * list ProgressEvent -> result A BuildError * (W * list ProgressEvent).
Definition b_ret {A} (a : A) : B A := fun s => (Ok a, s).
Definition b_fail {A} (e : BuildError) : B A := fun s => (Err e, s).
Definition b_bind {A C} (m : B A) (k : A -> B C) : B C := fun s =>
  match m s with (Ok a, s') => k a s' | (Err e, s') => (Err e, s') end.
Definition b_io {A} (m : Io W A) (on_err : Error -> BuildError) : B A := fun s =>
  match m s.1 with (Ok a, w') => (Ok a, (w', s.2)) | (Err e, w') => (Err (on_err e), (w', s.2)) end.
Notation "'do' x '<-' e ';' k" := (b_bind e (fun x => k))
  (at level 200, x name, e at level 100, k at level 200, right associativity).
Notation "'also' e ';' k" := (b_bind e (fun _ => k)) (at level 200, e at level 100, k at level 200, right associativity).

Definition emit (stage log : string) (percent : Z) : B unit := fun s =>
  (Ok (), (s.1, s.2 ++ [mkProgress stage log percent])).

Definition run_ok (bin : string) (args : list string) (cwd : string) : B bool := fun s =>
  match process bin args cwd s.1 with
  | (SpawnFailed e, w') => (Err (err 500 "spawn" (bin +:+ " spawn: " +:+ e)), (w', s.2))
  | (WaitFailed e, w') => (Err (err 500 "spawn" (bin +:+ " wait: " +:+ e)), (w', s.2))
  | (Exited ok, w') => (Ok ok, (w', s.2))
  end.

Definition require (ok : bool) (e : BuildError) : B unit := if ok then b_ret () else b_fail e.

(** The source: cloned, and the ref asked for. *)
Definition fetch_source (req : BuildRequest) (work_dir repo_dir : string) : B unit :=
  also emit "git" ("cloning " +:+ br_repo_url req +:+ " @ " +:+ br_git_ref req) 0;
  do cloned <- run_ok "git" ["clone"; "--depth"; "1"; "--no-tags"; "--"; br_repo_url req; "repo"] work_dir;
  also require cloned (err 500 "git" "git clone failed");
  do checkout_ok <- run_ok "git" ["checkout"; "--"; br_git_ref req] repo_dir;
  also (if checkout_ok then b_ret ()
        else do fetched <- run_ok "git" ["fetch"; "--depth"; "1"; "origin"; "--"; br_git_ref req] repo_dir;
             also require fetched (err 500 "git" ("git fetch ref " +:+ br_git_ref req +:+ " failed"));
             also run_ok "git" ["checkout"; "--"; "FETCH_HEAD"] repo_dir;
             b_ret ());
  emit "git" "clone complete" 10.

(** The image: its file, and [buildah]. *)
Definition build_image (req : BuildRequest) (repo_dir output_dir base_image iid_path : string) : B unit :=
  also emit "detect" ("checking output_dir: " +:+ output_dir) 15;
  do found <- (fun s => (Ok (path_exists (path_join repo_dir output_dir) s.1), s));
  also require found (err 400 "detect" ("output_dir '" +:+ output_dir +:+ "' not found in repo"));
  also b_io (write_file (path_join repo_dir "Containerfile.coolify") (containerfile base_image output_dir))
         (fun e => err 500 "detect" ("write Containerfile: " +:+ show_error e));
  also emit "build" ("buildah bud → " +:+ br_target_image req) 20;
  do built <- run_ok "buildah" ["bud"; "--storage-driver"; "overlay"; "--iidfile"; iid_path; "-t"; br_target_image req;
                "-f"; "Containerfile.coolify"; "."] repo_dir;
  also require built (err 500 "build" ("buildah bud failed for " +:+ br_target_image req));
  emit "build" "build complete" 80.

(** [static_build::run]; the time it took is a parameter. *)
Definition static_run (elapsed_ms : Z) (req : BuildRequest) (work_dir : string) : B BuildResult :=
  let static_cfg := default default_static (br_static_cfg req) in
  let output_dir := if is_empty (st_output_dir static_cfg) then "dist" else st_output_dir static_cfg in
  let base_image := if is_empty (st_base_image static_cfg) then "docker.io/library/nginx:alpine"
                    else st_base_image static_cfg in
  let repo_dir := path_join work_dir "repo" in
  let iid_path := path_join work_dir "image-id" in
  also require (is_safe_base_image base_image) (err 400 "detect" "invalid base_image");
  also require (is_safe_output_dir output_dir) (err 400 "detect" "invalid output_dir");
  also fetch_source req work_dir repo_dir;
  also build_image req repo_dir output_dir base_image iid_path;
  also emit "store" "reading image digest" 90;
  do text <- b_io (read_to_string iid_path)
               (fun e => err 500 "store" ("read iidfile " +:+ iid_path +:+ ": " +:+ show_error e));
  let digest := trim text in
  also require (starts_with "sha256:" digest) (err 500 "store" ("unexpected iidfile content: " +:+ debug_str digest));
  also emit "store" ("digest: " +:+ digest) 100;
  b_ret (mkBuildResult digest (br_target_image req +:+ "@" +:+ digest) elapsed_ms Static).

Definition stack_debug (s : BuildStack) : string :=
  match s with
  | Unspecified => "Unspecified" | Dockerfile => "Dockerfile" | Buildpacks => "Buildpacks"
  | Railpack => "Railpack" | Static => "Static"
  end.
Definition run_build (elapsed_ms : Z) (req : BuildRequest) (work_dir : string) : B BuildResult :=
  match br_stack req with
  | Static => static_run elapsed_ms req work_dir
  | other => b_fail (mkBuildError 501 ("build stack " +:+ stack_debug other +:+ " not implemented in MVP") "detect")
  end.
End Build.

(* ------------------------------------------------------------------ *)
(** ** The process ([main.rs]) *)

Inductive OutFrame := FProgress (ev : ProgressEvent) | FResult (ok : BuildResult) | FError (e : BuildError).
Definition frame_json (f : OutFrame) : json :=
  match f with
  | FProgress ev => JObj [("type", JStr "progress"); ("stage", JStr (pg_stage ev)); ("log", JStr (pg_log ev));
                          ("percent", JNum (pg_percent ev))]
  | FResult ok => JObj [("type", JStr "result"); ("ok", result_json ok)]
  | FError e => JObj [("type", JStr "error"); ("err", error_json e)]
  end.

Section Main.
Context {W : Type} `{!Host W} (process : string -> list string -> string -> W -> ProcEnd * W) (debug_str : string -> string).
Context (to_string : json -> string) (parse_json : string -> option json) (serde_error : string -> string).
(** [std::fs::read]; opening the events file for appending; [signal]. *)
Context (fs_read : string -> Io W string) (open_append : string -> Io W unit) (install_sigterm : result unit string).

(** The line of a frame, on stdout and in the events file; what cannot be
    written there is dropped with a warning. *)
Definition emit_frame (f : OutFrame) (lines : list string) : list string := lines ++ [to_string (frame_json f)].

(** [path] ends in [.json]: [with_extension] gives [.json.tmp]. *)
Definition write_json_atomic (path bytes : string) : Io W unit :=
  let tmp := path +:+ ".tmp" in
  (let! r := attempt (open_truncate tmp 384;; write_all tmp bytes;; flush tmp) in
   match r with
   | Err _ => io_ret ()
   | Ok _ => let! _ := attempt (rename tmp path) in io_ret ()
   end)%rust.

(** An end with an error: the file, the frame and the exit code. *)
Definition end_with_error (work_dir : string) (e : BuildError) (code : Z) (lines : list string) (w : W) : Z * list string * W :=
  (code, emit_frame (FError e) lines, (write_json_atomic (path_join work_dir "error.json") (to_string (error_json e)) w).2).

Definition load_request (req_path : string) : W -> result BuildRequest string * W := fun w =>
  match fs_read req_path w with
  | (Err e, w') => (Err ("read " +:+ req_path +:+ ": " +:+ show_error e), w')
  | (Ok bytes, w') =>
      (match parse_json bytes ≫= dec_build_request with
       | Some r => Ok r
       | None => Err ("parse request: " +:+ serde_error bytes)
       end, w')
  end.

(** The exit code and the lines; [cancelled] is where a SIGTERM finds the build,
    if one comes before it is done. *)
Definition builder_main (elapsed_ms : Z) (cancelled : option (W * list ProgressEvent)) (args : list string) (w : W)
    : Z * list string * W :=
  match args with
  | [_; req_path; work_dir] =>
      match open_append (path_join work_dir "events.ndjson") w with
      | (Err _, w1) => (2, [], w1)
      | (Ok _, w1) =>
          match load_request req_path w1 with
          | (Err m, w2) => end_with_error work_dir (mkBuildError 400 m "load") 2 [] w2
          | (Ok req, w2) =>
              match install_sigterm with
              | Err m => end_with_error work_dir (mkBuildError 500 ("install SIGTERM: " +:+ m) "init") 2 [] w2
              | Ok _ =>
                  match cancelled with
                  | Some (w3, events) =>
                      end_with_error work_dir (mkBuildError 499 "cancelled" "cancel") 130
                        (foldl (fun l ev => emit_frame (FProgress ev) l) [] events) w3
                  | None =>
                      let '(r, (w3, events)) := run_build process debug_str elapsed_ms req work_dir (w2, []) in
                      let lines := foldl (fun l ev => emit_frame (FProgress ev) l) [] events in
                      match r with
                      | Ok ok =>
                          (0, emit_frame (FResult ok) lines,
                           (write_json_atomic (path_join work_dir "result.json") (to_string (result_json ok)) w3).2)
                      | Err e => end_with_error work_dir e 1 lines w3
                      end
                  end
              end
          end
      end
  | _ => (2, [], w)
  end.
End Main.

(* ------------------------------------------------------------------ *)
(** ** The agent's side ([coold/src/builder/mod.rs]) *)

(** What the agent reads: the frames of a running builder and the files a
    finished one left ([FrameResult] and [StoredResult] are alike, as are
    [FrameError] and [StoredError]). *)
Definition dec_u32 : json -> option Z := dec_int 0 4294967295.
Definition dec_u64 : json -> option Z := dec_int 0 18446744073709551615.
Definition dec_result (j : json) : option BuildResult :=
  match struct_fields ["digest"; "registry_ref"; "duration_ms"; "stack_used"] j with
  | Some [d; r; t; s] =>
      d ← field_req dec_str d; r ← field_req dec_str r; t ← field_req dec_u64 t; s ← field_req dec_stack s;
      Some (mkBuildResult d r t s)
  | _ => None
  end.
Definition dec_error (j : json) : option BuildError :=
  match struct_fields ["code"; "message"; "stage"] j with
  | Some [c; m; s] => c ← field_req dec_u32 c; m ← field_req dec_str m; s ← field_or dec_str "" s; Some (mkBuildError c m s)
  | _ => None
  end.
Definition dec_progress (j : json) : option ProgressEvent :=
  match struct_fields ["stage"; "log"; "percent"] j with
  | Some [s; l; p] => s ← field_req dec_str s; l ← field_req dec_str l; p ← field_req dec_u32 p; Some (mkProgress s l p)
  | _ => None
  end.

(** [Frame], tagged by its [type]. *)
Definition dec_frame (j : json) : option OutFrame :=
  let variant tag content :=
    if decide (tag = "progress") then FProgress <$> dec_progress content
    else if decide (tag = "result") then
      match struct_fields ["ok"] content with Some [ok] => FResult <$> field_req dec_result ok | _ => None end
    else if decide (tag = "error") then
      match struct_fields ["err"] content with Some [e] => FError <$> field_req dec_error e | _ => None end
    else None in
  match j with
  | JObj fields =>
      match (filter (fun f => f.1 = "type") fields).*2 with
      | [JStr tag] => variant tag (JObj (filter (fun f => f.1 <> "type") fields))
      | _ => None
      end
  | JArr (JStr tag :: rest) => variant tag (JArr rest)
  | _ => None
  end.

Definition build_err (code : Z) (stage message : string) : BuildError := mkBuildError code message stage.

(** [is_valid_request_id], the unit of a build, and its name read back. *)
Definition id_char (c : ascii) : bool := ascii_alnum c || bool_decide (c ∈ ["-"; "_"]%char).
Definition is_valid_request_id (s : string) : bool :=
  negb (is_empty s) && (String.length s <=? 64)%nat && all_chars id_char s.
Definition unit_name (request_id : string) : string := "coolify-build-" +:+ request_id +:+ ".service".
Definition parse_request_id (unit : string) : option string :=
  strip_prefix "coolify-build-" unit ≫= strip_suffix ".service".

(** [SubprocessRequest]: the request as the builder reads it. *)
Definition unless_blank (k v : string) : list (string * json) := if is_empty v then [] else [(k, JStr v)].
Definition static_json (c : StaticConfig) : json :=
  JObj (unless_blank "output_dir" (st_output_dir c) ++ unless_blank "base_image" (st_base_image c)).
Definition subprocess_request_json (r : BuildRequest) : json :=
  JObj ([("repo_url", JStr (br_repo_url r)); ("git_ref", JStr (br_git_ref r)); ("stack", JStr (stack_name (br_stack r)));
         ("target_image", JStr (br_target_image r))] ++ unless_blank "cache_key" (br_cache_key r) ++
        match br_static_cfg r with Some c => [("static_cfg", static_json c)] | None => [] end).

Record BuilderSettings := mkSettings {
  bs_work_root : string;
  bs_builder_bin : string;
  bs_capacity : Z;
  bs_timeout_secs : Z;
  bs_memory_max : string;
  bs_cpu_quota : string;
  bs_deny_nets : list string;
}.

(** The permits of the semaphore, and the networks that are denied. *)
Definition builder_capacity (s : BuilderSettings) : Z := if bs_capacity s =? 0 then 1 else bs_capacity s.
Definition denied_nets (s : BuilderSettings) : list string :=
  filter (fun n => is_empty n = false) (trim <$> bs_deny_nets s).

Definition prop (p : string) : list string := ["-p"; p].
Definition systemd_run_args (s : BuilderSettings) (request_id work_dir req_path : string) : list string :=
  ["--pipe"; "--quiet"; "--collect"; "--unit=" +:+ unit_name request_id] ++
  ([ "RuntimeMaxSec=" +:+ show_Z (bs_timeout_secs s); "MemoryMax=" +:+ bs_memory_max s; "CPUQuota=" +:+ bs_cpu_quota s;
     "PrivateTmp=yes"; "ProtectSystem=strict"; "ProtectHome=yes"; "ReadWritePaths=" +:+ work_dir;
     "ReadWritePaths=/var/lib/containers"; "ReadWritePaths=-/run/containers"; "ReadWritePaths=-/run/netavark";
     "ReadWritePaths=-/run/lock"; "NoNewPrivileges=yes"; "RestrictSUIDSGID=yes"; "LockPersonality=yes";
     "RestrictRealtime=yes"; "RestrictNamespaces=mnt user"; "SystemCallArchitectures=native"] ≫= prop) ++
  ((fun n => "IPAddressDeny=" +:+ n) <$> (["127.0.0.1"; "169.254.0.0/16"; "::1/128"; "fc00::/7"; "fe80::/10"] ++ denied_nets s)
     ≫= prop) ++
  ["--"; bs_builder_bin s; req_path; work_dir].

Section Agent.
Context {W : Type} `{!Host W} (to_string : json -> string) (parse_json : string -> option json) (serde_error : string -> string).
(** A child: not started, or its stdout lines and how waiting for it ended. *)
Context (spawn : string -> list string -> W -> (result (list string * result string string) string) * W).
Context (fs_read : string -> Io W string) (remove_dir_all : string -> Io W unit).
Context (settings : BuilderSettings).
Notation Outcome := (result BuildResult BuildError).

(** The loop over stdout: the last result or error counts. *)
Definition reap_line (acc : option Outcome) (line : string) : option Outcome :=
  match parse_json line ≫= dec_frame with
  | Some (FResult ok) => Some (Ok ok)
  | Some (FError e) => Some (Err e)
  | Some (FProgress _) | None => acc
  end.

Definition spawn_and_reap (args : list string) (work_dir : string) (w : W) : Outcome * W :=
  match spawn "systemd-run" args w with
  | (Err e, w') => (Err (build_err 500 "spawn" ("systemd-run: " +:+ e)), w')
  | (Ok (lines, wait), w') =>
      (match wait with
       | Err e => Err (build_err 500 "reap" ("wait: " +:+ e))
       | Ok status =>
           match foldl reap_line None lines with
           | Some body => body
           | None => Err (build_err 500 "reap" ("builder exited (" +:+ status +:+
                            ") without a result frame; work_dir=" +:+ work_dir))
           end
       end, w')
  end.

(** [BuilderCtx::run_build]: the outcome, the builds in flight, the world. *)
Definition agent_run_build (active : gmap string string) (request_id : string) (req : BuildRequest) (w : W)
    : Outcome * gmap string string * W :=
  let work_dir := path_join (bs_work_root settings) request_id in
  let req_path := path_join work_dir "request.json" in
  match create_dir_all work_dir w with
  | (Err e, w1) => (Err (build_err 500 "setup" ("mkdir work: " +:+ show_error e)), active, w1)
  | (Ok _, w1) =>
      match open_truncate req_path 384 w1 with
      | (Err e, w2) => (Err (build_err 500 "setup" ("open request.json: " +:+ show_error e)), active, w2)
      | (Ok _, w2) =>
          match write_all req_path (to_string (subprocess_request_json req)) w2 with
          | (Err e, w3) => (Err (build_err 500 "setup" ("write request.json: " +:+ show_error e)), active, w3)
          | (Ok _, w3) =>
              let '(outcome, w4) := spawn_and_reap (systemd_run_args settings request_id work_dir req_path) work_dir w3 in
              (outcome, delete request_id (<[request_id := unit_name request_id]> active), (remove_dir_all work_dir w4).2)
          end
      end
  end.

(** [ensure_work_root]. *)
Definition ensure_work_root : Io W unit :=
  (create_dir_all (bs_work_root settings);; set_mode (bs_work_root settings) 448)%rust.

(** [dispatch]: the answer of a build, once it holds a permit. *)
Definition dispatch (active : gmap string string) (request_id : string) (req : BuildRequest) (w : W)
    : (string * Outcome) * gmap string string * W :=
  if negb (is_valid_request_id request_id)
  then ((request_id, Err (build_err 400 "dispatch" "invalid request_id")), active, w)
  else let '(outcome, active', w') := agent_run_build active request_id req w in ((request_id, outcome), active', w').

(** [cancel]. *)
Definition cancel (active : gmap string string) (request_id : string) (w : W) : bool * W :=
  match active !! request_id with
  | None => (false, w)
  | Some unit =>
      match output ["systemctl"; "kill"; "--signal=SIGTERM"; unit] w with
      | (Ok _, w') => (true, w')
      | (Err _, w') => (false, w')
      end
  end.

(** *** After a restart *)

Definition body_fabricated_error (message : string) : Outcome := Err (mkBuildError 500 message "reap").
Definition body_from_result_bytes (bytes : string) : Outcome :=
  match parse_json bytes ≫= dec_result with
  | Some r => Ok r
  | None => body_fabricated_error ("malformed result.json: " +:+ serde_error bytes)
  end.
Definition body_from_error_bytes (bytes : string) : Outcome :=
  match parse_json bytes ≫= dec_error with
  | Some e => Err e
  | None => body_fabricated_error ("malformed error.json: " +:+ serde_error bytes)
  end.

(** What a finished build left. *)
Definition stored_outcome (work_dir missing : string) (w : W) : Outcome * W :=
  match fs_read (path_join work_dir "result.json") w with
  | (Ok bytes, w1) => (body_from_result_bytes bytes, w1)
  | (Err _, w1) =>
      match fs_read (path_join work_dir "error.json") w1 with
      | (Ok bytes, w2) => (body_from_error_bytes bytes, w2)
      | (Err _, w2) => (body_fabricated_error missing, w2)
      end
  end.

Definition list_coolify_build_units (w : W) : list string * W :=
  match output ["systemctl"; "list-units"; "--all"; "--no-legend"; "--plain"; "--type=service"; "coolify-build-*.service"] w with
  | (Err _, w') => ([], w')
  | (Ok o, w') =>
      (filter (fun n => starts_with "coolify-build-" n && ends_with ".service" n = true)
         (omap first_word (lines (from_utf8_lossy (o_out o)))), w')
  end.

Definition systemctl_is_active (unit : string) (w : W) : bool * W :=
  match output ["systemctl"; "is-active"; unit] w with
  | (Ok o, w') => (o_success o, w')
  | (Err _, w') => (false, w')
  end.

(** One unit: adopted while it runs, answered and cleaned up when it does not. *)
Definition resume_unit (unit : string) (active : gmap string string) (w : W)
    : option (string * Outcome) * gmap string string * W :=
  match parse_request_id unit with
  | None => (None, active, w)
  | Some request_id =>
      let work_dir := path_join (bs_work_root settings) request_id in
      let '(running, w1) := systemctl_is_active unit w in
      if running then (None, <[request_id := unit]> active, w1)
      else
        let '(body, w2) := stored_outcome work_dir "builder exited without result file" w1 in
        let w3 := (remove_dir_all work_dir w2).2 in
        (Some (request_id, body), active, (output ["systemctl"; "reset-failed"; unit] w3).2)
  end.

(** [wait_and_emit]: the unit is looked at until it is not active (at most
    [polls] times here: a unit that stays active is not answered), then its
    answer is sent and it is no longer in flight. *)
Fixpoint wait_inactive (polls : nat) (unit : string) (w : W) : option W :=
  match polls with
  | O => None
  | S polls' => let '(running, w1) := systemctl_is_active unit w in if running then wait_inactive polls' unit w1 else Some w1
  end.
Definition wait_and_emit (polls : nat) (request_id unit work_dir : string) (active : gmap string string) (w : W)
    : option ((string * Outcome) * gmap string string * W) :=
  w0 ← wait_inactive polls unit w;
  let '(body, w1) := stored_outcome work_dir "adopted unit exited without result file" w0 in
  let w2 := (remove_dir_all work_dir w1).2 in
  Some ((request_id, body), delete request_id active, (output ["systemctl"; "reset-failed"; unit] w2).2).

Fixpoint resume_units (units : list string) (active : gmap string string) (w : W)
    : list (string * Outcome) * gmap string string * W :=
  match units with
  | [] => ([], active, w)
  | u :: rest =>
      let '(sent, active1, w1) := resume_unit u active w in
      let '(more, active2, w2) := resume_units rest active1 w1 in
      (option_list sent ++ more, active2, w2)
  end.
Definition resume_or_reap (active : gmap string string) (w : W) : list (string * Outcome) * gmap string string * W :=
  let '(units, w1) := list_coolify_build_units w in resume_units units active w1.
End Agent.

(* ------------------------------------------------------------------ *)
(** ** What a request can make the builder write *)

Lemma strip_cr_plain s : contains_char cr s = false -> strip_cr s = s.
Proof.
  intros H. unfold strip_cr. destruct (strip_suffix _ s) as [r|] eqn:E; [|done].
  apply strip_suffix_Some in E. rewrite E, contains_char_app in H. by apply orb_false_iff in H as [_ ?].
Qed.

Lemma base_image_plain s : is_safe_base_image s = true -> all_chars base_image_char s = true.
Proof. unfold is_safe_base_image. rewrite !andb_true_iff. by intros [_ ?]. Qed.

(** The file the image is built from has two lines, whatever the request: the
    base image, which holds no space, and one copy, from a directory that is
    below the clone and whose path holds no step up. *)
Theorem containerfile_has_two_lines base_image output_dir :
  is_safe_base_image base_image = true -> is_safe_output_dir output_dir = true ->
  lines (containerfile base_image output_dir) =
    ["FROM " +:+ base_image; "COPY ./" +:+ output_dir +:+ " /usr/share/nginx/html"] /\
  contains_char " " base_image = false /\
  is_absolute output_dir = false /\ ParentDir ∉ components output_dir /\ RootDir ∉ components output_dir.
Proof.
  intros Hb Ho. apply base_image_plain in Hb. unfold is_safe_output_dir in Ho.
  destruct (is_empty output_dir || _); [discriminate|].
  destruct (contains_char nl output_dir || contains_char "013" output_dir || contains_char "000" output_dir) eqn:Hch; [discriminate|].
  apply orb_false_iff in Hch as [[Hnl Hcr]%orb_false_iff _]. change "013"%char with cr in Hcr.
  destruct (is_absolute output_dir) eqn:Ha; [discriminate|]. rewrite forallb_forall in Ho.
  assert (forall c, c ∈ components output_dir -> plain_component c = true) as Hc
    by (intros c Hin; apply Ho; by apply list_elem_of_In).
  split; [|split; [by apply (all_chars_no_char base_image_char)|]].
  - replace (containerfile base_image output_dir)
      with (join lf ["FROM " +:+ base_image; "COPY ./" +:+ output_dir +:+ " /usr/share/nginx/html"] +:+ lf)
      by (unfold containerfile; cbn [join]; by rewrite <- !string_app_assoc).
    assert (forall c, base_image_char c = false -> contains_char c base_image = false) as Hbc
      by (intros c E; by apply (all_chars_no_char base_image_char)).
    apply lines_join; [done| |]; rewrite !Forall_cons, Forall_nil; split_and!; try done;
      try apply strip_cr_plain; rewrite !contains_char_app, ?Hbc, ?Hnl, ?Hcr; done.
  - split; [done|]. split; intros Hin; by apply Hc in Hin.
Qed.

(* ------------------------------------------------------------------ *)
(** ** Which commit is built *)

Lemma b_bind_Ok {W A C} (m : B (W := W) A) (k : A -> B C) s c s' :
  b_bind m k s = (Ok c, s') -> exists a s1, m s = (Ok a, s1) /\ k a s1 = (Ok c, s').
Proof. unfold b_bind. destruct (m s) as [[a|e] s1]; [|done]. eauto. Qed.
Lemma b_io_Ok {W A} (m : Io W A) f s a s' : b_io m f s = (Ok a, s') -> exists w', m s.1 = (Ok a, w') /\ s' = (w', s.2).
Proof. unfold b_io. destruct (m s.1) as [[b|e] w']; [|done]. intros [= <- <-]. eauto. Qed.
Lemma require_Ok {W} ok e (s : W * list ProgressEvent) s' : require ok e s = (Ok (), s') -> ok = true /\ s' = s.
Proof. unfold require. destruct ok; [by intros [= <-]|done]. Qed.

Ltac b_inv H :=
  repeat match type of H with
  | b_bind _ _ _ = (Ok _, _) =>
      let a := fresh "a" in let s1 := fresh "s" in let H1 := fresh "Hb" in
      apply b_bind_Ok in H as (a & s1 & H1 & H); try (match type of a with unit => destruct a end)
  end.

Section Git.
Context {W : Type} `{!Host W} (process : string -> list string -> string -> W -> ProcEnd * W) (debug_str : string -> string).
(** The commit a clone has checked out, and the one a server gives by default. *)
Context (head_of : W -> string -> option string) (default_head : string -> string).

(** [git], as its manual has it: a clone checks out the default branch; after a
    double dash [checkout] takes paths, which it restores from the index, and
    stays on its commit; [fetch] does not touch the working tree.  [buildah] and
    the files beside the clone do not change it either. *)
Class GitLaws : Prop := {
  git_clone url dir w w' :
    process "git" ["clone"; "--depth"; "1"; "--no-tags"; "--"; url; "repo"] dir w = (Exited true, w') ->
    head_of w' (path_join dir "repo") = Some (default_head url);
  git_checkout_paths p dir w d : head_of (process "git" ["checkout"; "--"; p] dir w).2 d = head_of w d;
  git_fetch r dir w d : head_of (process "git" ["fetch"; "--depth"; "1"; "origin"; "--"; r] dir w).2 d = head_of w d;
  git_buildah args dir w d : head_of (process "buildah" args dir w).2 d = head_of w d;
  git_write p s w d : head_of (write_file p s w).2 d = head_of w d;
  git_read p w d : head_of (read_to_string p w).2 d = head_of w d;
}.
Context `{!GitLaws}.

Lemma run_ok_Ok bin args dir s b s' : run_ok process bin args dir s = (Ok b, s') ->
  process bin args dir s.1 = (Exited b, s'.1) /\ s'.2 = s.2.
Proof.
  unfold run_ok. destruct (process bin args dir s.1) as [[e|e|ok] w']; intros [=]. subst. done.
Qed.

Lemma ran_kept bin args dir s b s' d :
  (forall w d, head_of (process bin args dir w).2 d = head_of w d) ->
  run_ok process bin args dir s = (Ok b, s') -> head_of s'.1 d = head_of s.1 d.
Proof. intros Hk [Hr _]%run_ok_Ok. specialize (Hk s.1 d). by rewrite Hr in Hk. Qed.

Lemma fetch_source_head req work_dir s s' :
  fetch_source process req work_dir (path_join work_dir "repo") s = (Ok (), s') ->
  head_of s'.1 (path_join work_dir "repo") = Some (default_head (br_repo_url req)).
Proof.
  unfold fetch_source. intros Hf. b_inv Hf. injection Hf as <-. cbn [fst]. injection Hb as <-.
  apply require_Ok in Hb1 as [-> ->]. apply run_ok_Ok in Hb0 as [Hclone _]. cbn [fst] in Hclone.
  apply git_clone in Hclone. rewrite <- Hclone.
  rewrite <- (ran_kept _ _ _ _ _ _ _ (git_checkout_paths _ _) Hb2).
  destruct a0; [by injection Hb3 as <-|]. b_inv Hb3. injection Hb3 as <-. apply require_Ok in Hb0 as [-> ->].
  by rewrite (ran_kept _ _ _ _ _ _ _ (git_checkout_paths _ _) Hb1), (ran_kept _ _ _ _ _ _ _ (git_fetch _ _) Hb).
Qed.

Lemma build_image_head req repo_dir output_dir base_image iid s s' d :
  build_image process req repo_dir output_dir base_image iid s = (Ok (), s') -> head_of s'.1 d = head_of s.1 d.
Proof.
  unfold build_image. intros Hf. b_inv Hf. injection Hf as <-. cbn [fst]. injection Hb as <-. injection Hb0 as _ <-.
  apply require_Ok in Hb1 as [_ ->]. apply b_io_Ok in Hb2 as (w' & Hw & ->). injection Hb3 as <-.
  apply require_Ok in Hb5 as [_ ->]. rewrite (ran_kept _ _ _ _ _ _ _ (git_buildah _ _) Hb4). cbn [fst] in *.
  pose proof (git_write (path_join repo_dir "Containerfile.coolify") (containerfile base_image output_dir) s.1 d) as E.
  by rewrite Hw in E.
Qed.

(** The ref of a request is never built: a build that succeeds has built the
    default branch of the repository, whatever ref was asked for, because both
    checkouts pass it after the double dash, where it names a path, and the last
    one's failure is not looked at. *)
Theorem requested_ref_ignored elapsed req work_dir w events r w' events' :
  run_build process debug_str elapsed req work_dir (w, events) = (Ok r, (w', events')) ->
  head_of w' (path_join work_dir "repo") = Some (default_head (br_repo_url req)).
Proof.
  unfold run_build. destruct (br_stack req); intros Hf; try discriminate Hf. unfold static_run in Hf. b_inv Hf.
  apply require_Ok in Hb as [_ ->]. apply require_Ok in Hb0 as [_ ->]. apply fetch_source_head in Hb1.
  rewrite <- (build_image_head _ _ _ _ _ _ _ (path_join work_dir "repo") Hb2) in Hb1. injection Hb3 as <-.
  apply b_io_Ok in Hb4 as (w1 & Hr & ->). apply require_Ok in Hb5 as [_ ->]. injection Hb6 as <-. injection Hf as _ <- _.
  cbn [fst] in *. rewrite <- Hb1. pose proof (git_read (path_join work_dir "image-id") s2.1 (path_join work_dir "repo")) as E.
  by rewrite Hr in E.
Qed.
End Git.

(* ------------------------------------------------------------------ *)
(** ** The agent reads what the builder wrote *)

(** [std::fs::read] gives what the file holds, and changes nothing. *)
Class ReadLaws {W} (files : W -> gmap string File) (fs_read : string -> Io W string) : Prop := {
  read_data p w bytes w' : fs_read p w = (Ok bytes, w') -> exists m, files w !! p = Some (mkFile bytes m);
  read_frame p w : same_but files [] w (fs_read p w).2;
}.

(** Numbers a JSON text carries exactly. *)
Fixpoint nums_ok (j : json) : bool :=
  match j with
  | JNum n => (-9223372036854775808 <=? n) && (n <=? 18446744073709551615)
  | JArr l => forallb nums_ok l
  | JObj fields => forallb (fun f => nums_ok f.2) fields
  | _ => true
  end.
Class SerdeLaws (to_string : json -> string) (parse_json : string -> option json) : Prop :=
  law_serde j : nums_ok j = true -> parse_json (to_string j) = Some j.

Definition u32 (n : Z) : Prop := 0 <= n <= 4294967295.
Definition u64 (n : Z) : Prop := 0 <= n <= 18446744073709551615.
Definition frame_ok (f : OutFrame) : Prop :=
  match f with FProgress ev => u32 (pg_percent ev) | FResult ok => u64 (bd_duration_ms ok) | FError e => u32 (be_code e) end.

Lemma dec_int_in lo hi n : lo <= n <= hi -> dec_int lo hi (JNum n) = Some n.
Proof. intros H. unfold dec_int. by replace ((lo <=? n) && (n <=? hi)) with true by lia. Qed.
Lemma dec_stack_name s : dec_stack (JStr (stack_name s)) = Some s.
Proof. by destruct s. Qed.

Lemma result_roundtrip r : u64 (bd_duration_ms r) -> dec_result (result_json r) = Some r.
Proof.
  intros H. destruct r as [d ref t s]. change (dec_result (result_json (mkBuildResult d ref t s)))
    with (t' ← dec_u64 (JNum t); s' ← dec_stack (JStr (stack_name s)); Some (mkBuildResult d ref t' s')).
  unfold dec_u64. by rewrite dec_int_in, dec_stack_name by apply H.
Qed.
Lemma error_roundtrip e : u32 (be_code e) -> dec_error (error_json e) = Some e.
Proof.
  intros H. destruct e as [c m s]. change (dec_error (error_json (mkBuildError c m s)))
    with (c' ← dec_u32 (JNum c); Some (mkBuildError c' m s)).
  unfold dec_u32. by rewrite dec_int_in by apply H.
Qed.
Lemma frame_roundtrip f : frame_ok f -> dec_frame (frame_json f) = Some f.
Proof.
  destruct f as [[s l p]|r|e]; intros H.
  - change (dec_frame (frame_json (FProgress (mkProgress s l p)))) with (FProgress <$> (p' ← dec_u32 (JNum p); Some (mkProgress s l p'))).
    unfold dec_u32. by rewrite dec_int_in by apply H.
  - change (dec_frame (frame_json (FResult r))) with (FResult <$> dec_result (result_json r)). by rewrite result_roundtrip.
  - change (dec_frame (frame_json (FError e))) with (FError <$> dec_error (error_json e)). by rewrite error_roundtrip.
Qed.
Lemma frame_nums f : frame_ok f -> nums_ok (frame_json f) = true.
Proof. destruct f as [[s l p]|[d ref t s]|[c m s]]; unfold frame_ok, u32, u64; cbn; lia. Qed.

Lemma result_nums r : u64 (bd_duration_ms r) -> nums_ok (result_json r) = true.
Proof. destruct r as [d ref t s]. unfold u64. cbn. lia. Qed.
Lemma error_nums e : u32 (be_code e) -> nums_ok (error_json e) = true.
Proof. destruct e as [c m s]. unfold u32. cbn. lia. Qed.

(** *** The builder stays within the formats *)

Definition events_ok (l : list ProgressEvent) : Prop := Forall (fun ev => u32 (pg_percent ev)) l.

Section Outcome.
Context {W : Type} `{!Host W} (process : string -> list string -> string -> W -> ProcEnd * W) (debug_str : string -> string).

Definition b_sound {A} (m : B (W := W) A) : Prop := forall s, events_ok s.2 ->
  events_ok (m s).2.2 /\ match (m s).1 with Ok _ => True | Err e => u32 (be_code e) end.

Lemma sound_ret {A} (a : A) : b_sound (b_ret a).
Proof. by intros s. Qed.
Lemma sound_bind {A C} (m : B A) (k : A -> B C) : b_sound m -> (forall a, b_sound (k a)) -> b_sound (b_bind m k).
Proof.
  intros Hm Hk s Hs. unfold b_bind. specialize (Hm s Hs). destruct (m s) as [[a|e] s1]; cbn in *; [|done].
  apply (Hk a). apply Hm.
Qed.
Lemma sound_emit stage log p : u32 p -> b_sound (emit stage log p).
Proof. intros Hp s Hs. split; [|done]. apply Forall_app. split; [done|]. by constructor. Qed.
Lemma sound_run bin args dir : b_sound (run_ok process bin args dir).
Proof. intros s Hs. unfold run_ok. destruct (process bin args dir s.1) as [[e|e|ok] w']; split; try done; cbn; unfold u32; lia. Qed.
Lemma sound_require ok e : u32 (be_code e) -> b_sound (require ok e).
Proof. intros He s Hs. unfold require. by destruct ok. Qed.
Lemma sound_io {A} (m : Io W A) f : (forall e, u32 (be_code (f e))) -> b_sound (b_io m f).
Proof. intros Hf s Hs. unfold b_io. destruct (m s.1) as [[a|e] w']; split; try done. cbn. apply Hf. Qed.

Ltac sound := repeat first
  [ apply sound_emit; unfold u32; lia | apply sound_run | apply sound_require; unfold u32; cbn; lia
  | apply sound_io; intros; unfold u32; cbn; lia | apply sound_ret
  | apply sound_bind; [|intros] | case_match | solve [intros s Hs; split; done] ].

Lemma run_build_sound elapsed req work_dir : b_sound (run_build process debug_str elapsed req work_dir).
Proof.
  unfold run_build. destruct (br_stack req); try (intros s Hs; split; [done|cbn; unfold u32; lia]).
  unfold static_run, fetch_source, build_image. sound.
Qed.

Lemma static_run_elapsed elapsed req work_dir s r s' :
  run_build process debug_str elapsed req work_dir s = (Ok r, s') -> bd_duration_ms r = elapsed.
Proof.
  unfold run_build. destruct (br_stack req); intros Hf; try discriminate Hf. unfold static_run in Hf. b_inv Hf.
  by injection Hf as <- _.
Qed.

Context (to_string : json -> string) (parse_json : string -> option json) (serde_error : string -> string)
  `{!SerdeLaws to_string parse_json}.
Context (fs_read : string -> Io W string) (open_append : string -> Io W unit).

Lemma emitted_lines (events : list ProgressEvent) : forall lines,
  foldl (fun l ev => emit_frame to_string (FProgress ev) l) lines events =
  lines ++ ((fun ev => to_string (frame_json (FProgress ev))) <$> events).
Proof.
  induction events as [|ev events IH]; intros ls; cbn [foldl]; [by rewrite app_nil_r|].
  rewrite IH. unfold emit_frame. by rewrite <- app_assoc.
Qed.

Lemma reap_progress events : events_ok events -> forall acc,
  foldl (reap_line parse_json) acc ((fun ev => to_string (frame_json (FProgress ev))) <$> events) = acc.
Proof.
  induction 1 as [|ev events Hev Hevs IH]; intros acc; [done|]. rewrite fmap_cons. cbn [foldl]. rewrite IH.
  unfold reap_line. rewrite law_serde by (by apply frame_nums). cbn [mbind option_bind]. by rewrite frame_roundtrip.
Qed.

Lemma reap_last events f : events_ok events -> frame_ok f ->
  foldl (reap_line parse_json) None (emit_frame to_string f (foldl (fun l ev => emit_frame to_string (FProgress ev) l) [] events)) =
  match f with FResult ok => Some (Ok ok) | FError e => Some (Err e) | FProgress _ => None end.
Proof.
  intros Hev Hf. rewrite emitted_lines. unfold emit_frame. rewrite foldl_app, app_nil_l, reap_progress by done. cbn [foldl].
  unfold reap_line. rewrite law_serde by (by apply frame_nums). cbn [mbind option_bind]. rewrite frame_roundtrip by done. by destruct f.
Qed.

(** *** The file of the outcome *)

Section Stored.
Context (files : W -> gmap string File) `{!HostLaws W files, !ReadLaws files fs_read}.

(** The file is there and reading it does not fail. *)
Definition readable (p : string) (w : W) : Prop :=
  forall w1, same_but files [] w w1 -> exists bytes w2, fs_read p w1 = (Ok bytes, w2).
(** Some step of putting a file in place fails: opening, writing or syncing the
    temporary one, or the rename. *)
Definition saving_fails (path bytes : string) (w : W) : Prop :=
  exists e w', io_bind (open_truncate (path +:+ ".tmp") 384) (fun _ =>
    io_bind (write_all (path +:+ ".tmp") bytes) (fun _ =>
    io_bind (flush (path +:+ ".tmp")) (fun _ => rename (path +:+ ".tmp") path))) w = (Err e, w').

Lemma write_json_atomic_spec path bytes w :
  let w' := (write_json_atomic path bytes w).2 in
  saving_fails path bytes w /\ same_but files [path +:+ ".tmp"] w w' \/
  (exists m, files w' !! path = Some (mkFile bytes m)) /\ same_but files [path; path +:+ ".tmp"] w w'.
Proof.
  unfold saving_fails, write_json_atomic. set (tmp := path +:+ ".tmp"). unfold io_bind, attempt, io_ret. cbv zeta.
  pose proof (law_open tmp 384 w) as Ho. pose proof (law_open_Ok tmp 384 w) as Ho'.
  destruct (open_truncate tmp 384 w) as [[[]|e] w1]; cbn in *; [|left; eauto].
  destruct (Ho' w1 eq_refl) as [m Hm]. pose proof (law_write_all tmp bytes w1) as Hw. pose proof (law_write_all_Ok tmp bytes w1) as Hw'.
  destruct (write_all tmp bytes w1) as [[[]|e] w2]; cbn in *; [|left; split; [eauto|by etrans]].
  specialize (Hw' w2 m eq_refl Hm). pose proof (law_flush tmp w2) as Hf.
  assert (same_but files [tmp] w2 (flush tmp w2).2) as Hf' by (by eapply same_but_weaken, Hf; set_solver).
  destruct (flush tmp w2) as [[[]|e] w3]; cbn in *; [|left; split; [eauto|by etrans; [|etrans]]].
  assert (same_but files [tmp] w w3) as H3 by (by etrans; [|etrans]).
  destruct (rename tmp path w3) as [[[]|e] w4] eqn:Hr; cbn.
  - right. destruct (law_rename_Ok _ _ _ _ Hr) as (f & Hf3 & Hf4). rewrite (Hf tmp), Hw' in Hf3 by set_solver. injection Hf3 as <-.
    split; [exists m; by rewrite Hf4, lookup_insert_eq|]. intros q Hq. rewrite Hf4, lookup_insert_ne, lookup_delete_ne by set_solver.
    apply H3. set_solver.
  - left. split; [eauto|]. etrans; [done|]. eapply same_but_weaken, law_rename_Err, Hr. set_solver.
Qed.

(** The file of an outcome, and its text. *)
Definition outcome_file (work_dir : string) (r : result BuildResult BuildError) : string :=
  path_join work_dir (match r with Ok _ => "result.json" | Err _ => "error.json" end).
Definition outcome_text (r : result BuildResult BuildError) : string :=
  to_string (match r with Ok ok => result_json ok | Err e => error_json e end).
Definition outcome_ok (r : result BuildResult BuildError) : Prop :=
  match r with Ok ok => u64 (bd_duration_ms ok) | Err e => u32 (be_code e) end.

Lemma fs_read_data p w bytes w' f : fs_read p w = (Ok bytes, w') -> files w !! p = Some f -> bytes = f_data f.
Proof. intros H Hf. destruct (read_data _ _ _ _ H) as [m Hm]. rewrite Hm in Hf. by injection Hf as <-. Qed.

(** A later look at the directory finds the outcome that was saved there. *)
Lemma stored_outcome_found work_dir missing r w m :
  outcome_ok r -> files w !! outcome_file work_dir r = Some (mkFile (outcome_text r) m) ->
  (forall e, r = Err e -> files w !! path_join work_dir "result.json" = None) ->
  readable (outcome_file work_dir r) w ->
  (stored_outcome parse_json serde_error fs_read work_dir missing w).1 = r.
Proof.
  intros Hok Hf Hno Hr. unfold stored_outcome. unfold outcome_file, outcome_text, outcome_ok in *. destruct r as [ok|e].
  - destruct (Hr w) as (bytes & w2 & Hb); [done|]. rewrite Hb. rewrite (fs_read_data _ _ _ _ _ Hb Hf). cbn [fst f_data].
    unfold body_from_result_bytes. rewrite law_serde by (by apply result_nums). cbn [mbind option_bind]. by rewrite result_roundtrip.
  - pose proof (read_frame (path_join work_dir "result.json") w) as Hs. pose proof (read_data (path_join work_dir "result.json") w) as Hd.
    destruct (fs_read (path_join work_dir "result.json") w) as [[bytes|e'] w1].
    { destruct (Hd bytes w1 eq_refl) as [m' Hm']. by rewrite (Hno e) in Hm'. }
    cbn [snd] in Hs. destruct (Hr w1 Hs) as (bytes & w2 & Hb). rewrite <- Hs in Hf by set_solver.
    rewrite Hb, (fs_read_data _ _ _ _ _ Hb Hf). cbn [fst f_data].
    unfold body_from_error_bytes. rewrite law_serde by (by apply error_nums). cbn [mbind option_bind]. by rewrite error_roundtrip.
Qed.

(** Where a build ends once it was started: its lines, its code, and the world with its file. *)
Lemma builder_main_end elapsed prog req_path work_dir w w1 req w2 r w3 events :
  open_append (path_join work_dir "events.ndjson") w = (Ok (), w1) ->
  load_request parse_json serde_error fs_read req_path w1 = (Ok req, w2) ->
  run_build process debug_str elapsed req work_dir (w2, []) = (r, (w3, events)) ->
  builder_main process debug_str to_string parse_json serde_error fs_read open_append (Ok ())
    elapsed None [prog; req_path; work_dir] w =
  (match r with Ok _ => 0 | Err _ => 1 end,
   emit_frame to_string (match r with Ok ok => FResult ok | Err e => FError e end)
     (foldl (fun l ev => emit_frame to_string (FProgress ev) l) [] events),
   (write_json_atomic (outcome_file work_dir r) (outcome_text r) w3).2).
Proof. intros Ho Hl Hr. unfold builder_main. rewrite Ho, Hl, Hr. by destruct r. Qed.

End Stored.
End Outcome.

Lemma strip_suffix_app p s : strip_suffix p (s +:+ p) = Some s.
Proof.
  induction s as [|a s IH]; [rewrite string_app_nil_l; destruct p; cbn [strip_suffix]; by rewrite decide_True|]. rewrite string_app_cons. cbn [strip_suffix].
  rewrite decide_False; [by rewrite IH|]. intros E. apply (f_equal String.length) in E. cbn in E.
  rewrite string_length_app in E. lia.
Qed.

(** What the agent writes is what the builder reads. *)
Lemma request_roundtrip r : dec_build_request (subprocess_request_json r) = Some r.
Proof.
  destruct r as [url ref stack image key cfg]. unfold subprocess_request_json, unless_blank. cbn [br_cache_key br_static_cfg].
  destruct key as [|c key], cfg as [[[|o od] [|b bi]]|], stack; reflexivity.
Qed.

(** A request id that passes the check names a unit from which it is read back,
    and a directory just below the working root. *)
Theorem request_id_contained work_root id :
  is_valid_request_id id = true -> is_empty work_root = false ->
  parse_request_id (unit_name id) = Some id /\ file_name (path_join work_root id) = Some id.
Proof.
  unfold is_valid_request_id. rewrite !andb_true_iff. intros [[Hne _] Hch] Hroot. split.
  - unfold parse_request_id, unit_name. rewrite (proj2 (strip_prefix_Some "coolify-build-" _ _) eq_refl). cbn [mbind option_bind].
    apply strip_suffix_app.
  - assert (forall c, id_char c = false -> contains_char c id = false) as Hno by (intros c Hc; by apply (all_chars_no_char id_char)).
    apply file_name_join; [by apply Hno| | |done].
    + unfold trivial_piece. apply negb_true_iff in Hne. rewrite Hne. apply bool_decide_eq_false. intros ->. by specialize (Hno "."%char eq_refl).
    + intros ->. by specialize (Hno "."%char eq_refl).
Qed.

(* ------------------------------------------------------------------ *)
(** ** A builder in memory *)

Module Demo.
(** A text for every JSON value. *)
Definition leaf : Type := unit + (bool + (Z + string)).
Fixpoint tree_of (j : json) : gen_tree leaf :=
  match j with
  | JNull => GenLeaf (inl ())
  | JBool b => GenLeaf (inr (inl b))
  | JNum n => GenLeaf (inr (inr (inl n)))
  | JStr s => GenLeaf (inr (inr (inr s)))
  | JArr l => GenNode 0 (map tree_of l)
  | JObj fs => GenNode 1 (map (fun f => GenNode 2 [GenLeaf (inr (inr (inr f.1))); tree_of f.2]) fs)
  end.
Fixpoint of_tree (t : gen_tree leaf) : json :=
  match t with
  | GenLeaf (inl _) => JNull
  | GenLeaf (inr (inl b)) => JBool b
  | GenLeaf (inr (inr (inl n))) => JNum n
  | GenLeaf (inr (inr (inr s))) => JStr s
  | GenNode 0 l => JArr (map of_tree l)
  | GenNode _ l => JObj (map (fun t => match t with
                                       | GenNode _ [GenLeaf (inr (inr (inr k))); v] => (k, of_tree v)
                                       | _ => ("", JNull)
                                       end) l)
  end.
Fixpoint of_tree_of (j : json) : of_tree (tree_of j) = j.
Proof.
  destruct j as [| | | |l|fs]; cbn; try reflexivity.
  - f_equal. induction l as [|x l IH]; cbn; [reflexivity|]. f_equal; [apply of_tree_of|exact IH].
  - f_equal. induction fs as [|[k v] fs IH]; cbn; [reflexivity|]. f_equal; [f_equal; apply of_tree_of|exact IH].
Qed.
Definition to_string (j : json) : string := bits (encode (tree_of j)).
Definition parse_json (s : string) : option json := of_tree <$> decode (unbits s).
#[export] Instance serde : SerdeLaws to_string parse_json.
Proof. intros j _. unfold parse_json, to_string. rewrite unbits_bits, decode_encode. cbn. by rewrite of_tree_of. Qed.

(** A repository whose default branch is at [main1]; the rest of the machine is
    the commit of the clone. *)
Definition step (argv : list string) (f : gmap string File) (x : option string) : Output * option string :=
  (mkOut true "exit status: 0" "" "", x).
Notation World := (Sim.World (option string)).
#[local] Instance H : Host World := Sim.host step (fun p => Some p).
Definition head_of (w : World) (d : string) : option string := Sim.w_ext w.
Definition default_head (url : string) : string := "main1".
Definition image_id : gmap string File -> gmap string File := <["/w/image-id" := mkFile ("sha256:abc" +:+ lf) 420]>.
Definition process (bin : string) (args : list string) (dir : string) (w : World) : ProcEnd * World :=
  if decide (bin = "git" /\ head args = Some "clone")
  then (Exited true, Sim.mkWorld (<["/w/repo/dist" := mkFile "" 420]> (Sim.w_files w)) (Sim.w_log w) (Some "main1"))
  else if decide (bin = "git" /\ head args = Some "checkout") then (Exited false, w)
  else if decide (bin = "buildah") then (Exited true, Sim.with_files (image_id (Sim.w_files w)) w)
  else (Exited true, w).
#[export] Instance git : GitLaws process head_of default_head.
Proof.
  split.
  - intros url dir w w'. unfold process. rewrite decide_True by done. by intros [= <-].
  - intros p dir w d. unfold process. rewrite decide_False by naive_solver. by rewrite decide_True by done.
  - intros r dir w d. unfold process. by rewrite !decide_False by naive_solver.
  - intros args dir w d. unfold process. rewrite !decide_False by naive_solver. by rewrite decide_True by done.
  - done.
  - done.
Qed.

Definition req : BuildRequest := mkBuildRequest "https://git/x.git" "release-2" Static "img:1" "" None.
Definition w0 : World := Sim.mkWorld {["/w/request.json" := mkFile (to_string (subprocess_request_json req)) 384]} [] None.
Definition outcome := run_build process (fun s => s) 7 req "/w" (w0, []).
Definition result : BuildResult := mkBuildResult "sha256:abc" "img:1@sha256:abc" 7 Static.

Lemma requested_ref_ignored_witness : head_of outcome.2.1 "/w/repo" = Some "main1".
Proof.
  apply (requested_ref_ignored process (fun s => s) head_of default_head 7 req "/w" w0 [] result outcome.2.1 outcome.2.2).
  vm_refl.
Defined.

Definition opens (p : string) : Io World unit := io_ret ().
Definition printed := builder_main process (fun s => s) to_string parse_json (fun s => s) read_to_string opens (Ok ()) 7 None
  ["builder"; "/w/request.json"; "/w"] w0.
#[export] Instance host_laws : HostLaws World Sim.w_files := Sim.laws step (fun p => Some p).
#[export] Instance read_laws : ReadLaws Sim.w_files (read_to_string (W := World)).
Proof. split; [exact law_read_Ok|exact law_read]. Qed.
Lemma saved : ~ saving_fails "/w/result.json" (to_string (result_json result)) outcome.2.1.
Proof. intros (e & w' & H). discriminate H. Qed.
Lemma result_readable : readable read_to_string Sim.w_files "/w/result.json" printed.2.
Proof.
  intros w1 Hw. destruct (reads_data (HostReads := Sim.reads step (fun p => Some p)) "/w/result.json" w1
    (mkFile (to_string (result_json result)) 384)) as (w2 & H2); [|eauto].
  rewrite (Hw "/w/result.json") by apply not_elem_of_nil. vm_refl.
Qed.


Lemma containerfile_has_two_lines_witness :
  lines (containerfile "nginx:alpine" "dist") = ["FROM nginx:alpine"; "COPY ./dist /usr/share/nginx/html"].
Proof. apply (containerfile_has_two_lines "nginx:alpine" "dist"); reflexivity. Defined.

Lemma request_id_contained_witness : file_name (path_join "/var/lib/coolify/builds" "r-1") = Some "r-1".
Proof. apply (request_id_contained "/var/lib/coolify/builds" "r-1"); reflexivity. Defined.
End Demo.
