(* ===== verification/CliInit.v ===== *)
(** * The commands of the CLI

    [coolify-cli/src/commands/init/mod.rs], the output of [output.rs] and
    [cli.rs], and the certificates of [services/tls.rs]: from flags to a desired
    mesh, and the four commands around planning and applying.

    A command runs against the operator's machine (a [Host]), the hosts of the
    mesh (their logs of commands, as in [Apply]) and its two outputs.  Parsing
    the arguments is [clap]'s, issuing a certificate is [rcgen]'s, and the text
    of a JSON value is [serde_json]'s: parameters. *)

From S2P Require Import Prelude RustStr RustPath Messages Net Subnet Mesh MeshText WgConfig Ssh Plan Apply Host StreamClient.
Local Open Scope Z_scope.

(* ------------------------------------------------------------------ *)
(** ** Flags *)

Inductive OutputFormat := Table | Json | Pretty.

(** [MeshNetMultiFlags]. *)
Record MeshNetMultiFlags := mkMeshFlags {
  mf_namespaces : list string;
  mf_container_pool : string;
  mf_container_prefix : Z;
}.

Record BaseInitFlags := mkBase {
  b_ssh : SshMeshFlags;
  b_mesh : MeshNetMultiFlags;
  b_wg_mgmt_pool : string;
  b_wg_interface : string;
  b_wg_listen_port : Z;
  b_wg_listen_port_overrides : list string;
  b_wg_endpoint_overrides : list string;
  b_skip_default_deny : bool;
  b_coold_version : string;
  b_corrosion_version : string;
  b_corrosion_gossip_port : Z;
  b_corrosion_api_port : Z;
  b_coold_sha256 : option string;
  b_corrosion_sha256 : option string;
  b_enable_corrosion_gossip_tls : bool;
  b_enable_flux_tls : bool;
  b_flux_tls_san : list string;
  b_flux_port : Z;
  b_flux_tls_out_dir : string;
  b_yes : bool;
}.

Record PlanCommand := mkPlanCommand {
  pc_base : BaseInitFlags;
  pc_intent : Intent;
  pc_new_nodes : list string;
  pc_allow_replace : bool;
  pc_allow_nightly : bool;
}.

(** [InitCommand]; [Extend] carries its new nodes and [--allow-replace],
    [Upgrade] its [--allow-nightly]. *)
Inductive InitCommand :=
  | CmdPlan (c : PlanCommand)
  | CmdBootstrap (base : BaseInitFlags)
  | CmdExtend (base : BaseInitFlags) (new_nodes : list string) (allow_replace : bool)
  | CmdUpgrade (base : BaseInitFlags) (allow_nightly : bool).

(* ------------------------------------------------------------------ *)
(** ** Certificates *)

Inductive SanType := IpAddress (ip : IpAddr) | DnsName (name : string).

Inductive TlsError := InvalidDnsSan (san : string) | RcgenFailed (e : string).

Inductive InitError :=
  | BadSshFlags (e : SshFlagError)
  | BadName (e : NameError)
  | TlsFailed (what : string) (e : TlsError)
  | FluxSanRequired (sans : list string)
  | NodesEmpty
  | DuplicateNode (node : string)
  | BadPortEntry (value : string)
  | BadPort (raw : string)
  | BadEndpointEntry (value : string)
  | BadPool (s : string)
  | NewNodesRequired
  | PlanRejected (e : PlanError)
  | ApplyFailed (e : ApplyError)
  | LocalFailed (e : Error).

Section Tls.
(** [String -> Ia5String]; key generation, signing and PEM. *)
Context (ia5 : string -> bool) (self_sign : string -> list SanType -> result SelfSignedCert string).

Fixpoint san_entries (sans : list string) : result (list SanType) TlsError :=
  match sans with
  | [] => Ok []
  | san :: rest =>
      match parse_ipaddr san with
      | Some ip => (let? more := san_entries rest in Ok (IpAddress ip :: more))%rust
      | None =>
          if ia5 san then (let? more := san_entries rest in Ok (DnsName san :: more))%rust
          else Err (InvalidDnsSan san)
      end
  end.

Definition generate_self_signed (common_name : string) (sans : list string) : result SelfSignedCert TlsError :=
  (let? entries := san_entries sans in map_err RcgenFailed (self_sign common_name entries))%rust.
End Tls.

(* ------------------------------------------------------------------ *)
(** ** From flags to a desired mesh *)

Definition clean_hosts (hosts : list string) : list string :=
  filter (fun h => is_empty h = false) (trim <$> hosts).

Fixpoint mesh_hosts_from (seen : gset string) (out nodes : list string) : result (list string) InitError :=
  match nodes with
  | [] => Ok out
  | node :: rest =>
      if is_empty node then mesh_hosts_from seen out rest
      else if bool_decide (node ∈ seen) then Err (DuplicateNode node)
      else mesh_hosts_from ({[node]} ∪ seen) (out ++ [node]) rest
  end.
Definition mesh_hosts (nodes : list string) : result (list string) InitError := mesh_hosts_from ∅ [] nodes.

Fixpoint port_overrides_from (out : gmap string Z) (values : list string) : result (gmap string Z) InitError :=
  match values with
  | [] => Ok out
  | value :: rest =>
      match split_once "=" value with
      | None => Err (BadPortEntry value)
      | Some (host, raw_port) =>
          match parse_uint u16_max raw_port with
          | None => Err (BadPort raw_port)
          | Some port => port_overrides_from (<[trim host := port]> out) rest
          end
      end
  end.
Definition parse_port_overrides : list string -> result (gmap string Z) InitError := port_overrides_from ∅.

Fixpoint endpoint_overrides_from (out : gmap string string) (values : list string)
    : result (gmap string string) InitError :=
  match values with
  | [] => Ok out
  | value :: rest =>
      match split_once "=" value with
      | None => Err (BadEndpointEntry value)
      | Some (host, endpoint) => endpoint_overrides_from (<[trim host := trim endpoint]> out) rest
      end
  end.
Definition parse_endpoint_overrides : list string -> result (gmap string string) InitError := endpoint_overrides_from ∅.

Definition is_localhost_san (san : string) : bool :=
  bool_decide (to_ascii_lowercase (trim san) ∈ ["localhost"; "127.0.0.1"; "::1"; "0.0.0.0"; ""]).

Definition flux_url (flux_host : string) (port : Z) : string := "https://" +:+ flux_host +:+ ":" +:+ show_Z port.

Section Desired.
Context `{api : Ipv4NetApi} (ia5 : string -> bool) (self_sign : string -> list SanType -> result SelfSignedCert string).
Local Open Scope rust_scope.

(** The optional certificates. *)
Definition gossip_tls (base : BaseInitFlags) : result (option SelfSignedCert) InitError :=
  if b_enable_corrosion_gossip_tls base then
    let? cert := map_err (TlsFailed "generate corrosion gossip TLS cert")
                   (generate_self_signed ia5 self_sign "coolify-corrosion-gossip" []) in
    Ok (Some cert)
  else Ok None.

Definition flux_tls (base : BaseInitFlags) : result (option SelfSignedCert * option string) InitError :=
  if b_enable_flux_tls base then
    let sans := clean_hosts (b_flux_tls_san base) in
    match List.find (fun s => negb (is_localhost_san s)) sans with
    | None => Err (FluxSanRequired (b_flux_tls_san base))
    | Some flux_host =>
        let? cert := map_err (TlsFailed "generate flux TLS cert") (generate_self_signed ia5 self_sign "coolify-flux" sans) in
        Ok (Some cert, Some (flux_url flux_host (b_flux_port base)))
    end
  else Ok (None, None).

Definition parse_pool (s : string) : result Ipv4Net InitError :=
  match net_parse s with Some n => Ok n | None => Err (BadPool s) end.

Definition build_desired (base : BaseInitFlags) (intent : Intent) (new_nodes : list string)
    (allow_replace allow_nightly : bool) : result DesiredMesh InitError :=
  let? _ := map_err BadSshFlags (validate_ssh_access (b_ssh base)) in
  let? _ := map_err BadName (validate_namespaces (mf_namespaces (b_mesh base))) in
  let? _ := map_err BadName (validate_interface (b_wg_interface base)) in
  let? _ := map_err BadName (validate_version "--coold-version" (b_coold_version base)) in
  let? _ := map_err BadName (validate_version "--corrosion-version" (b_corrosion_version base)) in
  let? corrosion_gossip_tls := gossip_tls base in
  let? flux := flux_tls base in
  let nodes := clean_hosts (f_nodes (b_ssh base)) in
  let new_nodes := clean_hosts new_nodes in
  guard! negb (bool_decide (nodes = [])) else NodesEmpty in
  let? hosts := mesh_hosts nodes in
  let? listen_port_overrides := parse_port_overrides (b_wg_listen_port_overrides base) in
  let? endpoint_overrides := parse_endpoint_overrides (b_wg_endpoint_overrides base) in
  let? mgmt_pool := parse_pool (b_wg_mgmt_pool base) in
  let? container_pool := parse_pool (mf_container_pool (b_mesh base)) in
  Ok (mkDesired hosts nodes (b_wg_interface base) mgmt_pool container_pool (mf_container_prefix (b_mesh base))
        (b_wg_listen_port base) listen_port_overrides endpoint_overrides true (mf_namespaces (b_mesh base))
        (negb (b_skip_default_deny base)) true (b_coold_version base) (b_corrosion_version base)
        (b_corrosion_gossip_port base) (b_corrosion_api_port base) (b_coold_sha256 base) (b_corrosion_sha256 base)
        corrosion_gossip_tls flux.1 flux.2 intent new_nodes allow_replace allow_nightly).
End Desired.

(* ------------------------------------------------------------------ *)
(** ** Tables *)

(** The bytes of a string that begin a character: what a format width counts. *)
Fixpoint chars_count (s : string) : nat :=
  match s with
  | "" => O
  | String a r => if Z.land (Z.of_N (N_of_ascii a)) 192 =? 128 then chars_count r else S (chars_count r)
  end.

Fixpoint repeat_char (c : ascii) (n : nat) : string := match n with O => "" | S n' => String c (repeat_char c n') end.

(** [{:<width$}] with a fill. *)
Definition pad (fill : ascii) (width : nat) (s : string) : string := s +:+ repeat_char fill (width - chars_count s).

(** The widths, in bytes: a row longer than the ones before adds columns. *)
Fixpoint widen (widths : list nat) (row : list string) : list nat :=
  match widths, row with
  | w :: ws, cell :: cells => Nat.max w (String.length cell) :: widen ws cells
  | ws, [] => ws
  | [], cell :: cells => String.length cell :: widen [] cells
  end.
Definition column_widths (headers : list string) (rows : list (list string)) : list nat :=
  foldl widen (String.length <$> headers) rows.

(** The cells of a line; [last] is the number of columns the line breaks after. *)
Fixpoint render_cells (fill : ascii) (last i : nat) (widths : list nat) (cells : list string) : string :=
  match widths, cells with
  | w :: ws, c :: cs =>
      pad fill w c +:+ (if (S i =? last)%nat then lf else "  ") +:+ render_cells fill last (S i) ws cs
  | _, _ => ""
  end.

Definition table (headers : list string) (rows : list (list string)) : string :=
  let widths := column_widths headers rows in
  render_cells " " (length headers) 0 widths headers +:+
  render_cells "-" (length widths) 0 widths ((fun _ => "") <$> widths) +:+
  foldr (fun row s => render_cells " " (length headers) 0 widths row +:+ s) "" rows.

(* ------------------------------------------------------------------ *)
(** ** What is printed *)

(** The names of [ActionType], in kebab case. *)
Definition action_type_name (t : ActionType) : string :=
  match t with
  | InstallWg => "install-wg" | GenKeyPair => "gen-key-pair" | AllocateMgmtIp => "allocate-mgmt-ip"
  | AllocateContainerSubnet => "allocate-container-subnet" | WriteConfig => "write-config"
  | EnableService => "enable-service" | ReloadService => "reload-service" | AddPeer => "add-peer"
  | RemovePeer => "remove-peer" | InstallPodman => "install-podman" | EnablePodmanSocket => "enable-podman-socket"
  | EnableIpForward => "enable-ip-forward" | CreatePodmanNetwork => "create-podman-network"
  | RecreatePodmanNetwork => "recreate-podman-network" | InstallFirewall => "install-firewall"
  | InstallCorrosion => "install-corrosion" | InstallCoold => "install-coold"
  | WriteCorrosionConfig => "write-corrosion-config" | WriteCorrosionSchema => "write-corrosion-schema"
  | InstallCorrosionService => "install-corrosion-service" | InstallCooldService => "install-coold-service"
  end.

Definition action_json (a : PlannedAction) : json :=
  JObj [("host", JStr (a_host a)); ("namespace", JStr (a_namespace a)); ("action", JStr (action_type_name (a_type a)));
        ("detail", JStr (a_detail a))].
Definition skipped_json (s : SkippedAction) : json :=
  JObj [("action", action_json (sk_action s)); ("reason", JStr (sk_reason s))].
Definition warning_json (w : Warning) : json := JObj [("host", JStr (w_host w)); ("reason", JStr (w_reason w))].
Definition plan_output {api : Ipv4NetApi} (d : DesiredMesh) (p : Plan) : json :=
  JObj [("nodes", jstrs (d_nodes d)); ("mesh_hosts", jstrs (d_hosts d)); ("actions", JArr (action_json <$> pl_actions p));
        ("skipped", JArr (skipped_json <$> pl_skipped p)); ("warnings", JArr (warning_json <$> pl_warnings p))].
Definition result_json (r : ActionResult) : json :=
  JObj [("action", action_json (ar_action r)); ("status", JStr (ar_status r)); ("detail", JStr (ar_detail r))].
Definition verify_json (v : VerifyResult) : json :=
  JObj [("host", JStr (v_host v)); ("wireguard_ip", JStr (v_wireguard_ip v));
        ("peer_count", JNum (Z.of_nat (v_peer_count v))); ("status", JStr (v_status v))].
Definition apply_output (results : list ActionResult) (verified : list VerifyResult) : json :=
  JObj [("results", JArr (result_json <$> results)); ("verified", JArr (verify_json <$> verified))].

(* ------------------------------------------------------------------ *)
(** ** Running a command *)

(** The operator's machine, the hosts, and the two outputs. *)
Record CliState (W : Type) := mkCli {
  cli_local : W;
  cli_hosts : World;
  cli_out : string;
  cli_err : string;
}.
Arguments mkCli {W} _ _ _ _.
Arguments cli_local {W} _.
Arguments cli_hosts {W} _.
Arguments cli_out {W} _.
Arguments cli_err {W} _.

(** [None] is a panic, or an allocator that does not return. *)
Definition Cli (W A : Type) : Type := CliState W -> option (result A InitError) * CliState W.
Definition c_ret {W A} (a : A) : Cli W A := fun s => (Some (Ok a), s).
Definition c_bind {W A C} (m : Cli W A) (k : A -> Cli W C) : Cli W C := fun s =>
  match m s with
  | (Some (Ok a), s') => k a s'
  | (Some (Err e), s') => (Some (Err e), s')
  | (None, s') => (None, s')
  end.
Definition c_lift {W A} (r : result A InitError) : Cli W A := fun s => (Some r, s).
Definition c_plan {W A} (r : option (result A PlanError)) : Cli W A := fun s => (map_err PlanRejected <$> r, s).
Definition c_io {W A} (m : Io W A) : Cli W A := fun s =>
  let '(r, w) := m (cli_local s) in (Some (map_err LocalFailed r), mkCli w (cli_hosts s) (cli_out s) (cli_err s)).
Definition c_hosts {W A} (m : World -> World * option A) : Cli W A := fun s =>
  let '(h, r) := m (cli_hosts s) in (Ok <$> r, mkCli (cli_local s) h (cli_out s) (cli_err s)).
Definition eprint {W} (t : string) : Cli W unit := fun s =>
  (Some (Ok ()), mkCli (cli_local s) (cli_hosts s) (cli_out s) (cli_err s +:+ t)).
Definition print {W} (t : string) : Cli W unit := fun s =>
  (Some (Ok ()), mkCli (cli_local s) (cli_hosts s) (cli_out s +:+ t) (cli_err s)).
Definition eprintln {W} (t : string) : Cli W unit := eprint (t +:+ lf).
Definition println {W} (t : string) : Cli W unit := print (t +:+ lf).

Declare Scope cli_scope.
Delimit Scope cli_scope with cli.
Notation "'do' x '<-' e ';' k" := (c_bind e (fun x => k))
  (at level 200, x name, e at level 100, k at level 200, right associativity) : cli_scope.
Notation "'also' e ';' k" := (c_bind e (fun _ => k))
  (at level 200, e at level 100, k at level 200, right associativity) : cli_scope.

Definition ALPHA_BANNER : string :=
  lf +:+ "[ALPHA] coolify init targets Coolify v5 and is experimental." +:+ lf +:+
  "[ALPHA] WireGuard mesh bootstrap requires root/sudo and modifies network configuration." +:+ lf +:+
  "[ALPHA] Test in non-production environments first. Stability is not guaranteed." +:+ lf.

Definition PROMPT : string :=
  "This command will modify network configuration on the listed nodes. Use --yes to skip this prompt in automation.".

Section Commands.
Context `{api : Ipv4NetApi} (ia5 : string -> bool) (self_sign : string -> list SanType -> result SelfSignedCert string).
Context (sha256_hex : string -> string) (b64_decode : string -> option string) `{rn : Runner} (order : list string -> list string).
Context {W : Type} `{!Host W}.
(** [serde_json::to_string], [serde_json::to_string_pretty], [std::env::var]. *)
Context (to_string to_string_pretty : json -> string) (env : string -> option string).
Notation Cli := (Cli W).
Local Open Scope cli_scope.

(** [output::print] and [output::table]. *)
Definition output_print (format : OutputFormat) (value : json) : Cli unit :=
  match format with
  | Json => println (to_string value)
  | Pretty | Table => println (to_string_pretty value)
  end.
Definition output_table (headers : list string) (rows : list (list string)) : Cli unit := print (table headers rows).

(** What [client] and [reconstruct] print on stderr. *)
Definition client_warning (f : SshMeshFlags) : Cli unit :=
  if f_ssh_passphrase_prompt f
  then eprintln "warning: --ssh-passphrase-prompt is delegated to ssh/ssh-agent in coolify; ensure your key is unlocked"
  else c_ret ().
Definition probe_errors (rs : list (ServerResult ServerState)) : list string :=
  omap (fun r => match sr_result r, sr_error r with None, Some e => Some (sr_host r +:+ ": " +:+ e) | _, _ => None end) rs.

(** [reconstruct], with its warning. *)
Definition observe (base : BaseInitFlags) (d : DesiredMesh) : Cli MeshState :=
  do rs <- c_hosts (for_each_server (order (d_hosts d))
             (probe b64_decode (f_ssh_user (b_ssh base)) (f_ssh_port (b_ssh base)) (d_interface d) (d_namespaces d)));
  also match probe_errors rs with
       | [] => c_ret ()
       | errs => eprintln ("Warning: probe failed on some hosts: " +:+ join "; " errs)
       end;
  c_ret (collect_state rs).

Definition render_plan (format : OutputFormat) (d : DesiredMesh) (p : Plan) : Cli unit :=
  match format with
  | Json | Pretty => output_print format (plan_output d p)
  | Table =>
      match pl_actions p, pl_skipped p with
      | [], [] => println "No changes needed. Mesh is already converged."
      | actions, skipped =>
          also match actions with
               | [] => c_ret ()
               | _ => output_table ["HOST"; "ACTION"; "DETAIL"]
                        ((fun a => [a_host a; action_type_name (a_type a); a_detail a]) <$> actions)
               end;
          match skipped with
          | [] => c_ret ()
          | _ =>
              also eprintln "Skipped by intent filter:";
              eprint (concat_map (fun s => "  [" +:+ a_host (sk_action s) +:+ "] " +:+ action_type_name (a_type (sk_action s)) +:+
                                           " — " +:+ sk_reason s +:+ lf) skipped)
          end
      end
  end.

Definition run_plan (c : PlanCommand) (format : OutputFormat) : Cli unit :=
  also eprint ALPHA_BANNER;
  do d <- c_lift (build_desired ia5 self_sign (pc_base c) (pc_intent c) (pc_new_nodes c) (pc_allow_replace c) (pc_allow_nightly c));
  also client_warning (b_ssh (pc_base c));
  also eprintln ("Probing " +:+ show_len (d_hosts d) +:+ " mesh host(s)...");
  do current <- observe (pc_base c) d;
  do p <- c_plan (build_plan sha256_hex d current);
  render_plan format d p.

Definition flux_tls_message (url cert key : string) : string :=
  join lf
    [ "flux TLS enabled.";
      "  Automatic (node side): each coold unit dials " +:+ url +:+ " over pinned TLS";
      "    (COOLIFY_COOLD_FLUX_URL + COOLIFY_COOLD_FLUX_TLS_PIN_PATH), and the pin";
      "    file " +:+ FLUX_PIN_PATH +:+ " was dropped on every node.";
      "  Wrote " +:+ cert +:+ " and " +:+ key +:+ ".";
      "  Remaining MANUAL steps (CLI does not manage flux or host JWTs):";
      "    1. Copy cert.pem/key.pem to the flux host.";
      "    2. Start flux with COOLIFY_FLUX_TLS_CERT_PATH=" +:+ cert +:+ " \";
      "         COOLIFY_FLUX_TLS_KEY_PATH=" +:+ key;
      "       (flux must bind its mesh IP — the SAN above — not localhost).";
      "    3. Install each node's per-host JWT at " +:+ HOST_JWT_PATH +:+ " — coold exits at boot";
      "       if the flux URL is set but the JWT file is missing." ].

Definition write_flux_tls_files (out_dir : string) (cert : SelfSignedCert) : Io W unit :=
  (with_context ("create flux TLS output dir " +:+ out_dir) (create_dir_all out_dir);;
   with_context "write flux cert.pem" (write_file (path_join out_dir "cert.pem") (cert_pem cert));;
   with_context "write flux key.pem" (write_file (path_join out_dir "key.pem") (key_pem cert));;
   with_context "chmod flux key.pem" (set_mode (path_join out_dir "key.pem") 384))%rust.

Definition write_flux_tls_output (out_dir : string) (cert : SelfSignedCert) (url : option string) : Cli unit :=
  also c_io (write_flux_tls_files out_dir cert);
  eprintln (flux_tls_message (default "https://<flux-mesh-ip>:6443" url) (path_join out_dir "cert.pem") (path_join out_dir "key.pem")).

(** The planned actions, on stderr. *)
Definition announce (p : Plan) : Cli unit :=
  if plan_is_empty p then eprintln "No changes needed. Mesh is already converged."
  else also eprintln "Plan:";
       eprint (concat_map (fun a => "  [" +:+ a_host a +:+ "] " +:+ action_type_name (a_type a) +:+ "  " +:+ a_detail a +:+ lf)
                 (pl_actions p)).

Definition c_apply (base : BaseInitFlags) (d : DesiredMesh) (current : MeshState) : Cli (list ActionResult) := fun s =>
  let '(h, r) := apply_mesh sha256_hex b64_decode (f_ssh_user (b_ssh base)) (f_ssh_port (b_ssh base)) order d current (cli_hosts s) in
  (map_err ApplyFailed <$> r, mkCli (cli_local s) h (cli_out s) (cli_err s)).

Definition report (format : OutputFormat) (results : list ActionResult) (verified : list VerifyResult) : Cli unit :=
  match format with
  | Json | Pretty => output_print format (apply_output results verified)
  | Table =>
      also match results with
           | [] => c_ret ()
           | _ => output_table ["HOST"; "ACTION"; "STATUS"; "DETAIL"]
                    ((fun r => [a_host (ar_action r); action_type_name (a_type (ar_action r)); ar_status r; ar_detail r]) <$> results)
           end;
      output_table ["HOST"; "WIREGUARD IP"; "PEERS"; "STATUS"]
        ((fun v => [v_host v; v_wireguard_ip v; show_Z (Z.of_nat (v_peer_count v)); v_status v]) <$> verified)
  end.

Definition ask (skip_gate yes : bool) : Cli unit :=
  if negb skip_gate && negb yes && negb (bool_decide (default "" (env "COOLIFY_NON_INTERACTIVE") = "1"))
  then eprintln PROMPT else c_ret ().

Definition run_apply (base : BaseInitFlags) (intent : Intent) (new_nodes : list string) (allow_replace allow_nightly skip_gate : bool)
    (header : string) (format : OutputFormat) : Cli unit :=
  also eprint ALPHA_BANNER;
  also ask skip_gate (b_yes base);
  do d <- c_lift (build_desired ia5 self_sign base intent new_nodes allow_replace allow_nightly);
  also match d_flux_tls d with
       | Some cert => write_flux_tls_output (b_flux_tls_out_dir base) cert (d_flux_tls_url d)
       | None => c_ret ()
       end;
  also client_warning (b_ssh base);
  also eprintln header;
  also eprintln ("Probing " +:+ show_len (d_hosts d) +:+ " mesh host(s)...");
  do current <- observe base d;
  do p <- c_plan (build_plan sha256_hex d current);
  also announce p;
  do results <- (if plan_is_empty p then c_ret [] else c_apply base d current);
  do verified <- c_hosts (verify (f_ssh_user (b_ssh base)) (f_ssh_port (b_ssh base)) order (d_hosts d) (d_interface d));
  report format results verified.

Definition init_run (cmd : InitCommand) (format : OutputFormat) : Cli unit :=
  match cmd with
  | CmdPlan c => run_plan c format
  | CmdBootstrap base => run_apply base Bootstrap [] false false false "Bootstrapping mesh..." format
  | CmdExtend base new_nodes allow_replace =>
      match new_nodes with
      | [] => c_lift (Err NewNodesRequired)
      | _ => run_apply base Extend new_nodes allow_replace false true "Extending mesh..." format
      end
  | CmdUpgrade base allow_nightly =>
      run_apply base Upgrade [] false allow_nightly true "Upgrading agent binaries..." format
  end.
End Commands.

(* ------------------------------------------------------------------ *)
(** ** The desired mesh *)

(** A name an argument check let through. *)
Lemma word_no_shell n s c : is_word n s = true -> c ∈ shell_chars -> contains_char c s = false.
Proof. intros Hs Hc. eapply all_chars_no_char; [by apply name_char_not_shell|]. by eapply word_chars. Qed.
Lemma label_no_shell s c : is_label s = true -> c ∈ shell_chars -> contains_char c s = false.
Proof. intros Hs Hc. eapply all_chars_no_char; [by apply name_char_not_shell|]. by eapply label_chars. Qed.

Lemma clean_hosts_neat hosts h : h ∈ clean_hosts hosts -> is_empty h = false /\ trim h = h.
Proof.
  unfold clean_hosts. rewrite list_elem_of_filter, list_elem_of_fmap. intros (Hne & x & -> & _).
  split; [done|apply trim_idem].
Qed.

(** Nodes that are distinct and not blank are the hosts of the mesh. *)
Lemma mesh_hosts_spec nodes : forall seen out hosts,
  Forall (fun h => is_empty h = false) nodes -> mesh_hosts_from seen out nodes = Ok hosts ->
  hosts = out ++ nodes /\ NoDup nodes /\ Forall (fun h => h ∉ seen) nodes.
Proof.
  induction nodes as [|node nodes IH]; intros seen out hosts Hne H; cbn [mesh_hosts_from] in H.
  { injection H as <-. rewrite app_nil_r. split_and!; [done|constructor|constructor]. }
  apply Forall_cons in Hne as [Hn Hne]. rewrite Hn in H. case_bool_decide as Hs; [discriminate H|].
  apply IH in H as (-> & Hd & Hout); [|done]. rewrite <- app_assoc. split; [done|].
  rewrite Forall_forall in Hout. split.
  - constructor; [|done]. intros Hin. by apply Hout in Hin; set_solver.
  - constructor; [done|]. apply Forall_forall. intros h Hh. apply Hout in Hh. set_solver.
Qed.

Section DesiredFacts.
Context `{api : Ipv4NetApi} (ia5 : string -> bool) (self_sign : string -> list SanType -> result SelfSignedCert string).

(** The certificate of flux and the address the agents dial. *)
Definition certified (base : BaseInitFlags) (cert : option SelfSignedCert) (url : option string) : Prop :=
  if b_enable_flux_tls base then
    exists h entries c, h ∈ clean_hosts (b_flux_tls_san base) /\ is_localhost_san h = false /\
      san_entries ia5 (clean_hosts (b_flux_tls_san base)) = Ok entries /\
      self_sign "coolify-flux" entries = Ok c /\ cert = Some c /\ url = Some (flux_url h (b_flux_port base))
  else cert = None /\ url = None.

Lemma flux_tls_spec base cert url : flux_tls ia5 self_sign base = Ok (cert, url) -> certified base cert url.
Proof.
  unfold flux_tls, certified. destruct (b_enable_flux_tls base); [|by intros [= <- <-]].
  destruct (List.find _ _) as [h|] eqn:Hf; [|done]. intros H. r_inv H. injection H as <- <-.
  apply find_some in Hf as [Hin Hl%negb_true_iff]. unfold generate_self_signed in Hq. r_inv Hq.
  apply map_err_Ok in Hq. apply list_elem_of_In in Hin. eauto 10.
Qed.

Lemma build_desired_inv base intent new_nodes allow_replace allow_nightly d :
  build_desired ia5 self_sign base intent new_nodes allow_replace allow_nightly = Ok d ->
  validate_namespaces (d_namespaces d) = Ok () /\ validate_interface (d_interface d) = Ok () /\
  validate_version "--coold-version" (d_coold_version d) = Ok () /\
  validate_version "--corrosion-version" (d_corrosion_version d) = Ok () /\
  flux_tls ia5 self_sign base = Ok (d_flux_tls d, d_flux_tls_url d) /\
  d_nodes d = clean_hosts (f_nodes (b_ssh base)) /\ d_nodes d <> [] /\ mesh_hosts (d_nodes d) = Ok (d_hosts d) /\
  d_intent d = intent /\ d_install_podman d = true /\ d_install_coold d = true.
Proof.
  unfold build_desired. intros H. r_inv H. injection H as <-. cbn [d_namespaces d_interface d_coold_version d_corrosion_version
    d_flux_tls d_flux_tls_url d_nodes d_hosts d_intent d_install_podman d_install_coold].
  destruct v0 as [cert url]. apply negb_true_iff, bool_decide_eq_false in Hg. done.
Qed.

(** The mesh the flags ask for is one that planning and applying can take: the
    hosts are the given nodes, each once and none blank, in the order given; the
    namespaces are distinct names; no namespace, interface or version holds a
    character that means something to a shell or a unit file; and with TLS to
    flux, the agents are told to dial a name of the certificate that is not
    local to them. *)
Theorem desired_is_wellformed base intent new_nodes allow_replace allow_nightly d :
  build_desired ia5 self_sign base intent new_nodes allow_replace allow_nightly = Ok d ->
  d_hosts d = clean_hosts (f_nodes (b_ssh base)) /\ d_nodes d = d_hosts d /\ d_hosts d <> [] /\ NoDup (d_hosts d) /\
  d_namespaces d <> [] /\ NoDup (d_namespaces d) /\ "" ∉ d_namespaces d /\
  (forall s c, s ∈ d_interface d :: d_coold_version d :: d_corrosion_version d :: d_namespaces d ->
     c ∈ shell_chars -> contains_char c s = false) /\
  certified base (d_flux_tls d) (d_flux_tls_url d).
Proof.
  intros (Hns & Hi & Hv1 & Hv2 & Hf & Hn & Hne & Hh & _)%build_desired_inv.
  apply validate_namespaces_Ok in Hns as (Hns0 & Hnd & Hl). unfold validate_interface, validate_version in *.
  apply mesh_hosts_spec in Hh as (Hh & Hd & _).
  2: { apply Forall_forall. intros h Hin. rewrite Hn in Hin. by apply clean_hosts_neat in Hin as [? _]. }
  rewrite app_nil_l in Hh. rewrite Hh. split_and!; [done|done|done|done|done|done| | |by apply flux_tls_spec].
  - intros Hin. rewrite Forall_forall in Hl. by apply Hl in Hin.
  - destruct (is_word 14 (d_interface d)) eqn:Ei, (is_word 63 (d_coold_version d)) eqn:E1,
      (is_word 63 (d_corrosion_version d)) eqn:E2; try done.
    intros s c Hs Hc. rewrite !elem_of_cons in Hs. destruct Hs as [->|[->|[->|Hs]]]; eauto using word_no_shell.
    rewrite Forall_forall in Hl. eauto using label_no_shell.
Qed.
End DesiredFacts.

(** *** The name the agents ask for *)

Lemma split_once_str_absent c p s : contains_char c p = true -> contains_char c s = false -> split_once_str p s = None.
Proof.
  intros Hp. assert (forall s, contains_char c s = false -> strip_prefix p s = None) as Hn.
  { intros t Ht. destruct (strip_prefix p t) as [r|] eqn:E; [|done]. apply strip_prefix_Some in E as ->.
    by rewrite contains_char_app, Hp in Ht. }
  induction s as [|a s IH]; intros Hs; cbn [split_once_str]; rewrite Hn by done; [done|].
  cbn in Hs. case_decide; [done|]. by rewrite IH.
Qed.

Lemma until_any_absent cs s : (forall c, c ∈ cs -> contains_char c s = false) -> until_any cs s = s.
Proof.
  induction s as [|a s IH]; intros H; [done|]. cbn [until_any]. rewrite decide_False, IH; [done| |].
  - intros c Hc. specialize (H c Hc). cbn in H. by case_decide.
  - intros Hc. specialize (H a Hc). cbn in H. by rewrite decide_True in H.
Qed.

(** A host name or an IPv4 address: none of the characters that split a URL. *)
Definition plain_host (h : string) : Prop :=
  is_empty h = false /\ trim h = h /\ forall c, c ∈ [":"; "/"; "?"; "#"; "@"]%char -> contains_char c h = false.

Lemma flux_url_domain h port : plain_host h -> flux_tls_domain (flux_url h port) = Some h.
Proof.
  intros (Hne & Htr & Hch). unfold flux_tls_domain, flux_url.
  replace (split_once_str "://" _) with (Some ("https", h +:+ ":" +:+ show_Z port)) by reflexivity.
  assert (forall c, c ∈ ["/"; "?"; "#"; "@"]%char -> contains_char c (h +:+ ":" +:+ show_Z port) = false) as Hrest.
  { intros c Hc. assert (is_digit c = false /\ contains_char c ":" = false /\ contains_char c h = false) as (Hd & Hcol & Hh).
    { apply list_elem_of_In in Hc. repeat destruct Hc as [<-|Hc]; try done; split_and!; (done || apply Hch; set_solver). }
    by rewrite !contains_char_app, Hh, Hcol, (all_chars_no_char is_digit c (show_Z port) Hd (show_Z_chars port)). }
  unfold until_str. rewrite (split_once_str_absent "/") by (try apply Hrest; set_solver || done).
  rewrite until_any_absent by (intros c Hc; apply Hrest; set_solver).
  rewrite (split_single "@") by (apply Hrest; set_solver). cbn [last default from_option id].
  change (":" +:+ show_Z port) with (String ":" (show_Z port)).
  rewrite split_app by (apply Hch; set_solver). cbn [head default from_option id]. by rewrite Htr, Hne.
Qed.

Section Certified.
Context `{api : Ipv4NetApi} (ia5 : string -> bool) (self_sign : string -> list SanType -> result SelfSignedCert string).

Lemma san_entries_has sans : forall entries h, san_entries ia5 sans = Ok entries -> h ∈ sans ->
  match parse_ipaddr h with Some ip => IpAddress ip | None => DnsName h end ∈ entries.
Proof.
  induction sans as [|san sans IH]; intros entries h H Hin; [by apply not_elem_of_nil in Hin|]. cbn [san_entries] in H.
  apply elem_of_cons in Hin as [->|Hin]; destruct (parse_ipaddr san) as [ip|] eqn:Ep.
  - r_inv H. injection H as <-. left.
  - destruct (ia5 san); [|done]. r_inv H. injection H as <-. left.
  - r_inv H. injection H as <-. right. eauto.
  - destruct (ia5 san); [|done]. r_inv H. injection H as <-. right. eauto.
Qed.

(** C27. With TLS to flux, and as long as the names given for its certificate are
    host names or IPv4 addresses (no IPv6 address, none of the characters that
    split a URL), an agent that dials the address in its unit asks the server for a
    name that the certificate made in the same run is issued for, as a DNS name or
    as an IP address as the name requires, and its unit names the file of the pin. *)
Theorem agent_asks_for_certified_name base intent new_nodes allow_replace allow_nightly d :
  build_desired ia5 self_sign base intent new_nodes allow_replace allow_nightly = Ok d -> b_enable_flux_tls base = true ->
  Forall plain_host (clean_hosts (b_flux_tls_san base)) ->
  exists flux name entries cert,
    coold_flux_config d = Some flux /\ fc_tls_pin_path flux = Some "/etc/coolify/flux.pin" /\ d_flux_tls d = Some cert /\
    flux_tls_domain (fc_url flux) = Some name /\ self_sign "coolify-flux" entries = Ok cert /\
    match parse_ipaddr name with Some ip => IpAddress ip | None => DnsName name end ∈ entries.
Proof.
  intros (_ & _ & _ & _ & Hf & _)%build_desired_inv Hon Hplain. apply flux_tls_spec in Hf. unfold certified in Hf. rewrite Hon in Hf.
  destruct Hf as (h & entries & c & Hin & _ & He & Hs & Hc & Hu). unfold coold_flux_config. rewrite Hu.
  eexists _, h, entries, c. split; [done|]. split_and!; [done|done| |done|by eapply san_entries_has].
  apply flux_url_domain. rewrite Forall_forall in Hplain. auto.
Qed.
End Certified.

(** An IPv6 address among the names is written into the address without its
    brackets, and the agents then ask for its first group. *)
Theorem ipv6_san_breaks_url :
  flux_url "fd00::1" 6443 = "https://fd00::1:6443" /\ flux_tls_domain (flux_url "fd00::1" 6443) = Some "fd00" /\
  is_localhost_san "fd00::1" = false.
Proof. done. Qed.

(* ------------------------------------------------------------------ *)
(** ** What a command does to the machines *)

(** How the operator's machine changed, and what was run on which host. *)
Definition grows {W} (L : W -> W -> Prop) (P : string -> string -> Prop) (s s' : CliState W) : Prop :=
  L (cli_local s) (cli_local s') /\
  forall h, exists cmds, log_of (cli_hosts s') h = log_of (cli_hosts s) h ++ cmds /\ Forall (P h) cmds.

#[export] Instance grows_preorder {W} (L : W -> W -> Prop) P `{!PreOrder L} : PreOrder (grows L P).
Proof.
  split.
  - intros s. split; [done|]. intros h. exists []. by rewrite app_nil_r.
  - intros s1 s2 s3 [L12 H12] [L23 H23]. split; [by etransitivity|]. intros h.
    destruct (H12 h) as (c1 & E1 & F1), (H23 h) as (c2 & E2 & F2). exists (c1 ++ c2).
    rewrite E2, E1, <- app_assoc. split; [done|]. by apply Forall_app.
Qed.

Definition c_keeps {W A} (I : CliState W -> CliState W -> Prop) (m : Cli W A) : Prop := forall s, I s (m s).2.

Section Keeps.
Context {W : Type} (L : W -> W -> Prop) `{!PreOrder L} (P : string -> string -> Prop).
Notation I := (grows L P).

Lemma keeps_ret {A} (a : A) : c_keeps I (c_ret a).
Proof. intros s. reflexivity. Qed.
Lemma keeps_lift {A} (r : result A InitError) : c_keeps I (c_lift r).
Proof. intros s. reflexivity. Qed.
Lemma keeps_plan {A} (r : option (result A PlanError)) : c_keeps I (c_plan r).
Proof. intros s. reflexivity. Qed.
Lemma grows_text s o e : I s (mkCli (cli_local s) (cli_hosts s) o e).
Proof. change (I (mkCli (cli_local s) (cli_hosts s) (cli_out s) (cli_err s)) (mkCli (cli_local s) (cli_hosts s) o e)). split; [done|]. intros h. exists []. by rewrite app_nil_r. Qed.
Lemma keeps_eprint t : c_keeps I (eprint t).
Proof. intros s. apply grows_text. Qed.
Lemma keeps_print t : c_keeps I (print t).
Proof. intros s. apply grows_text. Qed.
Lemma keeps_bind {A B} (m : Cli W A) (k : A -> Cli W B) :
  c_keeps I m -> (forall a s s', m s = (Some (Ok a), s') -> c_keeps I (k a)) -> c_keeps I (c_bind m k).
Proof.
  intros Hm Hk s. unfold c_bind. specialize (Hm s). destruct (m s) as [[[a|e]|] s'] eqn:E; cbn in *; [|done|done].
  etransitivity; [exact Hm|]. by eapply Hk.
Qed.
Lemma keeps_io {A} (m : Io W A) : preserves L m -> c_keeps I (c_io m).
Proof.
  intros Hm s. unfold c_io. specialize (Hm (cli_local s)). destruct (m (cli_local s)) as [r w]. split; [done|].
  intros h. exists []. by rewrite app_nil_r.
Qed.
Lemma keeps_hosts {A} (m : World -> World * option A) :
  (forall w h, exists cmds, log_of (m w).1 h = log_of w h ++ cmds /\ Forall (P h) cmds) -> c_keeps I (c_hosts m).
Proof.
  intros Hm s. unfold c_hosts. specialize (Hm (cli_hosts s)). destruct (m (cli_hosts s)) as [w r]. by split.
Qed.
End Keeps.

Create HintDb cli.
#[export] Hint Resolve keeps_ret keeps_lift keeps_plan keeps_eprint keeps_print : cli.
Ltac cli_keeps :=
  repeat first
    [ solve [auto 2 with cli]
    | apply (keeps_bind _); [|intros ? ? ? ?]
    | match goal with
      | |- c_keeps _ (match ?x with _ => _ end) => destruct x
      end ].

Lemma c_bind_Ok {W A B} (m : Cli W A) (k : A -> Cli W B) s b s' :
  c_bind m k s = (Some (Ok b), s') -> exists a s1, m s = (Some (Ok a), s1) /\ k a s1 = (Some (Ok b), s').
Proof. unfold c_bind. destruct (m s) as [[[a|e]|] s1]; [|done|done]. eauto. Qed.

(** A state with the same machines. *)
Definition same_machines {W} (s s' : CliState W) : Prop := cli_local s' = cli_local s /\ cli_hosts s' = cli_hosts s.
#[export] Instance same_machines_preorder {W} : PreOrder (@same_machines W).
Proof. split; [done|]. intros s1 s2 s3 [A B] [C D]. split; congruence. Qed.

(** Only prints. *)
Definition prints {W A} (m : Cli W A) : Prop := forall s, same_machines s (m s).2.
Lemma prints_bind {W A B} (m : Cli W A) (k : A -> Cli W B) : prints m -> (forall a, prints (k a)) -> prints (c_bind m k).
Proof.
  intros Hm Hk s. unfold c_bind. specialize (Hm s). destruct (m s) as [[[a|e]|] s']; [|done|done].
  etransitivity; [exact Hm|]. apply Hk.
Qed.
Lemma prints_at {W A} (m : Cli W A) s r s' : prints m -> m s = (r, s') -> same_machines s s'.
Proof. intros Hm E. specialize (Hm s). by rewrite E in Hm. Qed.
Ltac prints := repeat first
  [ solve [intros ?; done] | apply prints_bind; [|intros] | match goal with |- prints (match ?x with _ => _ end) => destruct x end ].

Section CommandFacts.
Context `{api : Ipv4NetApi} (ia5 : string -> bool) (self_sign : string -> list SanType -> result SelfSignedCert string).
Context (sha256_hex : string -> string) (b64_decode : string -> option string) `{rn : Runner} (order : list string -> list string).
Context {W : Type} `{!Host W} (files : W -> gmap string File) `{!HostLaws W files}.
Context (to_string to_string_pretty : json -> string) (env : string -> option string).

Section Keep.
Context (L : W -> W -> Prop) `{!PreOrder L} (P : string -> string -> Prop).
Notation I := (grows L P).

Lemma keeps_output_print f v : c_keeps I (output_print (W := W) to_string to_string_pretty f v).
Proof. destruct f; apply keeps_print, _. Qed.
Lemma keeps_output_table hs rows : c_keeps I (output_table (W := W) hs rows).
Proof. apply keeps_print, _. Qed.
Lemma keeps_eprintln t : c_keeps I (eprintln (W := W) t).
Proof. apply keeps_eprint, _. Qed.
Lemma keeps_println t : c_keeps I (println (W := W) t).
Proof. apply keeps_print, _. Qed.
#[local] Hint Resolve keeps_output_print keeps_output_table keeps_eprintln keeps_println : cli.

Lemma keeps_client f : c_keeps I (client_warning (W := W) f).
Proof. unfold client_warning. cli_keeps. Qed.
Lemma keeps_render f d p : c_keeps I (render_plan (W := W) to_string to_string_pretty f d p).
Proof. unfold render_plan. cli_keeps. Qed.
Lemma keeps_report f r v : c_keeps I (report (W := W) to_string to_string_pretty f r v).
Proof. unfold report. cli_keeps. Qed.
Lemma keeps_ask g y : c_keeps I (ask (W := W) env g y).
Proof. unfold ask. cli_keeps. Qed.
Lemma keeps_announce p : c_keeps I (announce (W := W) p).
Proof. unfold announce. cli_keeps. Qed.

Lemma keeps_observe base d :
  (forall h, P h (probe_script (d_interface d) (d_namespaces d))) -> c_keeps I (observe (W := W) b64_decode order base d).
Proof.
  intros HP. unfold observe. apply keeps_bind; [done| |intros rs s s' _].
  - apply keeps_hosts; [done|]. apply for_each_extends. intros h hist. eexists. split; [reflexivity|]. by repeat constructor.
  - cli_keeps.
Qed.
End Keep.
#[local] Hint Resolve keeps_client keeps_render keeps_report keeps_ask keeps_announce keeps_eprintln : cli.

(** [init plan] looks and does not touch: on the operator's machine nothing
    changes, and on a host nothing is run but the probe. *)
Theorem plan_changes_nothing c format s :
  let s' := (run_plan ia5 self_sign sha256_hex b64_decode order (W := W) to_string to_string_pretty c format s).2 in
  cli_local s' = cli_local s /\
  forall h, exists cmds, log_of (cli_hosts s') h = log_of (cli_hosts s) h ++ cmds /\
    Forall (fun cmd => cmd = probe_script (b_wg_interface (pc_base c)) (mf_namespaces (b_mesh (pc_base c)))) cmds.
Proof.
  intros s'. assert (grows (fun w w' => w' = w) (fun _ cmd =>
    cmd = probe_script (b_wg_interface (pc_base c)) (mf_namespaces (b_mesh (pc_base c)))) s s') as H; [|exact H].
  assert (PreOrder (fun w w' : W => w' = w)) by (split; [done|congruence]).
  revert s'. cbn. revert s. change (c_keeps (grows (fun w w' : W => w' = w) (fun _ cmd =>
    cmd = probe_script (b_wg_interface (pc_base c)) (mf_namespaces (b_mesh (pc_base c)))))
    (run_plan ia5 self_sign sha256_hex b64_decode order to_string to_string_pretty c format)).
  unfold run_plan. apply keeps_bind; [done|auto with cli|intros _ _ _ _]. apply keeps_bind; [done|auto with cli|intros d s1 s2 Hd].
  unfold c_lift in Hd. injection Hd as Hd _.
  assert (d_interface d = b_wg_interface (pc_base c) /\ d_namespaces d = mf_namespaces (b_mesh (pc_base c))) as [Hi Hn].
  { unfold build_desired in Hd. r_inv Hd. by injection Hd as <-. }
  repeat first [solve [auto with cli] | apply keeps_observe; [done|]; intros h; by rewrite Hi, Hn | apply keeps_bind; [done| |intros ? ? ? _]].
Qed.

(** *** Applying *)

(** The commands a run of [run_apply] may send to a host, for a desired mesh:
    the probe, the two that verify, and those of a plan. *)
Definition sent (d : DesiredMesh) (h cmd : string) : Prop :=
  cmd = probe_script (d_interface d) (d_namespaces d) \/
  cmd = addr_command (d_interface d) \/ cmd = dump_command (d_interface d) \/
  exists current p, build_plan sha256_hex d current = Some (Ok p) /\ authorized d p h cmd.

Lemma keeps_write_output L `{!PreOrder L} P dir cert url :
  preserves L (write_flux_tls_files dir cert) -> c_keeps (grows L P) (write_flux_tls_output (W := W) dir cert url).
Proof.
  intros Hw. unfold write_flux_tls_output. apply keeps_bind; [done|by apply keeps_io|intros _ _ _ _]. by apply keeps_eprintln.
Qed.

Definition local_files (base : BaseInitFlags) : list string :=
  [path_join (b_flux_tls_out_dir base) "cert.pem"; path_join (b_flux_tls_out_dir base) "key.pem"].

Lemma write_files_preserves base cert :
  preserves (same_but files (local_files base)) (write_flux_tls_files (W := W) (b_flux_tls_out_dir base) cert).
Proof.
  assert (forall c A (m : Io W A), (forall w, exists ps, ps ⊆ local_files base /\ same_but files ps w (m w).2) ->
    preserves (same_but files (local_files base)) (with_context c m)) as Hstep.
  { intros c A m Hm. apply preserves_with_context. intros w. destruct (Hm w) as (ps & Hps & Hs). by eapply same_but_weaken. }
  unfold write_flux_tls_files. apply (preserves_bind _); [apply Hstep|intros _; apply (preserves_bind _); [apply Hstep|intros _;
    apply (preserves_bind _); [apply Hstep|intros _; apply Hstep]]]; intros w.
  - exists []. split; [set_solver|apply law_mkdir].
  - eexists [_]. split; [|apply law_write]. unfold local_files. set_solver.
  - eexists [_]. split; [|apply law_write]. unfold local_files. set_solver.
  - eexists [_]. split; [|apply law_set_mode]. unfold local_files. set_solver.
Qed.

Lemma run_apply_sends base intent new_nodes allow_replace allow_nightly skip_gate header format s :
  grows (same_but files (local_files base))
    (fun h cmd => exists d, build_desired ia5 self_sign base intent new_nodes allow_replace allow_nightly = Ok d /\ sent d h cmd)
    s (run_apply ia5 self_sign sha256_hex b64_decode order (W := W) to_string to_string_pretty env
         base intent new_nodes allow_replace allow_nightly skip_gate header format s).2.
Proof.
  assert (PreOrder (same_but files (local_files base))) by apply _.
  set (P := fun h cmd => exists d, _ /\ sent d h cmd). revert s.
  change (c_keeps (grows (same_but files (local_files base)) P) (run_apply ia5 self_sign sha256_hex b64_decode order (W := W) to_string
    to_string_pretty env base intent new_nodes allow_replace allow_nightly skip_gate header format)).
  unfold run_apply. apply keeps_bind; [apply _|auto with cli|intros _ _ _ _]. apply keeps_bind; [apply _|auto with cli|intros _ _ _ _].
  apply keeps_bind; [apply _|auto with cli|intros d s1 s2 Hd]. unfold c_lift in Hd. injection Hd as Hd _.
  apply keeps_bind; [apply _| |intros _ _ _ _].
  { destruct (d_flux_tls d); [|auto with cli]. apply keeps_write_output; [apply _|apply write_files_preserves]. }
  do 3 (apply keeps_bind; [apply _|auto with cli|intros _ _ _ _]).
  apply keeps_bind; [apply _| |intros current s3 s4 _].
  { apply keeps_observe; [apply _|]. intros h. exists d. unfold sent. auto. }
  apply keeps_bind; [apply _|auto with cli|intros p s5 s6 Hp].
  assert (build_plan sha256_hex d current = Some (Ok p)) as Hb.
  { unfold c_plan in Hp. destruct (build_plan sha256_hex d current) as [[q|e]|]; [|done|done]. by injection Hp as -> _. }
  apply keeps_bind; [apply _|auto with cli|intros _ _ _ _]. apply keeps_bind; [apply _| |intros results _ _ _].
  { destruct (plan_is_empty p); [auto with cli|]. intros s. unfold c_apply.
    pose proof (fun h => apply_mesh_allowed sha256_hex b64_decode (f_ssh_user (b_ssh base)) (f_ssh_port (b_ssh base)) order d current p
                  (cli_hosts s) h Hb) as Ha.
    destruct (apply_mesh _ _ _ _ _ _ _ _) as [w r]. split; [done|]. intros h. destruct (Ha h) as (cmds & E & F). exists cmds.
    split; [done|]. eapply Forall_impl; [done|]. intros cmd [->|Hc]; exists d; split; unfold sent; eauto 8. }
  apply keeps_bind; [apply _| |auto with cli]. apply keeps_hosts; [apply _|]. intros w h. unfold verify.
  pose proof (for_each_extends P (verify_host (f_ssh_user (b_ssh base)) (f_ssh_port (b_ssh base)) (d_interface d))
    (order (d_hosts d))) as Hv. ospecialize (Hv _ w h).
  { intros h' hist. unfold verify_host. destruct (run _ _ _ _ _) as [o|e]; eexists; (split; [rewrite <- ?app_assoc; reflexivity|]);
      repeat constructor; exists d; split; unfold sent; auto. }
  by destruct (for_each_server _ _ w).
Qed.

Lemma build_plan_filtered d current p :
  build_plan sha256_hex d current = Some (Ok p) -> exists p0, p = filter_by_intent p0 d.
Proof.
  unfold build_plan. destruct (check_request d current); [|done]. destruct (allocate_mgmt_ips _ _ _) as [[[mgmt ws]|e]|]; [|done|done].
  destruct (allocate_namespaced _ _ _ _ _) as [[[subnets ws']|e]|]; [|done|done]. destruct (mapM _ _); [|done]. intros [= <-]. eauto.
Qed.

(** The commands that install the agent's programs and their services. *)
Definition installs (d : DesiredMesh) (cmd : string) : Prop :=
  cmd = corrosion_install_command (d_corrosion_version d) (d_corrosion_sha256 d) \/
  cmd = coold_install_command (d_coold_version d) (d_coold_sha256 d) \/
  cmd = corrosion_service_command d \/ exists ip nss, cmd = coold_service_command d ip nss.

(** C12. [init upgrade] upgrades: whatever the mesh looks like, every command it
    sends looks (the probe and the checks at the end) or installs one of the two
    programs or its service; keys, networks, firewall, WireGuard, the corrosion
    configuration and the schema are left as they are. *)
Theorem upgrade_only_installs base allow_nightly format s h :
  let s' := (init_run ia5 self_sign sha256_hex b64_decode order (W := W) to_string to_string_pretty env
               (CmdUpgrade base allow_nightly) format s).2 in
  exists cmds, log_of (cli_hosts s') h = log_of (cli_hosts s) h ++ cmds /\
    Forall (fun cmd => exists d, build_desired ia5 self_sign base Upgrade [] false allow_nightly = Ok d /\
      (cmd ∈ [probe_script (d_interface d) (d_namespaces d); addr_command (d_interface d); dump_command (d_interface d)] \/
       installs d cmd)) cmds.
Proof.
  intros s'. destruct (proj2 (run_apply_sends base Upgrade [] false allow_nightly true "Upgrading agent binaries..." format s) h)
    as (cmds & E & F). exists cmds. split; [exact E|]. eapply Forall_impl; [exact F|].
  intros cmd (d & Hd & Hs). exists d. split; [done|].
  destruct Hs as [->|[->|[->|(current & p & Hp & a & ns & Ha & <- & _ & Hc)]]]; [set_solver..|]. right.
  apply build_plan_filtered in Hp as [p0 ->]. apply kept_by_intent in Ha.
  apply build_desired_inv in Hd as (_ & _ & _ & _ & _ & _ & _ & _ & Hint & _). rewrite Hint in Ha.
  unfold installs. apply list_elem_of_In in Ha. destruct Ha as [E1|[E1|[E1|[E1|[]]]]]; rewrite <- E1 in Hc; cbn in Hc; auto.
Qed.

(** *** A run that succeeds *)

Lemma prints_report f r v : prints (report (W := W) to_string to_string_pretty f r v).
Proof. unfold report, output_print. prints. Qed.
Lemma prints_announce p : prints (announce (W := W) p).
Proof. unfold announce. prints. Qed.

Lemma observe_Ok base d s current s' :
  observe (W := W) b64_decode order base d s = (Some (Ok current), s') ->
  cli_local s' = cli_local s /\
  reconstruct b64_decode (f_ssh_user (b_ssh base)) (f_ssh_port (b_ssh base)) order (d_hosts d) (d_interface d) (d_namespaces d)
    (cli_hosts s) = (cli_hosts s', Some current).
Proof.
  unfold observe. intros H. apply c_bind_Ok in H as (rs & s1 & H1 & H). apply c_bind_Ok in H as ([] & s2 & H2 & H).
  unfold c_ret in H. injection H as <- <-. unfold c_hosts in H1. unfold reconstruct.
  destruct (for_each_server _ _ (cli_hosts s)) as [w r]. injection H1 as Hr <-. destruct r as [r|]; [|done]. cbn in Hr. injection Hr as ->.
  assert (same_machines (mkCli (cli_local s) w (cli_out s) (cli_err s)) s2) as [A B].
  { eapply prints_at, H2. destruct (probe_errors rs); intros ?; done. }
  cbn in A, B. by rewrite B.
Qed.

Lemma run_apply_Ok base intent new_nodes allow_replace allow_nightly skip_gate header format s s' :
  run_apply ia5 self_sign sha256_hex b64_decode order (W := W) to_string to_string_pretty env
    base intent new_nodes allow_replace allow_nightly skip_gate header format s = (Some (Ok ()), s') ->
  exists d w1 current p results w2 verified,
    build_desired ia5 self_sign base intent new_nodes allow_replace allow_nightly = Ok d /\
    match d_flux_tls d with
    | Some cert => write_flux_tls_files (b_flux_tls_out_dir base) cert (cli_local s) = (Ok (), cli_local s')
    | None => cli_local s' = cli_local s
    end /\
    reconstruct b64_decode (f_ssh_user (b_ssh base)) (f_ssh_port (b_ssh base)) order (d_hosts d) (d_interface d) (d_namespaces d)
      (cli_hosts s) = (w1, Some current) /\
    build_plan sha256_hex d current = Some (Ok p) /\
    (if plan_is_empty p then w2 = w1
     else apply_mesh sha256_hex b64_decode (f_ssh_user (b_ssh base)) (f_ssh_port (b_ssh base)) order d current w1 = (w2, Some (Ok results))) /\
    verify (f_ssh_user (b_ssh base)) (f_ssh_port (b_ssh base)) order (d_hosts d) (d_interface d) w2 = (cli_hosts s', Some verified).
Proof.
  unfold run_apply. intros H.
  apply c_bind_Ok in H as ([] & s1 & H1 & H). apply prints_at in H1 as [L1 W1]; [|by intros ?].
  apply c_bind_Ok in H as ([] & s2 & H2 & H). apply prints_at in H2 as [L2 W2]; [|unfold ask; prints].
  apply c_bind_Ok in H as (d & s3 & H3 & H). unfold c_lift in H3. injection H3 as Hd <-.
  apply c_bind_Ok in H as ([] & s4 & H4 & H).
  apply c_bind_Ok in H as ([] & s5 & H5 & H). apply prints_at in H5 as [L5 W5]; [|unfold client_warning; prints].
  apply c_bind_Ok in H as ([] & s6 & H6 & H). apply prints_at in H6 as [L6 W6]; [|by intros ?].
  apply c_bind_Ok in H as ([] & s7 & H7 & H). apply prints_at in H7 as [L7 W7]; [|by intros ?].
  apply c_bind_Ok in H as (current & s8 & H8 & H). apply observe_Ok in H8 as [L8 W8].
  apply c_bind_Ok in H as (p & s9 & H9 & H). unfold c_plan in H9.
  destruct (build_plan sha256_hex d current) as [[q|e]|] eqn:Hb; try discriminate H9. injection H9 as -> <-.
  apply c_bind_Ok in H as ([] & s10 & H10 & H). apply prints_at in H10 as [L10 W10]; [|apply prints_announce].
  apply c_bind_Ok in H as (results & s11 & H11 & H). apply c_bind_Ok in H as (verified & s12 & H12 & H).
  apply prints_at in H as [L13 W13]; [|apply prints_report].
  unfold c_hosts in H12. destruct (verify _ _ _ _ _ _) as [w v] eqn:Hv. injection H12 as Hr <-. destruct v as [v|]; [|done].
  injection Hr as ->. cbn in L13, W13.
  assert (cli_hosts s4 = cli_hosts s /\
    match d_flux_tls d with
    | Some cert => write_flux_tls_files (b_flux_tls_out_dir base) cert (cli_local s) = (Ok (), cli_local s4)
    | None => cli_local s4 = cli_local s
    end) as [W4 L4].
  { destruct (d_flux_tls d) as [cert|]; [|unfold c_ret in H4; injection H4 as <-; split; congruence].
    unfold write_flux_tls_output in H4. apply c_bind_Ok in H4 as ([] & s4' & H4 & E4). apply prints_at in E4 as [LE WE]; [|by intros ?].
    unfold c_io in H4. destruct (write_flux_tls_files _ _ _) as [r w0] eqn:Hw. injection H4 as Hr <-. cbn in LE, WE.
    destruct r as [[]|]; [|done]. split; [congruence|]. rewrite L2, L1 in Hw. by rewrite Hw, LE. }
  assert (if plan_is_empty p then cli_hosts s11 = cli_hosts s10 /\ cli_local s11 = cli_local s10
          else apply_mesh sha256_hex b64_decode (f_ssh_user (b_ssh base)) (f_ssh_port (b_ssh base)) order d current (cli_hosts s10)
                 = (cli_hosts s11, Some (Ok results)) /\ cli_local s11 = cli_local s10) as Ha.
  { destruct (plan_is_empty p); [unfold c_ret in H11; by injection H11 as _ <-|]. unfold c_apply in H11.
    destruct (apply_mesh _ _ _ _ _ _ _ _) as [w' r] eqn:Eap. injection H11 as Hr <-. destruct r as [[r|e]|]; try done. by injection Hr as ->. }
  rewrite W7, W6, W5, W4 in W8.
  exists d, (cli_hosts s8), current, p, results, (cli_hosts s11), verified.
  assert (cli_local s' = cli_local s4) as Hl by (destruct (plan_is_empty p); destruct Ha as [_ Ha]; congruence).
  split; [done|]. split; [by rewrite Hl|]. split; [done|]. split; [done|]. rewrite W13. split; [|exact Hv].
  destruct (plan_is_empty p); destruct Ha as [Ha _]; congruence.
Qed.

Lemma verify_appends user port hosts iface w w' r h :
  verify user port order hosts iface w = (w', r) ->
  exists cmds, log_of w' h = log_of w h ++ cmds /\ Forall (fun cmd => cmd ∈ [addr_command iface; dump_command iface]) cmds.
Proof.
  unfold verify. pose proof (for_each_extends (fun _ cmd => cmd ∈ [addr_command iface; dump_command iface])
    (verify_host user port iface) (order hosts)) as Hv. ospecialize (Hv _ w h).
  { intros h' hist. unfold verify_host. destruct (run _ _ _ _ _); eexists; (split; [rewrite <- ?app_assoc; reflexivity|]);
      repeat constructor. }
  destruct (for_each_server _ _ w) as [w2 rs]. intros [= <- _]. exact Hv.
Qed.

(** C11. A command that reports success has done what it planned: from what the
    probes found, a plan was made, and each of its actions (peers, and starting
    or reloading WireGuard, apart) was carried out on its host by a command that
    was answered with success. *)
Theorem success_means_carried_out (order_perm : forall l, order l ≡ₚ l)
    base intent new_nodes allow_replace allow_nightly skip_gate header format s s' :
  run_apply ia5 self_sign sha256_hex b64_decode order (W := W) to_string to_string_pretty env
    base intent new_nodes allow_replace allow_nightly skip_gate header format s = (Some (Ok ()), s') ->
  exists d w1 current p,
    build_desired ia5 self_sign base intent new_nodes allow_replace allow_nightly = Ok d /\
    reconstruct b64_decode (f_ssh_user (b_ssh base)) (f_ssh_port (b_ssh base)) order (d_hosts d) (d_interface d) (d_namespaces d)
      (cli_hosts s) = (w1, Some current) /\
    build_plan sha256_hex d current = Some (Ok p) /\
    forall a, a ∈ pl_actions p -> a_type a ∉ [AddPeer; RemovePeer; EnableService; ReloadService] ->
      exists hist cmd o, run (a_host a) (f_ssh_user (b_ssh base)) (f_ssh_port (b_ssh base)) hist cmd = Ok o /\
        carries_out d (a_host a) (a_type a) (a_namespace a) cmd /\ hist ++ [cmd] `prefix_of` log_of (cli_hosts s') (a_host a).
Proof.
  intros (d & w1 & current & p & results & w2 & verified & Hd & _ & Hr & Hb & Ha & Hv)%run_apply_Ok.
  exists d, w1, current, p. split; [done|]. split; [done|]. split; [done|]. intros a Hin Ht.
  destruct (plan_is_empty p) eqn:Ep. { unfold plan_is_empty in Ep. destruct (pl_actions p); [|done]. by apply not_elem_of_nil in Hin. }
  apply build_desired_inv in Hd as (Hns & _). apply validate_namespaces_Ok in Hns as (_ & _ & Hl).
  assert ("" ∉ d_namespaces d) as Hne by (intros Hx; rewrite Forall_forall in Hl; by apply Hl in Hx).
  destruct (apply_carries_out _ _ _ _ _ order_perm _ _ _ _ _ _ _ Hne Hb Ha Hin Ht) as [(hist & cmd & o & Hrun & Hc & Hp) _].
  exists hist, cmd, o. split; [done|]. split; [done|]. destruct (verify_appends _ _ _ _ _ _ _ (a_host a) Hv) as (cmds & -> & _).
  etransitivity; [exact Hp|]. by exists cmds.
Qed.

(** *** Certificates are made anew on every run *)

(** The same request, with other certificates. *)
Definition recertified (d : DesiredMesh) (gossip flux : option SelfSignedCert) : DesiredMesh :=
  mkDesired (d_hosts d) (d_nodes d) (d_interface d) (d_mgmt_pool d) (d_container_pool d) (d_container_prefix d) (d_listen_port d)
    (d_listen_port_overrides d) (d_endpoint_overrides d) (d_install_podman d) (d_namespaces d) (d_default_deny_containers d)
    (d_install_coold d) (d_coold_version d) (d_corrosion_version d) (d_corrosion_gossip_port d) (d_corrosion_api_port d)
    (d_coold_sha256 d) (d_corrosion_sha256 d) gossip flux (d_flux_tls_url d) (d_intent d) (d_new_nodes d) (d_allow_replace d)
    (d_allow_nightly d).

(** A plan does not see which certificates there are. *)
Lemma split_actions_recertified d gossip flux nodes l :
  split_actions (recertified d gossip flux) nodes l = split_actions d nodes l.
Proof. induction l as [|a l IH]; [done|]. cbn [split_actions]. by rewrite IH. Qed.
Lemma check_nft_recertified d gossip flux current nodes :
  check_nft (recertified d gossip flux) current nodes = check_nft d current nodes.
Proof. induction nodes as [|h nodes IH]; [done|]. cbn [check_nft]. by rewrite IH. Qed.
Lemma host_actions_recertified d gossip flux current mgmt subnets :
  bool_decide (is_Some gossip) = bool_decide (is_Some (d_corrosion_gossip_tls d)) ->
  host_actions sha256_hex (recertified d gossip flux) current mgmt subnets = host_actions sha256_hex d current mgmt subnets.
Proof. destruct d as [? ? ? ? ? ? ? ? ? ? ? ? ? ? ? ? ? ? ? [g|] ? ? ? ? ? ?], gossip; intros H; try discriminate H; reflexivity. Qed.
Lemma plan_ignores_certificates d current gossip flux :
  bool_decide (is_Some gossip) = bool_decide (is_Some (d_corrosion_gossip_tls d)) ->
  build_plan sha256_hex (recertified d gossip flux) current = build_plan sha256_hex d current.
Proof.
  intros Hg. unfold build_plan.
  replace (check_request (recertified d gossip flux) current) with (check_request d current)
    by (unfold check_request; by rewrite <- (check_nft_recertified d gossip flux)).
  cbn [recertified d_mgmt_pool d_container_pool d_container_prefix d_namespaces d_nodes d_hosts].
  destruct (check_request d current); [|done]. destruct (allocate_mgmt_ips _ _ _) as [[[mgmt ws]|e]|]; [|done|done].
  destruct (allocate_namespaced _ _ _ _ _) as [[[subnets ws']|e]|]; [|done|done].
  rewrite (host_actions_recertified d gossip flux current mgmt subnets Hg). destruct (mapM _ _) as [acts|]; [|done].
  unfold filter_by_intent. by rewrite split_actions_recertified.
Qed.

Lemma cert_key_paths dir : path_join dir "cert.pem" <> path_join dir "key.pem".
Proof.
  unfold path_join. cbn [is_absolute]. destruct (is_empty dir); [done|]. destruct (ends_with "/" dir); intros E.
  - by apply string_app_inv_head in E.
  - by apply string_app_inv_head in E.
Qed.

Lemma write_files_cert dir cert w w' : write_flux_tls_files (W := W) dir cert w = (Ok (), w') ->
  exists m, files w' !! path_join dir "cert.pem" = Some (mkFile (cert_pem cert) m).
Proof.
  unfold write_flux_tls_files. intros H. io_inv H. apply law_write_Ok in Hs0 as [m Hm]. exists m. pose proof (cert_key_paths dir) as Hne.
  pose proof (law_write (path_join dir "key.pem") (key_pem cert) w1 (path_join dir "cert.pem") ltac:(set_solver)) as H1.
  pose proof (law_set_mode (path_join dir "key.pem") 384 w2 (path_join dir "cert.pem") ltac:(set_solver)) as H2.
  rewrite H in H2. rewrite Hs1 in H1. cbn in H1, H2. congruence.
Qed.

(** A certificate is made on every run, and only a run that has something else to
    change on a host brings it there.  On a mesh that an earlier run settled, the
    next run leaves a new certificate (for flux) beside the operator while every
    host keeps the old pin: all it was sent was the probe and the checks. *)
Theorem renewed_certificate_stays_home base intent new_nodes allow_replace allow_nightly skip_gate header format s s'
    d cert w1 current gossip old p :
  run_apply ia5 self_sign sha256_hex b64_decode order (W := W) to_string to_string_pretty env
    base intent new_nodes allow_replace allow_nightly skip_gate header format s = (Some (Ok ()), s') ->
  build_desired ia5 self_sign base intent new_nodes allow_replace allow_nightly = Ok d -> d_flux_tls d = Some cert ->
  reconstruct b64_decode (f_ssh_user (b_ssh base)) (f_ssh_port (b_ssh base)) order (d_hosts d) (d_interface d) (d_namespaces d)
    (cli_hosts s) = (w1, Some current) ->
  bool_decide (is_Some gossip) = bool_decide (is_Some (d_corrosion_gossip_tls d)) ->
  build_plan sha256_hex (recertified d gossip old) current = Some (Ok p) -> plan_is_empty p = true ->
  (exists m, files (cli_local s') !! path_join (b_flux_tls_out_dir base) "cert.pem" = Some (mkFile (cert_pem cert) m)) /\
  forall h, exists cmds, log_of (cli_hosts s') h = log_of (cli_hosts s) h ++ cmds /\
    Forall (fun cmd => cmd ∈ [probe_script (d_interface d) (d_namespaces d); addr_command (d_interface d); dump_command (d_interface d)]) cmds.
Proof.
  intros (d' & w1' & current' & p' & results & w2 & verified & Hd & Hl & Hr & Hb & Ha & Hv)%run_apply_Ok Hd' Hc Hr' Hg Hp He.
  assert (d' = d) as -> by congruence. assert (current' = current /\ w1' = w1) as [-> ->] by (split; congruence).
  rewrite plan_ignores_certificates in Hp by done. assert (p' = p) as -> by congruence. rewrite He in Ha. subst w2. rewrite Hc in Hl.
  split; [by eapply write_files_cert|]. intros h. destruct (verify_appends _ _ _ _ _ _ _ h Hv) as (c2 & -> & F2).
  unfold reconstruct in Hr.
  destruct (for_each_extends (fun _ cmd => cmd = probe_script (d_interface d) (d_namespaces d))
    (probe b64_decode (f_ssh_user (b_ssh base)) (f_ssh_port (b_ssh base)) (d_interface d) (d_namespaces d)) (order (d_hosts d))
    ltac:(intros ? ?; eexists; split; [reflexivity|by repeat constructor]) (cli_hosts s) h) as (c1 & E1 & F1).
  destruct (for_each_server _ _ (cli_hosts s)) as [w rs]. injection Hr as -> _. cbn [fst] in E1. rewrite E1, <- app_assoc.
  exists (c1 ++ c2). split; [done|]. apply Forall_app. split; (eapply Forall_impl; [eassumption|]); intros cmd; set_solver.
Qed.
End CommandFacts.

(* ------------------------------------------------------------------ *)
(** ** Confirmation *)

(** Two states that differ at most in what stderr has shown. *)
Definition quiet {W} (s t : CliState W) : Prop :=
  cli_local s = cli_local t /\ cli_hosts s = cli_hosts t /\ cli_out s = cli_out t.
#[export] Instance quiet_equiv {W} : Equivalence (@quiet W).
Proof. split; [done|by intros ? ? (? & ? & ?)|]. intros s t u (A & B & C) (D & E & F). split_and!; congruence. Qed.

(** A command does not look at stderr. *)
Notation deaf m := (Proper (quiet ==> prod_relation eq quiet) m).

#[export] Instance deaf_ret {W A} (a : A) : deaf (c_ret (W := W) a).
Proof. done. Qed.
#[export] Instance deaf_lift {W A} (r : result A InitError) : deaf (c_lift (W := W) r).
Proof. done. Qed.
#[export] Instance deaf_plan {W A} (r : option (result A PlanError)) : deaf (c_plan (W := W) r).
Proof. done. Qed.
#[export] Instance deaf_eprint {W} t : deaf (eprint (W := W) t).
Proof. intros s s' (A & B & C). by split. Qed.
#[export] Instance deaf_print {W} t : deaf (print (W := W) t).
Proof. intros s s' (A & B & C). split; [done|]. split_and!; [done|done|]. cbn. by rewrite C. Qed.
Lemma deaf_bind {W A B} (m : Cli W A) (k : A -> Cli W B) : deaf m -> (forall a, deaf (k a)) -> deaf (c_bind m k).
Proof.
  intros Hm Hk s s' Hs. unfold c_bind. destruct (Hm s s' Hs) as [E Q].
  destruct (m s) as [r t], (m s') as [r' t']. cbn in E, Q. subst r'. destruct r as [[a|e]|]; [|done|done]. by apply Hk.
Qed.
#[export] Instance deaf_io {W A} (m : Io W A) : deaf (c_io m).
Proof.
  intros s s' (H1 & H2 & H3). unfold c_io. rewrite H1. destruct (m (cli_local s')) as [r w]. split; [done|]. by split_and!.
Qed.
#[export] Instance deaf_hosts {W A} (m : World -> World * option A) : deaf (c_hosts (W := W) m).
Proof.
  intros s s' (H1 & H2 & H3). unfold c_hosts. rewrite H2. destruct (m (cli_hosts s')) as [h r]. split; [done|]. by split_and!.
Qed.

Ltac deaf := repeat first
  [ apply _ | apply deaf_bind; [|intros] | match goal with |- deaf (match ?x with _ => _ end) => destruct x end ].

Definition with_yes (yes : bool) (b : BaseInitFlags) : BaseInitFlags :=
  mkBase (b_ssh b) (b_mesh b) (b_wg_mgmt_pool b) (b_wg_interface b) (b_wg_listen_port b) (b_wg_listen_port_overrides b)
    (b_wg_endpoint_overrides b) (b_skip_default_deny b) (b_coold_version b) (b_corrosion_version b) (b_corrosion_gossip_port b)
    (b_corrosion_api_port b) (b_coold_sha256 b) (b_corrosion_sha256 b) (b_enable_corrosion_gossip_tls b) (b_enable_flux_tls b)
    (b_flux_tls_san b) (b_flux_port b) (b_flux_tls_out_dir b) yes.

Section Confirmation.
Context `{api : Ipv4NetApi} (ia5 : string -> bool) (self_sign : string -> list SanType -> result SelfSignedCert string).
Context (sha256_hex : string -> string) (b64_decode : string -> option string) `{rn : Runner} (order : list string -> list string).
Context {W : Type} `{!Host W} (to_string to_string_pretty : json -> string).

#[local] Instance deaf_apply base d current : deaf (c_apply sha256_hex b64_decode order (W := W) base d current).
Proof.
  intros s s' (H1 & H2 & H3). unfold c_apply. rewrite H2. destruct (apply_mesh _ _ _ _ _ _ _ _) as [h r]. split; [done|]. by split_and!.
Qed.

Lemma ask_quiet env env' skip_gate yes yes' (s : CliState W) :
  (ask env skip_gate yes s).1 = (ask env' skip_gate yes' s).1 /\ quiet (ask env skip_gate yes s).2 (ask env' skip_gate yes' s).2.
Proof. unfold ask. by destruct (negb skip_gate && negb yes && _), (negb skip_gate && negb yes' && _). Qed.

Lemma bind_quiet {A B} (m m' : Cli W A) (k : A -> Cli W B) s :
  (m s).1 = (m' s).1 -> quiet (m s).2 (m' s).2 -> (forall a, deaf (k a)) ->
  (c_bind m k s).1 = (c_bind m' k s).1 /\ quiet (c_bind m k s).2 (c_bind m' k s).2.
Proof.
  intros E Q Hk. unfold c_bind. destruct (m s) as [r t], (m' s) as [r' t']. cbn in E, Q. subst r'.
  destruct r as [[a|e]|]; [|done|done]. by apply Hk.
Qed.

Lemma bind_same {A B} (m : Cli W A) (k k' : A -> Cli W B) s :
  (forall a t, (k a t).1 = (k' a t).1 /\ quiet (k a t).2 (k' a t).2) ->
  (c_bind m k s).1 = (c_bind m k' s).1 /\ quiet (c_bind m k s).2 (c_bind m k' s).2.
Proof. intros Hk. unfold c_bind. destruct (m s) as [[[a|e]|] t]; [apply Hk|done|done]. Qed.

(** Nothing is asked.  Whether [--yes] is given, and what
    [COOLIFY_NON_INTERACTIVE] says, changes nothing but a line on stderr: the
    same commands are run, the same files are written and the same is answered. *)
Theorem confirmation_changes_nothing env env' yes base intent new_nodes allow_replace allow_nightly skip_gate header format s :
  let r := run_apply ia5 self_sign sha256_hex b64_decode order (W := W) to_string to_string_pretty env
             base intent new_nodes allow_replace allow_nightly skip_gate header format s in
  let r' := run_apply ia5 self_sign sha256_hex b64_decode order (W := W) to_string to_string_pretty env'
             (with_yes yes base) intent new_nodes allow_replace allow_nightly skip_gate header format s in
  r.1 = r'.1 /\ quiet r.2 r'.2.
Proof.
  cbn zeta. unfold run_apply. apply bind_same. intros [] t.
  match goal with |- (c_bind ?m ?k ?u).1 = (c_bind ?m' ?k' _).1 /\ _ => change k' with k; apply (bind_quiet m m' k u) end; [apply ask_quiet..|].
  intros _. unfold write_flux_tls_output, client_warning, observe, announce, report, output_print, output_table, println, eprintln. deaf.
Qed.
End Confirmation.

(* ------------------------------------------------------------------ *)
(** ** Tables *)

Lemma chars_count_app a b : chars_count (a +:+ b) = (chars_count a + chars_count b)%nat.
Proof. induction a as [|c a IH]; [done|]. rewrite string_app_cons. cbn [chars_count]. rewrite IH. by case_match. Qed.
Lemma chars_count_le s : (chars_count s <= String.length s)%nat.
Proof. induction s as [|a s IH]; [done|]. cbn. case_match; lia. Qed.
Lemma chars_count_repeat c n : chars_count (String c "") = 1%nat -> chars_count (repeat_char c n) = n.
Proof. intros Hc. induction n as [|n IH]; [done|]. cbn in *. destruct (_ =? 128); [done|]. by rewrite IH. Qed.
Lemma pad_width fill w s : chars_count (String fill "") = 1%nat -> (chars_count s <= w)%nat -> chars_count (pad fill w s) = w.
Proof. intros Hf Hs. unfold pad. rewrite chars_count_app, chars_count_repeat by done. lia. Qed.

(** Cells that fit their columns. *)
Notation fits := (Forall2 (fun w c => (chars_count c <= w)%nat)).

Lemma widen_spec ws : forall row, length row = length ws -> Forall2 le ws (widen ws row) /\ fits (widen ws row) row.
Proof.
  induction ws as [|w ws IH]; intros [|c row] Hl; try discriminate Hl; [split; constructor|]. injection Hl as Hl.
  destruct (IH row Hl) as [H1 H2]. cbn [widen]. pose proof (chars_count_le c). split; constructor; try done; lia.
Qed.

Lemma fits_le ws ws' row : Forall2 le ws ws' -> fits ws row -> fits ws' row.
Proof. intros Hle. revert row. induction Hle as [|w w' ws ws' Hw Hle IH]; intros row Hf; inversion Hf; subst; constructor; [lia|auto]. Qed.

Lemma widths_spec rows : forall ws, Forall (fun r => length r = length ws) rows ->
  Forall2 le ws (foldl widen ws rows) /\ Forall (fits (foldl widen ws rows)) rows.
Proof.
  induction rows as [|row rows IH]; intros ws Hl; cbn [foldl]; [split; [|constructor]; apply Forall_Forall2_diag, Forall_true; intros; lia|].
  apply Forall_cons in Hl as [Hr Hl]. destruct (widen_spec ws row Hr) as [Hle Hf].
  assert (length (widen ws row) = length ws) as Hlen by (symmetry; by eapply Forall2_length).
  destruct (IH (widen ws row)) as [H1 H2]; [by rewrite Hlen|]. split; [|constructor; [by eapply fits_le|done]].
  etransitivity; [exact Hle|exact H1].
Qed.

(** One line: every cell at its width, two spaces between, a line break at the
    end. *)
Lemma render_line fill widths : chars_count (String fill "") = 1%nat -> forall cells i last, fits widths cells -> widths <> [] ->
  last = (i + length widths)%nat ->
  exists body, render_cells fill last i widths cells = body +:+ lf /\
    chars_count body = (sum_list widths + 2 * (length widths - 1))%nat.
Proof.
  intros Hfill. induction widths as [|w ws IH]; intros cells i last Hf Hne ->; [done|].
  inversion Hf as [|? c ? cells' Hc Hf']; subst. cbn [render_cells length]. destruct ws as [|w2 ws].
  - inversion Hf'; subst. rewrite (proj2 (Nat.eqb_eq _ _)) by (cbn; lia). exists (pad fill w c). cbn [render_cells].
    rewrite !string_app_nil_r. split; [done|]. rewrite pad_width by done. cbn. unfold id. lia.
  - rewrite (proj2 (Nat.eqb_neq _ _)) by (cbn; lia).
    destruct (IH cells' (S i) (i + S (length (w2 :: ws)))%nat Hf' ltac:(done) ltac:(cbn; lia)) as (body & -> & Hb).
    exists (pad fill w c +:+ "  " +:+ body). split; [by rewrite !string_app_assoc|]. rewrite !chars_count_app, pad_width, Hb by done.
    change (chars_count "  ") with 2%nat. cbn [sum_list_with length]. unfold id. lia.
Qed.

Lemma render_rows ws rows n : Forall (fits ws) rows -> ws <> [] -> n = length ws ->
  exists bodies, foldr (fun row s => render_cells " " n 0 ws row +:+ s) "" rows = concat_map (fun b => b +:+ lf) bodies /\
    length bodies = length rows /\ Forall (fun b => chars_count b = (sum_list ws + 2 * (length ws - 1))%nat) bodies.
Proof.
  intros Hf Hne Hn. induction Hf as [|row rows Hrow Hf (bodies & E & Hl & Hb)]; [by exists []|]. cbn [foldr]. rewrite E.
  destruct (render_line " " ws eq_refl row 0 n Hrow Hne Hn) as (b & -> & Hc). exists (b :: bodies). cbn [length]. by rewrite Hl; repeat constructor.
Qed.

(** A table is aligned: with a header and as many cells in every row as there
    are headers, all its lines (the header, the rule, the rows) have the same
    number of characters. *)
Theorem table_is_aligned headers rows :
  headers <> [] -> Forall (fun r => length r = length headers) rows ->
  exists bodies total, table headers rows = concat_map (fun b => b +:+ lf) bodies /\ length bodies = S (S (length rows)) /\
    Forall (fun b => chars_count b = total) bodies.
Proof.
  intros Hne Hrows. unfold table. set (ws := column_widths headers rows).
  assert (Forall2 le (String.length <$> headers) ws /\ Forall (fits ws) rows) as [Hle Hf].
  { apply widths_spec. eapply Forall_impl; [exact Hrows|]. intros r ->. by rewrite length_fmap. }
  assert (length ws = length headers) as Hlen by (rewrite <- (Forall2_length _ _ _ Hle); apply length_fmap).
  assert (ws <> []) as Hws by (intros E; rewrite E in Hlen; by destruct headers).
  assert (fits ws headers) as Hh.
  { eapply fits_le; [exact Hle|]. apply Forall2_fmap_l, Forall_Forall2_diag, Forall_true. intros h. apply chars_count_le. }
  destruct (render_line " " ws eq_refl headers 0 (length headers) Hh Hws ltac:(by rewrite <- Hlen)) as (bh & -> & Ch).
  destruct (render_line "-" ws eq_refl ((fun _ => "") <$> ws) 0 (length ws)) as (br & -> & Cr); [|done|done|].
  { apply Forall2_fmap_r, Forall_Forall2_diag, Forall_true. intros w. cbn. lia. }
  set (total := (sum_list ws + 2 * (length ws - 1))%nat) in *.
  destruct (render_rows ws rows (length headers) Hf Hws (eq_sym Hlen)) as (bodies & E & Hl & Hb).
  exists (bh :: br :: bodies), total. cbn [concat_map foldr]. rewrite E. split; [by rewrite !string_app_assoc|].
  split; [cbn; by rewrite Hl|]. by repeat constructor.
Qed.

(* ------------------------------------------------------------------ *)
(** ** One node *)

Module Demo.
Definition cert (n : string) : SelfSignedCert := mkCert ("CERT " +:+ n) ("KEY " +:+ n).
Definition ia5 (s : string) : bool := all_chars printable s.
Definition sign (name : string) (entries : list SanType) : result SelfSignedCert string := Ok (cert "2").
Definition sha (s : string) : string := "digest".
Definition show (j : json) : string := "{}".
Definition env (k : string) : option string := None.
Definition in_order (l : list string) : list string := l.

Definition ssh : SshMeshFlags := mkSshFlags [" node-a "] None (Some "/dev/null") "root" 22 false 10 "30s".
Definition base (tls : bool) : BaseInitFlags :=
  mkBase ssh (mkMeshFlags ["default"] "10.210.0.0/16" 24) "100.64.0.0/16" "wg0" 51820 ["node-a=51821"] [] false "v1.0.0" "v1.0.0"
    8787 8080 None None false tls ["localhost"; "flux.internal"] 6443 "/tmp/flux" true.

(** What a node that has everything answers to the probe. *)
Definition conf : string := join lf ["[Interface]"; "Address = 100.64.0.1/32"; "ListenPort = 51821"].
Definition b64 (s : string) : option string :=
  if decide (s = "CONF") then Some conf else if decide (s = "DUMP") then Some "key" else None.
Definition all_set : string := join lf
  ["WG_INSTALLED=1"; "KEYS_EXIST=1"; "PUBLIC_KEY=key"; "CONFIG_B64=CONF"; "WG_DUMP_B64=DUMP"; "PODMAN_INSTALLED=1";
   "PODMAN_SOCKET_ACTIVE=1"; "IP_FORWARD=1"; "FW_ACTIVE=1"; "DEFAULT_DENY=1"; "FW_HASH=digest"; "NFT_AVAILABLE=1"; "BRIDGE_TABLE=1";
   "CORROSION_INSTALLED=1"; "CORROSION_ACTIVE=1"; "CORROSION_CONFIG_HASH=digest"; "CORROSION_SCHEMA_EXISTS=1";
   "CORROSION_SCHEMA_HASH=digest"; "COOLIFY_COOLD_INSTALLED=1"; "COOLIFY_COOLD_ACTIVE=1"; "CORROSION_VERSION=v1.0.0";
   "COOLIFY_COOLD_VERSION=v1.0.0"; "COOLIFY_COOLD_UNIT_HASH=digest";
   "NS=default|coolify-default-mesh|10.210.0.0/24|false|default"].
Definition settled : Runner := {| run := fun _ _ _ _ cmd =>
  Ok (mkOutput (if decide (cmd = probe_script "wg0" ["default"]) then all_set else "") "" 0) |}.
Definition nft_only : Runner := {| run := fun _ _ _ _ cmd =>
  Ok (mkOutput (if decide (cmd = probe_script "wg0" ["default"]) then "NFT_AVAILABLE=1" else "") "" 0) |}.

Notation LocalWorld := (Sim.World unit).
#[local] Instance local_host : Host LocalWorld := Sim.host (fun _ _ x => (mkOut true "exit status: 0" "" "", x)) (fun p => Some p).
#[local] Instance local_laws : HostLaws LocalWorld Sim.w_files := Sim.laws _ _.
Definition s0 : CliState LocalWorld := mkCli (Sim.mkWorld ∅ [] ()) ∅ "" "".

Definition wanted (tls : bool) : DesiredMesh :=
  match build_desired ia5 sign (base tls) Bootstrap [] false false with
  | Ok d => d
  | Err _ => Plan.Demo.dm
  end.
Definition finished (rn : Runner) (tls : bool) : option (result unit InitError) * CliState LocalWorld :=
  run_apply ia5 sign sha b64 in_order show show env (base tls) Bootstrap [] false false false "Bootstrapping mesh..." Table s0.

Definition current (rn : Runner) (tls : bool) : World * option MeshState :=
  reconstruct b64 "root" 22 in_order (d_hosts (wanted tls)) "wg0" ["default"] ∅.
Definition state_of (rn : Runner) (tls : bool) : MeshState := default ∅ (current rn tls).2.
Definition plan_of (rn : Runner) (tls : bool) : Plan :=
  match build_plan sha (wanted tls) (state_of rn tls) with Some (Ok p) => p | _ => mkPlan [] ∅ ∅ [] [] end.

Lemma desired_is_wellformed_witness : d_hosts (wanted true) = ["node-a"] /\ NoDup (d_hosts (wanted true)).
Proof.
  destruct (desired_is_wellformed ia5 sign (base true) Bootstrap [] false false (wanted true) ltac:(vm_refl)) as (H1 & _ & _ & H2 & _).
  split; [|exact H2]. rewrite H1. vm_refl.
Defined.

Lemma agent_asks_for_certified_name_witness : exists flux name, coold_flux_config (wanted true) = Some flux /\
  flux_tls_domain (fc_url flux) = Some name.
Proof.
  destruct (agent_asks_for_certified_name ia5 sign (base true) Bootstrap [] false false (wanted true) ltac:(vm_refl) eq_refl)
    as (flux & name & entries & c & H1 & _ & _ & H2 & _).
  - repeat constructor; try done; intros c Hc; apply list_elem_of_In in Hc; repeat destruct Hc as [<-|Hc]; done.
  - exists flux, name. exact (conj H1 H2).
Defined.

Lemma plan_changes_nothing_witness :
  cli_local (run_plan ia5 sign sha b64 in_order (rn := settled) show show
    (mkPlanCommand (base true) Bootstrap [] false false) Table s0).2 = cli_local s0.
Proof.
  apply (plan_changes_nothing ia5 sign sha b64 in_order (rn := settled) show show
    (mkPlanCommand (base true) Bootstrap [] false false) Table s0).
Defined.

Lemma upgrade_only_installs_witness : exists cmds, log_of (cli_hosts (init_run ia5 sign sha b64 in_order (rn := nft_only) show show env
    (CmdUpgrade (base true) false) Table s0).2) "node-a" = [] ++ cmds.
Proof.
  destruct (upgrade_only_installs ia5 sign sha b64 in_order (rn := nft_only) (Host0 := local_host) Sim.w_files show show env
    (base true) false Table s0 "node-a") as (cmds & E & _). exists cmds. exact E.
Defined.

Lemma first_ok : (finished nft_only true).1 = Some (Ok ()).
Proof. vm_refl. Qed.
Lemma again_ok : (finished settled true).1 = Some (Ok ()).
Proof. vm_refl. Qed.

Lemma success_means_carried_out_witness : exists hist cmd o,
  run (Runner := nft_only) "node-a" "root" 22 hist cmd = Ok o /\
  hist ++ [cmd] `prefix_of` log_of (cli_hosts (finished nft_only true).2) "node-a" /\ cmd = APT_PODMAN.
Proof.
  destruct (success_means_carried_out ia5 sign sha b64 in_order (rn := nft_only) show show env (fun l => reflexivity l) (base true)
    Bootstrap [] false false false "Bootstrapping mesh..." Table s0 (finished nft_only true).2 (run_eta (finished nft_only true) _ first_ok)) as (d & w1 & cur & p & Hd & Hr & Hp & Ha).
  assert (build_desired ia5 sign (base true) Bootstrap [] false false = Ok (wanted true)) as Hd' by vm_refl.
  assert (d = wanted true) as -> by congruence.
  assert (current nft_only true = (w1, Some cur)) as Hc by exact Hr.
  assert (cur = state_of nft_only true) as -> by (unfold state_of; by rewrite Hc).
  assert (build_plan sha (wanted true) (state_of nft_only true) = Some (Ok (plan_of nft_only true))) as Hp' by vm_refl.
  assert (p = plan_of nft_only true) as -> by congruence.
  destruct (Ha (mkAction "node-a" "" InstallPodman "podman not installed")) as (hist & cmd & o & H1 & H2 & H3).
  - apply (list_elem_of_lookup_2 _ 4). vm_refl.
  - apply (bool_decide_eq_true_1 _). vm_refl.
  - exists hist, cmd, o. split; [exact H1|]. split; [exact H3|exact H2].
Defined.

Lemma renewed_certificate_stays_home_witness : exists m,
  Sim.w_files (cli_local (finished settled true).2) !! "/tmp/flux/cert.pem" = Some (mkFile "CERT 2" m).
Proof.
  apply (renewed_certificate_stays_home ia5 sign sha b64 in_order (rn := settled) (Host0 := local_host) Sim.w_files show show env (base true)
    Bootstrap [] false false false "Bootstrapping mesh..." Table s0 (finished settled true).2 (wanted true) (cert "2")
    (current settled true).1 (state_of settled true) None (Some (cert "1")) (plan_of settled true)).
  - exact (run_eta (finished settled true) _ again_ok).
  - vm_refl.
  - vm_refl.
  - vm_refl.
  - vm_refl.
  - vm_refl.
  - vm_refl.
Defined.

Lemma table_is_aligned_witness : exists bodies total,
  table ["HOST"; "STATUS"] [["node-a"; "ok"]; ["b"; "error → 1"]] = concat_map (fun b => b +:+ lf) bodies /\
  Forall (fun b => chars_count b = total) bodies.
Proof.
  destruct (table_is_aligned ["HOST"; "STATUS"] [["node-a"; "ok"]; ["b"; "error → 1"]] ltac:(done) ltac:(by repeat constructor))
    as (bodies & total & H1 & _ & H2). exists bodies, total. exact (conj H1 H2).
Defined.
End Demo.
