(* ===== verification/Agent.v ===== *)
(** * The agent as a whole

    [coold/src/main.rs], the settings of [coold/src/config.rs] and the start of
    [coold/src/sync.rs] ([run]): how the agent comes by its configuration, what
    each of its parts is given of it, and which ends of its tasks end it.

    The values of the settings are what the argument parser finds on the command
    line or in the environment; the environment is what the service manager
    reads from the unit the command line installed
    ([coolify-cli/src/services/coold.rs]).  The reader of durations and the
    service manager are parameters. *)

From S2P Require Import Prelude RustStr Net Host Mesh MeshText CooldConfig CooldSync Firewall StreamClient Dns.
Local Open Scope Z_scope.

(* ------------------------------------------------------------------ *)
(** ** The settings *)

Record AgentConfig := mkAgentConfig {
  a_host_mgmt_ip : string;
  a_podman_socket : string;
  a_corrosion_url : string;
  a_namespaces : list NamespaceConfig;
  a_reconcile_interval : Z;
  a_host_infra_reconcile_interval : Z;
  a_log_level : string;
  a_dns_zone : string;
  a_dns_upstream : SocketAddr;
  a_flux_url : option string;
  a_assignment_url : option string;
  a_host_jwt_path : string;
  a_grpc_disabled : bool;
  a_allowed_mount_sources : list string;
  a_flux_tls_pin_path : string;
  a_strict_endpoint_owner : bool;
}.

Inductive SettingError := Missing (name : string) | Invalid (name value : string).

Section Settings.
(** [humantime::parse_duration], in nanoseconds. *)
Context (parse_duration : string -> option Z).

(** Whether a setting was given, on the command line or in the environment. *)
Context (given : string -> option string).

Definition setting (name default_value : string) : string := default default_value (given name).

Definition required (name : string) : result string SettingError :=
  match given name with Some v => Ok v | None => Err (Missing name) end.

(** A value through its parser; a default value goes through it too. *)
Definition parsed {A} (parse : string -> option A) (name default_value : string) : result A SettingError :=
  match parse (setting name default_value) with
  | Some a => Ok a
  | None => Err (Invalid name (setting name default_value))
  end.

(** The parser of a [bool]. *)
Definition parse_bool (s : string) : option bool :=
  if decide (s = "true") then Some true else if decide (s = "false") then Some false else None.

Definition read_namespaces (s : string) : option (list NamespaceConfig) :=
  match parse_namespaces s with Ok l => Some l | Err _ => None end.

Definition parse_config : result AgentConfig SettingError :=
  (let? host_mgmt_ip := required "COOLIFY_COOLD_HOST_MGMT_IP" in
   let? namespaces := parsed read_namespaces "COOLIFY_COOLD_NAMESPACES" "" in
   let? reconcile_interval := parsed parse_duration "COOLIFY_COOLD_RECONCILE_INTERVAL" "2s" in
   let? host_infra := parsed parse_duration "COOLIFY_COOLD_HOST_INFRA_RECONCILE_INTERVAL" "60s" in
   let? dns_upstream := parsed parse_socket_addr "COOLIFY_COOLD_DNS_UPSTREAM" "1.1.1.1:53" in
   let? grpc_disabled := parsed parse_bool "COOLIFY_COOLD_GRPC_DISABLED" "false" in
   let? strict := parsed parse_bool "COOLIFY_COOLD_STRICT_ENDPOINT_OWNER" "true" in
   Ok {| a_host_mgmt_ip := host_mgmt_ip;
         a_podman_socket := setting "COOLIFY_COOLD_PODMAN_SOCKET" "/run/podman/podman.sock";
         a_corrosion_url := setting "COOLIFY_COOLD_CORROSION_URL" "http://127.0.0.1:8080";
         a_namespaces := namespaces;
         a_reconcile_interval := reconcile_interval;
         a_host_infra_reconcile_interval := host_infra;
         a_log_level := setting "COOLIFY_COOLD_LOG_LEVEL" "info";
         a_dns_zone := setting "COOLIFY_COOLD_DNS_ZONE" "coolify.internal";
         a_dns_upstream := dns_upstream;
         a_flux_url := given "COOLIFY_COOLD_FLUX_URL";
         a_assignment_url := given "COOLIFY_COOLD_ASSIGNMENT_URL";
         a_host_jwt_path := setting "COOLIFY_COOLD_HOST_JWT_PATH" "/etc/coolify/host-jwt";
         a_grpc_disabled := grpc_disabled;
         a_allowed_mount_sources := parse_mount_sources (setting "COOLIFY_COOLD_ALLOWED_MOUNT_SOURCES" "");
         a_flux_tls_pin_path := setting "COOLIFY_COOLD_FLUX_TLS_PIN_PATH" "/etc/coolify/flux.pin";
         a_strict_endpoint_owner := strict |})%rust.
End Settings.

(* ------------------------------------------------------------------ *)
(** ** What the parts are given *)

(** [CorrosionClient::new]. *)
Definition corrosion_base_url (url : string) : string := trim_end_char "/" url.

Definition sync_config (c : AgentConfig) : SyncConfig :=
  mkSyncConfig (a_host_mgmt_ip c) (a_namespaces c) (corrosion_base_url (a_corrosion_url c)).

Definition stream_config (c : AgentConfig) : StreamConfig :=
  mkStreamConfig (a_host_mgmt_ip c) (a_grpc_disabled c) (a_flux_url c) (a_assignment_url c)
    (a_host_jwt_path c) (a_flux_tls_pin_path c).

Definition owner_check (c : AgentConfig) : EndpointOwnerCheck :=
  mkOwnerCheck (a_host_mgmt_ip c) (a_strict_endpoint_owner c).

(* ------------------------------------------------------------------ *)
(** ** The tasks *)

Inductive Worker := EventsTask | TriggerTask | ReconcileTask | HostInfraTask | DnsTask | GrpcTask.
#[export] Instance Worker_eq_dec : EqDecision Worker.
Proof. solve_decision. Defined.

Definition worker_name (w : Worker) : string :=
  match w with
  | EventsTask => "events"
  | TriggerTask => "trigger"
  | ReconcileTask => "reconcile"
  | HostInfraTask => "host-infra"
  | DnsTask => "dns"
  | GrpcTask => "grpc"
  end.

(** [run]: the client of Corrosion is built first; then whichever of the tasks
    has ended, or an interrupt, ends it. *)
Inductive run_ends (client : result unit Error) (tasks : Worker -> TaskEnd) (ctrl_c : bool) : result unit Error -> Prop :=
  | run_no_client e : client = Err e -> run_ends client tasks ctrl_c (Err e)
  | run_interrupted : client = Ok tt -> ctrl_c = true -> run_ends client tasks ctrl_c (Ok tt)
  | run_task w e : client = Ok tt -> propagate (worker_name w) (tasks w) = Some e -> run_ends client tasks ctrl_c (Err e).

(** A task that ends, however it does, ends the agent with an error, and without an
    interrupt nothing else does once the client is built. *)
Theorem ended_task_ends_agent tasks :
  (forall w, tasks w <> Running -> exists e, run_ends (Ok tt) tasks false (Err e)) /\
  (forall r, run_ends (Ok tt) tasks false r -> is_ok r = false /\ exists w, tasks w <> Running).
Proof.
  split.
  - intros w Hw. destruct (propagate (worker_name w) (tasks w)) as [e|] eqn:E.
    + exists e. by eapply run_task.
    + by destruct (tasks w) as [|[[]|e]|].
  - intros r Hr. inversion Hr as [| |w e _ Hp]; subst; [done|done|]. split; [done|]. exists w. intros E. by rewrite E in Hp.
Qed.

(* ------------------------------------------------------------------ *)
(** ** The unit the command line installs *)

(** The lines of a section of a unit file. *)
Fixpoint section_lines (name : string) (inside : bool) (ls : list string) : list string :=
  match ls with
  | [] => []
  | l :: rest =>
      if starts_with "[" l then section_lines name (bool_decide (l = "[" +:+ name +:+ "]")) rest
      else (if inside then [l] else []) ++ section_lines name inside rest
  end.

(** The assignments of the environment, in their order. *)
Definition assignments (unit_text : string) : list (string * string) :=
  omap (fun l => strip_prefix "Environment=" l ≫= split_once "=") (section_lines "Service" false (lines unit_text)).

(** Characters that stand for themselves in an assignment. *)
Definition literal (c : ascii) : bool :=
  visible c && negb (bool_decide (c ∈ [ascii_of_N 34; "'"; "\"; "%"]%char)).

(** The value the last assignment of a variable gives it. *)
Definition assigned (kvs : list (string * string)) (k : string) : option string :=
  foldl (fun v kv => if decide (kv.1 = k) then Some kv.2 else v) None kvs.

(** The service manager, as [systemd.exec] and [systemd.syntax] have it: lines
    that do not end in a backslash are read one by one, the last assignment of a
    variable counts, and a value without blanks, quotes, backslashes and
    specifiers is taken as it is. *)
Class SystemdLaws (environment : string -> string -> option string) : Prop := {
  law_environment text k :
    contains_char "\" text = false -> Forall (fun kv => all_chars literal kv.2 = true) (assignments text) ->
    environment text k = assigned (assignments text) k;
}.

Lemma literal_visible s : all_chars literal s = true -> all_chars visible s = true.
Proof. apply all_chars_impl. intros c [? _]%andb_true_iff. done. Qed.

Lemma literal_printable s : all_chars literal s = true -> all_chars printable s = true.
Proof. intros H%literal_visible. by eapply all_chars_impl, H; apply visible_printable. Qed.

Lemma literal_no_backslash s : all_chars literal s = true -> contains_char "\" s = false.
Proof. by apply all_chars_no_char. Qed.

(** What the unit assigns. *)
Definition unit_assignments (mgmt_ip : Z) (nss : list CooldNamespace) (flux : option FluxConfig) : list (string * string) :=
  ("COOLIFY_COOLD_HOST_MGMT_IP", show_ipv4 mgmt_ip) ::
  match nss with
  | [] => []
  | _ => [("COOLIFY_COOLD_NAMESPACES", namespaces_env_value nss); ("COOLIFY_COOLD_DNS_ZONE", DEFAULT_COOLD_DNS_ZONE)]
  end ++
  match flux with
  | None => []
  | Some s =>
      ("COOLIFY_COOLD_FLUX_URL", fc_url s) :: ("COOLIFY_COOLD_HOST_JWT_PATH", fc_jwt_path s) ::
      match fc_tls_pin_path s with Some p => [("COOLIFY_COOLD_FLUX_TLS_PIN_PATH", p)] | None => [] end
  end.

(** The flux settings a unit can carry. *)
Definition literal_flux (s : FluxConfig) : Prop :=
  all_chars literal (fc_url s) = true /\ all_chars literal (fc_jwt_path s) = true /\
  match fc_tls_pin_path s with Some p => all_chars literal p = true | None => True end.

Definition assignment_line (kv : string * string) : string := "Environment=" +:+ kv.1 +:+ "=" +:+ kv.2.

Definition mesh_units (nss : list CooldNamespace) : string :=
  match nss with
  | [] => ""
  | _ => " " +:+ MESH_DNS_ANCHOR_SERVICE +:+ " " +:+ MESH_DNS_RESOLVER_SERVICE
  end.

(** The unit, line by line. *)
Definition unit_lines (mgmt_ip : Z) (nss : list CooldNamespace) (flux : option FluxConfig) : list string :=
  ["[Unit]"; "Description=Coolify host agent"; "Wants=corrosion.service" +:+ mesh_units nss;
   "After=corrosion.service network-online.target podman.socket coolify-mesh-fw.service" +:+ mesh_units nss; "";
   "[Service]"] ++ (assignment_line <$> unit_assignments mgmt_ip nss flux) ++
  ["ExecStart=/usr/local/bin/coold"; "AmbientCapabilities=CAP_NET_BIND_SERVICE CAP_NET_ADMIN CAP_NET_RAW";
   "NoNewPrivileges=yes"; "ProtectSystem=strict"; "ProtectHome=yes"; "PrivateTmp=yes";
   "ReadWritePaths=/etc/coolify /data/coolify /var/lib/containers";
   "ReadWritePaths=-/run/containers -/run/netavark -/run/libpod"; "Restart=on-failure"; "RestartSec=2s"; "";
   "[Install]"; "WantedBy=multi-user.target"].

Lemma unit_is_lines mgmt_ip nss flux :
  coold_service_unit mgmt_ip nss flux = concat_map (fun l => l +:+ lf) (unit_lines mgmt_ip nss flux).
Proof.
  unfold coold_service_unit, unit_lines, unit_assignments, mesh_units, assignment_line, hardening_directives.
  destruct nss as [|n nss]; (destruct flux as [[url jwt [pin|]]|]); cbn [fc_url fc_jwt_path fc_tls_pin_path app fmap list_fmap concat_map foldr fst snd];
    rewrite <- ?string_app_assoc; reflexivity.
Qed.

Lemma lines_concat (ls : list string) :
  Forall (fun l => all_chars printable l = true) ls -> lines (concat_map (fun l => l +:+ lf) ls) = ls.
Proof.
  induction 1 as [|l ls Hl _ IH]; [done|]. cbn [concat_map foldr]. rewrite <- string_app_assoc, lines_cons by done.
  by rewrite <- IH at 2.
Qed.

Lemma section_lines_in (name : string) (ls rest : list string) :
  Forall (fun l => starts_with "[" l = false) ls ->
  section_lines name true (ls ++ rest) = ls ++ section_lines name true rest.
Proof. induction 1 as [|l ls Hl _ IH]; [done|]. cbn [app section_lines]. by rewrite Hl, IH. Qed.

Lemma assignment_read kv : contains_char "=" kv.1 = false ->
  strip_prefix "Environment=" (assignment_line kv) ≫= split_once "=" = Some kv.
Proof.
  intros Hk. unfold assignment_line.
  rewrite (proj2 (strip_prefix_Some _ _ _) eq_refl). cbn [mbind option_bind].
  change ("=" +:+ kv.2) with (String "=" kv.2). rewrite split_once_app by done. by destruct kv.
Qed.

Lemma assignments_read (kvs : list (string * string)) :
  Forall (fun kv => contains_char "=" kv.1 = false) kvs ->
  omap (fun l => strip_prefix "Environment=" l ≫= split_once "=") (assignment_line <$> kvs) = kvs.
Proof.
  induction 1 as [|kv kvs Hk _ IH]; [done|]. rewrite fmap_cons. cbn [omap list_omap].
  rewrite assignment_read by done. by f_equal.
Qed.

Lemma name_char_literal c : name_char c = true -> literal c = true.
Proof. destruct c as [[] [] [] [] [] [] [] []]; vm_compute; done. Qed.

Lemma ip_char_literal c : ip_char c = true -> literal c = true.
Proof. destruct c as [[] [] [] [] [] [] [] []]; vm_compute; done. Qed.

Lemma show_ipv4_literal a : all_chars literal (show_ipv4 a) = true.
Proof. eapply all_chars_impl, show_ipv4_chars. apply ip_char_literal. Qed.

Lemma namespaces_literal nss : Forall wf_namespace nss -> all_chars literal (namespaces_env_value nss) = true.
Proof.
  intros Hw. unfold namespaces_env_value. induction Hw as [|n nss (Hl & Hn & _) Hw IH]; [done|].
  assert (all_chars literal (cn_name n) = true) as Hname.
  { eapply all_chars_impl, label_chars, Hl. apply name_char_literal. }
  assert (all_chars literal (namespace_entry n) = true) as He.
  { unfold namespace_entry. rewrite Hn. unfold podman_network_for. by rewrite !all_chars_app, Hname, show_ipv4_literal. }
  rewrite fmap_cons. destruct (namespace_entry <$> nss) as [|e es] eqn:Ee; [done|].
  change (join "," (namespace_entry n :: e :: es)) with (namespace_entry n +:+ "," +:+ join "," (e :: es)).
  by rewrite !all_chars_app, He, IH.
Qed.

Section Unit.
Context (mgmt_ip : Z) (nss : list CooldNamespace) (flux : option FluxConfig).
Hypothesis Hnss : Forall wf_namespace nss.
Hypothesis Hflux : match flux with Some s => literal_flux s | None => True end.

Lemma unit_assignments_ok :
  Forall (fun kv => contains_char "=" kv.1 = false /\ all_chars literal kv.1 = true /\ all_chars literal kv.2 = true)
    (unit_assignments mgmt_ip nss flux).
Proof.
  unfold unit_assignments. constructor; [split_and!; [done|done|apply show_ipv4_literal]|]. apply Forall_app. split.
  - pose proof (namespaces_literal nss Hnss). destruct nss; [constructor|]. by repeat constructor.
  - destruct flux as [[url jwt pin]|]; [|constructor]. destruct Hflux as (? & ? & Hp). cbn in *.
    repeat (constructor; [done|]). destruct pin; [|constructor]. by repeat constructor.
Qed.

Lemma mesh_units_printable : all_chars printable (mesh_units nss) = true /\ contains_char "\" (mesh_units nss) = false.
Proof. unfold mesh_units. by destruct nss. Qed.

Lemma unit_lines_ok :
  Forall (fun l => all_chars printable l = true /\ contains_char "\" l = false) (unit_lines mgmt_ip nss flux).
Proof.
  destruct mesh_units_printable as [Hp Hb]. unfold unit_lines. rewrite !Forall_app. split_and!.
  - repeat constructor; cbn [fst snd]; rewrite ?all_chars_app, ?contains_char_app, ?Hp, ?Hb; done.
  - apply Forall_fmap. eapply Forall_impl; [apply unit_assignments_ok|]. intros [k v] (_ & Hk & Hv). cbn in *.
    unfold assignment_line. cbn [fst snd]. rewrite !all_chars_app, !contains_char_app.
    rewrite (literal_printable _ Hk), (literal_printable _ Hv), (literal_no_backslash _ Hk), (literal_no_backslash _ Hv). done.
  - by repeat constructor.
Qed.

Lemma unit_no_backslash : contains_char "\" (coold_service_unit mgmt_ip nss flux) = false.
Proof.
  rewrite unit_is_lines. induction unit_lines_ok as [|l ls [_ Hl] _ IH]; [done|]. cbn [concat_map foldr].
  rewrite !contains_char_app, Hl. exact IH.
Qed.

Lemma service_section rest :
  section_lines "Service" false
    (["[Unit]"; "Description=Coolify host agent"; "Wants=corrosion.service" +:+ mesh_units nss;
      "After=corrosion.service network-online.target podman.socket coolify-mesh-fw.service" +:+ mesh_units nss; "";
      "[Service]"] ++ rest) = section_lines "Service" true rest.
Proof. reflexivity. Qed.

Lemma unit_assigns : assignments (coold_service_unit mgmt_ip nss flux) = unit_assignments mgmt_ip nss flux.
Proof.
  unfold assignments. rewrite unit_is_lines, lines_concat.
  2: { eapply Forall_impl; [apply unit_lines_ok|]. by intros l [? _]. }
  unfold unit_lines. rewrite service_section. rewrite section_lines_in by (apply Forall_fmap, Forall_true; done).
  rewrite omap_app, assignments_read; [apply app_nil_r|].
  eapply Forall_impl; [apply unit_assignments_ok|]. by intros kv [? _].
Qed.
End Unit.

(** The configuration a unit stands for. *)
Definition unit_config (mgmt_ip : Z) (nss : list CooldNamespace) (flux : option FluxConfig) : AgentConfig := {|
  a_host_mgmt_ip := show_ipv4 mgmt_ip;
  a_podman_socket := "/run/podman/podman.sock";
  a_corrosion_url := "http://127.0.0.1:8080";
  a_namespaces := match nss with [] => [default_namespace] | _ => agent_namespace <$> nss end;
  a_reconcile_interval := from_secs 2;
  a_host_infra_reconcile_interval := from_secs 60;
  a_log_level := "info";
  a_dns_zone := DEFAULT_COOLD_DNS_ZONE;
  a_dns_upstream := mkSocketAddr (V4 (of_octets 1 1 1 1)) 53;
  a_flux_url := fc_url <$> flux;
  a_assignment_url := None;
  a_host_jwt_path := match flux with Some s => fc_jwt_path s | None => HOST_JWT_PATH end;
  a_grpc_disabled := false;
  a_allowed_mount_sources := [];
  a_flux_tls_pin_path := match flux ≫= fc_tls_pin_path with Some p => p | None => FLUX_PIN_PATH end;
  a_strict_endpoint_owner := true;
|}.

Section Reads.
Context (parse_duration : string -> option Z) (environment : string -> string -> option string) `{!SystemdLaws environment}.
Hypothesis two_seconds : parse_duration "2s" = Some (from_secs 2).
Hypothesis one_minute : parse_duration "60s" = Some (from_secs 60).

Lemma read_namespaces_unit nss :
  nss <> [] -> Forall wf_namespace nss -> read_namespaces (namespaces_env_value nss) = Some (agent_namespace <$> nss).
Proof. intros Hne Hw. unfold read_namespaces. by rewrite namespaces_roundtrip. Qed.

Ltac settings :=
  cbn [fc_url fc_jwt_path fc_tls_pin_path foldl fst snd app];
  repeat first [rewrite decide_True by reflexivity | rewrite decide_False by discriminate];
  cbn [from_option]; unfold id.

(** C32. The agent runs with what the command line meant: from the unit it
    installed, the agent reads the address of the host, the namespaces with their
    networks and gateways, the zone, and the address, the token and the pin of
    flux, and has the declared default of everything else: no directory of the
    host may be mounted and the owner of an endpoint is checked. *)
Theorem agent_reads_its_unit mgmt_ip nss flux :
  Forall wf_namespace nss -> match flux with Some s => literal_flux s | None => True end ->
  parse_config parse_duration (environment (coold_service_unit mgmt_ip nss flux)) = Ok (unit_config mgmt_ip nss flux).
Proof.
  intros Hw Hf.
  assert (forall k, environment (coold_service_unit mgmt_ip nss flux) k = assigned (unit_assignments mgmt_ip nss flux) k) as He.
  { intros k. rewrite law_environment; [by rewrite unit_assigns|by apply unit_no_backslash|]. rewrite unit_assigns by done.
    eapply Forall_impl; [by apply unit_assignments_ok|]. by intros kv (_ & _ & ?). }
  unfold parse_config, required, parsed, setting. rewrite !He. clear He. unfold assigned, unit_assignments.
  destruct nss as [|n nss0].
  - destruct flux as [[url jwt [pin|]]|]; settings; rewrite two_seconds, one_minute; reflexivity.
  - pose proof (read_namespaces_unit (n :: nss0) ltac:(done) Hw) as Hns.
    destruct flux as [[url jwt [pin|]]|]; settings; rewrite two_seconds, one_minute, Hns; reflexivity.
Qed.
End Reads.

(* ------------------------------------------------------------------ *)
(** ** One host *)

Module Demo.
Definition environment (text k : string) : option string := assigned (assignments text) k.
#[export] Instance demo_systemd : SystemdLaws environment.
Proof. by split. Qed.

Definition parse_duration (s : string) : option Z :=
  if decide (s = "2s") then Some (from_secs 2) else if decide (s = "60s") then Some (from_secs 60) else None.

Definition nss : list CooldNamespace := [mkCooldNamespace "default" "coolify-default-mesh" (of_octets 10 210 0 1)].
Definition flux : FluxConfig := mkFluxConfig "https://100.64.0.1:6443" HOST_JWT_PATH (Some FLUX_PIN_PATH).
Definition mgmt_ip : Z := of_octets 100 64 0 5.

Lemma agent_reads_its_unit_witness :
  parse_config parse_duration (environment (coold_service_unit mgmt_ip nss (Some flux))) =
  Ok (unit_config mgmt_ip nss (Some flux)).
Proof.
  apply agent_reads_its_unit.
  - apply demo_systemd.
  - vm_compute. reflexivity.
  - vm_compute. reflexivity.
  - repeat constructor; try reflexivity; vm_compute; discriminate.
  - split_and!; vm_compute; reflexivity.
Defined.
End Demo.
