(* ===== verification/Harness.v ===== *)
(** * The live-server test harness

    [e2e-tests/src/lib.rs] and [e2e-tests/src/install.rs]: what the suites that
    provision real servers are written with.  The process they run in has an
    environment it changes and a clock it polls against ([Machine]); everything
    else they do is a process on the local machine ([Host]).

    A panic is an error of one cause; a loop that has not ended within its fuel
    is the error without a cause ([still_running]), and [poll_returns] says which
    fuel is enough.  A function that returns a [Result<T, String>] is an action
    that returns a [result].  What a thread logs is modelled by itself ([Log]);
    the log lines inside the other functions are left out. *)

From S2P Require Import Prelude RustStr RustPath Host.
Local Open Scope Z_scope.

(* ------------------------------------------------------------------ *)
(** ** The process *)

Class Machine (W : Type) := {
  env : W -> gmap string string;
  set_env : string -> string -> W -> W;
  (** [Instant::now()] and [SystemTime::now()] since the epoch, in nanoseconds *)
  now : W -> Z;
  system_time : W -> Z;
  sleep : Z -> W -> W;
}.

(** The environment is a map that only [set_env] changes, and time does not go
    back. *)
Class MachineLaws (W : Type) `{!Host W} `{!Machine W} : Prop := {
  law_set_env k v w : env (set_env k v w) = <[k := v]> (env w);
  law_read_env p w : env (read_to_string p w).2 = env w;
  law_output_env argv w : env (output argv w).2 = env w;
  law_sleep d w : now w + d <= now (sleep d w);
  law_output_now argv w : now w <= now (output argv w).2;
}.

Definition from_secs (s : Z) : Z := s * 1000000000.

(** The tag of a thread, and the lines it wrote to the standard error. *)
Module Log.
Record t := mkLog { tag : string; err : list string }.
Definition empty : t := mkLog "" [].
Definition set_tag (s : string) (l : t) : t := mkLog s (err l).
Definition log_line (msg : string) (l : t) : t :=
  mkLog (tag l) (err l ++ [if is_empty (tag l) then msg else "[" +:+ tag l +:+ "] " +:+ msg]).
(** [hlog!] of [hetzner.rs]. *)
Definition hlog (msg : string) : t -> t := log_line ("[hetzner] " +:+ msg).

(** A thread that takes over the tag of the one that started it, as those of
    [provision] do, writes its lines under the same tag; without it they would
    carry none. *)
Lemma thread_keeps_tag (parent : t) msg :
  err (hlog msg (set_tag (tag parent) empty)) =
    [(if is_empty (tag parent) then "" else "[" +:+ tag parent +:+ "] ") +:+ "[hetzner] " +:+ msg] /\
  err (hlog msg empty) = ["[hetzner] " +:+ msg].
Proof.
  split; [|done]. unfold hlog, log_line, set_tag. cbn [tag err app]. f_equal.
  destruct (is_empty (tag parent)); [done|]. by rewrite <- !string_app_assoc.
Qed.
End Log.

Section Process.
Context {W : Type} `{!Host W} `{!Machine W}.
Local Open Scope rust_scope.

Definition panic {A} (s : string) : Io W A := io_fail (anyhow s).
Definition still_running : Error := [].
Definition reads {A} (f : W -> A) : Io W A := fun w => (Ok (f w), w).
Definition does (f : W -> W) : Io W unit := fun w => (Ok (), f w).

(** [r?] in a function that returns a [Result<T, String>]. *)
Definition try_bind {A B} (m : Io W (result A string)) (k : A -> Io W (result B string)) : Io W (result B string) :=
  io_bind m (fun r => match r with Ok a => k a | Err e => io_ret (Err e) end).

(** [std::env::var]: a value that is not UTF-8 is an error. *)
Definition env_var (k : string) (w : W) : option string :=
  match env w !! k with
  | Some v => if decide (from_utf8_lossy v = v) then Some v else None
  | None => None
  end.

Definition must_env (k : string) : Io W string :=
  let! v := reads (env_var k) in
  match v with Some v => io_ret v | None => panic ("env " +:+ k +:+ " required") end.

(** [std::env::set_var] panics on a name or a value the system does not take. *)
Definition nul : ascii := "000"%char.
Definition settable (k v : string) : bool :=
  negb (is_empty k) && negb (contains_char "=" k) && negb (contains_char nul k) && negb (contains_char nul v).
Definition set_var (k v : string) : Io W unit :=
  if settable k v then does (set_env k v) else panic "failed to set environment variable".

(* ------------------------------------------------------------------ *)
(** ** [load_dotenv] *)

(** What a line assigns, if it does. *)
Definition dotenv_line (line : string) : option (string * string) :=
  let trimmed := trim line in
  if is_empty trimmed || starts_with "#" trimmed then None
  else match split_once "=" trimmed with
       | Some (k, v) => Some (trim k, trim_matches_char "'" (trim_matches_char "034" (trim v)))
       | None => None
       end.

Definition dotenv_assign (line : string) : Io W unit :=
  match dotenv_line line with
  | None => io_ret ()
  | Some (k, v) =>
      let! present := reads (fun w => env w !! k) in
      match present with Some _ => io_ret () | None => set_var k v end
  end.

(** [manifest_dir] is [CARGO_MANIFEST_DIR] of the build. *)
Definition load_dotenv (manifest_dir : string) : Io W unit :=
  let! content := attempt (read_to_string (path_join manifest_dir ".env")) in
  match content with
  | Ok content => io_each dotenv_assign (lines content)
  | Err _ => io_ret ()
  end.

(* ------------------------------------------------------------------ *)
(** ** Polling

    The loops that poll until a deadline, [wait_until] among them, as one loop:
    an attempt that may end it, the pause after one that does not, and what the
    loop returns when the deadline has passed.  A turn of the loop is a step, so
    that the loops of several threads interleave. *)

Record Poll (A : Type) := mkPoll {
  p_try : Io W (option A);
  p_pause : Z;
  p_timeout : Z;
  p_late : A;
}.
Inductive PollState (A : Type) := Start | Until (deadline : Z) | Done (a : A).
End Process.
Arguments mkPoll {W A} _ _ _ _.
Arguments p_try {W A} _.
Arguments p_pause {W A} _.
Arguments p_timeout {W A} _.
Arguments p_late {W A} _.
Arguments Start {A}.
Arguments Until {A} _.
Arguments Done {A} _.

Notation "'let?!' x ':=' e 'in' k" := (try_bind e (fun x => k))
  (at level 10, x pattern, e at level 200, k at level 200,
   format "'[v' 'let?!'  x  ':='  e  'in' '/' k ']'") : rust_scope.

Section Polling.
Context {W : Type} `{!Machine W}.
Local Open Scope rust_scope.

Definition turn {A} (p : Poll (W := W) A) (st : PollState A) : Io W (PollState A) :=
  match st with
  | Start => reads (fun w => Until (now w + p_timeout p))
  | Until deadline =>
      let! t := reads now in
      if t <? deadline then
        let! r := p_try p in
        match r with
        | Some a => io_ret (Done a)
        | None => does (sleep (p_pause p));; io_ret (Until deadline)
        end
      else io_ret (Done (p_late p))
  | Done a => io_ret (Done a)
  end.

Fixpoint run_poll {A} (fuel : nat) (p : Poll A) (st : PollState A) : Io W A :=
  match st with
  | Done a => io_ret a
  | _ => match fuel with
         | O => io_fail still_running
         | S fuel' => let! st' := turn p st in run_poll fuel' p st'
         end
  end.

Definition wait_until (fuel : nat) (cond : Io W bool) (timeout : Z) : Io W bool :=
  run_poll fuel (mkPoll (let! b := cond in io_ret (if b then Some true else None)) (from_secs 1) timeout false) Start.
End Polling.

(* ------------------------------------------------------------------ *)
(** ** Over ssh *)

Definition TEST_IMAGE : string := "docker.io/library/alpine:3.19".
Definition NAMESPACE : string := "default".
Definition NET : string := "coolify-default-mesh".

Record InstallEnv := mkInstallEnv { ie_ssh_key : string; ie_coolify_bin : string }.

Definition ephemeral_ssh_args (ssh_key : string) : list string :=
  ["-i"; ssh_key; "-o"; "ConnectTimeout=10"; "-o"; "BatchMode=yes"; "-o"; "StrictHostKeyChecking=no";
   "-o"; "UserKnownHostsFile=/dev/null"; "-o"; "LogLevel=ERROR"].

(** The rows of [wg show wg0 latest-handshakes], read in turn. *)
Fixpoint handshake_rows (ls : list string) (rows : Z) : bool :=
  match ls with
  | [] => 0 <? rows
  | line :: ls' =>
      match split_whitespace line with
      | _ :: second :: _ => if decide (second = "0") then false else handshake_rows ls' (rows + 1)
      | _ => handshake_rows ls' rows
      end
  end.

Section Install.
(** [debug_code] is the text of a status's [code()], [debug_str] and
    [debug_args] Rust's [Debug] of a string and of the arguments, and
    [parse_error] the text of a failed [parse::<u16>()]. *)
Context {W : Type} `{!Host W} `{!Machine W} (debug_code : Output -> string) (debug_str : string -> string)
  (debug_args : list string -> string) (parse_error : string -> string).
Local Open Scope rust_scope.

Definition must (k : string) : Io W string :=
  let! v := reads (env_var k) in
  match v with Some v => io_ret v | None => panic ("env " +:+ k +:+ " required") end.

Definition install_from_env (manifest_dir : string) : Io W InstallEnv :=
  load_dotenv manifest_dir;;
  let! ssh_key := must "SSH_KEY" in
  let! bin := reads (env_var "COOLIFY_CLI_BIN") in
  io_ret (mkInstallEnv ssh_key (default "coolify" bin)).

(** A process whose failure is told with its status and what it wrote. *)
Definition spawn (argv : list string) (spawn_err : string) (exit_err : string) : Io W (result Output string) :=
  let! r := attempt (output argv) in
  io_ret (match r with
          | Err e => Err (spawn_err +:+ ": " +:+ show_error e)
          | Ok o => if o_success o then Ok o
                    else Err (exit_err +:+ " exit " +:+ debug_code o +:+ ": " +:+ trim (from_utf8_lossy (o_err o)))
          end).

Definition ssh (ssh_key host cmd : string) : Io W (result string string) :=
  let?! o := spawn (["ssh"] ++ ephemeral_ssh_args ssh_key ++ ["root@" +:+ host; cmd]) "ssh spawn" ("ssh " +:+ host) in
  io_ret (Ok (from_utf8_lossy (o_out o))).

(** [coolify] is the binary started with [COOLIFY_NON_INTERACTIVE=1] and without
    an input. *)
Definition local_coolify (coolify : list string -> Io W Output) (coolify_bin : string) (args : list string) :
    Io W (result string string) :=
  let! r := attempt (coolify (coolify_bin :: args)) in
  io_ret (match r with
          | Err e => Err ("spawn " +:+ coolify_bin +:+ ": " +:+ show_error e)
          | Ok o => if o_success o then Ok (from_utf8_lossy (o_out o))
                    else Err ("coolify " +:+ debug_args args +:+ " exit " +:+ debug_code o)
          end).

(** [r.unwrap_or_else(|e| panic!(..))]. *)
Definition or_panic {A} (what : string) (m : Io W (result A string)) : Io W A :=
  let! r := m in match r with Ok a => io_ret a | Err e => panic (what +:+ ": " +:+ e) end.

Definition wg0_ip (ssh_key host : string) : Io W string :=
  let! out := or_panic ("wg0_ip " +:+ host)
    (ssh ssh_key host "ip -4 -o addr show wg0 | awk '{print $4}' | cut -d/ -f1") in
  io_ret (trim out).

Definition wg_peers_handshaken (ssh_key host : string) : Io W bool :=
  let! r := ssh ssh_key host "wg show wg0 latest-handshakes" in
  io_ret (match r with Ok out => handshake_rows (lines out) 0 | Err _ => false end).

(** [ssh(..).map(|s| s.trim() == want).unwrap_or(false)]. *)
Definition ssh_says (ssh_key host cmd want : string) : Io W bool :=
  let! r := ssh ssh_key host cmd in
  io_ret (match r with Ok s => bool_decide (trim s = want) | Err _ => false end).

Definition unit_active (ssh_key host unit_name : string) : Io W bool :=
  ssh_says ssh_key host ("systemctl is-active " +:+ unit_name +:+ " 2>&1 || true") "active".

Definition podman_pull (ssh_key host image : string) : Io W unit :=
  or_panic ("podman pull " +:+ image +:+ " on " +:+ host) (ssh ssh_key host ("podman pull " +:+ image));; io_ret ().

Definition run_container (ssh_key host name net image : string) : Io W string :=
  or_panic ("run_container " +:+ name +:+ " on " +:+ host)
    (ssh ssh_key host ("podman run -d --name " +:+ name +:+ " --network " +:+ net +:+ " " +:+ image
                       +:+ " sleep infinity >/dev/null"));;
  let tpl := "{{(index .NetworkSettings.Networks " +:+ dq +:+ net +:+ dq +:+ ").IPAddress}}" in
  let! out := or_panic ("inspect " +:+ name) (ssh ssh_key host ("podman inspect -f '" +:+ tpl +:+ "' " +:+ name)) in
  let ip := trim out in
  if is_empty ip then panic ("container " +:+ name +:+ " has no IP on " +:+ net) else io_ret ip.

Definition rm_container (ssh_key host name : string) : Io W unit :=
  ssh ssh_key host ("podman rm -f " +:+ name +:+ " 2>/dev/null || true");; io_ret ().

Definition podman_ping (ssh_key host from to_ip : string) : Io W bool :=
  ssh_says ssh_key host
    ("podman exec " +:+ from +:+ " ping -c1 -W2 " +:+ to_ip +:+ " >/dev/null 2>&1 && echo Y || echo N") "Y".

Definition ssh_ping (ssh_key host target_ip : string) : Io W bool :=
  ssh_says ssh_key host ("ping -c1 -W2 " +:+ target_ip +:+ " >/dev/null 2>&1 && echo Y || echo N") "Y".

Definition wait_for (fuel : nat) (cond : Io W bool) (timeout : Z) : Io W bool := wait_until fuel cond timeout.

Definition scp_upload (ssh_key host local remote : string) : Io W (result unit string) :=
  let?! _ := spawn (["scp"] ++ ephemeral_ssh_args ssh_key ++ [local; "root@" +:+ host +:+ ":" +:+ remote]) "scp spawn"
               ("scp " +:+ local +:+ " -> " +:+ host +:+ ":" +:+ remote) in
  io_ret (Ok ()).

(** The answer of [curl] with the status it was told to write after the body. *)
Definition read_http (out : string) : result (Z * string) string :=
  match rsplit_once_str "__CODE__" out with
  | None => Err ("missing __CODE__ marker in curl output: " +:+ debug_str out)
  | Some (body, code_part) =>
      let digits := trim (trim_end_char "_" code_part) in
      match parse_uint 65535 digits with
      | Some code => Ok (code, trim_end body)
      | None => Err ("parse http code " +:+ debug_str code_part +:+ ": " +:+ parse_error digits)
      end
  end.

Definition ssh_http (ssh_key host method url : string) (json_body : option string) :
    Io W (result (Z * string) string) :=
  let body_arg := match json_body with
                  | Some b => " -H 'Content-Type: application/json' --data '" +:+ b +:+ "'"
                  | None => ""
                  end in
  let cmd := "curl -sS -X " +:+ method +:+ body_arg +:+ " -w '\n__CODE__%{http_code}__' " +:+ url in
  let?! out := ssh ssh_key host cmd in
  io_ret (read_http out).
End Install.

(* ------------------------------------------------------------------ *)
(** ** Properties *)

Section Dotenv.
Context {W : Type} `{!Host W} `{!Machine W} `{!MachineLaws W}.

Lemma set_var_env k v (w w' : W) : set_var k v w = (Ok (), w') -> env w' = <[k := v]> (env w).
Proof. unfold set_var. destruct (settable k v); [|done]. intros [= <-]. apply law_set_env. Qed.

Lemma dotenv_assign_env line (w w' : W) : dotenv_assign line w = (Ok (), w') ->
  env w' = env w ∪ match dotenv_line line with Some (k, v) => {[k := v]} | None => ∅ end.
Proof.
  unfold dotenv_assign. destruct (dotenv_line line) as [[k v]|].
  - intros H. io_inv H. injection Hs as <- <-. destruct (env w !! k) as [v0|] eqn:E.
    + io_inv H. apply map_eq. intros k'. rewrite lookup_union. destruct (decide (k' = k)) as [->|];
        [by rewrite E, lookup_singleton_eq|by rewrite lookup_singleton_ne, (right_id_L None _)].
    + apply set_var_env in H as ->. rewrite insert_union_singleton_l. apply map_union_comm.
      by apply map_disjoint_singleton_l.
  - intros H. io_inv H. by rewrite (right_id_L ∅ _).
Qed.

Lemma dotenv_lines_env ls (w w' : W) : io_each dotenv_assign ls w = (Ok (), w') ->
  env w' = env w ∪ list_to_map (omap dotenv_line ls).
Proof.
  revert w. induction ls as [|l ls IH]; intros w H; cbn [io_each] in H; io_inv H.
  - cbn. by rewrite (right_id_L ∅ _).
  - apply dotenv_assign_env in Hs. apply IH in H. rewrite H, Hs, <- (assoc_L (∪)). f_equal. cbn.
    destruct (dotenv_line l) as [[k v]|]; cbn; [by rewrite insert_union_singleton_l|by rewrite (left_id_L ∅ _)].
Qed.

(** Loading the file of settings leaves the environment with what it had, and
    with the first assignment of every other name: nothing that was exported is
    overridden, whatever the file says, and loading again changes nothing. *)
Theorem dotenv_never_overrides dir content (w w1 w2 : W) :
  read_to_string (path_join dir ".env") w = (Ok content, w1) -> load_dotenv dir w = (Ok (), w2) ->
  env w2 = env w ∪ list_to_map (omap dotenv_line (lines content)).
Proof.
  intros Hr H. unfold load_dotenv, io_bind, attempt in H. rewrite Hr in H. cbn in H.
  apply dotenv_lines_env in H as ->. f_equal. by rewrite <- (law_read_env (path_join dir ".env") w), Hr.
Qed.
End Dotenv.

Section PollTheory.
Context {W : Type} `{!Machine W} {A : Type} (p : Poll (W := W) A).

(** A poll whose attempts end takes a turn for every pause that fits before the
    deadline, and one more. *)
Lemma until_returns n deadline (w : W) :
  0 < p_pause p -> (forall d (w : W), now w + d <= now (sleep d w)) ->
  (forall w : W, (p_try p w).1 <> Err still_running /\ now w <= now (p_try p w).2) ->
  deadline - now w <= p_pause p * Z.of_nat n ->
  (run_poll (S n) p (Until deadline) w).1 <> Err still_running.
Proof.
  intros Hp Hsl Htry. revert w. induction n as [|n IH]; intros w Hn; cbn [run_poll turn]; unfold io_bind, reads.
  - destruct (Z.ltb_spec (now w) deadline); [lia|]. done.
  - destruct (Z.ltb_spec (now w) deadline) as [Hd|]; [|done]. specialize (Htry w). destruct (p_try p w) as [[[a|]|e] w1]; cbn in Htry.
    + done.
    + cbn -[run_poll]. apply IH. specialize (Hsl (p_pause p) w1). lia.
    + cbn. destruct Htry as [He _]. congruence.
Qed.

(** The loops that poll end: with the turns that fit before the deadline they
    have returned, or panicked. *)
Theorem poll_returns fuel (w : W) :
  0 < p_pause p -> 0 <= p_timeout p -> (forall d (w : W), now w + d <= now (sleep d w)) ->
  (forall w : W, (p_try p w).1 <> Err still_running /\ now w <= now (p_try p w).2) ->
  p_timeout p / p_pause p + 3 <= Z.of_nat fuel ->
  (run_poll fuel p Start w).1 <> Err still_running.
Proof.
  intros Hp Ht Hsl Htry Hf. pose proof (Z.mul_succ_div_gt (p_timeout p) (p_pause p) Hp) as Hm.
  pose proof (Z.div_pos (p_timeout p) (p_pause p) Ht Hp) as Hq.
  destruct fuel as [|[|n]]; [lia|lia|]. change (run_poll (S (S n)) p Start w) with
    (run_poll (S n) p (Until (now w + p_timeout p)) w).
  apply until_returns; [done..|]. nia.
Qed.
End PollTheory.

(** The rows of the table that have a second column. *)
Definition second_words (out : string) : list string :=
  omap (fun l => match split_whitespace l with _ :: second :: _ => Some second | _ => None end) (lines out).

Lemma handshake_rows_spec ls rows : 0 <= rows ->
  handshake_rows ls rows = true <->
  let seen := omap (fun l => match split_whitespace l with _ :: second :: _ => Some second | _ => None end) ls in
  (0 < rows \/ seen <> []) /\ Forall (fun t => t <> "0") seen.
Proof.
  revert rows. induction ls as [|l ls IH]; intros rows Hr; cbn.
  - rewrite Z.ltb_lt. naive_solver.
  - destruct (split_whitespace l) as [|a [|second ws]]; [apply IH; lia|apply IH; lia|].
    destruct (decide (second = "0")) as [->|Hs]; [split; [done|intros [_ H]; by apply Forall_cons in H as [H _]]|].
    rewrite IH by lia. cbn. rewrite Forall_cons. split; [intros [_ H]; split; [by right|done]|].
    intros [_ [_ H]]. split; [left; lia|done].
Qed.

Section InstallTheory.
Context {W : Type} `{!Host W} (debug_code : Output -> string) (debug_str : string -> string) (parse_error : string -> string).

(** The check of a host's peers passes when the table could be read, has a row,
    and no row shows a peer that never shook hands: an interface without peers,
    or a host that does not answer, does not pass. *)
Theorem handshaken_iff ssh_key host (w w1 : W) r :
  ssh debug_code ssh_key host "wg show wg0 latest-handshakes" w = (Ok r, w1) ->
  wg_peers_handshaken debug_code ssh_key host w = (Ok true, w1) <->
  exists out, r = Ok out /\ second_words out <> [] /\ Forall (fun t => t <> "0") (second_words out).
Proof.
  intros E. unfold wg_peers_handshaken, io_bind, io_ret. rewrite E. split.
  - intros [= H]. destruct r as [out|e]; [|done]. exists out. split; [done|].
    apply handshake_rows_spec in H; [|lia]. destruct H as [[H|H] HF]; [lia|done].
  - intros (out & -> & H & HF). do 2 f_equal. apply handshake_rows_spec; [lia|]. split; [by right|done].
Qed.

Lemma code_underscores s : all_chars is_digit s = true -> trim_end_char "_" (s +:+ "__") = s.
Proof.
  induction s as [|a s IH]; [done|]. intros [Ha Hs]%andb_true_iff. rewrite string_app_cons. cbn.
  rewrite bool_decide_false by (by intros ->). cbn. by rewrite IH.
Qed.

(** What [curl] wrote is read back: the body up to white space at its end, and
    the status, whatever the body is, the marker included. *)
Theorem http_answer_roundtrip body code : 0 <= code <= 65535 ->
  read_http debug_str parse_error (body +:+ "__CODE__" +:+ (show_Z code +:+ "__")) = Ok (code, trim_end body).
Proof.
  intros Hc. unfold read_http. pose proof (show_Z_chars code) as Hd.
  change "__CODE__" with ("__" +:+ String "C" "ODE__").
  rewrite rsplit_once_str_last; [|done|done|].
  2:{ rewrite contains_char_app. apply orb_false_iff. split; [|done]. by eapply all_chars_no_char; [|apply Hd]. }
  rewrite code_underscores, trim_neat, parse_uint_show; [done|done| |done].
  apply all_visible_neat. apply (all_chars_impl is_digit); [|done]. intros c.
  unfold is_digit, visible. rewrite !andb_true_iff, !N.leb_le. lia.
Qed.
End InstallTheory.

(* ------------------------------------------------------------------ *)
(** ** A machine in memory *)

Module Demo.
Record Process := mkProcess { pr_env : gmap string string; pr_now : Z }.
Notation World := (Sim.World Process).
Definition with_process (f : Process -> Process) (w : World) : World :=
  Sim.mkWorld (Sim.w_files w) (Sim.w_log w) (f (Sim.w_ext w)).
(** A table of two peers, one of which never shook hands, on one host of two. *)
Definition tab : string := String "009" "".
Definition step (argv : list string) (f : gmap string File) (x : Process) : Output * Process :=
  (mkOut true "exit status: 0"
     (if decide (argv !! 13%nat = Some "root@a") then "p1=" +:+ tab +:+ "17" +:+ lf +:+ "p2=" +:+ tab +:+ "0" +:+ lf
      else "p1=" +:+ tab +:+ "17" +:+ lf) "", x).
#[export] Instance H : Host World := Sim.host step (fun p => Some p).
#[export] Instance M : Machine World := {|
  env w := pr_env (Sim.w_ext w);
  set_env k v := with_process (fun x => mkProcess (<[k := v]> (pr_env x)) (pr_now x));
  now w := pr_now (Sim.w_ext w);
  system_time w := pr_now (Sim.w_ext w);
  sleep d := with_process (fun x => mkProcess (pr_env x) (pr_now x + d));
|}.
#[export] Instance laws : MachineLaws World.
Proof. split; intros; cbn; try done; lia. Qed.

Definition w0 : World :=
  Sim.mkWorld {["/e/.env" := mkFile ("# settings" +:+ lf +:+ "A=1" +:+ lf +:+ " B = 'two' " +:+ lf +:+ "B=3" +:+ lf) 420]}
    [] (mkProcess {["A" := "exported"]} 0).

Lemma dotenv_never_overrides_witness :
  let t := load_dotenv "/e" w0 in t.1 = Ok () /\ env t.2 !! "A" = Some "exported" /\ env t.2 !! "B" = Some "two".
Proof.
  cbn zeta. assert (load_dotenv "/e" w0 = (Ok (), (load_dotenv "/e" w0).2)) as E by (apply run_eta; vm_refl).
  split; [vm_refl|].
  rewrite (dotenv_never_overrides "/e" ("# settings" +:+ lf +:+ "A=1" +:+ lf +:+ " B = 'two' " +:+ lf +:+ "B=3" +:+ lf)
    w0 w0 (load_dotenv "/e" w0).2 ltac:(vm_refl) E). split; vm_refl.
Defined.

(** A name that is empty makes the system refuse, and the suite panic. *)
Lemma empty_name_panics :
  (load_dotenv "/e" (Sim.mkWorld {["/e/.env" := mkFile ("=x" +:+ lf) 420]} [] (mkProcess ∅ 0))).1 =
  Err (anyhow "failed to set environment variable").
Proof. vm_refl. Qed.

(** Three attempts fit into two and a half seconds. *)
Definition never : Poll (W := World) bool := mkPoll (io_ret None) (from_secs 1) 2500000000 false.
Lemma poll_returns_witness : (run_poll 5 never Start w0).1 <> Err still_running.
Proof.
  apply poll_returns; [done|done| | |done]; cbn; intros; [lia|].
  split; [done|lia].
Defined.

Lemma handshaken_iff_witness :
  (wg_peers_handshaken (fun _ => "") "/k" "b" w0).1 = Ok true /\ (wg_peers_handshaken (fun _ => "") "/k" "a" w0).1 = Ok false.
Proof.
  set (w1 := (ssh (fun _ => "") "/k" "b" "wg show wg0 latest-handshakes" w0).2).
  assert (ssh (fun _ => "") "/k" "b" "wg show wg0 latest-handshakes" w0 = (Ok (Ok ("p1=" +:+ tab +:+ "17" +:+ lf)), w1)) as E
    by (apply run_eta; vm_refl).
  split; [|vm_refl]. rewrite (proj2 (handshaken_iff (fun _ => "") "/k" "b" w0 w1 _ E)); [done|].
  exists ("p1=" +:+ tab +:+ "17" +:+ lf). split; [done|].
  assert (second_words ("p1=" +:+ tab +:+ "17" +:+ lf) = ["17"]) as -> by vm_refl.
  split; [done|]. constructor; [done|constructor].
Defined.
End Demo.
