(* ===== verification/Hetzner.v ===== *)
(** * The cloud client of the test harness

    [e2e-tests/src/hetzner.rs], and the sweeper of [e2e-tests/tests/install.rs]:
    a suite uploads a key, creates servers, waits for them, and deletes what it
    created when its [EphemeralCluster] goes out of scope, whether it passed or
    panicked.  Servers cost money, so the properties are about what is deleted:
    every call to the cloud is a [curl] process, and [Traced] is any machine with
    the list of the processes it ran and what each answered.

    The threads that wait for the servers take turns in any order: [sched] says
    which ones take a turn before each is joined.  [fuel] bounds the polls and the
    pages of a listing ([find_key_returns], [Harness.poll_returns]). *)

From S2P Require Import Prelude RustStr RustPath Messages Serde Host HostJwt Harness.
Local Open Scope Z_scope.

Definition API : string := "https://api.hetzner.cloud/v1".

Record HetznerClient := mkClient { hc_token : string; hc_project : string }.
Record Server := mkServer { sv_id : Z; sv_name : string; sv_ipv4 : string }.
Record EphemeralCluster := mkCluster {
  ec_client : HetznerClient;
  ec_key_id : Z;
  ec_key_owned : bool;
  ec_servers : list Server;
  ec_ssh_key : string;
}.

(** [value[k]]: null when there is no such field. *)
Definition json_at (k : string) (j : json) : json := default JNull (json_get k j).
(** [value.as_array().cloned().unwrap_or_default()]. *)
Definition array_or_empty (j : json) : list json := match j with JArr l => l | _ => [] end.
Definition as_u64 : json -> option Z := dec_u64.

Definition normalize_pubkey (pk : string) : string :=
  match split_whitespace pk with
  | algo :: body :: _ => algo +:+ " " +:+ body
  | _ => trim pk
  end.

Definition labels (c : HetznerClient) : json :=
  JObj [("coolify-e2e", JStr "1"); ("coolify-e2e-project", JStr (hc_project c))].

(* ------------------------------------------------------------------ *)
(** ** Calls and their answers *)

Definition status_marker : string := lf +:+ "HTTP_STATUS:".

Definition curl_args (c : HetznerClient) (method path : string) (body : option string) : list string :=
  ["curl"; "-sS"; "-X"; method; "-H"; "Authorization: Bearer " +:+ hc_token c;
   "-H"; "Content-Type: application/json"; "-w"; status_marker +:+ "%{http_code}"]
  ++ match body with Some b => ["-d"; b] | None => [] end ++ [API +:+ path].

Definition key_path (id : Z) : string := "/ssh_keys/" +:+ show_Z id.
Definition server_path (id : Z) : string := "/servers/" +:+ show_Z id.

Section Answers.
(** [from_str] is [serde_json::from_str], with the text of its error;
    [debug_code] the text of a status's [code()], [to_string] serde_json's
    rendering. *)
Context (from_str : string -> result json string) (to_string : json -> string) (debug_code : Output -> string).
Local Open Scope rust_scope.

(** What [curl] makes of the process it ran. *)
Definition read_answer (method path : string) (r : result Output Error) : result json string :=
  match r with
  | Err e => Err ("curl spawn: " +:+ show_error e)
  | Ok out =>
      if o_success out then
        let stdout := from_utf8_lossy (o_out out) in
        let '(body_part, status_part) := default (stdout, "0") (rsplit_once_str status_marker stdout) in
        let status := default 0 (parse_uint 65535 (trim status_part)) in
        let body_trim := trim body_part in
        if (200 <=? status) && (status <? 300) then
          if is_empty body_trim then Ok JNull
          else map_err (fun e => "parse json " +:+ method +:+ " " +:+ path +:+ ": " +:+ e +:+ ": " +:+ body_trim)
                 (from_str body_trim)
        else Err ("hetzner " +:+ method +:+ " " +:+ path +:+ " status=" +:+ show_Z status +:+ " body=" +:+ body_trim)
      else Err ("curl " +:+ method +:+ " " +:+ path +:+ " exit " +:+ debug_code out +:+ ": "
                +:+ trim (from_utf8_lossy (o_err out)))
  end.

Definition uploaded_id (resp : json) : result Z string :=
  match as_u64 (json_at "id" (json_at "ssh_key" resp)) with
  | Some id => Ok id
  | None => Err ("no ssh_key.id in response: " +:+ to_string resp)
  end.

Definition created_server (name : string) (resp : json) : result Server string :=
  let s := json_at "server" resp in
  match as_u64 (json_at "id" s) with
  | None => Err ("no server.id in response: " +:+ to_string resp)
  | Some id =>
      match as_str (json_at "ip" (json_at "ipv4" (json_at "public_net" s))) with
      | None => Err ("no public_net.ipv4.ip in response: " +:+ to_string resp)
      | Some ipv4 => Ok (mkServer id name ipv4)
      end
  end.

(** The first key of a page that matches, with its id if it has one. *)
Fixpoint matching_key (target : string) (items : list json) : option (option Z) :=
  match items with
  | [] => None
  | k :: items' =>
      match as_str (json_at "public_key" k) with
      | Some pk => if decide (normalize_pubkey pk = target) then Some (as_u64 (json_at "id" k))
                   else matching_key target items'
      | None => matching_key target items'
      end
  end.

(** [as u32] keeps the low bits. *)
Definition last_page (resp : json) : Z :=
  default 1 (as_u64 (json_at "last_page" (json_at "pagination" (json_at "meta" resp)))) mod 4294967296.

Definition key_body (c : HetznerClient) (pubkey name : string) : string :=
  to_string (JObj [("name", JStr name); ("public_key", JStr (trim pubkey)); ("labels", labels c)]).
Definition server_body (c : HetznerClient) (name : string) (ssh_key_id : Z) (image server_type location : string) : string :=
  to_string (JObj [("name", JStr name); ("server_type", JStr server_type); ("image", JStr image);
                   ("location", JStr location); ("ssh_keys", JArr [JNum ssh_key_id]); ("labels", labels c);
                   ("start_after_create", JBool true)]).

Context {W : Type} `{!Host W} `{!Machine W}.

Definition curl (c : HetznerClient) (method path : string) (body : option string) : Io W (result json string) :=
  let! r := attempt (output (curl_args c method path body)) in io_ret (read_answer method path r).

Definition upload_key (c : HetznerClient) (pubkey name : string) : Io W (result Z string) :=
  let?! resp := curl c "POST" "/ssh_keys" (Some (key_body c pubkey name)) in io_ret (uploaded_id resp).

Definition keys_page (page : Z) : string := "/ssh_keys?per_page=50&page=" +:+ show_Z page.

Fixpoint find_key_from (fuel : nat) (c : HetznerClient) (target : string) (page : Z) : Io W (result (option Z) string) :=
  match fuel with
  | O => io_fail still_running
  | S fuel' =>
      let?! resp := curl c "GET" (keys_page page) None in
      let items := array_or_empty (json_at "ssh_keys" resp) in
      match matching_key target items with
      | Some id => io_ret (Ok id)
      | None =>
          if (last_page resp <=? page) || bool_decide (items = []) then io_ret (Ok None)
          else find_key_from fuel' c target (page + 1)
      end
  end.
Definition find_key_by_pubkey (fuel : nat) (c : HetznerClient) (pubkey : string) : Io W (result (option Z) string) :=
  find_key_from fuel c (normalize_pubkey pubkey) 1.

Definition delete_key (c : HetznerClient) (id : Z) : Io W (result unit string) :=
  let?! _ := curl c "DELETE" (key_path id) None in io_ret (Ok ()).

Definition create_server (c : HetznerClient) (name : string) (ssh_key_id : Z) (image server_type location : string) :
    Io W (result Server string) :=
  let?! resp := curl c "POST" "/servers" (Some (server_body c name ssh_key_id image server_type location)) in
  io_ret (created_server name resp).

Definition delete_server (c : HetznerClient) (id : Z) : Io W (result unit string) :=
  let?! _ := curl c "DELETE" (server_path id) None in io_ret (Ok ()).

Definition list_labeled (c : HetznerClient) (resource : string) : Io W (result (list json) string) :=
  let?! resp := curl c "GET" ("/" +:+ resource +:+ "?label_selector=coolify-e2e%3D1") None in
  io_ret (Ok (array_or_empty (json_at resource resp))).

(* ------------------------------------------------------------------ *)
(** ** Waiting for servers *)

Definition ssh_ready (ipv4 ssh_key : string) (timeout : Z) : Poll (W := W) (result unit string) :=
  mkPoll (let! r := attempt (output (["ssh"] ++ ephemeral_ssh_args ssh_key ++ ["root@" +:+ ipv4; "true"])) in
          io_ret (match r with Ok o => if o_success o then Some (Ok ()) else None | Err _ => None end))
    (from_secs 3) timeout (Err ("ssh never ready for " +:+ ipv4)).

Definition cloud_init_done (ssh_key ip : string) (timeout : Z) : Poll (W := W) unit :=
  mkPoll (let! r := attempt (output (["ssh"] ++ ephemeral_ssh_args ssh_key
                                     ++ ["root@" +:+ ip; "cloud-init status --wait 2>/dev/null || true"])) in
          io_ret (match r with
                  | Ok o => if contains_str "status: done" (from_utf8_lossy (o_out o)) then Some () else None
                  | Err _ => None
                  end))
    (from_secs 3) timeout ().

Definition wait_ssh_ready (fuel : nat) (ipv4 ssh_key : string) (timeout : Z) : Io W (result unit string) :=
  run_poll fuel (ssh_ready ipv4 ssh_key timeout) Start.
Definition wait_cloud_init (fuel : nat) (ssh_key ip : string) (timeout : Z) : Io W unit :=
  run_poll fuel (cloud_init_done ssh_key ip timeout) Start.

(** Threads that poll: the ones [sched] names take a turn, in that order. *)
Fixpoint take_turns {A} (ps : list (Poll (W := W) A)) (sched : list nat) (sts : list (PollState A)) :
    Io W (list (PollState A)) :=
  match sched with
  | [] => io_ret sts
  | i :: sched' =>
      match ps !! i, sts !! i with
      | Some p, Some st => let! st' := turn p st in take_turns ps sched' (<[i := st']> sts)
      | _, _ => take_turns ps sched' sts
      end
  end.

(** [handle.join()]: others may run before the thread has ended. *)
Definition join_thread {A} (fuel : nat) (ps : list (Poll (W := W) A)) (sched : list nat) (i : nat) (sts : list (PollState A)) :
    Io W (option A * list (PollState A)) :=
  let! sts := take_turns ps sched sts in
  match ps !! i, sts !! i with
  | Some p, Some st => let! a := run_poll fuel p st in io_ret (Some a, <[i := Done a]> sts)
  | _, _ => io_ret (None, sts)
  end.

(* ------------------------------------------------------------------ *)
(** ** The cluster *)

Definition best_effort_cleanup (c : HetznerClient) (key_id : Z) (key_owned : bool) (servers : list Server) : Io W unit :=
  io_each (fun s => delete_server c (sv_id s);; io_ret ()) servers;;
  if key_owned then delete_key c key_id;; io_ret () else io_ret ().

Fixpoint create_servers (c : HetznerClient) (key_id : Z) (key_owned : bool) (image stype location : string)
    (name_of : nat -> string) (idx : list nat) (servers : list Server) : Io W (list Server) :=
  match idx with
  | [] => io_ret servers
  | i :: idx' =>
      let! r := create_server c (name_of i) key_id image stype location in
      match r with
      | Ok s => create_servers c key_id key_owned image stype location name_of idx' (servers ++ [s])
      | Err e =>
          best_effort_cleanup c key_id key_owned servers;;
          panic ("create_server " +:+ name_of i +:+ ": " +:+ e)
      end
  end.

Fixpoint join_ready (fuel : nat) (sched : nat -> list nat) (cleanup : Io W unit)
    (ps : list (Poll (W := W) (result unit string))) (idx : list nat) (sts : list (PollState (result unit string))) : Io W unit :=
  match idx with
  | [] => io_ret ()
  | i :: idx' =>
      let! (r, sts) := join_thread fuel ps (sched i) i sts in
      match r with
      | Some (Err e) => cleanup;; panic ("ssh ready: " +:+ e)
      | _ => join_ready fuel sched cleanup ps idx' sts
      end
  end.

Fixpoint join_cloud_init (fuel : nat) (sched : nat -> list nat)
    (ps : list (Poll (W := W) unit)) (idx : list nat) (sts : list (PollState unit)) : Io W unit :=
  match idx with
  | [] => io_ret ()
  | i :: idx' => let! (_, sts) := join_thread fuel ps (sched i) i sts in join_cloud_init fuel sched ps idx' sts
  end.

Definition derive_pubkey (privkey_path : string) : Io W (result string string) :=
  let sibling := privkey_path +:+ ".pub" in
  let! there := reads (path_exists sibling) in
  if there then
    let! r := attempt (read_to_string sibling) in
    io_ret (match r with Ok pk => Ok (trim pk) | Err e => Err ("read " +:+ sibling +:+ ": " +:+ show_error e) end)
  else
    let?! o := spawn debug_code ["ssh-keygen"; "-y"; "-f"; privkey_path] "spawn ssh-keygen" ("ssh-keygen -y -f " +:+ privkey_path) in
    let pk := trim (from_utf8_lossy (o_out o)) in
    io_ret (if is_empty pk then Err ("ssh-keygen produced empty output for " +:+ privkey_path) else Ok pk).

Definition from_env (manifest_dir : string) : Io W HetznerClient :=
  load_dotenv manifest_dir;;
  let! token := must_env "HETZNER_TOKEN" in
  let! project := must_env "HETZNER_PROJECT" in
  io_ret (mkClient token project).

Definition acquire_key (fuel : nat) (c : HetznerClient) (pubkey key_name : string) : Io W (Z * bool) :=
  let! found := or_panic "find existing pubkey" (find_key_by_pubkey fuel c pubkey) in
  match found with
  | Some id => io_ret (id, false)
  | None => let! id := or_panic "upload pubkey" (upload_key c pubkey key_name) in io_ret (id, true)
  end.

Definition provision (fuel : nat) (sched_ready sched_init : nat -> list nat) (manifest_dir : string)
    (count : nat) (prefix : string) : Io W EphemeralCluster :=
  if (count =? 0)%nat then panic "count must be >= 1" else
  let! ssh_key := must_env "SSH_KEY" in
  let! pubkey := or_panic ("derive pubkey from " +:+ ssh_key) (derive_pubkey ssh_key) in
  let! c := from_env manifest_dir in
  let! location := reads (fun w => default "nbg1" (env_var "HETZNER_LOCATION" w)) in
  let! image := reads (fun w => default "ubuntu-24.04" (env_var "HETZNER_IMAGE" w)) in
  let! stype := reads (fun w => default "cx23" (env_var "HETZNER_SERVER_TYPE" w)) in
  let! nanos := reads system_time in
  if nanos <? 0 then panic "called `Result::unwrap()` on an `Err` value: SystemTimeError" else
  let run_name := "coold-e2e-" +:+ prefix +:+ "-" +:+ show_Z nanos in
  let! (key_id, key_owned) := acquire_key fuel c pubkey run_name in
  let! servers := create_servers c key_id key_owned image stype location
                    (fun i => run_name +:+ "-" +:+ show_Z (Z.of_nat i)) (seq 0 count) [] in
  let threads := seq 0 (length servers) in
  join_ready fuel sched_ready (best_effort_cleanup c key_id key_owned servers)
    ((fun s => ssh_ready (sv_ipv4 s) ssh_key (from_secs 180)) <$> servers) threads ((fun _ => Start) <$> servers);;
  join_cloud_init fuel sched_init
    ((fun s => cloud_init_done ssh_key (sv_ipv4 s) (from_secs 300)) <$> servers) threads ((fun _ => Start) <$> servers);;
  io_ret (mkCluster c key_id key_owned servers ssh_key).

(** [Drop for EphemeralCluster]. *)
Definition drop_cluster (ec : EphemeralCluster) : Io W unit :=
  let! keep := reads (env_var "E2E_KEEP_VMS") in
  if decide (keep = Some "1") then io_ret () else
  io_each (fun s => delete_server (ec_client ec) (sv_id s);; io_ret ()) (ec_servers ec);;
  if ec_key_owned ec then
    does (sleep (from_secs 2));; delete_key (ec_client ec) (ec_key_id ec);; io_ret ()
  else io_ret ().

(** The scope of a cluster: it is dropped when the rest of the test has returned
    or panicked. *)
Definition end_scope {A} (ec : EphemeralCluster) (r : result A Error) : Io W A :=
  match r with
  | Err [] => io_fail still_running
  | _ => drop_cluster ec;; io_lift r
  end.
Definition hold_cluster {A} (ec : EphemeralCluster) (test : Io W A) : Io W A :=
  let! r := attempt test in end_scope ec r.
Definition with_cluster {A} (fuel : nat) (sched_ready sched_init : nat -> list nat) (manifest_dir : string)
    (count : nat) (prefix : string) (test : EphemeralCluster -> Io W A) : Io W A :=
  let! ec := provision fuel sched_ready sched_init manifest_dir count prefix in
  hold_cluster ec (test ec).

(* ------------------------------------------------------------------ *)
(** ** The sweeper *)

(** [r.expect(what)]; [debug_str] is Rust's [Debug] of a string. *)
Context (debug_str : string -> string).
Definition expect {A} (what : string) (m : Io W (result A string)) : Io W A :=
  let! r := m in match r with Ok a => io_ret a | Err e => panic (what +:+ ": " +:+ debug_str e) end.

Definition sweep_one (del : Z -> Io W (result unit string)) (j : json) : Io W unit :=
  let id := default 0 (as_u64 (json_at "id" j)) in
  if id =? 0 then io_ret () else del id;; io_ret ().

Definition cleanup_leaked_hetzner (manifest_dir : string) : Io W unit :=
  let! confirmed := reads (env_var "CONFIRM_SWEEP") in
  if decide (confirmed = Some "1") then
    let! c := from_env manifest_dir in
    let! servers := expect "list servers" (list_labeled c "servers") in
    io_each (sweep_one (delete_server c)) servers;;
    does (sleep (from_secs 3));;
    let! keys := expect "list ssh_keys" (list_labeled c "ssh_keys") in
    io_each (sweep_one (delete_key c)) keys
  else io_ret ().
End Answers.

(* ------------------------------------------------------------------ *)
(** ** Any machine, with the processes it ran *)

Definition Call : Type := list string * result Output Error.

Record Traced (W : Type) := mkTraced { t_world : W; t_calls : list Call }.
Arguments mkTraced {W} _ _.
Arguments t_world {W} _.
Arguments t_calls {W} _.

Section Traced.
Context {W : Type} `{HW : !Host W} `{MW : !Machine W}.

Definition on_world {A} (m : Io W A) : Io (Traced W) A := fun t =>
  let '(r, w') := m (t_world t) in (r, mkTraced w' (t_calls t)).

#[export] Instance traced_host : Host (Traced W) := {|
  output argv := fun t =>
    let '(r, w') := output argv (t_world t) in (r, mkTraced w' (t_calls t ++ [(argv, r)]));
  path_exists p t := path_exists p (t_world t);
  read_to_string p := on_world (read_to_string p);
  write_file p s := on_world (write_file p s);
  create_dir_all p := on_world (create_dir_all p);
  rename p q := on_world (rename p q);
  remove_file p := on_world (remove_file p);
  read_dir p := on_world (read_dir p);
  open_truncate p m := on_world (open_truncate p m);
  write_all p s := on_world (write_all p s);
  flush p := on_world (flush p);
  file_mode p := on_world (file_mode p);
  set_mode p m := on_world (set_mode p m);
  canonicalize p t := canonicalize p (t_world t);
|}.

#[export] Instance traced_machine : Machine (Traced W) := {|
  env t := env (t_world t);
  set_env k v t := mkTraced (set_env k v (t_world t)) (t_calls t);
  now t := now (t_world t);
  system_time t := system_time (t_world t);
  sleep d t := mkTraced (sleep d (t_world t)) (t_calls t);
|}.

(** The calls to the cloud. *)
Definition is_api (e : Call) : Prop := head e.1 = Some "curl".
#[export] Instance is_api_dec e : Decision (is_api e).
Proof. unfold is_api. apply _. Defined.
Definition api (t : Traced W) : list Call := filter is_api (t_calls t).

(** What a run returns and the calls it adds. *)
Definition makes {A} (m : Io (Traced W) A) (Q : result A Error -> list Call -> Prop) : Prop :=
  forall t, exists l, api (m t).2 = api t ++ l /\ Q (m t).1 l.
Definition silent {A} (m : Io (Traced W) A) : Prop := makes m (fun _ l => l = []).

Lemma makes_weaken {A} (m : Io (Traced W) A) (P Q : result A Error -> list Call -> Prop) :
  makes m P -> (forall r l, P r l -> Q r l) -> makes m Q.
Proof. intros H HPQ t. destruct (H t) as (l & E & HP). exists l. split; [done|by apply HPQ]. Qed.

Lemma makes_bind {A B} (m : Io (Traced W) A) (k : A -> Io (Traced W) B) P R (Q : result B Error -> list Call -> Prop) :
  makes m P -> (forall a, makes (k a) (R a)) ->
  (forall e l, P (Err e) l -> Q (Err e) l) ->
  (forall a r l1 l2, P (Ok a) l1 -> R a r l2 -> Q r (l1 ++ l2)) ->
  makes (io_bind m k) Q.
Proof.
  intros Hm Hk HE HO t. unfold io_bind. destruct (Hm t) as (l1 & E1 & H1).
  destruct (m t) as [[a|e] t1]; cbn in *; [|by exists l1; eauto].
  destruct (Hk a t1) as (l2 & E2 & H2). exists (l1 ++ l2). rewrite E2, E1, (assoc_L (++)). eauto.
Qed.

Lemma makes_ret {A} (a : A) : makes (io_ret a) (fun r l => r = Ok a /\ l = []).
Proof. intros t. exists []. by rewrite (right_id_L [] (++)). Qed.
Lemma makes_fail {A} e : makes (io_fail (A := A) e) (fun r l => r = Err e /\ l = []).
Proof. intros t. exists []. by rewrite (right_id_L [] (++)). Qed.

Lemma silent_ret {A} (a : A) : silent (io_ret a).
Proof. apply (makes_weaken _ _ _ (makes_ret a)). naive_solver. Qed.
Lemma silent_fail {A} e : silent (io_fail (A := A) e).
Proof. apply (makes_weaken _ _ _ (makes_fail e)). naive_solver. Qed.
Lemma silent_panic {A} s : silent (panic (A := A) s).
Proof. apply silent_fail. Qed.
Lemma silent_reads {A} (f : Traced W -> A) : silent (reads f).
Proof. intros t. exists []. by rewrite (right_id_L [] (++)). Qed.
Lemma silent_bind {A B} (m : Io (Traced W) A) (k : A -> Io (Traced W) B) :
  silent m -> (forall a, silent (k a)) -> silent (io_bind m k).
Proof. intros Hm Hk. apply (makes_bind _ _ (fun _ l => l = []) (fun _ _ l => l = [])); [done|done|done|]. by intros ? ? ? ? -> ->. Qed.
Lemma silent_each {A} (f : A -> Io (Traced W) unit) l : (forall a, silent (f a)) -> silent (io_each f l).
Proof. intros Hf. induction l; cbn; [apply silent_ret|by apply silent_bind]. Qed.
Lemma silent_attempt {A} (m : Io (Traced W) A) : silent m -> silent (attempt m).
Proof. intros H t. specialize (H t). unfold attempt. by destruct (m t). Qed.
Lemma silent_world {A} (m : Io W A) : silent (on_world m).
Proof. intros t. exists []. unfold on_world. destruct (m (t_world t)). by rewrite (right_id_L [] (++)). Qed.
Lemma silent_set_var k v : silent (set_var k v).
Proof. unfold set_var. destruct (settable k v); intros t; exists []; by rewrite (right_id_L [] (++)). Qed.
Lemma silent_sleep d : silent (does (sleep d)).
Proof. intros t. exists []. by rewrite (right_id_L [] (++)). Qed.

(** A process that is not [curl] is no call. *)
Lemma silent_output argv : head argv <> Some "curl" -> silent (output argv).
Proof.
  intros Ha t. exists []. cbn. destruct (output argv (t_world t)) as [r w']. split; [|done].
  unfold api. cbn. by rewrite filter_app, filter_cons_False.
Qed.
End Traced.

Create HintDb silent.
#[export] Hint Resolve silent_ret silent_fail silent_panic silent_reads silent_each silent_attempt silent_world silent_set_var
  silent_sleep : silent.
Ltac silent := repeat first
  [ solve [auto 2 with silent] | apply silent_bind; [|intros] | apply silent_each; intros | apply silent_attempt
  | apply silent_output; discriminate | apply (silent_world _) | case_match ].

(* ------------------------------------------------------------------ *)
(** ** What a suite leaves in the cloud *)

Section Calls.
Context (from_str : string -> result json string) (to_string : json -> string) (debug_code : Output -> string).
Context {W : Type} `{HW : !Host W} `{MW : !Machine W}.
Local Open Scope rust_scope.
Implicit Types (c : HetznerClient) (l : list Call).
Notation T := (Traced W).

Definition delete_server_call c (id : Z) : list string := curl_args c "DELETE" (server_path id) None.
Definition delete_key_call c (id : Z) : list string := curl_args c "DELETE" (key_path id) None.
Definition is_lookup c (e : Call) : Prop := exists path, e.1 = curl_args c "GET" path None.
Definition is_upload c (e : Call) : Prop := exists body, e.1 = curl_args c "POST" "/ssh_keys" (Some body).
Definition is_create c (e : Call) : Prop := exists body, e.1 = curl_args c "POST" "/servers" (Some body).

(** The ids the answers name, wherever the rest of the answer leads: [ssh_key.id]
    and [server.id] of a JSON body that came with a status of success. *)
Definition answered (path : string) (e : Call) (fields : list string) : option json :=
  match read_answer from_str debug_code "POST" path e.2 with
  | Ok resp => Some (foldl (fun j k => json_at k j) resp fields)
  | Err _ => None
  end.
Definition named_key (e : Call) : option Z := answered "/ssh_keys" e ["ssh_key"; "id"] ≫= as_u64.
Definition named_server (e : Call) : option Z := answered "/servers" e ["server"; "id"] ≫= as_u64.
(** No IPv4 address came with the server. *)
Definition addressless (e : Call) : Prop :=
  answered "/servers" e ["server"; "public_net"; "ipv4"; "ip"] ≫= as_str = None.

(** The servers the calls have named: all of them, or all but the last when it came
    without an address. *)
Definition told (posts : list Call) (ids : list Z) : Prop :=
  ids = omap named_server posts \/
  exists before e, posts = before ++ [e] /\ addressless e /\ ids = omap named_server before.

Definition teardown c (servers keys : list Z) : list (list string) :=
  (delete_server_call c <$> servers) ++ (delete_key_call c <$> keys).

Lemma makes_silent_bind {A B} (m : Io T A) (k : A -> Io T B) (Q : result B Error -> list Call -> Prop) :
  silent m -> (forall a, makes (k a) Q) -> (forall e, Q (Err e) []) -> makes (io_bind m k) Q.
Proof.
  intros Hm Hk HE. apply (makes_bind _ _ (fun _ l => l = []) (fun _ => Q)); [done|done|by intros e ? ->|].
  by intros a r ? l2 -> H.
Qed.

Lemma makes_curl c method path body :
  makes (curl (W := T) from_str debug_code c method path body)
    (fun r l => exists ans, r = Ok (read_answer from_str debug_code method path ans) /\
                            l = [(curl_args c method path body, ans)]).
Proof.
  intros t. unfold curl, io_bind, attempt. cbn [output traced_host].
  destruct (output _ (t_world t)) as [ans w']. exists [(curl_args c method path body, ans)]. split; [|by exists ans].
  unfold api. cbn. by rewrite filter_app.
Qed.
Lemma makes_call {A} c method path body (f : json -> result A string) :
  makes (try_bind (curl (W := T) from_str debug_code c method path body) (fun resp => io_ret (f resp)))
    (fun r l => exists ans, r = Ok (rbind (read_answer from_str debug_code method path ans) f) /\
                            l = [(curl_args c method path body, ans)]).
Proof.
  unfold try_bind. apply (makes_bind _ _ _ (fun a r l => r = Ok (rbind a f) /\ l = []) _ (makes_curl c method path body)).
  - intros [a|e]; apply makes_ret.
  - naive_solver.
  - intros a r ? ? (ans & [= ->] & ->) [-> ->]. by exists ans.
Qed.

Lemma makes_or_panic {A} what (m : Io T (result A string)) P :
  makes m P ->
  makes (or_panic what m) (fun r l => match r with
    | Ok a => P (Ok (Ok a)) l
    | Err _ => (exists e, P (Ok (Err e)) l) \/ (exists e, P (Err e) l)
    end).
Proof.
  intros Hm. unfold or_panic. apply (makes_bind _ _ _ (fun a r l => is_ok r = is_ok a /\ (forall x, r = Ok x -> a = Ok x) /\ l = []) _ Hm).
  - intros [a|e]; [apply (makes_weaken _ _ _ (makes_ret a))|apply (makes_weaken _ _ _ (makes_fail _))];
      intros r l [-> ->]; naive_solver.
  - cbn. eauto.
  - intros a r l1 l2 H (E & Hx & ->). rewrite (right_id_L [] (++)). destruct r as [x|e]; [by rewrite <- (Hx x)|].
    destruct a; [done|]. eauto.
Qed.

Lemma makes_delete_server c id :
  makes (delete_server (W := T) from_str debug_code c id;; io_ret ()) (fun r l => r = Ok () /\ l.*1 = [delete_server_call c id]).
Proof.
  eapply makes_bind; [apply makes_call|intros; apply makes_ret|naive_solver|].
  cbn. intros a r ? ? (ans & _ & ->) [-> ->]. done.
Qed.
Lemma makes_delete_key c id :
  makes (delete_key (W := T) from_str debug_code c id;; io_ret ()) (fun r l => r = Ok () /\ l.*1 = [delete_key_call c id]).
Proof.
  eapply makes_bind; [apply makes_call|intros; apply makes_ret|naive_solver|].
  cbn. intros a r ? ? (ans & _ & ->) [-> ->]. done.
Qed.

Lemma makes_delete_servers c (servers : list Server) :
  makes (io_each (fun s => delete_server (W := T) from_str debug_code c (sv_id s);; io_ret ()) servers)
    (fun r l => r = Ok () /\ l.*1 = delete_server_call c <$> (sv_id <$> servers)).
Proof.
  induction servers as [|s servers IH]; cbn [io_each].
  - apply (makes_weaken _ _ _ (makes_ret ())). by intros r l [-> ->].
  - eapply makes_bind; [apply makes_delete_server|intros; apply IH|naive_solver|].
    cbn. intros a r l1 l2 [_ E1] [-> E2]. by rewrite fmap_app, E1, E2.
Qed.

Definition owned (key_owned : bool) (key_id : Z) : list Z := if key_owned then [key_id] else [].

Lemma makes_teardown c key_id key_owned servers (pause : Io T unit) :
  makes pause (fun r l => r = Ok () /\ l = []) ->
  makes (io_each (fun s => delete_server (W := T) from_str debug_code c (sv_id s);; io_ret ()) servers;;
         if key_owned : bool then pause;; delete_key (W := T) from_str debug_code c key_id;; io_ret () else io_ret ())
    (fun r l => r = Ok () /\ l.*1 = teardown c (sv_id <$> servers) (owned key_owned key_id)).
Proof.
  intros Hp. eapply makes_bind with (R := fun _ r l => r = Ok () /\ l.*1 = delete_key_call c <$> owned key_owned key_id);
    [apply makes_delete_servers|intros _|naive_solver|].
  - destruct key_owned; [|apply (makes_weaken _ _ _ (makes_ret ())); by intros r l [-> ->]].
    eapply makes_bind; [apply Hp|intros; apply makes_delete_key|naive_solver|].
    cbn. intros a r l1 l2 [_ ->] [-> E]. done.
  - cbn. intros a r l1 l2 [_ E1] [-> E2]. by rewrite fmap_app, E1, E2.
Qed.

Lemma makes_cleanup c key_id key_owned servers :
  makes (best_effort_cleanup (W := T) from_str debug_code c key_id key_owned servers)
    (fun r l => r = Ok () /\ l.*1 = teardown c (sv_id <$> servers) (owned key_owned key_id)).
Proof. apply (makes_teardown c key_id key_owned servers (io_ret ())). apply makes_ret. Qed.

Lemma named_server_created name (e : Call) s :
  rbind (read_answer from_str debug_code "POST" "/servers" e.2) (created_server to_string name) = Ok s ->
  named_server e = Some (sv_id s).
Proof.
  unfold named_server, answered. destruct (read_answer _ _ _ _ e.2) as [resp|err]; [cbn|done]. unfold created_server.
  destruct (as_u64 _) as [id|]; [|done]. destruct (as_str _); [|done]. by intros [= <-].
Qed.
Lemma told_uncreated name (e : Call) err :
  rbind (read_answer from_str debug_code "POST" "/servers" e.2) (created_server to_string name) = Err err -> told [e] [].
Proof.
  unfold told, addressless, named_server, answered.
  destruct (read_answer _ _ _ _ e.2) as [resp|?] eqn:E; cbn; [|rewrite E; by left]. rewrite E. cbn. unfold created_server.
  destruct (as_u64 _) as [id|]; [|by left]. destruct (as_str _) eqn:Ea; [done|]. intros _. right. exists [], e. rewrite E. by cbn.
Qed.
Lemma told_cons e id posts ids : named_server e = Some id -> told posts ids -> told (e :: posts) (id :: ids).
Proof.
  intros He [->|(before & l & -> & Hl & ->)]; [left; cbn; by rewrite He|].
  right. exists (e :: before), l. cbn. by rewrite He.
Qed.

(** Creating servers: those whose creation was understood are returned, or
    deleted again. *)
Lemma makes_create c key_id key_owned image stype location name_of idx acc :
  makes (create_servers (W := T) from_str to_string debug_code c key_id key_owned image stype location name_of idx acc)
    (fun r l => exists posts dels, l = posts ++ dels /\ Forall (is_create c) posts /\
       match r with
       | Ok servers => dels = [] /\ sv_id <$> servers = (sv_id <$> acc) ++ omap named_server posts
       | Err _ => exists ids, told posts ids /\ dels.*1 = teardown c ((sv_id <$> acc) ++ ids) (owned key_owned key_id)
       end).
Proof.
  revert acc. induction idx as [|i idx IH]; intros acc; cbn [create_servers].
  - apply (makes_weaken _ _ _ (makes_ret acc)). intros r l [-> ->]. exists [], []. cbn. by rewrite (right_id_L [] (++)).
  - eapply makes_bind with (R := fun sr r l => match sr with
       | Ok s => exists posts dels, l = posts ++ dels /\ Forall (is_create c) posts /\
           match r with
           | Ok servers => dels = [] /\ sv_id <$> servers = (sv_id <$> (acc ++ [s])) ++ omap named_server posts
           | Err _ => exists ids, told posts ids /\ dels.*1 = teardown c ((sv_id <$> (acc ++ [s])) ++ ids) (owned key_owned key_id)
           end
       | Err _ => is_ok r = false /\ l.*1 = teardown c (sv_id <$> acc) (owned key_owned key_id)
       end).
    + apply makes_call.
    + intros [s|e]; [apply IH|]. eapply makes_bind; [apply makes_cleanup|intros; apply makes_fail|naive_solver|].
      cbn. intros a r l1 l2 [_ E] [-> ->]. by rewrite (right_id_L [] (++)).
    + naive_solver.
    + intros sr r l1 l2 (ans & [= E] & ->) HR.
      set (e := (curl_args c "POST" "/servers" _, ans)). assert (is_create c e) as He by by eexists.
      destruct sr as [s|err].
      * destruct HR as (posts & dels & -> & Hp & Hr). exists (e :: posts), dels.
        split_and!; [done|by constructor|]. assert (named_server e = Some (sv_id s)) as He' by (by apply (named_server_created (name_of i))).
        rewrite fmap_app in Hr. destruct r as [servers|err].
        -- cbn in Hr |- *. by rewrite He', <- (assoc_L (++)) in *.
        -- destruct Hr as (ids & Hi & Hr). exists (sv_id s :: ids). split; [by apply told_cons|]. by rewrite <- (assoc_L (++)) in Hr.
      * destruct HR as [Hr El]. exists [e], l2. split_and!; [done|by constructor|].
        destruct r; [done|]. exists []. split; [by apply (told_uncreated (name_of i) e err)|]. by rewrite (right_id_L [] (++)).
Qed.

(** Waiting makes no call, and only ends without a result when it has not ended. *)
Definition waits {A} (m : Io T A) : Prop := makes m (fun r l => l = [] /\ forall e, r = Err e -> e = still_running).
Lemma waits_ret {A} (a : A) : waits (io_ret a).
Proof. apply (makes_weaken _ _ _ (makes_ret a)). by intros r l [-> ->]. Qed.
Lemma waits_bind {A B} (m : Io T A) (k : A -> Io T B) : waits m -> (forall a, waits (k a)) -> waits (io_bind m k).
Proof.
  intros Hm Hk. eapply makes_bind; [apply Hm|apply Hk|naive_solver|]. cbn. by intros a r ? ? [-> _] [-> H].
Qed.
Lemma waits_of_silent {A} (m : Io T A) : silent m -> (forall t e, (m t).1 <> Err e) -> waits m.
Proof. intros Hm He t. destruct (Hm t) as (l & E & ->). exists []. split_and!; [done|done|]. by intros e ?%He. Qed.

Lemma waits_turn {A} (p : Poll (W := T) A) st : waits (p_try p) -> waits (turn p st).
Proof.
  intros Hp. destruct st as [|d|a]; cbn [turn].
  - apply waits_of_silent; [silent|done].
  - apply waits_bind; [apply waits_of_silent; [silent|done]|]. intros tm. destruct (tm <? d); [|apply waits_ret].
    apply waits_bind; [done|]. intros [a|]; [apply waits_ret|].
    apply waits_bind; [apply waits_of_silent; [silent|done]|intros; apply waits_ret].
  - apply waits_ret.
Qed.
Lemma waits_poll {A} fuel (p : Poll (W := T) A) st : waits (p_try p) -> waits (run_poll fuel p st).
Proof.
  intros Hp. revert st. induction fuel as [|fuel IH]; intros [|d|a]; cbn [run_poll]; try apply waits_ret.
  1-2: apply (makes_weaken _ _ _ (makes_fail still_running)); naive_solver.
  all: apply waits_bind; [by apply waits_turn|apply IH].
Qed.
Lemma waits_join {A} fuel (ps : list (Poll (W := T) A)) sched i sts :
  Forall (fun p => waits (p_try p)) ps -> waits (join_thread fuel ps sched i sts).
Proof.
  intros Hps. rewrite Forall_lookup in Hps. unfold join_thread. apply waits_bind.
  - revert sts. induction sched as [|j sched IH]; intros sts; cbn [take_turns]; [apply waits_ret|].
    destruct (ps !! j) as [p|] eqn:E; [|apply IH]. destruct (sts !! j) as [st|]; [|apply IH].
    apply waits_bind; [apply waits_turn; by eapply Hps|intros; apply IH].
  - intros sts'. destruct (ps !! i) as [p|] eqn:E; [|apply waits_ret]. destruct (sts' !! i); [|apply waits_ret].
    apply waits_bind; [apply waits_poll; by eapply Hps|intros; apply waits_ret].
Qed.

(** Waiting for the servers: when one is never ready, all are deleted. *)
Lemma makes_join_ready fuel sched (cleanup : Io T unit) C ps idx sts :
  Forall (fun p => waits (p_try p)) ps -> makes cleanup (fun r l => r = Ok () /\ l.*1 = C) ->
  makes (join_ready fuel sched cleanup ps idx sts)
    (fun r l => match r with Ok _ => l = [] | Err e => e = still_running \/ l.*1 = C end).
Proof.
  intros Hps Hc. revert sts. induction idx as [|i idx IH]; intros sts; cbn [join_ready].
  - apply (makes_weaken _ _ _ (makes_ret ())). by intros r l [-> ->].
  - eapply makes_bind with (R := fun _ r l => match r with Ok _ => l = [] | Err e => e = still_running \/ l.*1 = C end);
      [by apply waits_join| |naive_solver|naive_solver].
    intros [[[u|e]|] sts']; [apply IH| |apply IH].
    eapply makes_bind; [apply Hc|intros; apply makes_fail|naive_solver|].
    cbn. intros a r l1 l2 [_ E] [-> ->]. right. by rewrite (right_id_L [] (++)).
Qed.
Lemma waits_join_cloud_init fuel sched (ps : list (Poll (W := T) unit)) idx sts :
  Forall (fun p => waits (p_try p)) ps -> waits (join_cloud_init fuel sched ps idx sts).
Proof.
  intros Hps. revert sts. induction idx as [|i idx IH]; intros sts; cbn [join_cloud_init]; [apply waits_ret|].
  apply waits_bind; [by apply waits_join|]. intros [? ?]. apply IH.
Qed.

Lemma makes_find_key fuel c target page :
  makes (find_key_from (W := T) from_str debug_code fuel c target page) (fun _ l => Forall (is_lookup c) l).
Proof.
  revert page. induction fuel as [|fuel IH]; intros page; cbn [find_key_from].
  - apply (makes_weaken _ _ _ (makes_fail still_running)). by intros r l [_ ->].
  - unfold try_bind. eapply makes_bind with (P := fun _ l => Forall (is_lookup c) l) (R := fun _ _ l => Forall (is_lookup c) l);
      [| |done|intros; by apply Forall_app].
    + apply (makes_weaken _ _ _ (makes_curl c "GET" (keys_page page) None)).
      intros r l (ans & _ & ->). constructor; [by eexists|constructor].
    + intros [resp|e].
      * destruct (matching_key _ _) as [id|]; [apply (makes_weaken _ _ _ (makes_ret _)); by intros r l [_ ->]|].
        destruct (_ || _); [apply (makes_weaken _ _ _ (makes_ret _)); by intros r l [_ ->]|apply IH].
      * apply (makes_weaken _ _ _ (makes_ret _)). by intros r l [_ ->].
Qed.

Lemma named_key_read (e : Call) : named_key e =
  match rbind (read_answer from_str debug_code "POST" "/ssh_keys" e.2) (uploaded_id to_string) with Ok id => Some id | Err _ => None end.
Proof.
  unfold named_key, answered. destruct (read_answer _ _ _ _ e.2) as [resp|]; [cbn|done]. unfold uploaded_id. by destruct (as_u64 _).
Qed.

(** The key: looked up, and uploaded at most once. *)
Lemma makes_acquire fuel c pubkey key_name :
  makes (acquire_key (W := T) from_str to_string debug_code fuel c pubkey key_name)
    (fun r l => exists gets keys, l = gets ++ keys /\ Forall (is_lookup c) gets /\ Forall (is_upload c) keys /\
       (length keys <= 1)%nat /\
       match r with Ok (id, own) => omap named_key keys = owned own id | Err _ => omap named_key keys = [] end).
Proof.
  unfold acquire_key, or_panic. apply makes_bind with (P := fun _ l => Forall (is_lookup c) l) (R := fun a r l =>
    match a with
    | Some id => r = Ok (id, false) /\ l = []
    | None => exists en, l = [en] /\ is_upload c en /\
              match r with Ok (id, own) => own = true /\ named_key en = Some id | Err _ => named_key en = None end
    end).
  - apply (makes_weaken _ _ _ (makes_or_panic _ _ _ (makes_find_key fuel c _ 1))). intros [a|e] l; [done|]. naive_solver.
  - intros [id|].
    + apply makes_ret.
    + apply makes_bind with (P := fun r l => exists e, l = [e] /\ is_upload c e /\
        match r with Ok id => named_key e = Some id | Err _ => named_key e = None end)
        (R := fun id r l => r = Ok (id, true) /\ l = []).
      * apply (makes_weaken _ _ _ (makes_or_panic _ _ _ (makes_call c "POST" "/ssh_keys" _ _))).
        assert (forall ans, is_upload c (curl_args c "POST" "/ssh_keys" (Some (key_body to_string c pubkey key_name)), ans)) as Hu
          by by eexists.
        intros [id|e] l; [intros (ans & [= E] & ->)|intros [(e' & ans & [= E] & ->)|(e' & ans & [=] & _)]];
          (eexists; split_and!; [done|done|]); rewrite named_key_read; cbn; by rewrite <- E.
      * intros id. apply makes_ret.
      * cbn. intros e l (en & -> & Hu & Hm). by exists en.
      * cbn. intros id r l1 l2 (en & -> & Hu & Hm) [-> ->]. by exists en.
  - cbn. intros e l H. exists l, []. rewrite (right_id_L [] (++)). split_and!; [done|done|constructor|cbn; lia|done].
  - cbn. intros [id|] r l1 l2 H1 H2.
    + destruct H2 as [-> ->]. exists l1, []. split_and!; [done|done|constructor|cbn; lia|done].
    + destruct H2 as (en & -> & Hu & Hm). exists l1, [en]. split_and!; [done|done|by constructor|cbn; lia|].
      destruct r as [[id own]|]; cbn; [destruct Hm as [-> ->]|rewrite Hm]; done.
Qed.

(** The calls of a run so far: lookups, at most one upload, creations; then
    those of the clean-up. *)
Definition run_shape c l (keys posts dels : list Call) : Prop :=
  exists gets, l = gets ++ keys ++ posts ++ dels /\ Forall (is_lookup c) gets /\ Forall (is_upload c) keys /\
    (length keys <= 1)%nat /\ Forall (is_create c) posts.
Definition torn_down c (keys posts dels : list Call) : Prop :=
  exists ids, told posts ids /\ dels.*1 = teardown c ids (omap named_key keys).

Lemma shape_nothing c : run_shape c [] [] [] [].
Proof. exists []. by split_and!; try constructor. Qed.

Lemma silent_must_env k : silent (must_env (W := T) k).
Proof. unfold must_env. silent. Qed.
Lemma silent_dotenv dir : silent (load_dotenv (W := T) dir).
Proof. unfold load_dotenv, dotenv_assign. silent. Qed.
Lemma silent_from_env dir : silent (from_env (W := T) dir).
Proof. unfold from_env. apply silent_bind; [apply silent_dotenv|intros]. repeat (apply silent_bind; [apply silent_must_env|intros]). silent. Qed.
Lemma silent_derive path : silent (or_panic ("derive pubkey from " +:+ path) (derive_pubkey (W := T) debug_code path)).
Proof. unfold or_panic, derive_pubkey, spawn, try_bind. silent. Qed.

(** What a run that made these calls has returned: a cluster that stands for what
    was made, or nothing, after the clean-up. *)
Definition provisioned (r : result EphemeralCluster Error) l : Prop :=
  match r with
  | Ok ec => exists keys posts, run_shape (ec_client ec) l keys posts [] /\
               sv_id <$> ec_servers ec = omap named_server posts /\
               owned (ec_key_owned ec) (ec_key_id ec) = omap named_key keys
  | Err e => e = still_running \/ exists c keys posts dels, run_shape c l keys posts dels /\ torn_down c keys posts dels
  end.

Lemma provisioned_nothing e : provisioned (Err e) [].
Proof. right. exists (mkClient "" ""), [], [], []. split; [apply shape_nothing|]. exists []. by split; [left|]. Qed.

Lemma ready_waits ssh_key (servers : list Server) : Forall (fun p => waits (p_try p))
  ((fun s => ssh_ready (W := T) (sv_ipv4 s) ssh_key (from_secs 180)) <$> servers).
Proof.
  apply Forall_fmap, Forall_true. intros s. apply waits_of_silent; [cbn; silent|].
  intros t e. cbn. unfold io_bind, attempt. cbn. by destruct (output _ (t_world t)).
Qed.
Lemma cloud_init_waits ssh_key (servers : list Server) : Forall (fun p => waits (p_try p))
  ((fun s => cloud_init_done (W := T) ssh_key (sv_ipv4 s) (from_secs 300)) <$> servers).
Proof.
  apply Forall_fmap, Forall_true. intros s. apply waits_of_silent; [cbn; silent|].
  intros t e. cbn. unfold io_bind, attempt. cbn. by destruct (output _ (t_world t)).
Qed.

(** From the servers on. *)
Lemma makes_wait fuel sched_ready sched_init c key_id key_owned ssh_key servers :
  makes (let threads := seq 0 (length servers) in
         join_ready fuel sched_ready (best_effort_cleanup (W := T) from_str debug_code c key_id key_owned servers)
           ((fun s => ssh_ready (sv_ipv4 s) ssh_key (from_secs 180)) <$> servers) threads ((fun _ => Start) <$> servers);;
         join_cloud_init fuel sched_init
           ((fun s => cloud_init_done ssh_key (sv_ipv4 s) (from_secs 300)) <$> servers) threads ((fun _ => Start) <$> servers);;
         io_ret (mkCluster c key_id key_owned servers ssh_key))
    (fun r l => match r with
       | Ok ec => l = [] /\ ec = mkCluster c key_id key_owned servers ssh_key
       | Err e => e = still_running \/ l.*1 = teardown c (sv_id <$> servers) (owned key_owned key_id)
       end).
Proof.
  cbn zeta. eapply makes_bind with (R := fun _ r l => l = [] /\ match r with
    | Ok ec => ec = mkCluster c key_id key_owned servers ssh_key | Err e => e = still_running end).
  - apply makes_join_ready; [apply ready_waits|apply makes_cleanup].
  - intros _. apply (makes_bind _ _ _ (fun _ r l => l = [] /\ r = Ok (mkCluster c key_id key_owned servers ssh_key)) _
      (waits_join_cloud_init fuel sched_init _ _ _ (cloud_init_waits ssh_key servers))).
    + intros _. apply (makes_weaken _ _ _ (makes_ret _)). naive_solver.
    + intros e l [-> He]. split; [done|by apply He].
    + by intros _ r ? ? [-> _] [-> ->].
  - done.
  - cbn. intros _ r ? l2 -> [-> Hr]. destruct r as [ec|e]; [done|by left].
Qed.

(** What happens once there is a key. *)
Definition created c (key_id : Z) (key_owned : bool) (r : result EphemeralCluster Error) l : Prop :=
  match r with
  | Ok ec => Forall (is_create c) l /\ ec_client ec = c /\ sv_id <$> ec_servers ec = omap named_server l /\
             ec_key_owned ec = key_owned /\ ec_key_id ec = key_id
  | Err e => e = still_running \/ exists posts dels, l = posts ++ dels /\ Forall (is_create c) posts /\
             exists ids, told posts ids /\ dels.*1 = teardown c ids (owned key_owned key_id)
  end.

Lemma makes_provision fuel sched_ready sched_init dir count prefix :
  makes (provision (W := T) from_str to_string debug_code fuel sched_ready sched_init dir count prefix) provisioned.
Proof.
  unfold provision. destruct (count =? 0)%nat.
  { apply (makes_weaken _ _ _ (makes_fail _)). intros r l [-> ->]. apply provisioned_nothing. }
  apply makes_silent_bind; [apply silent_must_env| |apply provisioned_nothing]. intros ssh_key.
  apply makes_silent_bind; [apply silent_derive| |apply provisioned_nothing]. intros pubkey.
  apply makes_silent_bind; [apply silent_from_env| |apply provisioned_nothing]. intros c.
  do 3 (apply makes_silent_bind; [apply silent_reads| |apply provisioned_nothing]; intros ?).
  apply makes_silent_bind; [apply silent_reads| |apply provisioned_nothing]. intros nanos.
  destruct (nanos <? 0).
  { apply (makes_weaken _ _ _ (makes_fail _)). intros r l [-> ->]. apply provisioned_nothing. }
  apply (makes_bind _ _ _ (fun k r l => created c k.1 k.2 r l) _ (makes_acquire fuel c _ _)).
  - intros [key_id key_owned].
    apply (makes_bind _ _ _ (fun servers r l => match r with
       | Ok ec => l = [] /\ ec = mkCluster c key_id key_owned servers ssh_key
       | Err e => e = still_running \/ l.*1 = teardown c (sv_id <$> servers) (owned key_owned key_id)
       end) _ (makes_create c key_id key_owned _ _ _ _ _ [])).
    + intros servers. apply makes_wait.
    + intros e l (posts & dels & -> & Hp & ids & Hi & Hd). right. exists posts, dels. eauto.
    + intros servers r l1 l2 (posts & dels & -> & Hp & -> & Hs) Hr. cbn in Hs. destruct r as [ec|e].
      * destruct Hr as [-> ->]. cbn. by rewrite !(right_id_L [] (++)).
      * destruct Hr as [->|Hr]; [by left|]. right. exists posts, l2. rewrite (right_id_L [] (++)). split_and!; [done|done|].
        exists (sv_id <$> servers). split; [by left|done].
  - intros e l (gets & keys & -> & Hg & Hk & Hl & Hm). right. exists c, keys, [], [].
    unfold torn_down. rewrite Hm. split; [exists gets; by rewrite !(right_id_L [] (++))|]. exists []. by split; [left|].
  - intros [key_id key_owned] r l1 l2 (gets & keys & -> & Hg & Hk & Hl & Hm) Hr. cbn in Hr. destruct r as [ec|e].
    + destruct Hr as (Hp & <- & Hs & <- & <-). exists keys, l2. split_and!; [|done|done].
      exists gets. by rewrite (right_id_L [] (++)), (assoc_L (++)).
    + destruct Hr as [->|(posts & dels & -> & Hp & Hd)]; [by left|]. right. exists c, keys, posts, dels.
      unfold torn_down. rewrite Hm. split; [|done]. exists gets. by rewrite <- (assoc_L (++)).
Qed.

Lemma makes_drop (ec : EphemeralCluster) (t : T) :
  exists l, api (drop_cluster (W := T) from_str debug_code ec t).2 = api t ++ l /\
    (l.*1 = teardown (ec_client ec) (sv_id <$> ec_servers ec) (owned (ec_key_owned ec) (ec_key_id ec)) \/
     l = [] /\ env_var "E2E_KEEP_VMS" (drop_cluster (W := T) from_str debug_code ec t).2 = Some "1").
Proof.
  change (drop_cluster from_str debug_code ec t) with
    ((if decide (env_var "E2E_KEEP_VMS" t = Some "1") then io_ret () else
      io_each (fun s => delete_server from_str debug_code (ec_client ec) (sv_id s);; io_ret ()) (ec_servers ec);;
      if ec_key_owned ec then
        does (sleep (from_secs 2));; delete_key from_str debug_code (ec_client ec) (ec_key_id ec);; io_ret ()
      else io_ret ()) t).
  destruct (decide (env_var "E2E_KEEP_VMS" t = Some "1")) as [K|K].
  - exists []. rewrite (right_id_L [] (++)). split; [done|by right].
  - destruct (makes_teardown (ec_client ec) (ec_key_id ec) (ec_key_owned ec) (ec_servers ec) (does (sleep (from_secs 2)))
      ltac:(intros t'; exists []; by rewrite (right_id_L [] (++))) t) as (l & E & _ & Hl). exists l. split; [done|by left].
Qed.

Lemma silent_then_drop {A} (test : Io T A) (ec : EphemeralCluster) (t : T) : silent test ->
  let run := hold_cluster (W := T) from_str debug_code ec test t in
  run.1 = Err still_running \/
  exists dels, api run.2 = api t ++ dels /\
    (dels.*1 = teardown (ec_client ec) (sv_id <$> ec_servers ec) (owned (ec_key_owned ec) (ec_key_id ec)) \/
     dels = [] /\ env_var "E2E_KEEP_VMS" run.2 = Some "1").
Proof.
  intros Ht. cbn zeta. destruct (Ht t) as (l & E & ->). rewrite (right_id_L [] (++)) in E.
  assert (hold_cluster from_str debug_code ec test t = end_scope from_str debug_code ec (test t).1 (test t).2) as ->
    by (unfold hold_cluster, io_bind, attempt; by destruct (test t)).
  destruct (test t) as [r t1]. cbn in E |- *.
  assert (r = Err still_running \/ end_scope (W := T) from_str debug_code ec r = (drop_cluster from_str debug_code ec;; io_lift r))
    as Hr by (destruct r as [a|[|]]; [by right|by left|by right]).
  destruct Hr as [->| ->]; [by left|]. right.
  destruct (makes_drop ec t1) as (dels & Ed & Hd). exists dels. unfold io_bind.
  destruct (drop_cluster _ _ ec t1) as [[[]|e] t2]; cbn in *; by rewrite Ed, E.
Qed.

(** C39. A suite with a cluster, whether it passes or panics, at whatever step, makes
    these calls to the cloud: lookups, at most one upload, creations, and then
    the deletion of every server that an answer named, in order, and of the key it
    uploaded, the key last.  At most one server is spared: the one named last, when
    its answer came without an IPv4 address.  Nothing else is deleted, so a key
    that was there before stays.  Only a setting keeps the servers.  (A deletion is
    asked for; whether the cloud carries it out is not looked at.) *)
Theorem cluster_is_torn_down {A} fuel sched_ready sched_init dir count prefix (test : EphemeralCluster -> Io T A) (t : T) :
  (forall ec, silent (test ec)) ->
  let run := with_cluster (W := T) from_str to_string debug_code fuel sched_ready sched_init dir count prefix test t in
  run.1 <> Err still_running ->
  exists c l keys posts dels, api run.2 = api t ++ l /\ run_shape c l keys posts dels /\
    (torn_down c keys posts dels \/ dels = [] /\ env_var "E2E_KEEP_VMS" run.2 = Some "1").
Proof.
  intros Ht. cbn zeta. unfold with_cluster.
  destruct (makes_provision fuel sched_ready sched_init dir count prefix t) as (l & E & Hl).
  unfold io_bind.
  destruct (provision _ _ _ _ _ _ _ _ _ t) as [[ec|e] t1]; cbn in E, Hl |- *.
  - destruct Hl as (keys & posts & Hsh & Hs & Hk). destruct (silent_then_drop (test ec) ec t1 (Ht ec)) as [X|(dels & Ed & Hd)]; [done|].
    intros _. exists (ec_client ec), (l ++ dels), keys, posts, dels. split; [by rewrite Ed, E, (assoc_L (++))|].
    split; [|destruct Hd as [Hd|Hd]; [left; exists (omap named_server posts); rewrite <- Hs, <- Hk; split; [by left|done]|by right]].
    destruct Hsh as (gets & -> & Hrest). exists gets.
    by rewrite (right_id_L [] (++)), <- !(assoc_L (++)).
  - intros He. destruct Hl as [->|(c & keys & posts & dels & Hsh & Hd)]; [done|]. exists c, l, keys, posts, dels. eauto.
Qed.

(** *** The sweeper *)

(** The ids a listing names, as the sweeper reads them. *)
Definition listed_ids (items : list json) : list Z :=
  filter (fun id => id <> 0) ((fun j => default 0 (as_u64 (json_at "id" j))) <$> items).

Lemma listed_ids_cons j items :
  let id := default 0 (as_u64 (json_at "id" j)) in listed_ids (j :: items) = (if id =? 0 then [] else [id]) ++ listed_ids items.
Proof.
  cbn zeta. unfold listed_ids. rewrite fmap_cons, filter_cons. destruct (Z.eqb_spec (default 0 (as_u64 (json_at "id" j))) 0).
  - by rewrite decide_False by tauto.
  - by rewrite decide_True.
Qed.

Lemma makes_sweep (del : Z -> Io T (result unit string)) (call : Z -> list string) items :
  (forall id, makes (del id;; io_ret ()) (fun r l => r = Ok () /\ l.*1 = [call id])) ->
  makes (io_each (sweep_one del) items) (fun r l => r = Ok () /\ l.*1 = call <$> listed_ids items).
Proof.
  intros Hd. induction items as [|j items IH]; cbn [io_each].
  - apply (makes_weaken _ _ _ (makes_ret ())). by intros r l [-> ->].
  - rewrite listed_ids_cons, fmap_app. set (id := default 0 (as_u64 (json_at "id" j))).
    apply makes_bind with (P := fun r l => r = Ok () /\ l.*1 = call <$> (if id =? 0 then [] else [id]))
      (R := fun _ r l => r = Ok () /\ l.*1 = call <$> listed_ids items); [|intros _; apply IH|naive_solver|].
    + unfold sweep_one. fold id. destruct (id =? 0); [|apply Hd].
      apply (makes_weaken _ _ _ (makes_ret ())). by intros r l [-> ->].
    + cbn. intros _ r l1 l2 [_ E1] [-> E2]. by rewrite fmap_app, E1, E2.
Qed.

Definition list_call c (resource : string) : list string :=
  curl_args c "GET" ("/" +:+ resource +:+ "?label_selector=coolify-e2e%3D1") None.
Definition listed (resource : string) (e : Call) : result (list json) string :=
  rbind (read_answer from_str debug_code "GET" ("/" +:+ resource +:+ "?label_selector=coolify-e2e%3D1") e.2)
    (fun resp => Ok (array_or_empty (json_at resource resp))).

Lemma makes_listed debug_str what c resource :
  makes (expect debug_str what (list_labeled (W := T) from_str debug_code c resource))
    (fun r l => exists e, l = [e] /\ e.1 = list_call c resource /\
       forall items, r = Ok items -> listed resource e = Ok items).
Proof.
  unfold expect. apply (makes_bind _ _ _ (fun a r l => (forall x, r = Ok x -> a = Ok x) /\ l = []) _
    (makes_call c "GET" ("/" +:+ resource +:+ "?label_selector=coolify-e2e%3D1") None _)).
  - intros [a|e]; [apply (makes_weaken _ _ _ (makes_ret a))|apply (makes_weaken _ _ _ (makes_fail _))];
      intros r l [-> ->]; naive_solver.
  - naive_solver.
  - intros a r ? l2 (ans & [= ->] & ->) [Hr ->]. eexists. split_and!; [done|done|]. intros items ->. by apply Hr.
Qed.

(** The sweeper asks twice, once for servers and once for keys, and deletes what
    the two answers name: servers first, nothing that is not listed, everything
    that is.  It reads one page of each listing. *)
Theorem sweeper_deletes_what_is_listed debug_str dir (t t' : T) :
  env_var "CONFIRM_SWEEP" t = Some "1" ->
  cleanup_leaked_hetzner (W := T) from_str debug_code debug_str dir t = (Ok (), t') ->
  exists c e1 d1 servers e2 d2 keys, api t' = api t ++ e1 :: d1 ++ e2 :: d2 /\
    e1.1 = list_call c "servers" /\ listed "servers" e1 = Ok servers /\ d1.*1 = delete_server_call c <$> listed_ids servers /\
    e2.1 = list_call c "ssh_keys" /\ listed "ssh_keys" e2 = Ok keys /\ d2.*1 = delete_key_call c <$> listed_ids keys.
Proof.
  intros Hc H. unfold cleanup_leaked_hetzner in H. io_inv H. injection Hs as <- <-. rewrite decide_True in H by done.
  apply io_bind_Ok in H as (c & t1 & H1 & H). apply io_bind_Ok in H as (servers & t2 & H2 & H).
  apply io_bind_Ok in H as (u1 & t3 & H3 & H). apply io_bind_Ok in H as (u2 & t4 & H4 & H).
  apply io_bind_Ok in H as (keys & t5 & H5 & H6).
  destruct (silent_from_env dir t) as (l1 & E1 & ->). rewrite H1, (right_id_L [] (++)) in E1.
  destruct (makes_listed debug_str "list servers" c "servers" t1) as (l2 & E2 & e1 & -> & He1 & HL1). rewrite H2 in E2, HL1.
  destruct (makes_sweep _ _ servers (makes_delete_server c) t2) as (d1 & E3 & _ & Hd1). rewrite H3 in E3.
  destruct (silent_sleep (from_secs 3) t3) as (l4 & E4 & ->). rewrite H4, (right_id_L [] (++)) in E4.
  destruct (makes_listed debug_str "list ssh_keys" c "ssh_keys" t4) as (l5 & E5 & e2 & -> & He2 & HL2). rewrite H5 in E5, HL2.
  destruct (makes_sweep _ _ keys (makes_delete_key c) t5) as (d2 & E6 & _ & Hd2). rewrite H6 in E6. cbn in *.
  exists c, e1, d1, servers, e2, d2, keys. split_and!; [|done|by apply HL1|done|done|by apply HL2|done].
  rewrite E6, E5, E4, E3, E2, E1, <- !(assoc_L (++)). done.
Qed.

(** Without the confirmation it does nothing. *)
Lemma sweeper_needs_confirmation debug_str dir (t : T) : env_var "CONFIRM_SWEEP" t <> Some "1" ->
  cleanup_leaked_hetzner (W := T) from_str debug_code debug_str dir t = (Ok (), t).
Proof. intros H. unfold cleanup_leaked_hetzner, io_bind, reads. by rewrite decide_False. Qed.
End Calls.

(* ------------------------------------------------------------------ *)
(** ** Finding the key *)

Section Find.
Context (from_str : string -> result json string) (to_string : json -> string) (debug_code : Output -> string).
Context {W : Type} `{HW : !Host W}.
Implicit Types (c : HetznerClient).

Lemma curl_returns c method path body (w : W) :
  exists r w', curl from_str debug_code c method path body w = (Ok r, w').
Proof. unfold curl, io_bind, attempt. destruct (output _ w) as [r w']. cbn. eauto. Qed.

(** The pages of a listing are read to an end: the number of a page has 32 bits,
    and the last page is not passed, whatever the cloud answers. *)
Theorem find_key_returns fuel c target page (w : W) :
  0 <= page <= 4294967295 -> 4294967296 <= page + Z.of_nat fuel ->
  exists r w', find_key_from from_str debug_code fuel c target page w = (Ok r, w').
Proof.
  revert page w. induction fuel as [|fuel IH]; intros page w Hp Hf; [lia|]. cbn [find_key_from]. unfold try_bind, io_bind.
  destruct (curl_returns c "GET" (keys_page page) None w) as (r & w' & ->). destruct r as [resp|e]; [|cbn; eauto].
  destruct (matching_key _ _); [cbn; eauto|]. destruct (Z.leb_spec (last_page resp) page) as [|Hl]; [cbn; eauto|].
  destruct (bool_decide _); [cbn; eauto|]. cbn [orb]. apply IH; [|lia].
  pose proof (Z.mod_pos_bound (default 1 (as_u64 (json_at "last_page" (json_at "pagination" (json_at "meta" resp))))) 4294967296).
  unfold last_page in Hl. lia.
Qed.

Definition page_items (resp : json) : list json := array_or_empty (json_at "ssh_keys" resp).

Lemma matching_key_app target l1 l2 :
  matching_key target (l1 ++ l2) = match matching_key target l1 with Some id => Some id | None => matching_key target l2 end.
Proof.
  induction l1 as [|k l1 IH]; [done|]. cbn. destruct (as_str _); [|done]. by destruct (decide _).
Qed.

Lemma find_key_pages fuel c target (pages : Z -> json) n page (w : W) :
  (forall p (w : W), page <= p <= page + Z.of_nat n ->
     exists w', curl from_str debug_code c "GET" (keys_page p) None w = (Ok (Ok (pages p)), w')) ->
  (forall p, page <= p <= page + Z.of_nat n -> last_page (pages p) = page + Z.of_nat n) ->
  (forall p, page <= p < page + Z.of_nat n -> page_items (pages p) <> []) ->
  (n < fuel)%nat ->
  exists w', find_key_from from_str debug_code fuel c target page w =
    (Ok (Ok (default None (matching_key target (seqZ page (Z.of_nat n + 1) ≫= fun p => page_items (pages p))))), w').
Proof.
  revert fuel page w. induction n as [|n IH]; intros fuel page w Hcurl Hlast Hitems Hf;
    (destruct fuel as [|fuel]; [lia|]); cbn [find_key_from]; unfold try_bind, io_bind;
    destruct (Hcurl page w ltac:(lia)) as (w1 & ->); fold (page_items (pages page)); rewrite (seqZ_cons page) by lia; cbn [mbind list_bind];
    rewrite matching_key_app; (destruct (matching_key target (page_items (pages page))) as [id|]; [by exists w1|]).
  - rewrite Hlast by lia. rewrite (proj2 (Z.leb_le _ _)) by lia. exists w1. by rewrite seqZ_nil by lia.
  - rewrite Hlast by lia. rewrite (proj2 (Z.leb_gt _ _)) by lia. rewrite bool_decide_false by (apply Hitems; lia).
    destruct (IH fuel (Z.succ page) w1) as (w' & E); [intros; apply Hcurl; lia| |intros; apply Hitems; lia|lia|].
    { intros p Hp. rewrite Hlast by lia. lia. }
    exists w'. cbn [orb]. replace (page + 1) with (Z.succ page) by lia. replace (Z.pred (Z.of_nat (S n) + 1)) with (Z.of_nat n + 1) by lia. by rewrite E.
Qed.

(** Over a listing that is served page by page, the search is a search of the
    whole: the first key whose algorithm and body are those of the one at hand,
    on whatever page it is, and nothing when there is none. *)
Theorem find_key_searches_all_pages fuel c pubkey (pages : Z -> json) n (w : W) :
  (forall p (w : W), 1 <= p <= 1 + Z.of_nat n ->
     exists w', curl from_str debug_code c "GET" (keys_page p) None w = (Ok (Ok (pages p)), w')) ->
  (forall p, 1 <= p <= 1 + Z.of_nat n -> last_page (pages p) = 1 + Z.of_nat n) ->
  (forall p, 1 <= p < 1 + Z.of_nat n -> page_items (pages p) <> []) ->
  (n < fuel)%nat ->
  exists w', find_key_by_pubkey from_str debug_code fuel c pubkey w =
    (Ok (Ok (default None (matching_key (normalize_pubkey pubkey)
                             (seqZ 1 (Z.of_nat n + 1) ≫= fun p => page_items (pages p))))), w').
Proof. apply find_key_pages. Qed.

(** What [curl] wrote after the body is the status, whatever the body is. *)
Theorem status_is_read method path show err body status : 0 <= status <= 65535 ->
  let text := body +:+ status_marker +:+ show_Z status in
  from_utf8_lossy text = text ->
  read_answer from_str debug_code method path (Ok (mkOut true show text err)) =
  if (200 <=? status) && (status <? 300) then
    if is_empty (trim body) then Ok JNull
    else map_err (fun e => "parse json " +:+ method +:+ " " +:+ path +:+ ": " +:+ e +:+ ": " +:+ trim body) (from_str (trim body))
  else Err ("hetzner " +:+ method +:+ " " +:+ path +:+ " status=" +:+ show_Z status +:+ " body=" +:+ trim body).
Proof.
  intros Hs. cbn zeta. intros Hu. unfold read_answer. cbn [o_success o_out]. rewrite Hu.
  pose proof (show_Z_chars status) as Hd. change status_marker with ("" +:+ String nl "HTTP_STATUS:").
  rewrite rsplit_once_str_last; [|done|done|by eapply all_chars_no_char; [|apply Hd]]. cbn [from_option id].
  rewrite (trim_neat (show_Z status)), parse_uint_show; [done|done|]. apply all_visible_neat.
  apply (all_chars_impl is_digit); [|done]. intros ch. unfold is_digit, visible. rewrite !andb_true_iff, !N.leb_le. lia.
Qed.
End Find.

(** A key is the same with and without a comment. *)
Lemma normalize_ignores_comment algo body comment :
  word algo -> word body ->
  normalize_pubkey (algo +:+ " " +:+ body +:+ " " +:+ comment) = algo +:+ " " +:+ body /\
  normalize_pubkey (algo +:+ " " +:+ body) = algo +:+ " " +:+ body.
Proof.
  intros Ha Hb. unfold normalize_pubkey. split.
  - change (" " +:+ comment) with (String " " comment). destruct (split_whitespace_two algo body (String " " comment) Ha Hb) as (r & ->); [right; by eexists|done].
  - destruct (split_whitespace_two algo body "" Ha Hb) as (r & E); [by left|]. rewrite string_app_nil_r in E. by rewrite E.
Qed.

(* ------------------------------------------------------------------ *)
(** ** A cloud in memory *)

Module Demo.
(** [x_bare] is the server that is created without an address. *)
Record Cloud := mkCloud {
  x_env : gmap string string;
  x_now : Z;
  x_next : Z;
  x_keys : list Z;
  x_servers : list Z;
  x_bare : Z;
}.
Notation World := (Sim.World Cloud).

(** An answer is the id of what was made, after a mark when it has no address. *)
Definition from_str (s : string) : result json string :=
  let answer n net := JObj [("ssh_key", JObj [("id", JNum n)]); ("server", JObj (("id", JNum n) :: net))] in
  match parse_uint 999 s, strip_prefix "?" s ≫= parse_uint 999 with
  | Some n, _ => Ok (answer n [("public_net", JObj [("ipv4", JObj [("ip", JStr "192.0.2.1")])])])
  | None, Some n => Ok (answer n [])
  | None, None => Ok (JObj [])
  end.
Definition to_string (j : json) : string := "{}".
Definition debug_code (o : Output) : string := "Some(1)".

Definition answer (body : string) : Output := mkOut true "exit status: 0" (body +:+ status_marker +:+ "200") "".
Definition post (url : string) (x : Cloud) : Output * Cloud :=
  let id := x_next x in
  if decide (url = API +:+ "/servers")
  then (answer ((if id =? x_bare x then "?" else "") +:+ show_Z id),
        mkCloud (x_env x) (x_now x) (id + 1) (x_keys x) (x_servers x ++ [id]) (x_bare x))
  else (answer (show_Z id), mkCloud (x_env x) (x_now x) (id + 1) (x_keys x ++ [id]) (x_servers x) (x_bare x)).
Definition gone (id : option Z) (l : list Z) : list Z := filter (fun i => Some i <> id) l.
Definition deletes (url : string) (x : Cloud) : Output * Cloud :=
  (answer "", mkCloud (x_env x) (x_now x) (x_next x)
     (gone (strip_prefix (API +:+ "/ssh_keys/") url ≫= parse_uint 999) (x_keys x))
     (gone (strip_prefix (API +:+ "/servers/") url ≫= parse_uint 999) (x_servers x)) (x_bare x)).
Definition step (argv : list string) (f : gmap string File) (x : Cloud) : Output * Cloud :=
  match argv with
  | "curl" :: _ :: _ :: method :: rest =>
      let url := default "" (last rest) in
      if decide (method = "POST") then post url x
      else if decide (method = "DELETE") then deletes url x
      else (answer "{}", x)
  | "ssh-keygen" :: _ => (mkOut true "exit status: 0" "ssh-ed25519 AAAA me" "", x)
  | _ => (mkOut true "exit status: 0" "status: done" "", x)
  end.
#[local] Instance H : Host World := Sim.host step (fun p => Some p).
Definition on_cloud (f : Cloud -> Cloud) (w : World) : World := Sim.mkWorld (Sim.w_files w) (Sim.w_log w) (f (Sim.w_ext w)).
#[local] Instance M : Machine World := {|
  env w := x_env (Sim.w_ext w);
  set_env k v := on_cloud (fun x => mkCloud (<[k := v]> (x_env x)) (x_now x) (x_next x) (x_keys x) (x_servers x) (x_bare x));
  now w := x_now (Sim.w_ext w);
  system_time w := 17;
  sleep d := on_cloud (fun x => mkCloud (x_env x) (x_now x + d) (x_next x) (x_keys x) (x_servers x) (x_bare x));
|}.

Definition settings : gmap string string :=
  {["SSH_KEY" := "/k"; "HETZNER_TOKEN" := "t"; "HETZNER_PROJECT" := "p"]}.
Definition cloud (bare : Z) : Traced World := mkTraced (Sim.mkWorld ∅ [] (mkCloud settings 0 5 [1; 2] [3] bare)) [].
Definition suite (bare : Z) := with_cluster (W := Traced World) from_str to_string debug_code 9 (fun _ => [0; 1]%nat) (fun _ => []) "/e2e" 2 "mesh"
  (fun ec => io_ret ()) (cloud bare).
Definition left (t : Traced World) : list Z * list Z :=
  let x := Sim.w_ext (t_world t) in (x_keys x, x_servers x).

Lemma suite_ok : (suite 0).1 = Ok ().
Proof. vm_refl. Qed.
Lemma suite_leaves : left (suite 0).2 = ([1; 2], [3]).
Proof. vm_refl. Qed.

(** A suite of two servers returns, and leaves the cloud as it found it. *)
Lemma cluster_is_torn_down_witness :
  (exists c l keys posts dels, api (suite 0).2 = api (cloud 0) ++ l /\ run_shape c l keys posts dels /\
     (torn_down from_str debug_code c keys posts dels \/
      dels = [] /\ env_var "E2E_KEEP_VMS" (suite 0).2 = Some "1")) /\
  left (suite 0).2 = ([1; 2], [3]).
Proof.
  split; [|exact suite_leaves].
  apply (cluster_is_torn_down from_str to_string debug_code 9 (fun _ => [0; 1]%nat) (fun _ => []) "/e2e" 2 "mesh"
    (fun ec => io_ret ()) (cloud 0)).
  - intros ec. apply silent_ret.
  - intros E. pose proof (eq_trans (eq_sym suite_ok) E) as X. discriminate X.
Defined.

(** A server that the cloud creates, but answers without an address for, is not
    deleted again: the suite panics, cleans up what it knows of, and leaves it. *)
Theorem server_without_address_leaks : is_ok (suite 7).1 = false /\ left (suite 7).2 = ([1; 2], [3; 7]).
Proof. split; vm_refl. Qed.

(** A setting in the file is not seen by the key's lookup, which comes before the
    file is read. *)
Definition only_in_file : Traced World :=
  mkTraced (Sim.mkWorld {["/e2e/.env" := mkFile ("SSH_KEY=/k" +:+ lf) 420]} []
    (mkCloud (delete "SSH_KEY" settings) 0 5 [] [] 0)) [].
Lemma key_path_of_file_unseen :
  (provision (W := Traced World) from_str to_string debug_code 9 (fun _ => []) (fun _ => []) "/e2e" 1 "mesh" only_in_file).1 =
    Err (anyhow "env SSH_KEY required") /\
  env_var "SSH_KEY" (load_dotenv (W := Traced World) "/e2e" only_in_file).2 = Some "/k".
Proof. split; vm_refl. Qed.

(** A listing of two pages, the key on the second. *)
Definition page (p : Z) : json :=
  JObj [("ssh_keys", JArr [JObj [("id", JNum (40 + p)); ("public_key", JStr ("ssh-ed25519 KEY" +:+ show_Z p))]]);
        ("meta", JObj [("pagination", JObj [("last_page", JNum 2)])])].
Definition read_page (s : string) : result json string :=
  match strip_prefix "page=" s ≫= parse_uint 999 with Some p => Ok (page p) | None => Err "bad" end.
Definition serve (argv : list string) (f : gmap string File) (x : unit) : Output * unit :=
  (answer ("page=" +:+ match rsplit_once "=" (default "" (last argv)) with Some (_, p) => p | None => "" end), x).
Definition w0 : Sim.World unit := Sim.mkWorld ∅ [] ().
Definition found (w : Sim.World unit) := @find_key_by_pubkey read_page debug_code (Sim.World unit) (Sim.host serve (fun p => Some p))
  9 (mkClient "t" "p") "ssh-ed25519 KEY2 me@home" w.
Lemma find_key_searches_all_pages_witness : exists w', found w0 = (Ok (Ok (Some 42)), w').
Proof.
  apply (@find_key_searches_all_pages read_page debug_code (Sim.World unit) (Sim.host serve (fun p => Some p))
    9 (mkClient "t" "p") "ssh-ed25519 KEY2 me@home" page 1 w0).
  - intros p w Hp. assert (p = 1 \/ p = 2) as [-> | ->] by lia; eexists; reflexivity.
  - intros p Hp. done.
  - intros p Hp. done.
  - lia.
Defined.

Lemma find_key_returns_witness :
  exists r w', @find_key_from read_page debug_code (Sim.World unit) (Sim.host serve (fun p => Some p))
    9 (mkClient "t" "p") "x" 4294967290 w0 = (Ok r, w').
Proof. apply find_key_returns; lia. Defined.

Lemma status_is_read_witness :
  read_answer from_str debug_code "GET" "/servers" (Ok (mkOut true "exit status: 0" ("[" +:+ status_marker +:+ "200" +:+ status_marker +:+ show_Z 429) "")) =
  Err ("hetzner GET /servers status=429 body=" +:+ trim ("[" +:+ status_marker +:+ "200")).
Proof.
  apply (status_is_read from_str debug_code "GET" "/servers" "exit status: 0" "" ("[" +:+ status_marker +:+ "200") 429); [lia|reflexivity].
Defined.
End Demo.
