(* ===== verification/Examples.v ===== *)
(** * The example programs

    [flux/examples/sign_jwt.rs], which makes a key pair and signs a token with
    it, and [examples/fake_flux.rs], a server that lists the containers of the
    first agent that connects.  The first is set against the checks of flux
    ([FluxServer.accept]), the second against what an agent may send. *)

From S2P Require Import Prelude RustStr Messages FluxRouting FluxAuth FluxConfig FluxServer Host Harness.
Local Open Scope Z_scope.

(* ------------------------------------------------------------------ *)
(** ** [sign_jwt] *)

Module SignJwt.
Record SignClaims := mkSignClaims {
  s_sub : string;
  s_aud : string;
  s_caps : list string;
  s_exp : Z;
  s_iat : Z;
}.

Definition default_capabilities : list string :=
  ["images.pull"; "images.list"; "images.delete"; "containers.create"; "containers.start"; "containers.stop";
   "containers.restart"; "containers.delete"; "containers.inspect"; "containers.list"; "containers.logs";
   "containers.exec"; "containers.healthcheck.run"; "ingress.apply"; "ingress.stop"; "firewall.allow";
   "firewall.revoke"; "firewall.list"; "firewall.reconcile"].

Definition requested_caps (args : list string) : list string :=
  match args !! 4%nat with
  | Some s => filter (fun c => is_empty c = false) (trim <$> split "," s)
  | None => default_capabilities
  end.

Definition claims_for (host_id : string) (caps : list string) (now : Z) : SignClaims :=
  mkSignClaims host_id "coold" caps (now + 3600) now.

Section Main.
(** [encode] is the JWT library's, with the reader of the private key. *)
Context {W : Type} `{!Host W} `{!Machine W} (encode : Header -> SignClaims -> string -> result string Error).
Local Open Scope rust_scope.

Definition openssl (args : list string) (what : string) : Io W unit :=
  let! o := output ("openssl" :: args) in
  if o_success o then io_ret () else io_fail (anyhow what).

(** The exit code, and the token that is printed. *)
Definition sign_main (args : list string) : Io W (Z * option string) :=
  match args with
  | _ :: host_id :: priv_path :: pub_path :: _ =>
      let caps := requested_caps args in
      openssl ["ecparam"; "-name"; "prime256v1"; "-genkey"; "-noout"; "-out"; priv_path] "openssl ecparam failed";;
      let pkcs8_path := priv_path +:+ ".pkcs8" in
      openssl ["pkcs8"; "-topk8"; "-nocrypt"; "-in"; priv_path; "-out"; pkcs8_path] "openssl pkcs8 failed";;
      openssl ["ec"; "-in"; priv_path; "-pubout"; "-out"; pub_path] "openssl ec pubout failed";;
      let! priv_pem := read_to_string pkcs8_path in
      let! nanos := reads system_time in
      if nanos <? 0 then io_fail (anyhow "second time provided was later than self") else
      let! jwt := io_lift (encode (mkHeader ES256 None) (claims_for host_id caps (nanos / 1000000000)) priv_pem) in
      io_ret (0, Some jwt)
  | _ => io_ret (2, None)
  end.
End Main.

(** What the token says to flux: it has neither an id nor a team. *)
Definition as_read (c : SignClaims) : FluxAuth.Claims := mkClaims (s_sub c) (s_caps c) (s_exp c) None None.

(** A signed token carries its header and its claims, and nothing else. *)
Class SignLaws (lib : JwtLib) (encode : Header -> SignClaims -> string -> result string Error) : Prop :=
  law_encode h c pem jwt : encode h c pem = Ok jwt ->
    decode_header jwt = Some h /\ forall c', carries jwt c' -> c' = as_read c.

Section Facts.
Context `{lib : JwtLib} {laws : JwtLaws lib} {W : Type} `{!Host W} `{!Machine W}
  (encode : Header -> SignClaims -> string -> result string Error) {sign : SignLaws lib encode}.

Lemma main_signs args (w w' : W) jwt : sign_main encode args w = (Ok (0, Some jwt), w') ->
  exists host_id now pem, args !! 1%nat = Some host_id /\
    encode (mkHeader ES256 None) (claims_for host_id (requested_caps args) now) pem = Ok jwt.
Proof.
  unfold sign_main. destruct args as [|a0 [|host [|priv [|pub args]]]]; try done. set (args' := a0 :: host :: priv :: pub :: args).
  intros H. io_inv H. destruct (r0 <? 0); [done|]. io_inv H. injection Hs4 as E _. exists host, (r0 / 1000000000), r. done.
Qed.

(** The token of the example, verified with its key, is for the host and the
    capabilities that were asked for; but a flux that requires a team, as it does
    unless it is told not to, refuses every stream opened with it. *)
Theorem example_token_is_refused args (w w' : W) jwt {R} `{RevocationCheck R} cfg clock now (rev : R) req :
  sign_main encode args w = (Ok (0, Some jwt), w') ->
  (forall keys max v, verify_jwt clock jwt keys rev now max = Ok v ->
     Some (vj_host_id v) = args !! 1%nat /\ vj_caps v = requested_caps args /\ vj_team_id v = None) /\
  (require_team_id cfg = true -> rq_authorization req = Some ("Bearer " +:+ jwt) ->
     accept cfg clock now rev req = Err (FluxServer.Unauthenticated "invalid credentials")).
Proof.
  intros (host & t & pem & Ha & He)%main_signs. destruct (law_encode _ _ _ _ He) as [_ Hc].
  assert (forall keys max v, verify_jwt clock jwt keys rev now max = Ok v ->
     Some (vj_host_id v) = args !! 1%nat /\ vj_caps v = requested_caps args /\ vj_team_id v = None) as Hv.
  { intros keys max v (h & p & key & kind & claims & _ & _ & _ & _ & Hd & _ & _ & ->)%verify_jwt_Ok.
    apply decode_carries in Hd. rewrite (Hc _ Hd). by rewrite Ha. }
  split; [done|]. intros Hreq Hb. unfold accept. rewrite Hb. cbn [mbind option_bind].
  rewrite (proj2 (strip_prefix_Some "Bearer " _ jwt) eq_refl). destruct (verify_jwt _ _ _ _ _ _) as [v|e] eqn:E; [|done].
  apply Hv in E as (_ & _ & E). by rewrite E, Hreq.
Qed.
End Facts.

(** What the default leaves out of the primitives of coold. *)
Theorem default_capabilities_miss payload :
  required_capability payload ∉ default_capabilities <->
  match payload with
  | CommandPayload.CooldLogs _ | CommandPayload.CorrosionTables _ | CommandPayload.HostJwtSet _ => True
  | _ => False
  end.
Proof.
  destruct payload; cbn [required_capability]; split; try done; try (intros H; apply H; apply (bool_decide_unpack _); vm_compute; exact I);
    intros _; apply (bool_decide_unpack _); vm_compute; exact I.
Qed.
End SignJwt.

(* ------------------------------------------------------------------ *)
(** ** [fake_flux] *)

Module FakeFlux.
Definition req_id : string := "r1".

Definition hello_line (h : Hello) : string :=
  "[fake_flux] Hello from host_mgmt_ip=" +:+ h_host_mgmt_ip h +:+ " coold_version=" +:+ h_coold_version h +:+ " schema="
  +:+ show_Z (h_schema_min h) +:+ "-" +:+ show_Z (h_schema_max h).

Section Stream.
(** [debug_strs] is Rust's [Debug] of a list of strings; an error of the stream
    is its text. *)
Context (debug_strs : list string -> string).

Definition container_line (c : ContainerSummary) : string :=
  "  id=" +:+ cs_id c +:+ " name=" +:+ cs_name c +:+ " image=" +:+ cs_image c +:+ " state=" +:+ cs_state c
  +:+ " networks=" +:+ debug_strs (cs_networks c).

Definition show_response (resp : Response) : list string :=
  "[fake_flux] ContainersListResp:" ::
  match r_body resp with
  | Some (Body.ContainersList cs) =>
      (container_line <$> cs) ++ ["[fake_flux] done — " +:+ show_Z (Z.of_nat (length cs)) +:+ " container(s) listed"]
  | Some (Body.Error code message) => ["[fake_flux] error from coold: " +:+ show_Z code +:+ " " +:+ message]
  | _ => []
  end.

Fixpoint await_response (inbound : list (result ClientMsg.t string)) : list string :=
  match inbound with
  | [] => []
  | Ok (ClientMsg.Response resp) :: rest =>
      if decide (r_request_id resp = req_id) then show_response resp else await_response rest
  | Ok _ :: rest => await_response rest
  | Err e :: _ => ["[fake_flux] stream error: " +:+ e]
  end.

(** What is sent to the agent, and what is printed. *)
Definition fake_stream (inbound : list (result ClientMsg.t string)) : list ServerMsg * list string :=
  match inbound with
  | [] => ([], ["[fake_flux] stream closed before Hello"])
  | Err e :: _ => ([], ["[fake_flux] stream error: " +:+ e])
  | Ok first :: rest =>
      ([mkServerMsg req_id (Some Cmd.ContainersList)],
       match first with ClientMsg.Hello h => [hello_line h] | _ => [] end ++ await_response rest)
  end.

(** Of an agent that greets and, among its other messages, answers the command
    that was sent, exactly that answer is shown; what it sends after it is not
    read. *)
Theorem fake_flux_shows_the_answer h before resp after :
  Forall (fun m => match m with Ok (ClientMsg.Response r) => r_request_id r <> req_id | Ok _ => True | Err _ => False end) before ->
  r_request_id resp = req_id ->
  fake_stream (Ok (ClientMsg.Hello h) :: before ++ Ok (ClientMsg.Response resp) :: after) =
  ([mkServerMsg req_id (Some Cmd.ContainersList)], hello_line h :: show_response resp).
Proof.
  intros Hb Hr. cbn. do 2 f_equal. induction Hb as [|m before Hm Hb IH]; cbn; [by rewrite decide_True|].
  destruct m as [[| r | | |]|]; try done. by rewrite decide_False.
Qed.
End Stream.
End FakeFlux.

(* ------------------------------------------------------------------ *)
(** ** A signer and a library that fit *)

Module Demo.
Import Harness.Demo.

Definition claims : SignJwt.SignClaims := SignJwt.claims_for "10.42.0.7" ["containers.list"] 5.
#[local] Instance lib : JwtLib := coold_lib (mkHeader ES256 None) (SignJwt.as_read claims).
#[local] Instance lib_laws : JwtLaws lib := toy_laws (mkHeader ES256 None) (SignJwt.as_read claims) _.
#[local] Instance header_dec : EqDecision Header.
Proof. solve_decision. Defined.
#[local] Instance claims_dec : EqDecision SignJwt.SignClaims.
Proof. solve_decision. Defined.
Definition encode (h : Header) (c : SignJwt.SignClaims) (pem : string) : result string Error :=
  if decide (h = mkHeader ES256 None /\ c = claims) then Ok "t" else Err (anyhow "another token").
#[local] Instance sign : SignJwt.SignLaws lib encode.
Proof. intros h c pem jwt. unfold encode. case_decide as E; [|done]. destruct E as [-> ->]. intros _. split; [done|]. by intros c' ->. Qed.

Definition w1 : World := Sim.mkWorld {["/p.pkcs8" := mkFile "key" 384]} [] (mkProcess ∅ 5000000000).
Definition args : list string := ["sign_jwt"; "10.42.0.7"; "/p"; "/q"; "containers.list, "].
Definition defaults : Config := mkConfig "" "" None 0 "" "ec-key" None ∅ true true false 0 "" None None "" 0 None None None None None None 0 0 0 0.
Definition request : StreamRequest := mkRequest (Some "Bearer t") None None.

(** The token verifies, and is refused. *)
Lemma example_token_is_refused_witness :
  verify_jwt 6 "t" (single "ec-key") mkNoRevocations 6 0 = Ok (mkVerifiedJwt "10.42.0.7" ["containers.list"] 3605 None) /\
  accept defaults 6 6 mkNoRevocations request = Err (FluxServer.Unauthenticated "invalid credentials").
Proof.
  split; [reflexivity|]. assert (SignJwt.sign_main encode args w1 = (Ok (0, Some "t"), (SignJwt.sign_main encode args w1).2)) as E
    by (apply run_eta; reflexivity).
  destruct (SignJwt.example_token_is_refused encode args w1 _ "t" defaults 6 6 mkNoRevocations request E) as [_ A].
  apply A; reflexivity.
Defined.
End Demo.
